(* ===== verification/_CoqProject ===== *)
-Q . S2P
Prelude.v
Locks.v
Memory.v
Layout.v
Types.v
SlotMessage.v
Event.v
EventRace.v
SlotZero.v
Slot.v
Service.v
State.v
SlotHandler.v
Completion.v
Instance.v
Registry.v
Queues.v
Overflow.v
Concurrency.v
CoreSteps.v
System.v
Stream.v
Transmit.v
Capacity.v
Receive.v
Boot.v
Connection.v
Readers.v
Delivery.v
Vchi.v
VchiOk.v
Conversation.v
VchiSystem.v
Ownership.v
TestProgram.v
StartUp.v
LegacyState.v
LegacyInstance.v
LegacyStateOk.v
LegacyInstanceOk.v
Scenario.v
TalkScenario.v
ReaderScenario.v
LegacyScenario.v
