(* ===== verification/Prelude.v ===== *)
(** * The VCHIQ interface of ruspiro-vchiq

    VCHIQ is how the ARM cores of a Raspberry Pi talk to the VideoCore: two halves of a shared memory,
    cut into slots of 4 KiB, to which each side appends messages for the other; an event to ring when
    something was written; services, on whose ports messages are sent; and two Rust layers on top, the
    VCHIQ instance and VCHI, with asynchronous operations for an application.  This library models the
    crate - everything the compiler sees of it but logging and the boot code of the test kernel - and
    proves what the parts do and what they do together.

    ** The program and its model

    - [src/types.rs], the errors, [src/vchiq/shared/*]: FourCC codes and errors in [Types]; the
      [repr(C)] structures, with sizes and offsets computed as Rust computes them, in [Layout]; message
      headers, ids and strides in [SlotMessage]; positions and messages in memory in [Slot]; events and
      doorbell in [Event]; the control block in [SlotZero].  The memory itself is bytes at addresses
      ([Memory]); volatile accesses are little-endian reads and writes.
    - [src/vchiq/service.rs]: records, states and quotas of services, in [Service].
    - [src/vchiq/state.rs]: the central state and its operations, in [State].  Services are shared
      references in the code, so here they live in a heap ([w_heap] of [World]) and the table refers to
      them.
    - [src/vchiq/slothandler.rs]: the task that consumes messages, in [SlotHandler].
    - [src/vchiq/instance/*]: the VCHIQ instance, its completion queue and message queues, in
      [Completion] and [Instance].  [UserData] is a shared box of any type: boxes live in a heap as well.
    - [src/vchi/*]: the map of services, the operations of [vchi::Instance] and the completion handler,
      in [Vchi].  Callbacks of the application run on the boxes ([AppCallbacks]).
    - [src/main.rs]: the test program and its callback, in [TestProgram]; what the cores do before it runs,
      in [StartUp].
    - [src/state copy.rs], [src/instance.rs] and [src/completionhandler.rs] are older versions that no
      [mod] declaration names any more.  They are modelled next to today's, in [LegacyState] and
      [LegacyInstance], to say what the rewriting changed.

    A function of the code is a definition of the same name, if need be prefixed with its type, in the
    monad [M]: it takes the world and
    returns, panics, blocks for good (a [Semaphore::down] without a permit) or runs out of fuel.  An
    [async fn] is a value of [Async], a tree of steps and of polls that may have to wait; [poll] is one
    poll of the executor, and [run_with] a run during which other things happen.  Machine integers are
    [Z] with their wrap-around written out; the crate is built with [--release], so arithmetic wraps
    silently.

    ** What is assumed

    Code that is not in the repository is a parameter, with what its documentation says as laws:
    semaphores, read-write locks and asynchronous mutexes of [ruspiro_lock] ([LockLib], [LockLaws],
    [RwLib], [RwLaws], [AMutexLib], [AMutexLaws], all in [Locks]), allocation, page mapping and the
    mailbox ([Platform], [PlatformLaws]: pages of 4 KiB and an allocation that succeeds; the code depends
    on both and checks neither), and the layout the compiler chooses for [OpenPayload]
    ([OpenPayloadRepr]).  Between components there are interfaces of
    the same kind: [CallbackHost] and [CallbackLaws] are what the slot handler needs of the callbacks,
    proved for those of [Instance]; [AppCallbacks] and [AppLaws] are what VCHI needs of those of an
    application, proved for that of [TestProgram].  [Locks] and [Scenario] have instances of all of them.
    The VideoCore is whatever writes to the memory: a theorem about an answer says which bytes.

    ** What is proved

    - The whole program.  [Concurrency] is a rely-guarantee logic for [Async] and the interleavings of
      futures with actions of the environment.  With it, [System] shows that the registry of services
      stays in order and services follow their life cycle ([registry_always_ok]), and [VchiSystem] that
      in any interleaving of VCHI programs, both tasks and the VideoCore, boxes keep their types and
      every lookup and downcast of user data succeeds ([vchi_always_ok], [vchi_lookups_succeed]).
      What both rest on, that the central state and the slot handler leave the component above them
      alone, is in [CoreSteps].  [Readers] is about the VCHIQ instance with any number of clients at once,
      and a history of what they got: the messages of a service and the completions are handed out
      once each, in the order in which they came ([readers_in_order], [completions_in_order]), and of
      several clients that wait for a message the one polled next is served ([waiting_reader_served]).
      [Ownership] is about the shared memory: as long as no message is longer than a slot, the program
      only ever writes behind the last message it sent and to two words of the control block, however
      its operations and the VideoCore are interleaved ([memory_discipline]).
      [TestProgram] follows the test of the repository from its first call to its result
      ([ping_test_completes]).
    - The event.  [EventRace]: the accesses of a side that waits and of one that signals, interleaved one
      by one; a signal is never lost ([event_no_lost_signal]).
    - Start-up.  [Boot] and [SlotZero]: what [State::new] and [Instance::new] leave in memory.
    - Sending.  [Transmit]: [reserve_space] is a bump allocator that never recycles a slot, and
      [queue_message] appends to the stream of messages the VideoCore reads ([Stream]).  [Capacity]:
      a series of DATA messages of one service goes out as far as its quota of slots reaches, and then
      its sender is blocked for good ([send_capacity]).
    - Receiving.  [Receive]: a round of the slot handler runs the handler of each message once, in
      order, and ends whatever the memory holds, unless a size leads past the published position.
      [Delivery] and [Queues]: a DATA message reaches the queue of its service and the queue is first-in
      first-out.  [Conversation] puts the rounds together: from slot to slot, however many messages and
      services there are, an application dequeues the payloads of each service in the order in which
      they were sent ([conversation_in_order]); and one that waits for them gets them
      ([reader_gets_all]).
    - Handshakes.  [Connection]: connecting, opening and closing from call to answer, refusals and
      errors included; [VchiOk] lifts them to [vchi::Instance].
    - Versions.  [LegacyStateOk] and [LegacyInstanceOk]: what the older versions did as today's do -
      sending, handling messages, the queues of the instance - and where they did not: closing, DATA,
      and a lock held while waiting.
    - Data.  Ids, strides, FourCC codes, stored messages and layouts: round trips and bounds.

    Some theorems say what goes wrong: slots run out, padding destroys a message, a sender over its
    quota blocks for good, a refused service looks open, the completion handler blocks behind a waiting
    client, full queues ([Overflow]) lose their order.  They are stated as the code behaves.
    [Scenario], [TalkScenario], [ReaderScenario] and [LegacyScenario] have states in which the hypotheses hold.

    ** Fuel and bounds

    Three loops of the code have no bound of their own and take fuel: that of the slot handler
    ([handle_messages]) and the two waits of [queue_message] ([wait_data_quota], [wait_service_quota]).  One
    unit for each message, or for each 8 bytes between the two positions, is enough for the first
    ([slot_handler_delivers], [slot_handler_terminates]); the waits need one more than the event has
    permits ([data_quota_blocks]), and none at all when nothing has to be waited for.  Positions are
    below 2^32 since a side has at most 64 slots of its own; the message queue of a service is followed
    for as long as its positions do not wrap, which takes 2^64 messages.

    ** Not modelled

    - Logging and [Debug] output, apart from that of FourCC; memory barriers, which order accesses that
      the model makes one after the other anyway; the interrupt handler, which only logs; the accessors
      of [SlotInfo], which nothing calls.
    - What the boot code of the test kernel calls (console, MMU, executor) is only recorded; [build.rs]
      copies a linker script.
    - Parallel cores: a poll of a future is one step, as on one core; the locks the code takes inside
      a poll are taken and released within it.
    - Bulk transfers have data structures in the code but no operations.

    This file is the prelude all others build on: outcomes, the state monad, asynchronous functions,
    machine integers, record update and the tactics of the development. *)

From stdpp Require Export prelude list strings.
From Stdlib Require Export ZArith Lia.

#[global] Open Scope Z_scope.

(** ** Outcomes of Rust code *)

(** Why a call panics.  The crate is built with [panic = "abort"] and its panic handler loops
    forever, so a panic ends the computation. *)
Inductive panic : Type :=
| PAssert        (* assert!(..) *)
| PUnwrap        (* unwrap() / expect() on None or Err, a failed downcast included *)
| PIndex         (* slice or array index out of range *)
| PTodo          (* todo!() *)
| PUnimplemented (* unimplemented!() *)
| PUnreachable   (* unreachable!() *)
| PEvent.        (* panic!("called wait on event not owned by ARM!") *)

(** What running a function does: it returns, panics, blocks for good in [Semaphore::down] as no
    permit is available, or - for the loops modelled with fuel - does not finish within the fuel. *)
Inductive outcome (A : Type) : Type :=
| Ret (a : A)
| Panic (p : panic)
| Blocked
| OutOfFuel.
Arguments Ret {_} _.
Arguments Panic {_} _.
Arguments Blocked {_}.
Arguments OutOfFuel {_}.

(** Rust's [Result<A, E>]. *)
Inductive Result (A E : Type) : Type :=
| Ok (a : A)
| Err (e : E).
Arguments Ok {_ _} _.
Arguments Err {_ _} _.

#[export] Instance panic_eq_dec : EqDecision panic.
Proof. solve_decision. Defined.
#[export] Instance outcome_eq_dec {A} `{EqDecision A} : EqDecision (outcome A).
Proof. solve_decision. Defined.
#[export] Instance Result_eq_dec {A E} `{EqDecision A, EqDecision E} : EqDecision (Result A E).
Proof. solve_decision. Defined.

(** ** The monad: a state and an outcome *)

Definition M (S A : Type) : Type := S -> outcome (A * S).

Definition ret {S A} (a : A) : M S A := fun s => Ret (a, s).

Definition bind {S A B} (m : M S A) (k : A -> M S B) : M S B :=
  fun s =>
    match m s with
    | Ret (a, s') => k a s'
    | Panic p => Panic p
    | Blocked => Blocked
    | OutOfFuel => OutOfFuel
    end.

(** The [?] operator: an [Err] is returned to the caller at once. *)
Definition bind_try {S A B E} (m : M S (Result A E)) (k : A -> M S (Result B E))
  : M S (Result B E) :=
  bind m (fun r => match r with Ok a => k a | Err e => ret (Err e) end).

Definition gets {S A} (f : S -> A) : M S A := fun s => Ret (f s, s).
Definition modify {S} (f : S -> S) : M S unit := fun s => Ret (tt, f s).
Definition lift {S A} (o : outcome A) : M S A :=
  fun s => match o with
           | Ret a => Ret (a, s)
           | Panic p => Panic p
           | Blocked => Blocked
           | OutOfFuel => OutOfFuel
           end.
Definition raise {S A} (p : panic) : M S A := fun _ => Panic p.
Definition block {S A} : M S A := fun _ => Blocked.

(** [unwrap] and [expect]: [None] panics. *)
Definition unwrap {S A} (o : option A) : M S A :=
  match o with Some a => ret a | None => raise PUnwrap end.

(** Indexing a [Vec]: out of range panics. *)
Definition index {S A} (l : list A) (i : Z) : M S A :=
  match l !! Z.to_nat i with
  | Some a => if decide (0 <= i) then ret a else raise PIndex
  | None => raise PIndex
  end.

Definition assert {S} (b : bool) : M S unit := if b then ret tt else raise PAssert.

Declare Scope rust_scope.
Delimit Scope rust_scope with rust.
Notation "'let*' x ':=' c1 'in' c2" := (bind c1 (fun x => c2))
  (at level 200, x pattern, c1 at level 100, c2 at level 200) : rust_scope.
Notation "'let?' x ':=' c1 'in' c2" := (bind_try c1 (fun x => c2))
  (at level 200, x pattern, c1 at level 100, c2 at level 200) : rust_scope.
Notation "c1 ;; c2" := (bind c1 (fun _ => c2))
  (at level 100, c2 at level 200, right associativity, only parsing) : rust_scope.
#[global] Open Scope rust_scope.

(** ** Reasoning about the monad *)

Lemma bind_ret_l {S A B} (a : A) (k : A -> M S B) s : bind (ret a) k s = k a s.
Proof. reflexivity. Qed.

Lemma bind_gets {S A B} (f : S -> A) (k : A -> M S B) s : bind (gets f) k s = k (f s) s.
Proof. reflexivity. Qed.

Lemma bind_modify {S B} (f : S -> S) (k : unit -> M S B) s : bind (modify f) k s = k tt (f s).
Proof. reflexivity. Qed.

Lemma bind_assoc {S A B C} (m : M S A) (k : A -> M S B) (h : B -> M S C) s :
  bind (bind m k) h s = bind m (fun a => bind (k a) h) s.
Proof. unfold bind. destruct (m s) as [[a s']| | |]; reflexivity. Qed.

Lemma bind_Ret {S A B} (m : M S A) (k : A -> M S B) s a s' :
  m s = Ret (a, s') -> bind m k s = k a s'.
Proof. unfold bind. by intros ->. Qed.

Lemma bind_try_Ok {S A B E} (m : M S (Result A E)) (k : A -> M S (Result B E)) s a s' :
  m s = Ret (Ok a, s') -> bind_try m k s = k a s'.
Proof. unfold bind_try, bind. by intros ->. Qed.

Lemma bind_try_Err {S A B E} (m : M S (Result A E)) (k : A -> M S (Result B E)) s e s' :
  m s = Ret (Err e, s') -> bind_try m k s = Ret (Err e, s').
Proof. unfold bind_try, bind. by intros ->. Qed.

Lemma bind_Ret_inv {S A B} (m : M S A) (k : A -> M S B) s b s'' :
  bind m k s = Ret (b, s'') -> exists a s', m s = Ret (a, s') /\ k a s' = Ret (b, s'').
Proof. unfold bind. destruct (m s) as [[a s']| | |]; naive_solver. Qed.

(** [wp m Q s]: started in [s], [m] returns, and result and final state satisfy [Q]. *)
Definition wp {S A} (m : M S A) (Q : A -> S -> Prop) (s : S) : Prop :=
  match m s with Ret (a, s') => Q a s' | _ => False end.

Lemma wp_bind {S A B} (m : M S A) (k : A -> M S B) Q s :
  wp m (fun a s' => wp (k a) Q s') s -> wp (bind m k) Q s.
Proof. unfold wp, bind. destruct (m s) as [[a s']| | |]; auto. Qed.

Lemma wp_mono {S A} (m : M S A) (P Q : A -> S -> Prop) s :
  wp m P s -> (forall a s', P a s' -> Q a s') -> wp m Q s.
Proof. unfold wp. destruct (m s) as [[a s']| | |]; auto. Qed.

Lemma wp_Ret {S A} (m : M S A) Q s : wp m Q s -> exists a s', m s = Ret (a, s') /\ Q a s'.
Proof. unfold wp. destruct (m s) as [[a s']| | |]; naive_solver. Qed.

(** [evolves R m]: whenever [m] returns, initial and final state are related by [R].  A call that
    panics or blocks has no final state.  For a preorder [R] this composes along [bind]. *)
Definition evolves {S A} (R : S -> S -> Prop) (m : M S A) : Prop :=
  forall s a s', m s = Ret (a, s') -> R s s'.

(** [preserves I m]: the invariant [I] still holds when [m] returns. *)
Definition keeps {S} (I : S -> Prop) (s s' : S) : Prop := I s -> I s'.
Definition preserves {S A} (I : S -> Prop) (m : M S A) : Prop := evolves (keeps I) m.

#[export] Instance keeps_preorder {S} (I : S -> Prop) : PreOrder (keeps I).
Proof. split; unfold keeps; [intros s | intros s1 s2 s3]; auto. Qed.

Section evolves.
Context {S : Type} (R : S -> S -> Prop) `{!PreOrder R}.

Lemma evolves_ret {A} (a : A) : evolves R (ret a).
Proof. by intros s ? ? [= <- <-]. Qed.

Lemma evolves_gets {A} (f : S -> A) : evolves R (gets f).
Proof. by intros s ? ? [= <- <-]. Qed.

Lemma evolves_modify (f : S -> S) : (forall s, R s (f s)) -> evolves R (modify f).
Proof. intros Hf s ? ? [= <- <-]. auto. Qed.

Lemma evolves_raise {A} p : evolves R (raise p : M S A).
Proof. by intros s ? ?. Qed.

Lemma evolves_block {A} : evolves R (block : M S A).
Proof. by intros s ? ?. Qed.

Lemma evolves_lift {A} (o : outcome A) : evolves R (lift o).
Proof. intros s a s'. unfold lift. destruct o; naive_solver. Qed.

Lemma evolves_unwrap {A} (o : option A) : evolves R (unwrap o).
Proof. destruct o; [apply evolves_ret | apply evolves_raise]. Qed.

Lemma evolves_index {A} (l : list A) i : evolves R (index l i).
Proof.
  unfold index. destruct (l !! _); [|apply evolves_raise].
  case_decide; [apply evolves_ret | apply evolves_raise].
Qed.

Lemma evolves_assert b : evolves R (assert b).
Proof. destruct b; [apply evolves_ret | apply evolves_raise]. Qed.

Lemma evolves_bind {A B} (m : M S A) (k : A -> M S B) :
  evolves R m -> (forall a, evolves R (k a)) -> evolves R (bind m k).
Proof.
  intros Hm Hk s b s'' (a & s' & H1 & H2)%bind_Ret_inv.
  etransitivity; [by eapply Hm | by eapply Hk].
Qed.

Lemma evolves_bind_try {A B E} (m : M S (Result A E)) (k : A -> M S (Result B E)) :
  evolves R m -> (forall a, evolves R (k a)) -> evolves R (bind_try m k).
Proof.
  intros Hm Hk. apply evolves_bind; [done|]. intros [a|e]; [apply Hk | apply evolves_ret].
Qed.
End evolves.

Lemma evolves_mono {S A} (R R' : S -> S -> Prop) (m : M S A) :
  (forall s s', R s s' -> R' s s') -> evolves R m -> evolves R' m.
Proof. intros H Hm s a s' E. by eapply H, Hm. Qed.

Create HintDb evolves.
#[export] Hint Resolve evolves_ret evolves_gets evolves_raise evolves_block evolves_lift
  evolves_unwrap evolves_index evolves_assert : evolves.

(** Walks down a monadic program, splitting binds, matches and conditionals; what it cannot do with
    the lemmas of the database is left as a goal. *)
Ltac evolves_step :=
  match goal with
  | |- preserves _ _ => unfold preserves
  | |- evolves _ (bind _ _) => apply evolves_bind; [apply _| |intros ?]
  | |- evolves _ (bind_try _ _) => apply evolves_bind_try; [apply _| |intros ?]
  | |- evolves _ (match ?x with _ => _ end) => destruct x
  | |- evolves _ (let _ := _ in _) => cbv zeta
  | |- evolves _ _ => solve [eauto 2 with evolves typeclass_instances]
  end.
Ltac evolves_solve := repeat evolves_step.

(** ** Asynchronous functions *)

(** An [async fn]: steps that run without suspension, and [Await]s of a poll function, which is
    polled again whenever the executor runs the future. *)
Inductive Async (S A : Type) : Type :=
| Done (a : A)
| Step {B : Type} (m : M S B) (k : B -> Async S A)
| Await {B : Type} (p : M S (option B)) (k : B -> Async S A).
Arguments Done {_ _} _.
Arguments Step {_ _ _} _ _.
Arguments Await {_ _ _} _ _.

(** Sequencing of async code, and [.await?]. *)
Fixpoint abind {S A B} (f : Async S A) (k : A -> Async S B) : Async S B :=
  match f with
  | Done a => k a
  | Step m h => Step m (fun x => abind (h x) k)
  | Await p h => Await p (fun x => abind (h x) k)
  end.
Definition abind_try {S A B E} (f : Async S (Result A E)) (k : A -> Async S (Result B E))
  : Async S (Result B E) :=
  abind f (fun r => match r with Ok a => k a | Err e => Done (Err e) end).
Definition astep {S A} (m : M S A) : Async S A := Step m Done.

Notation "'await*' x ':=' c1 'in' c2" := (abind c1 (fun x => c2))
  (at level 200, x pattern, c1 at level 100, c2 at level 200) : rust_scope.
Notation "'await?' x ':=' c1 'in' c2" := (abind_try c1 (fun x => c2))
  (at level 200, x pattern, c1 at level 100, c2 at level 200) : rust_scope.

(** One poll of a future: [inl] is [Poll::Ready], [inr] is [Poll::Pending] with the rest. *)
Fixpoint poll {S A} (f : Async S A) : M S (A + Async S A) :=
  match f with
  | Done a => ret (inl a)
  | Step m k => bind m (fun b => poll (k b))
  | Await p k =>
      bind p (fun o => match o with
                       | Some b => poll (k b)
                       | None => ret (inr (Await p k))
                       end)
  end.

(** The same poll with [env] acting on the state after each of its steps: what others do meanwhile. *)
Fixpoint poll_with {S A} (env : S -> S) (f : Async S A) : M S (A + Async S A) :=
  match f with
  | Done a => ret (inl a)
  | Step m k => bind m (fun b => bind (modify env) (fun _ => poll_with env (k b)))
  | Await p k =>
      bind p (fun o => match o with
                       | Some b => bind (modify env) (fun _ => poll_with env (k b))
                       | None => ret (inr (Await p k))
                       end)
  end.

(** The executor: polls [f]; while it is pending, runs the next action of the environment (other
    futures, the VideoCore) and polls again.  [None]: still pending when the schedule ends. *)
Fixpoint run_with {S A} (env : list (M S unit)) (f : Async S A) : M S (option A) :=
  bind (poll f) (fun r =>
    match r with
    | inl a => ret (Some a)
    | inr f' => match env with
                | [] => ret None
                | e :: env' => bind e (fun _ => run_with env' f')
                end
    end).

(** [poll] and [run_with] step by step; these drive the proofs about async functions. *)
Lemma poll_Step {S A B} (m : M S B) (k : B -> Async S A) s b s' :
  m s = Ret (b, s') -> poll (Step m k) s = poll (k b) s'.
Proof. intros H. cbn. unfold bind. by rewrite H. Qed.

Lemma poll_Await_ready {S A B} (p : M S (option B)) (k : B -> Async S A) s b s' :
  p s = Ret (Some b, s') -> poll (Await p k) s = poll (k b) s'.
Proof. intros H. cbn. unfold bind. by rewrite H. Qed.

Lemma poll_Await_pending {S A B} (p : M S (option B)) (k : B -> Async S A) s s' :
  p s = Ret (None, s') -> poll (Await p k) s = Ret (inr (Await p k), s').
Proof. intros H. cbn. unfold bind. by rewrite H. Qed.

Lemma poll_abind {S A B} (f : Async S A) (k : A -> Async S B) s :
  poll (abind f k) s =
    bind (poll f) (fun r => match r with
                            | inl a => poll (k a)
                            | inr f' => ret (inr (abind f' k))
                            end) s.
Proof.
  revert s. induction f as [a|B' m h IH|B' p h IH]; intros s; cbn; [done| |].
  - unfold bind in *. destruct (m s) as [[b s']| | |]; [apply IH|done..].
  - unfold bind in *. destruct (p s) as [[[b|] s']| | |]; [apply IH|done..].
Qed.

Lemma run_with_ready {S A} env (f : Async S A) s a s' :
  poll f s = Ret (inl a, s') -> run_with env f s = Ret (Some a, s').
Proof. intros H. destruct env; cbn; unfold bind; by rewrite H. Qed.

Lemma run_with_pending {S A} e env (f f' : Async S A) s s' u s'' :
  poll f s = Ret (inr f', s') -> e s' = Ret (u, s'') ->
  run_with (e :: env) f s = run_with env f' s''.
Proof.
  intros H He. cbn. unfold bind. by rewrite H, He.
Qed.

(** A synchronous step of a run, and a run followed by something that is ready at once. *)
Lemma run_with_step {S A B} env (m : M S B) (k : B -> Async S A) s b s' :
  m s = Ret (b, s') -> run_with env (abind (astep m) k) s = run_with env (k b) s'.
Proof. intros H. destruct env; cbn; unfold bind; by rewrite H. Qed.

Lemma run_with_abind_ready {S A B} env : forall (f : Async S A) (k : A -> Async S B) s a s' b s'',
  run_with env f s = Ret (Some a, s') -> poll (k a) s' = Ret (inl b, s'') ->
  run_with env (abind f k) s = Ret (Some b, s'').
Proof.
  induction env as [|e env IH]; intros f k s a s' b s'' Hf Hk; cbn [run_with] in Hf |- *;
    apply bind_Ret_inv in Hf as ([a1|f'] & s1 & H1 & H2); unfold bind at 1;
    rewrite poll_abind; unfold bind at 1; rewrite H1; unfold ret in *; try done.
  - injection H2 as -> ->. by rewrite Hk.
  - injection H2 as -> ->. by rewrite Hk.
  - apply bind_Ret_inv in H2 as (u & s2 & He & H2). unfold bind. rewrite He. by eapply IH.
Qed.

Lemma run_with_abind_pending {S A B} env : forall (f : Async S A) (k : A -> Async S B) s s',
  run_with env f s = Ret (None, s') -> run_with env (abind f k) s = Ret (None, s').
Proof.
  induction env as [|e env IH]; intros f k s s' Hf; cbn [run_with] in Hf |- *;
    apply bind_Ret_inv in Hf as ([a1|f'] & s1 & H1 & H2); unfold bind at 1;
    rewrite poll_abind; unfold bind at 1; rewrite H1; unfold ret in *; [done|by injection H2 as ->|done|].
  apply bind_Ret_inv in H2 as (u & s2 & He & H2). unfold bind. rewrite He. by apply IH.
Qed.

(** A run of which the first part needs no action. *)
Lemma run_with_abind_now {S A B} env (f : Async S A) (k : A -> Async S B) s a s' :
  run_with [] f s = Ret (Some a, s') -> run_with env (abind f k) s = run_with env (k a) s'.
Proof.
  cbn [run_with]. intros H. apply bind_Ret_inv in H as ([a1|f'] & s1 & Hp & H); [|done].
  injection H as -> ->. destruct env; cbn [run_with]; unfold bind at 1; rewrite poll_abind;
    unfold bind at 1; by rewrite Hp.
Qed.

(** A run that waits once, for one action. *)
Lemma run_with_one {S A} e (f : Async S A) s s1 a s3 :
  run_with [] f s = Ret (None, s1) -> run_with [e] f s = Ret (Some a, s3) ->
  exists f' s2, poll f s = Ret (inr f', s1) /\ e s1 = Ret (tt, s2) /\ poll f' s2 = Ret (inl a, s3).
Proof.
  cbn [run_with]. intros H0 H1. apply bind_Ret_inv in H0 as ([a0|f'] & s0 & Hp & H0); [done|].
  injection H0 as ->. apply bind_Ret_inv in H1 as (r & s0 & Hp' & H1). rewrite Hp in Hp'.
  injection Hp' as <- <-. apply bind_Ret_inv in H1 as ([] & s2 & He & H1).
  apply bind_Ret_inv in H1 as ([a1|f2] & s4 & Hp2 & H1); [|done]. injection H1 as -> ->.
  by exists f', s2.
Qed.

Lemma run_with_abind_one {S A B} e env (f : Async S A) (k : A -> Async S B) s s1 a s3 :
  run_with [] f s = Ret (None, s1) -> run_with [e] f s = Ret (Some a, s3) ->
  run_with (e :: env) (abind f k) s = run_with env (k a) s3.
Proof.
  intros H0 H1. destruct (run_with_one e f s s1 a s3 H0 H1) as (f' & s2 & Hp & He & Hp2).
  etransitivity.
  - eapply run_with_pending; [|exact He]. rewrite poll_abind. unfold bind. rewrite Hp. reflexivity.
  - destruct env; cbn [run_with]; unfold bind at 1; rewrite poll_abind; unfold bind at 1; by rewrite Hp2.
Qed.

(** A preorder that relates the states around every step and every environment action relates the
    states around the whole run. *)
Fixpoint aevolves {S A} (R : S -> S -> Prop) (f : Async S A) : Prop :=
  match f with
  | Done _ => True
  | Step m k => evolves R m /\ forall b, aevolves R (k b)
  | Await p k => evolves R p /\ forall b, aevolves R (k b)
  end.

Section aevolves.
Context {S : Type} (R : S -> S -> Prop) `{!PreOrder R}.

Lemma poll_evolves {A} (f : Async S A) :
  aevolves R f ->
  forall s r s', poll f s = Ret (r, s') ->
  R s s' /\ match r with inl _ => True | inr f' => aevolves R f' end.
Proof.
  induction f as [a|B m k IH|B p k IH]; cbn.
  - by intros _ s r s' [= <- <-].
  - intros [Hm Hk] s r s' (b & s1 & H1 & H2)%bind_Ret_inv.
    destruct (IH b (Hk b) _ _ _ H2) as [? ?]. split; [|done].
    etransitivity; [by eapply Hm|done].
  - intros [Hp Hk] s r s' (o & s1 & H1 & H2)%bind_Ret_inv.
    assert (R s s1) by (by eapply Hp).
    destruct o as [b|]; [|by injection H2 as <- <-].
    destruct (IH b (Hk b) _ _ _ H2) as [? ?]. split; [|done]. by etransitivity.
Qed.

Lemma run_with_evolves {A} env (f : Async S A) :
  aevolves R f -> Forall (evolves R) env -> evolves R (run_with env f).
Proof.
  intros Hf Henv. revert f Hf. induction Henv as [|e env He Henv IH];
    intros f Hf s r s'; cbn; intros (r1 & s1 & H1 & H2)%bind_Ret_inv;
    destruct (poll_evolves _ Hf _ _ _ H1) as [HI1 Hr]; destruct r1 as [a|f'];
    try by injection H2 as <- <-.
  apply bind_Ret_inv in H2 as (u & s2 & H3 & H4).
  etransitivity; [done|]. etransitivity; [by eapply He|]. by eapply IH.
Qed.

Lemma aevolves_astep {A} (m : M S A) : evolves R m -> aevolves R (astep m).
Proof. done. Qed.

Lemma aevolves_abind {A B} (f : Async S A) (k : A -> Async S B) :
  aevolves R f -> (forall a, aevolves R (k a)) -> aevolves R (abind f k).
Proof.
  intros Hf Hk. induction f as [a|? m h IH|? p h IH]; cbn in *; [done| |];
    destruct Hf as [Hm Hh]; (split; [done|]); intros b; apply IH, Hh.
Qed.

Lemma aevolves_abind_try {A B E} (f : Async S (Result A E)) (k : A -> Async S (Result B E)) :
  aevolves R f -> (forall a, aevolves R (k a)) -> aevolves R (abind_try f k).
Proof. intros Hf Hk. apply aevolves_abind; [done|]. by intros [a|e]; [apply Hk|]. Qed.
End aevolves.

(** ** Machine integers *)

(** The crate is built with [--release] (Makefile.toml), so arithmetic wraps. *)
Definition u8 (x : Z) : Z := x mod 2 ^ 8.
Definition u16 (x : Z) : Z := x mod 2 ^ 16.
Definition u32 (x : Z) : Z := x mod 2 ^ 32.
Definition usize (x : Z) : Z := x mod 2 ^ 64.
Definition usize_add (x y : Z) : Z := usize (x + y).
Definition usize_sub (x y : Z) : Z := usize (x - y).
Definition usize_mul (x y : Z) : Z := usize (x * y).
(** [!x] on usize. *)
Definition usize_not (x : Z) : Z := 2 ^ 64 - 1 - x.
Definition usize_max : Z := 2 ^ 64 - 1.
(** [x as isize]. *)
Definition isize (x : Z) : Z := (x + 2 ^ 63) mod 2 ^ 64 - 2 ^ 63.

Definition is_u32 (x : Z) : Prop := 0 <= x < 2 ^ 32.
Definition is_usize (x : Z) : Prop := 0 <= x < 2 ^ 64.

#[export] Instance is_u32_dec x : Decision (is_u32 x).
Proof. unfold is_u32. apply _. Defined.
#[export] Instance is_usize_dec x : Decision (is_usize x).
Proof. unfold is_usize. apply _. Defined.

Lemma u32_small x : is_u32 x -> u32 x = x.
Proof. apply Z.mod_small. Qed.
Lemma u32_range x : is_u32 (u32 x).
Proof. apply Z.mod_pos_bound. lia. Qed.
Lemma usize_small x : 0 <= x < 2 ^ 64 -> usize x = x.
Proof. apply Z.mod_small. Qed.
Lemma usize_range x : is_usize (usize x).
Proof. apply Z.mod_pos_bound. lia. Qed.
Lemma usize_add_small x y : 0 <= x + y < 2 ^ 64 -> usize_add x y = x + y.
Proof. apply usize_small. Qed.
Lemma usize_sub_small x y : 0 <= x - y < 2 ^ 64 -> usize_sub x y = x - y.
Proof. apply usize_small. Qed.
Lemma usize_mul_small x y : 0 <= x * y < 2 ^ 64 -> usize_mul x y = x * y.
Proof. apply usize_small. Qed.
Lemma isize_small x : - 2 ^ 63 <= x < 2 ^ 63 -> isize x = x.
Proof. intros. unfold isize. rewrite Z.mod_small; lia. Qed.

(** Linear arithmetic with division and modulo by constants. *)
Ltac zdiv := Z.to_euclidean_division_equations; lia.

(** Removes wrap-around where the value is in range, innermost operations first. *)
Ltac ints_side := unfold is_u32, is_usize in *; lia.
Ltac ints_step :=
  match goal with
  | |- context [usize_add ?x ?y] => rewrite (usize_add_small x y) by ints_side
  | |- context [usize_sub ?x ?y] => rewrite (usize_sub_small x y) by ints_side
  | |- context [usize_mul ?x ?y] => rewrite (usize_mul_small x y) by ints_side
  | |- context [usize ?x] => rewrite (usize_small x) by ints_side
  | |- context [u32 ?x] => rewrite (u32_small x) by ints_side
  | |- context [isize ?x] => rewrite (isize_small x) by ints_side
  end.
Ltac ints := repeat ints_step.

(** Masking with a power of two minus one. *)
Lemma land_mask x k m : 0 <= k -> m = 2 ^ k - 1 -> Z.land x m = x mod 2 ^ k.
Proof. intros Hk ->. rewrite <- Z.land_ones by done. by rewrite Z.ones_equiv, <- Z.sub_1_r. Qed.

(** Clearing the low bits of a usize: [x & !(2^k - 1)]. *)
Lemma land_usize_not x k m :
  0 <= k < 64 -> m = 2 ^ k - 1 -> is_usize x -> Z.land x (usize_not m) = x - x mod 2 ^ k.
Proof.
  intros Hk -> Hx. unfold is_usize in Hx.
  assert (0 < 2 ^ k) by lia.
  replace (usize_not (2 ^ k - 1)) with (Z.shiftl (Z.ones (64 - k)) k).
  2: { unfold usize_not. rewrite Z.shiftl_mul_pow2, Z.ones_equiv by lia.
       replace (2 ^ 64) with (2 ^ (64 - k) * 2 ^ k); [lia|].
       rewrite <- Z.pow_add_r by lia. f_equal. lia. }
  replace (x - x mod 2 ^ k) with (Z.shiftl (Z.shiftr x k) k).
  2: { rewrite Z.shiftl_mul_pow2, Z.shiftr_div_pow2 by lia.
       pose proof (Z.div_mod x (2 ^ k) ltac:(lia)). lia. }
  apply Z.bits_inj'. intros i Hi. rewrite Z.land_spec, !Z.shiftl_spec by done.
  destruct (Z.lt_ge_cases i k).
  { rewrite !(Z.testbit_neg_r _ (i - k)) by lia. apply andb_false_r. }
  rewrite Z.shiftr_spec by lia. replace (i - k + k) with i by lia.
  destruct (Z.lt_ge_cases i 64).
  { rewrite Z.ones_spec_low by lia. apply andb_true_r. }
  assert (Z.testbit x i = false) as ->; [|done].
  rewrite <- (Z.mod_small x (2 ^ 64)) by lia. apply Z.mod_pow2_bits_high. lia.
Qed.

(** An [or] of two numbers without common bits is their sum. *)
Lemma lor_disjoint_add a b k :
  0 <= k -> a mod 2 ^ k = 0 -> 0 <= b < 2 ^ k -> Z.lor a b = a + b.
Proof.
  intros Hk Ha Hb.
  assert (Z.land a b = 0) as Hd.
  { apply Z.bits_inj'. intros i Hi. rewrite Z.land_spec, Z.bits_0.
    destruct (Z.lt_ge_cases i k).
    - assert (Z.testbit a i = false) as ->; [|done].
      rewrite <- (Z.mod_pow2_bits_low a k i) by lia. rewrite Ha. apply Z.bits_0.
    - assert (Z.testbit b i = false) as ->; [|apply andb_false_r].
      rewrite <- (Z.mod_small b (2 ^ k)) by lia. apply Z.mod_pow2_bits_high. lia. }
  rewrite <- Z.lxor_lor by done. symmetry. by apply Z.add_nocarry_lxor.
Qed.

(** ** Record update: [r <| f := v |>]

    [Eta R] rebuilds a record from its projections; the setter of a field abstracts that field's
    projection out of the rebuilt record. *)
Class Eta (R : Type) : Type := eta : R -> R.
Class Update {R T : Type} (f : R -> T) : Type := update : (T -> T) -> R -> R.
Arguments update {_ _} f {_} _ _ /.
Arguments eta {_} _ _ /.

Ltac build_update f :=
  lazymatch goal with
  | |- Update ?f0 =>
      let R := lazymatch type of f with ?R -> _ => R end in
      let g := fresh "g" in let r := fresh "r" in
      let rebuilt := constr:(fun r : R => ltac:(
        let e := constr:(_ : Eta R) in
        let e := eval cbv beta delta [eta] in e in
        let e := eval hnf in e in
        let b := eval cbv beta in (e r) in exact b)) in
      intros g r;
      let b := eval cbv beta in (rebuilt r) in
      lazymatch eval pattern (f r) in b with
      | ?h _ => let res := eval cbv beta in (h (g (f r))) in exact res
      end
  end.

#[export] Hint Extern 1 (Update ?f) => build_update f : typeclass_instances.

Declare Scope record_scope.
#[global] Open Scope record_scope.
Notation "r <| f := v |>" := (update f (fun _ => v) r)
  (at level 1, left associativity, f at level 8, v at level 100,
   format "r  <|  f  :=  v  |>") : record_scope.
Notation "r <| f ::= g |>" := (update f g r)
  (at level 1, left associativity, f at level 8, g at level 100,
   format "r  <|  f  ::=  g  |>") : record_scope.

(** ** Symbolic execution

    [inv_monad] takes hypotheses [m s = Ret _] apart: binds are split, primitive operations
    evaluated, and matches on data destructed. *)
Ltac inv_monad_step :=
  match goal with
  | H : bind _ _ _ = Ret _ |- _ => apply bind_Ret_inv in H as (? & ? & ? & ?)
  | H : bind_try _ _ _ = Ret _ |- _ => unfold bind_try in H
  | H : ret _ _ = Ret _ |- _ => unfold ret in H; simplify_eq
  | H : gets _ _ = Ret _ |- _ => unfold gets in H; simplify_eq
  | H : modify _ _ = Ret _ |- _ => unfold modify in H; simplify_eq
  | H : raise _ _ = Ret _ |- _ => discriminate H
  | H : block _ = Ret _ |- _ => discriminate H
  | H : lift ?o _ = Ret _ |- _ => unfold lift in H; destruct o eqn:?; simplify_eq
  | H : unwrap ?o _ = Ret _ |- _ => unfold unwrap in H; destruct o eqn:?; simplify_eq
  | H : assert ?b _ = Ret _ |- _ => unfold assert in H; destruct b eqn:?; simplify_eq
  | H : (match ?x with _ => _ end) _ = Ret _ |- _ => destruct x eqn:?; simplify_eq
  | H : (let _ := _ in _) _ = Ret _ |- _ => cbv zeta in H
  end.
Ltac inv_monad := repeat inv_monad_step.
