(* ===== verification/Locks.v ===== *)
(** The interface of the [ruspiro_lock] crate the program relies on: counting semaphores.

    The crate is a dependency and not part of the repository, so its semaphores are a parameter of
    the model ([LockLib]); what its documentation says of them is the class [LockLaws].  The
    mutexes and read/write locks of the crate guard data that the model passes along explicitly. *)

From S2P Require Import Prelude.

(** [sem] is [ruspiro_lock::sync::Semaphore], [asem] is [ruspiro_lock::r#async::AsyncSemaphore].
    [try_down] is [None] when it returns [Err(())].  A poll of [AsyncSemaphore::down().await] is
    [asem_poll_down]: [None] for [Poll::Pending]. *)
Class LockLib : Type := {
  sem : Type;
  sem_new : Z -> sem;
  sem_default : sem;
  sem_up : sem -> sem;
  sem_try_down : sem -> option sem;
  asem : Type;
  asem_new : Z -> asem;
  asem_up : asem -> asem;
  asem_poll_down : asem -> option asem;
}.

(** The documented behaviour: [new(n)] has [n] permits, [up] adds one, [down] takes one and waits
    while there is none. *)
Class LockLaws (L : LockLib) : Type := {
  permits : sem -> Z;
  permits_nonneg s : 0 <= permits s;
  permits_new n : 0 <= n -> permits (sem_new n) = n;
  permits_up s : permits (sem_up s) = permits s + 1;
  try_down_none s : permits s = 0 -> sem_try_down s = None;
  try_down_some s : 0 < permits s ->
    exists s', sem_try_down s = Some s' /\ permits s' = permits s - 1;
  apermits : asem -> Z;
  apermits_nonneg s : 0 <= apermits s;
  apermits_new n : 0 <= n -> apermits (asem_new n) = n;
  apermits_up s : apermits (asem_up s) = apermits s + 1;
  poll_down_none s : apermits s = 0 -> asem_poll_down s = None;
  poll_down_some s : 0 < apermits s ->
    exists s', asem_poll_down s = Some s' /\ apermits s' = apermits s - 1;
}.

(** The plain counter satisfies the laws; the witnesses of the development run on it. *)
#[export] Instance counting_locks : LockLib := {
  sem := nat;
  sem_new n := Z.to_nat n;
  sem_default := 0%nat;
  sem_up s := S s;
  sem_try_down s := match s with O => None | S s' => Some s' end;
  asem := nat;
  asem_new n := Z.to_nat n;
  asem_up s := S s;
  asem_poll_down s := match s with O => None | S s' => Some s' end;
}.

#[export] Instance counting_laws : LockLaws counting_locks.
Proof.
  refine {| permits := fun s : @sem counting_locks => Z.of_nat s;
            apermits := fun s : @asem counting_locks => Z.of_nat s |};
    cbn; try lia.
  all: intros [|s] Hs; cbn in *; try lia; eauto.
  all: exists s; split; [done|]; lia.
Defined.

Section laws.
Context {L : LockLib} {LL : LockLaws L}.

(** An [up] is enough for the next [try_down] to succeed. *)
Lemma try_down_up s : exists s', sem_try_down (sem_up s) = Some s' /\ permits s' = permits s.
Proof.
  pose proof (permits_nonneg s). pose proof (permits_up s).
  destruct (try_down_some (sem_up s)) as (s' & ? & ?); [lia|]. exists s'. split; [done|lia].
Qed.

Lemma poll_down_up s : exists s', asem_poll_down (asem_up s) = Some s' /\ apermits s' = apermits s.
Proof.
  pose proof (apermits_nonneg s). pose proof (apermits_up s).
  destruct (poll_down_some (asem_up s)) as (s' & ? & ?); [lia|]. exists s'. split; [done|lia].
Qed.

Lemma try_down_is_Some s s' : sem_try_down s = Some s' -> 0 < permits s /\ permits s' = permits s - 1.
Proof.
  intros H. pose proof (permits_nonneg s).
  destruct (decide (permits s = 0)) as [E|]; [by rewrite try_down_none in H|].
  destruct (try_down_some s) as (s2 & ? & ?); [lia|]. simplify_eq. lia.
Qed.
End laws.

(** ** [RWLock] *)

(** A lock that is held for reading or for writing.  Both calls block while they cannot have it;
    dropping a guard releases it. *)
Class RwLib : Type := {
  rw : Type;
  rw_new : rw;
  rw_read : rw -> option rw;
  rw_read_done : rw -> rw;
  rw_lock : rw -> option rw;
  rw_lock_done : rw -> rw;
}.

(** The documented behaviour; [rw_holders] is [None] while the lock is held for writing, and the
    number of readers otherwise. *)
Class RwLaws (RW : RwLib) : Type := {
  rw_holders : rw -> option nat;
  rw_new_law : rw_holders rw_new = Some 0%nat;
  rw_read_law r : match rw_holders r with
                  | Some n => exists r', rw_read r = Some r' /\ rw_holders r' = Some (S n)
                  | None => rw_read r = None
                  end;
  rw_read_done_law r n : rw_holders r = Some (S n) -> rw_holders (rw_read_done r) = Some n;
  rw_lock_law r : match rw_holders r with
                  | Some 0%nat => exists r', rw_lock r = Some r' /\ rw_holders r' = None
                  | _ => rw_lock r = None
                  end;
  rw_lock_done_law r : rw_holders r = None -> rw_holders (rw_lock_done r) = Some 0%nat;
}.

#[export] Instance counting_rw : RwLib := {
  rw := option nat;
  rw_new := Some 0%nat;
  rw_read r := match r with Some n => Some (Some (S n)) | None => None end;
  rw_read_done r := match r with Some n => Some (pred n) | None => None end;
  rw_lock r := match r with Some O => Some None | _ => None end;
  rw_lock_done _ := Some 0%nat;
}.

#[export] Instance counting_rw_laws : RwLaws counting_rw.
Proof.
  refine {| rw_holders := fun r : @rw counting_rw => r |}.
  - done.
  - intros [n|]; [|done]. by exists (Some (S n)).
  - by intros r n ->.
  - intros [[|n]|]; [by exists None|done|done].
  - done.
Defined.

(** ** [AsyncMutex] *)

(** A poll of [AsyncMutex::lock().await] either gives the guard or leaves the mutex as it is, apart
    from the wakers it keeps; dropping the guard releases it. *)
Class AMutexLib : Type := {
  amutex : Type;
  amutex_new : amutex;
  amutex_poll_lock : amutex -> bool * amutex;
  amutex_unlock : amutex -> amutex;
}.

(** The documented behaviour: there is one guard at a time. *)
Class AMutexLaws (AM : AMutexLib) : Type := {
  amutex_held : amutex -> bool;
  amutex_new_law : amutex_held amutex_new = false;
  amutex_poll_lock_law a :
    (amutex_poll_lock a).1 = negb (amutex_held a) /\ amutex_held (amutex_poll_lock a).2 = true;
  amutex_unlock_law a : amutex_held (amutex_unlock a) = false;
}.

#[export] Instance flag_amutex : AMutexLib := {
  amutex := bool;
  amutex_new := false;
  amutex_poll_lock held := (negb held, true);
  amutex_unlock _ := false;
}.

#[export] Instance flag_amutex_laws : AMutexLaws flag_amutex.
Proof. by refine {| amutex_held := fun a : @amutex flag_amutex => a |}. Defined.
