(* ===== verification/Memory.v ===== *)
(** The memory shared between ARM and VideoCore as bytes at addresses, with the little-endian
    accesses [core::ptr::read_volatile] and [write_volatile] make on an aarch64 target.

    A memory is a total function, so two memories are compared pointwise ([mem_eq]). *)

From S2P Require Import Prelude.
From Stdlib Require Import Morphisms.

Definition mem : Type := Z -> Z.

Definition mem_eq : mem -> mem -> Prop := pointwise_relation Z eq.
#[export] Instance mem_eq_equiv : Equivalence mem_eq.
Proof. unfold mem_eq. apply _. Qed.

(** ** Little-endian numbers *)

Fixpoint le_bytes (n : nat) (v : Z) : list Z :=
  match n with
  | O => []
  | S n => v mod 256 :: le_bytes n (v / 256)
  end.

Fixpoint le_val (bs : list Z) : Z :=
  match bs with
  | [] => 0
  | b :: bs => b + 256 * le_val bs
  end.

Definition is_byte (b : Z) : Prop := 0 <= b < 256.

Lemma length_le_bytes n v : length (le_bytes n v) = n.
Proof. revert v. induction n; intros v; cbn; congruence. Qed.

Lemma le_bytes_range n v : Forall is_byte (le_bytes n v).
Proof.
  revert v. induction n as [|n IH]; intros v; cbn; constructor; [|apply IH].
  apply Z.mod_pos_bound. lia.
Qed.

Lemma le_val_bytes n v : le_val (le_bytes n v) = v mod 256 ^ Z.of_nat n.
Proof.
  revert v. induction n as [|n IH]; intros v; cbn [le_bytes le_val].
  { by rewrite Z.mod_1_r. }
  rewrite IH, Nat2Z.inj_succ, Z.pow_succ_r by lia.
  rewrite Z.rem_mul_r by lia. lia.
Qed.

Lemma le_val_range bs : Forall is_byte bs -> 0 <= le_val bs < 256 ^ Z.of_nat (length bs).
Proof.
  induction 1 as [|b bs Hb _ IH]; cbn -[Z.of_nat Z.pow]; [lia|].
  unfold is_byte in Hb. rewrite Nat2Z.inj_succ, Z.pow_succ_r by lia. lia.
Qed.

(** ** Byte ranges *)

Definition write_bytes (m : mem) (a : Z) (bs : list Z) : mem :=
  fun x => if a <=? x
           then if x <? a + Z.of_nat (length bs) then nth (Z.to_nat (x - a)) bs 0 else m x
           else m x.

Definition read_bytes (m : mem) (a : Z) (n : nat) : list Z :=
  map (fun i => m (a + Z.of_nat i)) (seq 0 n).

#[export] Instance read_bytes_proper : Proper (mem_eq ==> eq ==> eq ==> eq) read_bytes.
Proof. intros m m' Hm a ? <- n ? <-. unfold read_bytes. apply map_ext. intros i. apply Hm. Qed.
#[export] Instance write_bytes_proper : Proper (mem_eq ==> eq ==> eq ==> mem_eq) write_bytes.
Proof.
  intros m m' Hm a ? <- bs ? <- x. unfold write_bytes. by rewrite (Hm x).
Qed.

Lemma length_read_bytes m a n : length (read_bytes m a n) = n.
Proof. unfold read_bytes. by rewrite length_map, length_seq. Qed.

Lemma write_bytes_in m a bs x :
  a <= x < a + Z.of_nat (length bs) -> write_bytes m a bs x = nth (Z.to_nat (x - a)) bs 0.
Proof.
  intros Hx. unfold write_bytes.
  rewrite (proj2 (Z.leb_le _ _)) by lia. by rewrite (proj2 (Z.ltb_lt _ _)) by lia.
Qed.

Lemma write_bytes_out m a bs x :
  x < a \/ a + Z.of_nat (length bs) <= x -> write_bytes m a bs x = m x.
Proof.
  intros Hx. unfold write_bytes. destruct (Z.leb_spec a x); [|done].
  destruct (Z.ltb_spec x (a + Z.of_nat (length bs))); [lia|done].
Qed.

(** [agree m m' a n]: the two memories hold the same bytes at [a .. a+n-1]. *)
Definition agree (m m' : mem) (a n : Z) : Prop := forall x, a <= x < a + n -> m x = m' x.

Lemma agree_refl m a n : agree m m a n.
Proof. done. Qed.
Lemma agree_sym m m' a n : agree m m' a n -> agree m' m a n.
Proof. intros H x Hx. symmetry. by apply H. Qed.
Lemma agree_trans m1 m2 m3 a n : agree m1 m2 a n -> agree m2 m3 a n -> agree m1 m3 a n.
Proof. intros H1 H2 x Hx. rewrite H1 by done. by apply H2. Qed.
Lemma agree_sub m m' a n a' n' : agree m m' a n -> a <= a' -> a' + n' <= a + n -> agree m m' a' n'.
Proof. intros H ? ? x ?. apply H. lia. Qed.

Lemma write_bytes_agree m a bs a' n' :
  a' + n' <= a \/ a + Z.of_nat (length bs) <= a' -> agree (write_bytes m a bs) m a' n'.
Proof. intros H x Hx. apply write_bytes_out. lia. Qed.

Lemma read_bytes_agree m m' a n : agree m m' a (Z.of_nat n) -> read_bytes m a n = read_bytes m' a n.
Proof.
  intros H. unfold read_bytes. apply map_ext_in. intros i [_ Hi]%in_seq. apply H. lia.
Qed.

Lemma read_write_disjoint m a bs a' n :
  a' + Z.of_nat n <= a \/ a + Z.of_nat (length bs) <= a' ->
  read_bytes (write_bytes m a bs) a' n = read_bytes m a' n.
Proof. intros H. by apply read_bytes_agree, write_bytes_agree. Qed.

Lemma nth_seq_self (bs : list Z) n k :
  (k + n <= length bs)%nat -> map (fun i => nth (k + i)%nat bs 0) (seq 0 n) = take n (drop k bs).
Proof.
  intros H. apply list_eq. intros i.
  destruct (decide (i < n)%nat).
  - rewrite list_lookup_fmap, lookup_seq_lt by done. cbn.
    rewrite lookup_take_lt, lookup_drop by done.
    destruct (lookup_lt_is_Some_2 bs (k + i)%nat ltac:(lia)) as [b Hb].
    rewrite Hb. f_equal. by apply nth_lookup_Some.
  - rewrite !lookup_ge_None_2; [done| |].
    + rewrite length_take, length_drop. lia.
    + rewrite length_fmap, length_seq. lia.
Qed.

Lemma read_write_sub m a bs k n :
  (k + n <= length bs)%nat ->
  read_bytes (write_bytes m a bs) (a + Z.of_nat k) n = take n (drop k bs).
Proof.
  intros H. rewrite <- nth_seq_self by done. unfold read_bytes. apply map_ext_in.
  intros i [_ Hi]%in_seq. rewrite write_bytes_in by lia. f_equal. lia.
Qed.

Lemma read_write_same m a bs n :
  n = length bs -> read_bytes (write_bytes m a bs) a n = bs.
Proof.
  intros ->. replace a with (a + Z.of_nat 0) at 2 by lia. rewrite read_write_sub by lia.
  by rewrite drop_0, take_ge by lia.
Qed.

(** Reading part of a range. *)
Lemma drop_read_bytes k m a n : (k <= n)%nat ->
  drop k (read_bytes m a n) = read_bytes m (a + Z.of_nat k) (n - k).
Proof.
  intros Hk. unfold read_bytes. apply list_eq. intros i.
  rewrite lookup_drop, !list_lookup_fmap. destruct (decide (i < n - k)%nat).
  - rewrite !lookup_seq_lt by lia. cbn. do 2 f_equal. lia.
  - rewrite !lookup_seq_ge by lia. done.
Qed.

(** Disjoint writes commute. *)
Lemma write_bytes_comm m a bs a' bs' :
  a + Z.of_nat (length bs) <= a' \/ a' + Z.of_nat (length bs') <= a ->
  mem_eq (write_bytes (write_bytes m a bs) a' bs') (write_bytes (write_bytes m a' bs') a bs).
Proof.
  intros H x. unfold write_bytes.
  repeat match goal with
         | |- context [?p <=? ?q] => destruct (Z.leb_spec p q)
         | |- context [?p <? ?q] => destruct (Z.ltb_spec p q)
         end; done || lia.
Qed.

(** Writing back what was read leaves the memory as it was. *)
Lemma write_read_bytes m a n : mem_eq (write_bytes m a (read_bytes m a n)) m.
Proof.
  intros x. unfold write_bytes. rewrite length_read_bytes.
  destruct (Z.leb_spec a x); [|done]. destruct (Z.ltb_spec x (a + Z.of_nat n)); [|done].
  unfold read_bytes. rewrite (nth_indep _ _ (m (a + Z.of_nat 0))) by (rewrite length_map, length_seq; lia).
  rewrite (map_nth (fun i => m (a + Z.of_nat i)) (seq 0 n) 0%nat), seq_nth by lia.
  f_equal. lia.
Qed.

(** ** Typed accesses *)

Definition read_uint (n : nat) (m : mem) (a : Z) : Z := le_val (read_bytes m a n).
Definition write_uint (n : nat) (m : mem) (a v : Z) : mem := write_bytes m a (le_bytes n v).

(** [read_volatile] and [write_volatile] of u16, u32 and [u32; n]. *)
Definition read_u16 : mem -> Z -> Z := read_uint 2.
Definition write_u16 : mem -> Z -> Z -> mem := write_uint 2.
Definition read_u32 : mem -> Z -> Z := read_uint 4.
Definition write_u32 : mem -> Z -> Z -> mem := write_uint 4.
Definition read_u32s (n : nat) (m : mem) (a : Z) : list Z :=
  map (fun i => read_u32 m (a + 4 * Z.of_nat i)) (seq 0 n).
Definition words_bytes (ws : list Z) : list Z := concat (map (le_bytes 4) ws).
Definition write_u32s (m : mem) (a : Z) (ws : list Z) : mem := write_bytes m a (words_bytes ws).

Lemma length_words_bytes ws : length (words_bytes ws) = (4 * length ws)%nat.
Proof.
  unfold words_bytes. induction ws as [|w ws IH]; [done|].
  cbn [map concat]. rewrite length_app, length_le_bytes, IH. cbn. lia.
Qed.

#[export] Instance read_uint_proper n : Proper (mem_eq ==> eq ==> eq) (read_uint n).
Proof. intros m m' Hm a ? <-. unfold read_uint. by rewrite Hm. Qed.

Lemma read_uint_agree n m m' a :
  agree m m' a (Z.of_nat n) -> read_uint n m a = read_uint n m' a.
Proof. intros H. unfold read_uint. by rewrite (read_bytes_agree _ _ _ _ H). Qed.

Lemma read_write_uint n m a v : read_uint n (write_uint n m a v) a = v mod 256 ^ Z.of_nat n.
Proof.
  unfold read_uint, write_uint. rewrite read_write_same by (by rewrite length_le_bytes).
  apply le_val_bytes.
Qed.

Lemma write_uint_agree n m a v a' n' :
  a' + n' <= a \/ a + Z.of_nat n <= a' -> agree (write_uint n m a v) m a' n'.
Proof. intros H. apply write_bytes_agree. rewrite length_le_bytes. done. Qed.

Lemma read_write_u32 m a v : is_u32 v -> read_u32 (write_u32 m a v) a = v.
Proof. intros H. unfold read_u32, write_u32. rewrite read_write_uint. by apply Z.mod_small. Qed.

Lemma read_write_u16 m a v : 0 <= v < 2 ^ 16 -> read_u16 (write_u16 m a v) a = v.
Proof. intros H. unfold read_u16, write_u16. rewrite read_write_uint. by apply Z.mod_small. Qed.

Lemma take_drop_words ws i w :
  ws !! i = Some w -> take 4 (drop (4 * i) (words_bytes ws)) = le_bytes 4 w.
Proof.
  revert i. induction ws as [|w0 ws IH]; intros i Hi; [done|].
  destruct i as [|i]; cbn in Hi.
  - injection Hi as ->. unfold words_bytes. cbn [map concat]. rewrite Nat.mul_0_r, drop_0.
    rewrite take_app_le by (by rewrite length_le_bytes). by rewrite take_ge by (by rewrite length_le_bytes).
  - rewrite <- (IH i Hi). replace (4 * S i)%nat with (4 + 4 * i)%nat by lia.
    rewrite <- drop_drop. unfold words_bytes at 1. cbn [map concat].
    rewrite drop_app_ge by (by rewrite length_le_bytes). rewrite length_le_bytes. by rewrite Nat.sub_diag, drop_0.
Qed.

Lemma read_write_u32s_wrap m a ws n :
  n = length ws -> read_u32s n (write_u32s m a ws) a = map u32 ws.
Proof.
  intros ->. unfold read_u32s. apply list_eq. intros i.
  destruct (ws !! i) as [w|] eqn:Hi.
  - pose proof (lookup_lt_Some _ _ _ Hi). rewrite !list_lookup_fmap, lookup_seq_lt, Hi by done.
    cbn [fmap option_fmap option_map Nat.add].
    unfold read_u32, read_uint, write_u32s.
    replace (a + 4 * Z.of_nat i) with (a + Z.of_nat (4 * i)) by lia.
    rewrite read_write_sub by (rewrite length_words_bytes; lia).
    by rewrite (take_drop_words _ _ w Hi), le_val_bytes.
  - apply lookup_ge_None in Hi. rewrite !lookup_ge_None_2; [done|..];
      rewrite length_fmap, ?length_seq; lia.
Qed.

Lemma read_write_u32s m a ws n :
  n = length ws -> Forall is_u32 ws -> read_u32s n (write_u32s m a ws) a = ws.
Proof.
  intros Hn Hws. rewrite read_write_u32s_wrap by done. clear Hn.
  induction Hws as [|w ws Hw _ IH]; cbn; [done|]. by rewrite u32_small, IH.
Qed.

Lemma write_u32s_agree m a ws a' n' :
  a' + n' <= a \/ a + 4 * Z.of_nat (length ws) <= a' -> agree (write_u32s m a ws) m a' n'.
Proof. intros H. apply write_bytes_agree. rewrite length_words_bytes. lia. Qed.

Lemma read_u32s_agree n m m' a :
  agree m m' a (4 * Z.of_nat n) -> read_u32s n m a = read_u32s n m' a.
Proof.
  intros H. unfold read_u32s. apply map_ext_in. intros i [_ Hi]%in_seq. unfold read_u32.
  apply read_uint_agree. eapply agree_sub; [done|lia|]. lia.
Qed.

Lemma length_read_u32s n m a : length (read_u32s n m a) = n.
Proof. unfold read_u32s. by rewrite length_map, length_seq. Qed.

(** A memory of bytes. *)
Definition mem_ok (m : mem) : Prop := forall a, is_byte (m a).

Lemma read_uint_range n m a : mem_ok m -> 0 <= read_uint n m a < 256 ^ Z.of_nat n.
Proof.
  intros Hm. unfold read_uint. rewrite <- (length_read_bytes m a n) at 3. apply le_val_range.
  unfold read_bytes. apply List.Forall_map, List.Forall_forall. intros i _. apply Hm.
Qed.

Lemma write_bytes_ok m a bs : mem_ok m -> Forall is_byte bs -> mem_ok (write_bytes m a bs).
Proof.
  intros Hm Hbs x. unfold write_bytes. destruct (a <=? x) eqn:E1; [|apply Hm].
  destruct (x <? a + Z.of_nat (length bs)) eqn:E2; [|apply Hm].
  apply List.Forall_nth; [done|]. apply Z.leb_le in E1. apply Z.ltb_lt in E2. lia.
Qed.

Lemma write_uint_ok n m a v : mem_ok m -> mem_ok (write_uint n m a v).
Proof. intros Hm. apply write_bytes_ok; [done|apply le_bytes_range]. Qed.

Lemma write_u32s_ok m a ws : mem_ok m -> mem_ok (write_u32s m a ws).
Proof.
  intros Hm. apply write_bytes_ok; [done|]. unfold words_bytes.
  apply Forall_concat, List.Forall_map, List.Forall_forall. intros w _. apply le_bytes_range.
Qed.

Create HintDb mem_ok.
#[export] Hint Resolve write_bytes_ok write_uint_ok write_u32s_ok : mem_ok.

(** ** Reads over writes

    [mem_simpl] resolves a read over a chain of writes, by deciding with [lia] for each write
    whether it is at the address read or disjoint from it. *)

Lemma read_uint_write_uint_ne n k m a v b :
  b + Z.of_nat n <= a \/ a + Z.of_nat k <= b -> read_uint n (write_uint k m a v) b = read_uint n m b.
Proof. intros. by apply read_uint_agree, write_uint_agree. Qed.
Lemma read_uint_write_uint_eq n m a v b :
  b = a -> 0 <= v < 256 ^ Z.of_nat n -> read_uint n (write_uint n m a v) b = v.
Proof. intros -> ?. rewrite read_write_uint. by apply Z.mod_small. Qed.
Lemma read_uint_write_u32s_ne n m a ws b :
  b + Z.of_nat n <= a \/ a + 4 * Z.of_nat (length ws) <= b ->
  read_uint n (write_u32s m a ws) b = read_uint n m b.
Proof. intros. by apply read_uint_agree, write_u32s_agree. Qed.
Lemma read_u32s_write_uint_ne n k m a v b :
  b + 4 * Z.of_nat n <= a \/ a + Z.of_nat k <= b -> read_u32s n (write_uint k m a v) b = read_u32s n m b.
Proof. intros. by apply read_u32s_agree, write_uint_agree. Qed.
Lemma read_u32s_write_u32s_ne n m a ws b :
  b + 4 * Z.of_nat n <= a \/ a + 4 * Z.of_nat (length ws) <= b ->
  read_u32s n (write_u32s m a ws) b = read_u32s n m b.
Proof. intros. by apply read_u32s_agree, write_u32s_agree. Qed.
Lemma read_u32s_write_u32s_eq n m a ws b :
  b = a -> n = length ws -> Forall is_u32 ws -> read_u32s n (write_u32s m a ws) b = ws.
Proof. intros -> -> ?. by apply read_write_u32s. Qed.

Ltac mem_side := rewrite ?length_insert; cbn -[Z.mul Z.add Z.pow Z.to_nat Z.of_nat]; unfold is_u32; lia.
Ltac mem_step :=
  match goal with
  | |- context [read_uint ?n (write_uint ?k ?m ?a ?v) ?b] =>
      first [ rewrite (read_uint_write_uint_ne n k m a v b) by mem_side
            | rewrite (read_uint_write_uint_eq n m a v b) by mem_side ]
  | |- context [read_uint ?n (write_u32s ?m ?a ?ws) ?b] =>
      rewrite (read_uint_write_u32s_ne n m a ws b) by mem_side
  | |- context [read_u32s ?n (write_uint ?k ?m ?a ?v) ?b] =>
      rewrite (read_u32s_write_uint_ne n k m a v b) by mem_side
  | |- context [read_u32s ?n (write_u32s ?m ?a ?ws) ?b] =>
      rewrite (read_u32s_write_u32s_ne n m a ws b) by mem_side
  end.
Ltac mem_simpl := repeat mem_step.
