(* ===== verification/Layout.v ===== *)
(** The memory layout of the [#[repr(C)]] structures the two sides share, and the constants of
    [src/vchiq/config.rs] computed from it. *)

From S2P Require Import Prelude.

(** ** [#[repr(C)]] types *)

Inductive ctype : Type :=
| CU8 | CU16 | CU32
| CArray (t : ctype) (n : nat)
| CStruct (fields : list (string * ctype)).

(** Fields are placed in order, each at the next multiple of its alignment; the size is rounded up
    to the alignment of the whole. *)
Definition round_up (x a : Z) : Z := (x + a - 1) / a * a.

Fixpoint align_of (t : ctype) : Z :=
  match t with
  | CU8 => 1
  | CU16 => 2
  | CU32 => 4
  | CArray t _ => align_of t
  | CStruct fs => foldr (fun f a => Z.max (align_of f.2) a) 1 fs
  end.

Fixpoint size_of (t : ctype) : Z :=
  match t with
  | CU8 => 1
  | CU16 => 2
  | CU32 => 4
  | CArray t n => size_of t * Z.of_nat n
  | CStruct fs =>
      round_up (foldl (fun off f => round_up off (align_of f.2) + size_of f.2) 0 fs)
               (foldr (fun f a => Z.max (align_of f.2) a) 1 fs)
  end.

(** The end of the last field when the fields [fs] are laid out from [off] on. *)
Definition fields_end (off : Z) (fs : list (string * ctype)) : Z :=
  foldl (fun off f => round_up off (align_of f.2) + size_of f.2) off fs.

Fixpoint field_offsets (off : Z) (fs : list (string * ctype)) : list (string * Z * ctype) :=
  match fs with
  | [] => []
  | (name, t) :: fs =>
      let o := round_up off (align_of t) in
      (name, o, t) :: field_offsets (o + size_of t) fs
  end.

(** [core::mem::offset_of]; -1 for a name that is not a field. *)
Definition offset_of (t : ctype) (name : string) : Z :=
  match t with
  | CStruct fs =>
      match list_find (fun f => f.1.1 = name) (field_offsets 0 fs) with
      | Some (_, (_, o, _)) => o
      | None => -1
      end
  | _ => -1
  end.

(** ** The shared structures *)

Definition VCHIQ_SLOT_SIZE : Z := 4096.
Definition VCHIQ_SLOT_MASK : Z := VCHIQ_SLOT_SIZE - 1.
Definition VCHIQ_MAX_SLOTS : Z := 128.
Definition VCHIQ_MAX_SLOTS_PER_SIDE : Z := 64.
Definition VCHIQ_SLOT_QUEUE_MASK : Z := VCHIQ_MAX_SLOTS_PER_SIDE - 1.
Definition VCHIQ_MAX_SERVICES : Z := 4096.
Definition VCHIQ_NUM_SERVICE_BULKS : Z := 4.
Definition VCHIQ_NUM_CURRENT_BULKS : Z := 32.
Definition MAX_FRAGMENTS : Z := VCHIQ_NUM_CURRENT_BULKS * 2.
Definition MAX_COMPLETIONS : Z := 128.
Definition MSG_QUEUE_SIZE : Z := 128.

(** [DebugInfo], the indices into the debug array. *)
Inductive DebugInfo : Type :=
| ENTRIES | SLOT_HANDLER_COUNT | SLOT_HANDLER_LINE | PARSE_LINE | PARSE_HEADER | PARSE_MSGID
| AWAIT_COMPLETION_LINE | DEQUEUE_MESSAGE_LINE | SERVICE_CALLBACK_LINE | MSG_QUEUE_FULL_COUNT
| COMPLETION_QUEUE_FULL_COUNT | MAX.

Definition DebugInfo_val (d : DebugInfo) : Z :=
  match d with
  | ENTRIES => 0 | SLOT_HANDLER_COUNT => 1 | SLOT_HANDLER_LINE => 2 | PARSE_LINE => 3
  | PARSE_HEADER => 4 | PARSE_MSGID => 5 | AWAIT_COMPLETION_LINE => 6 | DEQUEUE_MESSAGE_LINE => 7
  | SERVICE_CALLBACK_LINE => 8 | MSG_QUEUE_FULL_COUNT => 9 | COMPLETION_QUEUE_FULL_COUNT => 10
  | MAX => 11
  end.

Definition Event_t : ctype := CStruct [("armed", CU32); ("fired", CU32); ("event", CU32)].

Definition SharedState_t : ctype := CStruct [
  ("initialized", CU32); ("slot_first", CU32); ("slot_last", CU32); ("slot_sync", CU32);
  ("trigger", Event_t); ("tx_pos", CU32); ("recycle", Event_t); ("slot_queue_recycle", CU32);
  ("sync_trigger", Event_t); ("sync_release", Event_t);
  ("slot_queue", CArray CU32 (Z.to_nat VCHIQ_MAX_SLOTS_PER_SIDE));
  ("debug", CArray CU32 (Z.to_nat (DebugInfo_val MAX)))].

Definition SlotInfo_t : ctype := CStruct [("use_count", CU16); ("release_count", CU16)].

Definition SlotZero_t : ctype := CStruct [
  ("magic", CU32); ("version", CU16); ("version_min", CU16); ("slot_zero_size", CU32);
  ("slot_size", CU32); ("max_slots", CU32); ("max_slots_per_side", CU32);
  ("platform_data", CArray CU32 2); ("master", SharedState_t); ("slave", SharedState_t);
  ("slots", CArray SlotInfo_t (Z.to_nat VCHIQ_MAX_SLOTS))].

Definition SlotMessageHeader_t : ctype := CStruct [("msgid", CU32); ("size", CU32)].

Definition Fragment_t : ctype :=
  let CACHE_LINE_SIZE := 32%nat in
  CStruct [("headbuf", CArray CU8 CACHE_LINE_SIZE); ("tailbuf", CArray CU8 CACHE_LINE_SIZE)].

Definition Slot_t : ctype := CStruct [("data", CArray CU8 (Z.to_nat VCHIQ_SLOT_SIZE))].

Definition VCHIQ_SLOT_ZERO_SLOTS : Z := (size_of SlotZero_t + VCHIQ_SLOT_SIZE - 1) / VCHIQ_SLOT_SIZE.
Definition TOTAL_SLOTS : Z := VCHIQ_SLOT_ZERO_SLOTS + 2 * 32.

(** ** The layout algorithm is sound *)

Section ctype_ind.
Variable P : ctype -> Prop.
Hypothesis H8 : P CU8.
Hypothesis H16 : P CU16.
Hypothesis H32 : P CU32.
Hypothesis HA : forall t n, P t -> P (CArray t n).
Hypothesis HS : forall fs, Forall (fun f => P f.2) fs -> P (CStruct fs).

(** Induction on types with the hypothesis for every field of a structure. *)
Fixpoint ctype_ind' (t : ctype) : P t :=
  match t with
  | CU8 => H8
  | CU16 => H16
  | CU32 => H32
  | CArray t n => HA t n (ctype_ind' t)
  | CStruct fs =>
      HS fs ((fix go fs : Forall (fun f => P f.2) fs :=
                match fs with
                | [] => List.Forall_nil _
                | f :: fs => List.Forall_cons _ f fs (ctype_ind' f.2) (go fs)
                end) fs)
  end.
End ctype_ind.

Lemma align_of_pos t : 1 <= align_of t.
Proof.
  induction t as [| | |t n IH|fs _] using ctype_ind'; cbn; try lia.
  induction fs as [|f fs IH]; cbn; lia.
Qed.

Lemma round_up_ge x a : 1 <= a -> x <= round_up x a.
Proof. intros Ha. unfold round_up. pose proof (Z.div_mod (x + a - 1) a). pose proof (Z.mod_pos_bound (x + a - 1) a). lia. Qed.

Lemma round_up_lt x a : 1 <= a -> round_up x a < x + a.
Proof. intros Ha. unfold round_up. pose proof (Z.div_mod (x + a - 1) a). pose proof (Z.mod_pos_bound (x + a - 1) a). lia. Qed.

Lemma round_up_aligned x a : 1 <= a -> (a | round_up x a).
Proof. intros Ha. unfold round_up. apply Z.divide_factor_r. Qed.

Lemma fields_end_ge fs off :
  Forall (fun f => 0 <= size_of f.2) fs -> off <= fields_end off fs.
Proof.
  intros Hfs. revert off. induction Hfs as [|f fs Hf _ IH]; intros off; cbn; [lia|].
  pose proof (round_up_ge off (align_of f.2) (align_of_pos _)).
  specialize (IH (round_up off (align_of f.2) + size_of f.2)). unfold fields_end in IH. lia.
Qed.

Lemma size_of_nonneg t : 0 <= size_of t.
Proof.
  induction t as [| | |t n IH|fs IH] using ctype_ind'; cbn; try lia.
  pose proof (fields_end_ge fs 0 IH). unfold fields_end in *.
  pose proof (align_of_pos (CStruct fs)). cbn in *.
  pose proof (round_up_ge (foldl (fun off f => round_up off (align_of f.2) + size_of f.2) 0 fs)
    (foldr (fun f a => Z.max (align_of f.2) a) 1 fs)). lia.
Qed.

(** The fields placed from [off] on start at or after [off], end by [fields_end], are aligned, and
    come one after the other. *)
Lemma field_offsets_range fs off :
  Forall (fun e : string * Z * ctype =>
    off <= e.1.2 /\ e.1.2 + size_of e.2 <= fields_end off fs /\ (align_of e.2 | e.1.2))
    (field_offsets off fs).
Proof.
  revert off. induction fs as [|[name t] fs IH]; intros off; cbn; constructor; cbn.
  - pose proof (round_up_ge off (align_of t) (align_of_pos _)). split_and!; [done| |].
    + apply fields_end_ge. apply List.Forall_forall. intros f _. apply size_of_nonneg.
    + apply round_up_aligned, align_of_pos.
  - eapply List.Forall_impl; [|apply IH]. intros e (H1 & H2 & H3).
    pose proof (round_up_ge off (align_of t) (align_of_pos _)). pose proof (size_of_nonneg t).
    split_and!; [lia|exact H2|done].
Qed.

Lemma field_offsets_ordered fs off i j e e' :
  (i < j)%nat -> field_offsets off fs !! i = Some e -> field_offsets off fs !! j = Some e' ->
  e.1.2 + size_of e.2 <= e'.1.2.
Proof.
  revert off i j. induction fs as [|[name t] fs IH]; intros off i j Hij Hi Hj; [done|].
  destruct j as [|j]; [lia|]. destruct i as [|i]; cbn in Hi, Hj.
  - injection Hi as <-. cbn.
    pose proof (field_offsets_range fs (round_up off (align_of t) + size_of t)) as Hr.
    by apply (Forall_lookup_1 _ _ _ _ Hr) in Hj as [? _].
  - by apply (IH _ i j ltac:(lia)) in Hj.
Qed.

Lemma struct_size_ge fs : fields_end 0 fs <= size_of (CStruct fs).
Proof. apply round_up_ge, (align_of_pos (CStruct fs)). Qed.

(** A [#[repr(C)]] structure is laid out soundly: every field lies within the structure, is
    aligned, and does not overlap any other field. *)
Lemma layout_sound (fs : list (string * ctype)) (i j : nat) (e e' : string * Z * ctype) :
  field_offsets 0 fs !! i = Some e -> field_offsets 0 fs !! j = Some e' ->
  0 <= e.1.2 /\ e.1.2 + size_of e.2 <= size_of (CStruct fs) /\ (align_of e.2 | e.1.2) /\
  (i <> j -> e.1.2 + size_of e.2 <= e'.1.2 \/ e'.1.2 + size_of e'.2 <= e.1.2).
Proof.
  intros Hi Hj.
  pose proof (Forall_lookup_1 _ _ _ _ (field_offsets_range fs 0) Hi) as (H1 & H2 & H3).
  pose proof (struct_size_ge fs). split_and!; [done|lia|done|].
  intros Hne. destruct (Nat.lt_total i j) as [?|[?|?]]; [left|done|right];
    by eapply field_offsets_ordered.
Qed.

Lemma layout_sound_witness :
  0 <= 32 /\ 32 + 372 <= 1288 /\ (4 | 32) /\ (8%nat <> 9%nat -> 32 + 372 <= 404 \/ 404 + 372 <= 32).
Proof.
  exact (layout_sound
    match SlotZero_t with CStruct fs => fs | _ => [] end 8%nat 9%nat
    ("master", 32, SharedState_t) ("slave", 404, SharedState_t) eq_refl eq_refl).
Defined.

(** The sizes the code relies on. *)
Lemma size_of_SlotZero : size_of SlotZero_t = 1288.
Proof. reflexivity. Qed.
Lemma VCHIQ_SLOT_ZERO_SLOTS_eq : VCHIQ_SLOT_ZERO_SLOTS = 1.
Proof. reflexivity. Qed.
Lemma TOTAL_SLOTS_eq : TOTAL_SLOTS = 65.
Proof. reflexivity. Qed.
