(* ===== verification/Types.v ===== *)
(** The types of [src/types.rs] and the error types: service identifiers, callback reasons, errors. *)

From S2P Require Import Prelude.

(** ** [FourCC] *)

(** [src/types.rs] and [src/vchiq/shared/mod.rs] each define this type, with the same code. *)
Definition FourCC : Type := Z.

Definition FourCC_from (orig : list Z) : FourCC :=
  Z.lor (Z.lor (Z.lor (u32 (Z.shiftl (nth 0 orig 0) 24)) (u32 (Z.shiftl (nth 1 orig 0) 16)))
               (u32 (Z.shiftl (nth 2 orig 0) 8)))
        (u32 (Z.shiftl (nth 3 orig 0) 0)).

(** [fmt::Debug]: the code points written, quotes included. *)
Definition FourCC_fmt (f : FourCC) : list Z :=
  [39; u8 (Z.land (Z.shiftr f 24) 255); u8 (Z.land (Z.shiftr f 16) 255);
       u8 (Z.land (Z.shiftr f 8) 255); u8 (Z.land (Z.shiftr f 0) 255); 39].

(** ** Handles, reasons *)

(** [ServiceHandle(pub usize)]. *)
Definition ServiceHandle : Type := Z.

Inductive Reason : Type :=
| SERVICE_OPENED | SERVICE_CLOSED | MESSAGE_AVAILABLE
| BULK_TRANSMIT_DONE | BULK_RECEIVE_DONE | BULK_TRANSMIT_ABORTED | BULK_RECEIVE_ABORTED.

#[export] Instance Reason_eq_dec : EqDecision Reason.
Proof. solve_decision. Defined.

(** ** Errors: [src/vchiq/error.rs], [src/vchi/error.rs] and [GenericError] of [ruspiro_error] *)

Inductive VchiqError : Type :=
| StateNotInitialized
| AlreadyConnected
| NotConnected
| ServiceNotFound (h : ServiceHandle)
| ServiceClosing
| ServiceAlreadyClosed (h : ServiceHandle)
| UnableToAddService
| UnableToOpenService (h : ServiceHandle)
| UnableToCloseService (h : ServiceHandle)
| DataMessageWithoutService.

Inductive VchiError : Type :=
| VchiNotInitialized
| VchiServiceNotFound (h : ServiceHandle).

Inductive BoxError : Type :=
| EVchiq (e : VchiqError)
| EVchi (e : VchiError)
| EGeneric (msg : string).

#[export] Instance VchiqError_eq_dec : EqDecision VchiqError.
Proof. solve_decision. Defined.
#[export] Instance VchiError_eq_dec : EqDecision VchiError.
Proof. solve_decision. Defined.
#[export] Instance BoxError_eq_dec : EqDecision BoxError.
Proof. solve_decision. Defined.

(** [VchiqResult<T>] and [VchiResult<T>]. *)
Definition VchiqResult (A : Type) : Type := Result A BoxError.

(** ** Properties *)

Lemma FourCC_from_val a b c d :
  0 <= a < 256 -> 0 <= b < 256 -> 0 <= c < 256 -> 0 <= d < 256 ->
  FourCC_from [a; b; c; d] = a * 2 ^ 24 + b * 2 ^ 16 + c * 2 ^ 8 + d.
Proof.
  intros Ha Hb Hc Hd. unfold FourCC_from. cbn [nth].
  rewrite !Z.shiftl_mul_pow2 by lia. rewrite !u32_small by (unfold is_u32; lia).
  rewrite (lor_disjoint_add (a * 2 ^ 24) _ 24) by (try rewrite Z.mod_mul; lia).
  rewrite (lor_disjoint_add (a * 2 ^ 24 + _) _ 16)
    by (try lia; replace (a * 2 ^ 24 + b * 2 ^ 16) with ((a * 256 + b) * 2 ^ 16) by lia;
        rewrite Z.mod_mul; lia).
  rewrite (lor_disjoint_add (a * 2 ^ 24 + _ + _) _ 8)
    by (try lia; replace (a * 2 ^ 24 + b * 2 ^ 16 + c * 2 ^ 8) with ((a * 65536 + b * 256 + c) * 2 ^ 8) by lia;
        rewrite Z.mod_mul; lia).
  lia.
Qed.

(** A service identifier prints as the four characters it was made from. *)
Lemma FourCC_roundtrip (a b c d : Z) :
  0 <= a < 256 -> 0 <= b < 256 -> 0 <= c < 256 -> 0 <= d < 256 ->
  FourCC_fmt (FourCC_from [a; b; c; d]) = [39; a; b; c; d; 39].
Proof.
  intros Ha Hb Hc Hd. rewrite FourCC_from_val by done. unfold FourCC_fmt.
  rewrite !Z.shiftr_div_pow2, !(land_mask _ 8) by lia.
  unfold u8. rewrite !Z.mod_mod by lia. repeat f_equal; zdiv.
Qed.

Lemma FourCC_roundtrip_witness :
  FourCC_fmt (FourCC_from [101; 99; 104; 111]) = [39; 101; 99; 104; 111; 39].
Proof. apply (FourCC_roundtrip 101 99 104 111); lia. Defined.
