(* ===== verification/SlotMessage.v ===== *)
(** Messages: [src/vchiq/shared/slotmessage.rs].  Message types, the packing of type and ports into
    a message id, the space a message takes in a slot, and the payload of OPENACK. *)

From S2P Require Import Prelude Memory Layout Types.

(** ** Message types *)

Inductive MessageType : Type :=
| PADDING | CONNECT | OPEN | OPENACK | CLOSE | DATA | BULK_RX | BULK_TX | BULK_RX_DONE
| BULK_TX_DONE | PAUSE | RESUME | REMOTE_USE | REMOTE_RELEASE | REMOTE_USE_ACTIVE.

#[export] Instance MessageType_eq_dec : EqDecision MessageType.
Proof. solve_decision. Defined.

(** [msg_type as u32]. *)
Definition MessageType_val (t : MessageType) : Z :=
  match t with
  | PADDING => 0 | CONNECT => 1 | OPEN => 2 | OPENACK => 3 | CLOSE => 4 | DATA => 5 | BULK_RX => 6
  | BULK_TX => 7 | BULK_RX_DONE => 8 | BULK_TX_DONE => 9 | PAUSE => 10 | RESUME => 11
  | REMOTE_USE => 12 | REMOTE_RELEASE => 13 | REMOTE_USE_ACTIVE => 14
  end.

(** [impl From<u32> for MessageType]: any other number is [unreachable!()]. *)
Definition MessageType_from (orig : Z) : outcome MessageType :=
  if orig =? 0 then Ret PADDING else
  if orig =? 1 then Ret CONNECT else
  if orig =? 2 then Ret OPEN else
  if orig =? 3 then Ret OPENACK else
  if orig =? 4 then Ret CLOSE else
  if orig =? 5 then Ret DATA else
  if orig =? 6 then Ret BULK_RX else
  if orig =? 7 then Ret BULK_TX else
  if orig =? 8 then Ret BULK_RX_DONE else
  if orig =? 9 then Ret BULK_TX_DONE else
  if orig =? 10 then Ret PAUSE else
  if orig =? 11 then Ret RESUME else
  if orig =? 12 then Ret REMOTE_USE else
  if orig =? 13 then Ret REMOTE_RELEASE else
  if orig =? 14 then Ret REMOTE_USE_ACTIVE else Panic PUnreachable.

(** ** Message ids *)

Definition make_msg_id (msg_type : MessageType) (src_port dst_port : Z) : Z :=
  Z.lor (Z.lor (u32 (Z.shiftl (MessageType_val msg_type) 24)) (u32 (Z.shiftl src_port 12)))
        (u32 (Z.shiftl dst_port 0)).

Definition VCHIQ_MSGID_PADDING : Z := make_msg_id PADDING 0 0.

Definition msg_type_from_id (id : Z) : outcome MessageType := MessageType_from (Z.shiftr id 24).
Definition dst_port_from_id (id : Z) : Z := Z.land id 4095.
Definition src_port_from_id (id : Z) : Z := Z.land (Z.shiftr id 12) 4095.

(** ** Messages *)

Record SlotMessageHeader : Type := mkHeader { msgid : Z; msg_size : Z }.

(** [SlotMessage<T>]: [data] is the memory image of the [T]; for [T = Vec<u8>] its bytes. *)
Record SlotMessage : Type := mkMessage { header : SlotMessageHeader; data : list Z }.

#[export] Instance SlotMessageHeader_eq_dec : EqDecision SlotMessageHeader.
Proof. solve_decision. Defined.
#[export] Instance SlotMessage_eq_dec : EqDecision SlotMessage.
Proof. solve_decision. Defined.
#[export] Instance eta_SlotMessageHeader : Eta SlotMessageHeader := fun r => mkHeader (msgid r) (msg_size r).
#[export] Instance eta_SlotMessage : Eta SlotMessage := fun r => mkMessage (header r) (data r).

(** [calc_msg_stride]: header and payload, rounded up to a multiple of the header size. *)
Definition calc_msg_stride (payload_size : Z) : Z :=
  let hdr_size := size_of SlotMessageHeader_t in
  let msg_size := usize_add hdr_size payload_size in
  Z.land (usize_sub (usize_add msg_size hdr_size) 1) (usize_not (hdr_size - 1)).

(** [TryFrom<SlotMessage<Vec<u8>>> for OpenAckPayload]: the payload is a single u16. *)
Definition OpenAckPayload_try_from (message : SlotMessage) : VchiqResult Z :=
  if msg_size (header message) <? 2
  then Err (EGeneric "unable to convert into OpenAckPayload")
  else Ok (le_val (take 2 (data message))).

(** ** Properties *)

Lemma MessageType_from_val t : MessageType_from (MessageType_val t) = Ret t.
Proof. by destruct t. Qed.

Lemma MessageType_val_range t : 0 <= MessageType_val t <= 14.
Proof. destruct t; cbn; lia. Qed.

Lemma MessageType_from_Ret n t : MessageType_from n = Ret t -> n = MessageType_val t.
Proof.
  unfold MessageType_from. intros H.
  repeat match type of H with
         | (if ?a =? ?b then _ else _) = _ => destruct (Z.eqb_spec a b) as [->|]; [by simplify_eq|]
         end.
  done.
Qed.

Lemma make_msg_id_val t src dst :
  0 <= src < 4096 -> 0 <= dst < 4096 ->
  make_msg_id t src dst = MessageType_val t * 2 ^ 24 + src * 2 ^ 12 + dst.
Proof.
  intros Hs Hd. pose proof (MessageType_val_range t). unfold make_msg_id.
  rewrite !Z.shiftl_mul_pow2 by lia. rewrite !u32_small by (unfold is_u32; lia).
  rewrite (lor_disjoint_add (MessageType_val t * 2 ^ 24) _ 24) by (try rewrite Z.mod_mul; lia).
  rewrite (lor_disjoint_add (MessageType_val t * 2 ^ 24 + _) _ 12)
    by (try lia; replace (MessageType_val t * 2 ^ 24 + src * 2 ^ 12)
          with ((MessageType_val t * 4096 + src) * 2 ^ 12) by lia; rewrite Z.mod_mul; lia).
  lia.
Qed.

Lemma src_port_from_id_val id : 0 <= id -> src_port_from_id id = id / 2 ^ 12 mod 2 ^ 12.
Proof. intros. unfold src_port_from_id. by rewrite Z.shiftr_div_pow2, (land_mask _ 12) by lia. Qed.

Lemma dst_port_from_id_val id : dst_port_from_id id = id mod 2 ^ 12.
Proof. unfold dst_port_from_id. by rewrite (land_mask _ 12) by lia. Qed.

Lemma dst_port_range id : 0 <= dst_port_from_id id < 4096.
Proof. rewrite dst_port_from_id_val. zdiv. Qed.

(** C28: type and ports survive the packing into a message id and back, for 12-bit ports. *)
Theorem msg_id_roundtrip (t : MessageType) (src dst : Z) :
  0 <= src < 4096 -> 0 <= dst < 4096 ->
  msg_type_from_id (make_msg_id t src dst) = Ret t /\
  src_port_from_id (make_msg_id t src dst) = src /\
  dst_port_from_id (make_msg_id t src dst) = dst /\
  is_u32 (make_msg_id t src dst).
Proof.
  intros Hs Hd. pose proof (MessageType_val_range t).
  rewrite src_port_from_id_val, dst_port_from_id_val, make_msg_id_val by
    (rewrite ?make_msg_id_val; lia).
  unfold msg_type_from_id, is_u32. rewrite Z.shiftr_div_pow2 by lia. split_and!; try zdiv.
  rewrite <- (MessageType_from_val t). f_equal. zdiv.
Qed.

(** A destination that is no port does not stay in its field: with 0x1000 (a service that has no remote
    port yet) the lowest bit of the source port is set. *)
Lemma make_msg_id_no_port t src :
  0 <= src < 4096 -> make_msg_id t src 4096 = make_msg_id t (Z.lor src 1) 0.
Proof.
  intros Hs. assert (0 <= Z.lor src 1 < 4096) as Hl.
  { assert (0 <= Z.lor src 1) by (apply Z.lor_nonneg; lia). split; [done|].
    destruct (Z.eq_dec (Z.lor src 1) 0) as [->|]; [done|].
    change 4096 with (2 ^ 12). apply Z.log2_lt_pow2; [lia|]. rewrite Z.log2_lor by lia.
    apply Z.max_lub_lt; [|done]. destruct (Z.eq_dec src 0) as [->|]; [done|]. apply Z.log2_lt_pow2; lia. }
  assert (Z.shiftl (Z.lor src 1) 12 = Z.lor (Z.shiftl src 12) 4096) as E by by rewrite Z.shiftl_lor.
  unfold make_msg_id. rewrite Z.lor_0_r, <- Z.lor_assoc. f_equal.
  rewrite !u32_small by (unfold is_u32; rewrite Z.shiftl_mul_pow2; lia). by rewrite E.
Qed.

Lemma msg_id_roundtrip_witness :
  msg_type_from_id (make_msg_id DATA 5 75) = Ret DATA /\
  src_port_from_id (make_msg_id DATA 5 75) = 5 /\
  dst_port_from_id (make_msg_id DATA 5 75) = 75 /\
  is_u32 (make_msg_id DATA 5 75).
Proof. apply (msg_id_roundtrip DATA 5 75); lia. Defined.

(** A port of 0x1000 ([VCHIQ_PORT_FREE]) does not fit: its bit 12 lands in the source port. *)
Lemma make_msg_id_port_free t src :
  0 <= src < 4096 ->
  src_port_from_id (make_msg_id t src 4096) = Z.lor src 1 /\
  dst_port_from_id (make_msg_id t src 4096) = 0.
Proof.
  intros Hs. pose proof (MessageType_val_range t).
  assert (make_msg_id t src 4096 = MessageType_val t * 2 ^ 24 + Z.lor src 1 * 2 ^ 12) as ->.
  { unfold make_msg_id. change (u32 (Z.shiftl 4096 0)) with (Z.shiftl 1 12).
    rewrite <- Z.lor_assoc.
    rewrite (u32_small (Z.shiftl src 12)) by (rewrite Z.shiftl_mul_pow2; unfold is_u32; lia).
    rewrite <- Z.shiftl_lor, !Z.shiftl_mul_pow2 by lia.
    assert (0 <= Z.lor src 1 < 4096).
    { split; [apply Z.lor_nonneg; lia|]. change 4096 with (2 ^ 12).
      apply Z.log2_lt_cancel. rewrite Z.log2_pow2 by lia.
      rewrite Z.log2_lor by lia. change (Z.log2 1) with 0.
      destruct (decide (src = 0)) as [->|]; [cbn; lia|].
      pose proof (Z.log2_lt_pow2 src 12). pose proof (Z.log2_nonneg src). lia. }
    rewrite u32_small by (unfold is_u32; lia).
    rewrite (lor_disjoint_add _ _ 24) by (try rewrite Z.mod_mul; lia). done. }
  assert (0 <= Z.lor src 1) by (apply Z.lor_nonneg; lia).
  assert (Z.lor src 1 < 4096).
  { change 4096 with (2 ^ 12). apply Z.log2_lt_cancel. rewrite Z.log2_pow2, Z.log2_lor by lia.
    change (Z.log2 1) with 0. destruct (decide (src = 0)) as [->|]; [cbn; lia|].
    pose proof (Z.log2_lt_pow2 src 12). pose proof (Z.log2_nonneg src). lia. }
  rewrite src_port_from_id_val, dst_port_from_id_val by lia. split; zdiv.
Qed.

(** Whatever the ports, the id of a DATA message is never read as CLOSE. *)
Lemma make_msg_id_DATA_CLOSE src dst : msg_type_from_id (make_msg_id DATA src dst) <> Ret CLOSE.
Proof.
  intros H%MessageType_from_Ret. assert (Z.testbit (make_msg_id DATA src dst) 24 = true) as Hb.
  { unfold make_msg_id. by rewrite !Z.lor_spec. }
  change (MessageType_val CLOSE) with 4 in H.
  replace 24 with (0 + 24) in Hb by lia. rewrite <- Z.shiftr_spec, H in Hb by lia. done.
Qed.

Lemma calc_msg_stride_val p :
  0 <= p < 2 ^ 64 - 16 -> calc_msg_stride p = (p + 15) - (p + 15) mod 8.
Proof.
  intros Hp. unfold calc_msg_stride. change (size_of SlotMessageHeader_t) with 8.
  ints. rewrite (land_usize_not _ 3) by (try unfold is_usize; lia).
  change (2 ^ 3) with 8. f_equal; [lia|]. f_equal. lia.
Qed.

(** A message occupies the smallest multiple of 8 bytes that holds its header and payload. *)
Lemma calc_msg_stride_least (p : Z) :
  0 <= p < 2 ^ 64 - 16 ->
  (8 | calc_msg_stride p) /\ 8 + p <= calc_msg_stride p < 8 + p + 8 /\
  (forall n, (8 | n) -> 8 + p <= n -> calc_msg_stride p <= n).
Proof.
  intros Hp. rewrite calc_msg_stride_val by done. split_and!; try zdiv.
  - apply Z.mod_divide; [lia|]. zdiv.
  - intros n [k ->] Hn. zdiv.
Qed.

Lemma calc_msg_stride_least_witness :
  (8 | calc_msg_stride 12) /\ 8 + 12 <= calc_msg_stride 12 < 8 + 12 + 8 /\
  (forall n, (8 | n) -> 8 + 12 <= n -> calc_msg_stride 12 <= n).
Proof. apply (calc_msg_stride_least 12). lia. Defined.

Lemma calc_msg_stride_fits p n :
  0 <= p -> 8 + p <= n -> n mod 8 = 0 -> n < 2 ^ 64 - 16 -> 8 <= calc_msg_stride p <= n.
Proof. intros. rewrite calc_msg_stride_val by lia. zdiv. Qed.

Lemma calc_msg_stride_aligned p : 0 <= p < 2 ^ 64 - 16 -> calc_msg_stride p mod 8 = 0.
Proof. intros. rewrite calc_msg_stride_val by done. zdiv. Qed.
