(* ===== verification/Event.v ===== *)
(** Events shared with the VideoCore: [src/vchiq/shared/event.rs], the accessor macros of
    [src/vchiq/shared/macros.rs] and the doorbell of [src/vchiq/doorbell.rs]. *)

From S2P Require Import Prelude Locks Memory Layout.

(** ** [volatile_getter!] and [volatile_setter!] *)

Definition volatile_getter_u16 (t : ctype) (field : string) (inner : Z) (m : mem) : Z :=
  read_u16 m (inner + offset_of t field).
Definition volatile_getter_u32 (t : ctype) (field : string) (inner : Z) (m : mem) : Z :=
  read_u32 m (inner + offset_of t field).
Definition volatile_getter_u32s (t : ctype) (field : string) (n : Z) (inner : Z) (m : mem) : list Z :=
  read_u32s (Z.to_nat n) m (inner + offset_of t field).

Definition volatile_setter_u16 (t : ctype) (field : string) (inner value : Z) (m : mem) : mem :=
  write_u16 m (inner + offset_of t field) value.
Definition volatile_setter_u32 (t : ctype) (field : string) (inner value : Z) (m : mem) : mem :=
  write_u32 m (inner + offset_of t field) value.
Definition volatile_setter_u32s (t : ctype) (field : string) (inner : Z) (value : list Z) (m : mem) : mem :=
  write_u32s m (inner + offset_of t field) value.

(** ** Hardware *)

(** The memory and the device registers written so far, latest first. *)
Record Hw : Type := mkHw { hw_mem : mem; hw_mmio : list (Z * Z) }.
#[export] Instance eta_Hw : Eta Hw := fun r => mkHw (hw_mem r) (hw_mmio r).

Definition PERIPHERAL_BASE : Z := 1056964608. (* 0x3F00_0000 *)
Definition DOORBELL_BASE : Z := PERIPHERAL_BASE + 47104. (* 0x0000_B800 *)
Definition BELL0 : Z := DOORBELL_BASE + 64.
Definition BELL2 : Z := DOORBELL_BASE + 72.

Definition ring_vc_doorbell (hw : Hw) : Hw := hw <| hw_mmio ::= cons (BELL2, 0) |>.

(** ** Events *)

(** Who owns an event; the phantom parameter of [EventAccessor<T>]. *)
Inductive owner : Type := LocalEvent | RemoteEvent.

Section event.
Context {L : LockLib}.

(** [_type], the phantom data, is the parameter. *)
Record EventAccessor (T : owner) : Type := mkEventAccessor { ev_inner : Z; ev_event : option sem }.
Arguments mkEventAccessor {T} _ _.
Arguments ev_inner {T} _.
Arguments ev_event {T} _.
#[export] Instance eta_EventAccessor {T} : Eta (EventAccessor T) :=
  fun r => mkEventAccessor (ev_inner r) (ev_event r).

Definition EventAccessor_new {T} (event : Z) : EventAccessor T := mkEventAccessor event None.

Definition armed {T} (e : EventAccessor T) : mem -> Z := volatile_getter_u32 Event_t "armed" (ev_inner e).
Definition fired {T} (e : EventAccessor T) : mem -> Z := volatile_getter_u32 Event_t "fired" (ev_inner e).
Definition set_armed {T} (e : EventAccessor T) (v : Z) : mem -> mem :=
  volatile_setter_u32 Event_t "armed" (ev_inner e) v.
Definition set_fired {T} (e : EventAccessor T) (v : Z) : mem -> mem :=
  volatile_setter_u32 Event_t "fired" (ev_inner e) v.

(** [init]: disarms the event and keeps the semaphore given, if any. *)
Definition Event_init {T} (e : EventAccessor T) (event : option sem) (m : mem)
  : EventAccessor T * mem :=
  (match event with
   | Some s => e <| ev_event := Some s |>
   | None => e
   end, set_armed e 0 m).

(** [signal_local]. *)
Definition signal_local (e : EventAccessor LocalEvent) (m : mem) : EventAccessor LocalEvent * mem :=
  (e <| ev_event ::= fmap sem_up |>, set_armed e 0 m).

(** *** Waiting *)

(** The event of this side, and the hardware both sides work on. *)
Record EventWorld : Type := mkEventWorld { ew_local : EventAccessor LocalEvent; ew_hw : Hw }.
#[export] Instance eta_EventWorld : Eta EventWorld := fun r => mkEventWorld (ew_local r) (ew_hw r).

(** Single accesses: the other side may do anything between two of them. *)
Definition load_fired : M EventWorld Z := gets (fun w => fired (ew_local w) (hw_mem (ew_hw w))).
Definition store_fired (v : Z) : M EventWorld unit :=
  modify (fun w => w <| ew_hw ::= fun hw => hw <| hw_mem ::= set_fired (ew_local w) v |> |>).
Definition store_armed (v : Z) : M EventWorld unit :=
  modify (fun w => w <| ew_hw ::= fun hw => hw <| hw_mem ::= set_armed (ew_local w) v |> |>).

(** [accessor.event] and its [try_down()]: whether the semaphore was raised. *)
Definition event_try_down : M EventWorld bool :=
  let* w := gets id in
  match ev_event (ew_local w) with
  | Some event =>
      match sem_try_down event with
      | None => ret false
      | Some event' => modify (fun w => w <| ew_local ::= fun e => e <| ev_event := Some event' |> |>) ;; ret true
      end
  | None => raise PEvent
  end.

(** One poll of [EventAccessor<LocalEvent>], access by access; [None] is [Poll::Pending]. *)
Definition Event_poll : Async EventWorld (option unit) :=
  let handled :=
    await* _ := astep (store_fired 0) in
    Done (Some tt) in
  await* f := astep load_fired in
  if f =? 0 then
    await* _ := astep (store_armed 1) in
    await* f := astep load_fired in
    if f =? 0 then
      await* down := astep event_try_down in
      if (down : bool) then
        await* _ := astep (store_armed 0) in
        Done (Some tt)
      else Done None
    else handled
  else handled.

(** [wait], up to the end of its first poll. *)
Definition Event_wait : Async EventWorld (option unit) :=
  await* _ := astep (store_armed 1) in
  Event_poll.

(** *** Signalling *)

(** [signal_remote]: fires the event, and rings the doorbell if the other side armed it. *)
Definition fire (e : EventAccessor RemoteEvent) (hw : Hw) : Hw := hw <| hw_mem ::= set_fired e 1 |>.
Definition ring_if_armed (e : EventAccessor RemoteEvent) (hw : Hw) : Hw :=
  if armed e (hw_mem hw) =? 0 then hw else ring_vc_doorbell hw.
Definition signal_remote (e : EventAccessor RemoteEvent) (hw : Hw) : Hw := ring_if_armed e (fire e hw).
End event.
Arguments mkEventAccessor {L T} _ _.
Arguments ev_inner {L T} _.
Arguments ev_event {L T} _.
Arguments mkEventWorld {L} _ _.
Arguments ew_local {L} _.
Arguments ew_hw {L} _.
#[export] Existing Instances eta_EventAccessor eta_EventWorld.
#[global] Arguments EventAccessor {L} T.

(** ** Properties *)

(** Evaluates the offsets of named fields. *)
Ltac layout_simpl :=
  repeat match goal with
         | |- context [offset_of ?t ?f] =>
             let o := eval vm_compute in (offset_of t f) in change (offset_of t f) with o
         | H : context [offset_of ?t ?f] |- _ =>
             let o := eval vm_compute in (offset_of t f) in change (offset_of t f) with o in H
         end.

Section event_props.
Context {L : LockLib}.

Lemma fired_set_fired {T} (e : EventAccessor T) v m : is_u32 v -> fired e (set_fired e v m) = v.
Proof. apply read_write_u32. Qed.
Lemma armed_set_armed {T} (e : EventAccessor T) v m : is_u32 v -> armed e (set_armed e v m) = v.
Proof. apply read_write_u32. Qed.
Lemma armed_set_fired {T} (e : EventAccessor T) v m : armed e (set_fired e v m) = armed e m.
Proof.
  apply read_uint_agree. unfold set_fired, volatile_setter_u32. layout_simpl.
  apply write_uint_agree. lia.
Qed.
Lemma fired_set_armed {T} (e : EventAccessor T) v m : fired e (set_armed e v m) = fired e m.
Proof.
  apply read_uint_agree. unfold set_armed, volatile_setter_u32. layout_simpl.
  apply write_uint_agree. lia.
Qed.

(** The two flags depend on the bytes of the event only. *)
Lemma fired_agree {T} (e : EventAccessor T) m m' :
  agree m' m (ev_inner e) (size_of Event_t) -> fired e m' = fired e m.
Proof.
  intros Ha. apply (read_uint_agree 4). eapply agree_sub; [exact Ha|..]; layout_simpl;
    change (size_of Event_t) with 12; lia.
Qed.
Lemma armed_agree {T} (e : EventAccessor T) m m' :
  agree m' m (ev_inner e) (size_of Event_t) -> armed e m' = armed e m.
Proof.
  intros Ha. apply (read_uint_agree 4). eapply agree_sub; [exact Ha|..]; layout_simpl;
    change (size_of Event_t) with 12; lia.
Qed.
End event_props.
