(* ===== verification/EventRace.v ===== *)
(** Waiting for an event while the other side signals it, access by access: [Event_poll] and
    [signal_remote] as two parties of a race for the two flags of the event.  The second look of the
    poll at [fired], behind the arming, is what makes the race harmless: a signal that came between
    the first look and the arming rang no doorbell. *)

From stdpp Require Import relations.
From S2P Require Import Prelude Locks Memory Layout Event.

Section race.
Context {L : LockLib} {LL : LockLaws L}.
#[local] Arguments fired : simpl never.
#[local] Arguments armed : simpl never.
#[local] Arguments set_armed : simpl never.
#[local] Arguments set_fired : simpl never.
#[local] Arguments fire : simpl never.
#[local] Arguments ring_if_armed : simpl never.

(** ** The parties *)

(** The future that waits: not waiting, within a poll with the accesses that are left, or pending. *)
Inductive Waiter : Type :=
| Idle
| Polling (f : Async EventWorld (option unit))
| Suspended.

(** The other side: not signalling, or with the event fired and the look at [armed] still to come. *)
Inductive Signaller : Type := Quiet | HasFired.
#[export] Instance Signaller_eq_dec : EqDecision Signaller.
Proof. solve_decision. Defined.

(** What both work on; [owed] is set when the event is fired and cleared when a wait ends, and [mark]
    is how often a doorbell had been rung when the last poll began. *)
Record Race : Type := mkRace { world : EventWorld; signaller : Signaller; owed : bool; mark : nat }.
#[export] Instance eta_Race : Eta Race := fun r => mkRace (world r) (signaller r) (owed r) (mark r).

Definition memory (c : Race) : mem := hw_mem (ew_hw (world c)).
Definition bells (c : Race) : nat := length (hw_mmio (ew_hw (world c))).
Definition semaphore (c : Race) : option sem := ev_event (ew_local (world c)).

(** The event as the other side sees it. *)
Context (r : EventAccessor RemoteEvent).

Definition with_hw (f : Hw -> Hw) (c : Race) : Race := c <| world ::= fun w => w <| ew_hw ::= f |> |>.

(** What happens besides the accesses of the waiter: the two halves of [signal_remote]; the interrupt
    of the doorbell, if it raises the semaphore; and writes to other memory. *)
Inductive others_step : Race -> Race -> Prop :=
| others_fire c : signaller c = Quiet ->
    others_step c (with_hw (fire r) c <| signaller := HasFired |> <| owed := true |>)
| others_ring c : signaller c = HasFired ->
    others_step c (with_hw (ring_if_armed r) c <| signaller := Quiet |>)
| others_local c :
    others_step c (let '(e, m) := signal_local (ew_local (world c)) (memory c) in
                   with_hw (fun hw => hw <| hw_mem := m |>) c <| world ::= fun w => w <| ew_local := e |> |>)
| others_write c (g : mem -> mem) :
    (forall m, agree (g m) m (ev_inner r) (size_of Event_t)) ->
    others_step c (with_hw (fun hw => hw <| hw_mem ::= g |>) c).

Definition begun (c : Race) : Race := c <| mark := bells c |>.

(** A wait begins with [wait], or the event, which is a future itself, is awaited as it is. *)
Inductive race_step : Waiter * Race -> Waiter * Race -> Prop :=
| race_wait c : race_step (Idle, c) (Polling Event_wait, begun c)
| race_await c : race_step (Idle, c) (Polling Event_poll, begun c)
| race_poll c : race_step (Suspended, c) (Polling Event_poll, begun c)
| race_access c {B} (m : M EventWorld B) k b w' :
    m (world c) = Ret (b, w') -> race_step (Polling (Step m k), c) (Polling (k b), c <| world := w' |>)
| race_ready c : race_step (Polling (Done (Some tt)), c) (Idle, c <| owed := false |>)
| race_pending c : race_step (Polling (Done None), c) (Suspended, c)
| race_others f c c' : others_step c c' -> race_step (f, c) (f, c').

(** ** Assertions that survive what the others do *)

Definition stable (P : Race -> Prop) : Prop := forall c c', others_step c c' -> P c -> P c'.

(** The event is where both sides think, this side has its semaphore, and bells are counted. *)
Record in_place (c : Race) : Prop := {
  place_addr : ev_inner (ew_local (world c)) = ev_inner r;
  place_event : is_Some (semaphore c);
  place_mark : (mark c <= bells c)%nat;
}.

(** A signal that no wait has ended for is still there. *)
Definition kept (c : Race) : Prop := owed c = true -> fired r (memory c) <> 0.

Definition raised (c : Race) : Prop := exists s, semaphore c = Some s /\ 0 < permits s.
Definition rung (c : Race) : Prop := (mark c < bells c)%nat.

(** The next signal will be noticed. *)
Definition alert (c : Race) : Prop := armed r (memory c) <> 0 \/ raised c.
(** A signal that is there has been noticed or is about to be. *)
Definition noticed (c : Race) : Prop :=
  fired r (memory c) <> 0 -> rung c \/ raised c \/ signaller c = HasFired.

Definition watching (c : Race) : Prop := in_place c /\ kept c.
Definition waiting (c : Race) : Prop := watching c /\ alert c /\ noticed c.

(** The accessors of both sides mean the same words. *)
Lemma local_fired c v : in_place c -> fired r (set_armed (ew_local (world c)) v (memory c)) = fired r (memory c).
Proof.
  intros [Hp _ _]. unfold fired. rewrite <- Hp. fold (fired (ew_local (world c))).
  by apply (fired_set_armed (ew_local (world c))).
Qed.
Lemma local_armed c : in_place c -> armed r (set_armed (ew_local (world c)) 1 (memory c)) = 1.
Proof.
  intros [Hp _ _]. unfold armed. rewrite <- Hp. fold (armed (ew_local (world c))).
  apply (armed_set_armed (ew_local (world c))). by vm_compute.
Qed.
Lemma fired_fire hw : fired r (hw_mem (fire r hw)) = 1.
Proof. apply fired_set_fired. by vm_compute. Qed.

Lemma bells_ring hw : (length (hw_mmio hw) <= length (hw_mmio (ring_if_armed r hw)))%nat.
Proof. unfold ring_if_armed. destruct (_ =? 0); cbn; lia. Qed.
Lemma mem_ring hw : hw_mem (ring_if_armed r hw) = hw_mem hw.
Proof. unfold ring_if_armed. by destruct (_ =? 0). Qed.

Lemma permits_up_pos s : 0 < permits (sem_up s).
Proof. rewrite permits_up. pose proof (permits_nonneg s). lia. Qed.

Lemma stable_in_place : stable in_place.
Proof.
  intros c c' [c1 _|c1 _|c1|c1 g _] [Hp Hs Hm].
  - by split.
  - split; [done|done|]. etransitivity; [exact Hm|]. apply bells_ring.
  - split; [done| |done]. unfold semaphore in *. cbn. destruct Hs as [s ->]. by eexists.
  - by split.
Qed.

Lemma stable_watching : stable watching.
Proof.
  intros c c' Hs [Hp Hk]. split; [by eapply stable_in_place|].
  destruct Hs as [c1 _|c1 _|c1|c1 g Hg]; unfold kept, memory in *; cbn in *.
  - intros _. by rewrite fired_fire.
  - by rewrite mem_ring.
  - intros Ho. pose proof (local_fired c1 0 Hp) as E. unfold memory in E. rewrite E. by apply Hk.
  - by rewrite (fired_agree _ _ _ (Hg _)).
Qed.

(** [alert] is kept by the others, whoever raises the semaphore. *)
Lemma alert_others c c' : others_step c c' -> in_place c -> alert c -> alert c'.
Proof.
  intros [c1 _|c1 _|c1|c1 g Hg] [Hp [s Hs] _] Ha; unfold alert, raised, memory, semaphore in *;
    cbn in *.
  - unfold fire. cbn. by rewrite armed_set_fired.
  - by rewrite mem_ring.
  - right. rewrite Hs. exists (sem_up s). split; [done|]. apply permits_up_pos.
  - by rewrite (armed_agree _ _ _ (Hg _)).
Qed.

(** The look at [armed] rings the doorbell, or the semaphore is raised already. *)
Lemma noticed_others c c' : others_step c c' -> in_place c -> alert c -> noticed c -> noticed c'.
Proof.
  intros [c1 _|c1 _|c1|c1 g Hg] Hpl Ha Hn; pose proof Hpl as [Hp [s Hs] Hm]; unfold noticed; cbn.
  - auto.
  - intros _. destruct Ha as [Ha|Hr]; [left|by right; left]. unfold rung, bells, memory in *.
    cbn. unfold ring_if_armed. rewrite (proj2 (Z.eqb_neq _ _)) by done. cbn. lia.
  - intros _. right. left. unfold raised, semaphore in *. cbn. rewrite Hs. exists (sem_up s).
    split; [done|]. apply permits_up_pos.
  - unfold memory in *. cbn. rewrite (fired_agree _ _ _ (Hg _)). exact Hn.
Qed.

Lemma stable_alert : stable (fun c => watching c /\ alert c).
Proof.
  intros c c' Hs [Hw Ha]. split; [by eapply stable_watching|]. by eapply alert_others; [|apply Hw|].
Qed.

Lemma stable_looked (b : Z) : stable (fun c => watching c /\ alert c /\ (b = 0 -> noticed c)).
Proof.
  intros c c' Hs (Hw & Ha & Hn). pose proof Hw as [Hp _]. split; [by eapply stable_watching|].
  split; [by eapply alert_others|]. intros Hb. eapply noticed_others; eauto.
Qed.

Lemma stable_waiting : stable waiting.
Proof.
  intros c c' Hs (Hw & Ha & Hn). destruct (stable_looked 0 c c' Hs) as (? & ? & ?); [done|]. split_and!; auto.
Qed.

(** ** A poll as one party *)

(** [accesses P f Q]: every access of [f] leads from one stable assertion to the next, from [P] to [Q]. *)
Fixpoint accesses {A} (P : Race -> Prop) (f : Async EventWorld A) (Q : A -> Race -> Prop) : Prop :=
  match f with
  | Done a => forall c, P c -> Q a c
  | Step m k => exists P' : _ -> Race -> Prop,
      (forall c b w', P c -> m (world c) = Ret (b, w') -> P' b (c <| world := w' |>)) /\
      forall b, stable (P' b) /\ accesses (P' b) (k b) Q
  | Await _ _ => False
  end.

(** What is known when a poll has ended. *)
Definition polled (o : option unit) (c : Race) : Prop :=
  match o with
  | Some _ => in_place c
  | None => waiting c
  end.

Lemma store_armed_keeps v c u w' :
  watching c -> store_armed v (world c) = Ret (u, w') -> watching (c <| world := w' |>).
Proof.
  intros [Hp Hk] [= _ <-]. split; [by destruct Hp|]. unfold kept, memory in *. cbn. intros Ho.
  pose proof (local_fired c v Hp) as E. unfold memory in E. rewrite E. by apply Hk.
Qed.

Lemma handled_accesses :
  accesses in_place (await* _ := astep (store_fired 0) in Done (Some tt)) polled.
Proof.
  exists (fun _ => in_place). split; [|intros b; split; [apply stable_in_place|by intros c]].
  intros c b w' [? ? ?] [= _ <-]. by split.
Qed.

Lemma accesses_pre {A} P P' (f : Async EventWorld A) Q : (forall c, P' c -> P c) -> accesses P f Q -> accesses P' f Q.
Proof. intros HP. destruct f as [a|B m k|B p k]; cbn; [auto| |done]. intros (P1 & Hm & Hk). exists P1. eauto. Qed.

Lemma Event_poll_accesses : accesses watching Event_poll polled.
Proof.
  (* first look *)
  exists (fun _ => watching). split; [by intros [] b w' Hw [= _ <-]|]. intros f. split; [apply stable_watching|].
  cbn [abind]. destruct (f =? 0); [|eapply accesses_pre, handled_accesses; by intros c []]. clear f.
  (* arming *)
  exists (fun _ c => watching c /\ alert c). split.
  { intros c b w' Hw E. pose proof (store_armed_keeps _ _ _ _ Hw E) as Hw'. split; [done|]. left.
    injection E as _ <-. pose proof (local_armed c (proj1 Hw)) as E. unfold memory in *. cbn. by rewrite E. }
  intros []. split; [apply stable_alert|]. cbn [abind].
  (* second look *)
  exists (fun f c => watching c /\ alert c /\ (f = 0 -> noticed c)). split.
  { intros [] b w' [Hw Ha] [= <- <-]. split; [exact Hw|]. split; [exact Ha|]. intros Hf.
    pose proof (place_addr _ (proj1 Hw)) as Hp. cbn in Hp, Hf. unfold fired in Hf. rewrite Hp in Hf. by intros []. }
  intros f. split; [apply stable_looked|]. cbn [abind].
  destruct (Z.eqb_spec f 0) as [->|_]; [|eapply accesses_pre, handled_accesses; by intros c [[] _]].
  (* the semaphore *)
  exists (fun (down : bool) c => if down then in_place c else waiting c). split.
  { intros [] b w' (Hw & Ha & Hn) E. destruct (place_event _ (proj1 Hw)) as [s Hs]. unfold event_try_down in E.
    rewrite bind_gets in E. cbn [id] in E. unfold semaphore in Hs. rewrite Hs in E.
    destruct (sem_try_down s) as [s'|].
    - rewrite bind_modify in E. injection E as <- <-. destruct Hw as [[? ? ?] _]. split; [done|by eexists|done].
    - injection E as <- <-. split; [exact Hw|]. split; [exact Ha|by apply Hn]. }
  intros [|]; (split; [apply stable_in_place || apply stable_waiting|]); [|by intros c].
  exists (fun _ => in_place). split; [|intros b; split; [apply stable_in_place|by intros c]].
  intros c b w' [? ? ?] [= _ <-]. by split.
Qed.

Lemma Event_wait_accesses : accesses watching Event_wait polled.
Proof.
  exists (fun _ => watching). split; [apply store_armed_keeps|]. intros b. split; [apply stable_watching|].
  apply Event_poll_accesses.
Qed.
(** ** The race *)

(** What is known of the waiter; between two accesses this is stable. *)
Definition covered (x : Waiter * Race) : Prop :=
  match x.1 with
  | Idle => watching x.2
  | Polling f => exists P, stable P /\ P x.2 /\ accesses P f polled
  | Suspended => waiting x.2
  end.

Lemma stable_begun c : watching c -> watching (begun c).
Proof. intros [[? ? ?] Hk]. split; [by split|exact Hk]. Qed.

Lemma race_step_covered x x' : race_step x x' -> covered x -> covered x'.
Proof.
  intros [c|c|c|c B m k b w' E|c|c|f c c' Hs] Hx; unfold covered in *; cbn [fst snd] in *.
  - exists watching. split; [apply stable_watching|]. split; [by apply stable_begun|apply Event_wait_accesses].
  - exists watching. split; [apply stable_watching|]. split; [by apply stable_begun|apply Event_poll_accesses].
  - exists watching. split; [apply stable_watching|]. split; [apply stable_begun, Hx|apply Event_poll_accesses].
  - destruct Hx as (P & _ & HP & P' & Hm & Hk). destruct (Hk b). exists (P' b). split; [done|].
    split; [by eapply Hm|done].
  - destruct Hx as (P & _ & HP & HQ). destruct (HQ _ HP) as [? ? ?]. split; [by split|done].
  - destruct Hx as (P & _ & HP & HQ). exact (HQ _ HP).
  - destruct f as [|f|]; cbn.
    + by eapply stable_watching.
    + destruct Hx as (P & HPs & HP & HQ). exists P. split; [done|]. split; [by eapply HPs|done].
    + by eapply stable_waiting.
Qed.

(** Nobody waits and nothing was signalled. *)
Record race_start (c : Race) : Prop := {
  start_place : ev_inner (ew_local (world c)) = ev_inner r /\ is_Some (semaphore c);
  start_quiet : signaller c = Quiet /\ owed c = false;
  start_mark : mark c = bells c;
}.

Lemma race_covered c x : race_start c -> rtc race_step (Idle, c) x -> covered x.
Proof.
  intros [[Hp Hs] [_ Ho] Hm] Hx.
  assert (covered (Idle, c)) as H0.
  { split; [split; [done|done|cbn; lia]|]. intros H. cbn in H. congruence. }
  clear -Hx H0. induction Hx as [x|x y z Hxy _ IH]; [done|]. apply IH. by eapply race_step_covered.
Qed.

(** Nobody interferes: a poll of a fired event is ready at once and takes the signal. *)
Lemma poll_fired w :
  fired (ew_local w) (hw_mem (ew_hw w)) <> 0 ->
  exists w', poll Event_poll w = Ret (inl (Some tt), w') /\ fired (ew_local w') (hw_mem (ew_hw w')) = 0.
Proof.
  intros Hf. eexists. split.
  - unfold Event_poll, astep. cbn [abind poll]. unfold load_fired. rewrite bind_gets.
    rewrite (proj2 (Z.eqb_neq _ _)) by exact Hf. reflexivity.
  - apply fired_set_fired. by vm_compute.
Qed.

Lemma wait_fired w :
  fired (ew_local w) (hw_mem (ew_hw w)) <> 0 ->
  exists w', poll Event_wait w = Ret (inl (Some tt), w') /\ fired (ew_local w') (hw_mem (ew_hw w')) = 0.
Proof.
  intros Hf. unfold Event_wait, astep. cbn [abind]. rewrite (poll_Step _ _ _ tt _ eq_refl). cbn [abind].
  apply poll_fired. cbn. by rewrite fired_set_armed.
Qed.

(** C24: no signal of an event is lost, whatever the order of the accesses.  One side waits for an event
    as often as it likes, by [wait] or by awaiting the event as it is; the other signals it as often
    as it likes with the code of [signal_remote]; their accesses are interleaved in any order, with
    writes to other memory and with the interrupt that raises the semaphore.  Suppose that in a state reached the event was fired and no wait has
    ended since.  If the waiter is pending, the signal is still there; the doorbell was rung since its
    last poll began, or its semaphore is raised, or the other side has yet to look at [armed] and then
    rings; and its next poll, undisturbed, is ready and takes the signal.  If nobody waits, the next
    wait is ready at once. *)
Theorem event_no_lost_signal (c0 : Race) (f : Waiter) (c : Race) :
  race_start c0 -> rtc race_step (Idle, c0) (f, c) -> owed c = true ->
  let ready (p : Async EventWorld (option unit)) :=
    exists w', poll p (world c) = Ret (inl (Some tt), w') /\ fired (ew_local w') (hw_mem (ew_hw w')) = 0 in
  (f = Suspended ->
     fired r (memory c) <> 0 /\
     (signaller c = Quiet -> rung c \/ raised c) /\
     (signaller c = HasFired -> hw_mmio (ring_if_armed r (ew_hw (world c))) = (BELL2, 0) :: hw_mmio (ew_hw (world c)) \/
                                raised c) /\
     ready Event_poll) /\
  (f = Idle -> ready Event_wait /\ ready Event_poll).
Proof.
  intros Hc0 Hx Ho ready. pose proof (race_covered c0 _ Hc0 Hx) as Hc. unfold covered in Hc.
  assert (watching c -> fired (ew_local (world c)) (hw_mem (ew_hw (world c))) <> 0) as Hfired.
  { intros [Hp Hk]. unfold fired. rewrite (place_addr _ Hp). by apply Hk. }
  split; intros ->; cbn in Hc.
  - destruct Hc as (Hw & Ha & Hn). split_and!.
    + by apply Hw.
    + intros Hq. destruct Hn as [?|[?|?]]; [by apply Hw|by left|by right|congruence].
    + intros _. destruct Ha as [Ha|Ha]; [left|by right]. unfold ring_if_armed, memory in *.
      by rewrite (proj2 (Z.eqb_neq _ _)).
    + by apply poll_fired, Hfired.
  - split; [by apply wait_fired, Hfired|by apply poll_fired, Hfired].
Qed.
End race.

(** A wait for an event at address 4096 that becomes pending; then the event is fired and the other
    side, which finds it armed, rings. *)
Definition race0 : Race (L := counting_locks) :=
  mkRace (mkEventWorld (mkEventAccessor 4096 (Some (sem_new 0))) (mkHw (fun _ => 0) [])) Quiet false 0.

Lemma race_pends : exists c,
  rtc (race_step (L := counting_locks) (EventAccessor_new 4096)) (Idle, race0) (Suspended, c) /\
  signaller c = Quiet /\ owed c = true /\ length (hw_mmio (ew_hw (world c))) = 1%nat.
Proof.
  eexists. split.
  - eapply rtc_l; [apply race_wait|].
    eapply rtc_l; [eapply race_access; reflexivity|].
    eapply rtc_l; [eapply race_access; reflexivity|].
    eapply rtc_l; [eapply race_access; reflexivity|].
    eapply rtc_l; [eapply race_access; reflexivity|].
    eapply rtc_l; [eapply (race_access _ _ event_try_down _ false); reflexivity|].
    eapply rtc_l; [apply race_pending|].
    eapply rtc_l; [apply race_others, others_fire; reflexivity|].
    apply rtc_once, race_others, others_ring. reflexivity.
  - split; [reflexivity|]. split; [reflexivity|]. vm_compute. reflexivity.
Qed.

Lemma event_no_lost_signal_witness :
  exists c, rtc (race_step (L := counting_locks) (EventAccessor_new 4096)) (Idle, race0) (Suspended, c) /\
    (rung c \/ raised c) /\
    exists w', poll Event_poll (world c) = Ret (inl (Some tt), w') /\
      fired (ew_local w') (hw_mem (ew_hw w')) = 0.
Proof.
  destruct race_pends as (c & Hx & Hq & Ho & _).
  assert (race_start (EventAccessor_new 4096) race0) as H0.
  { split; [split; [reflexivity|by exists 0%nat]|by split|reflexivity]. }
  destruct (event_no_lost_signal (L := counting_locks) (EventAccessor_new 4096) race0 Suspended c H0 Hx Ho)
    as [H _].
  destruct (H eq_refl) as (_ & Hrung & _ & Hready).
  exists c. split; [exact Hx|]. split; [exact (Hrung Hq)|exact Hready].
Defined.
