(* ===== verification/SlotZero.v ===== *)
(** The control block of the shared memory: [SharedState] of each side
    ([src/vchiq/shared/sharedstate.rs]) within [SlotZero] ([src/vchiq/shared/slotzero.rs]). *)

From S2P Require Import Prelude Locks Memory Layout Types Event.

Section slotzero.
Context {L : LockLib}.

(** ** [SharedStateAccessor<T>] *)

Record SharedStateAccessor (T : owner) : Type := mkSharedStateAccessor {
  ss_inner : Z;
  trigger : EventAccessor T;
  recycle : EventAccessor T;
  sync_trigger : EventAccessor T;
  sync_release : EventAccessor T;
}.
Arguments mkSharedStateAccessor {T} _ _ _ _ _.
Arguments ss_inner {T} _.
Arguments trigger {T} _.
Arguments recycle {T} _.
Arguments sync_trigger {T} _.
Arguments sync_release {T} _.
#[export] Instance eta_SharedStateAccessor {T} : Eta (SharedStateAccessor T) := fun r =>
  mkSharedStateAccessor (ss_inner r) (trigger r) (recycle r) (sync_trigger r) (sync_release r).

Definition SharedStateAccessor_new {T} (shared_state : Z) : SharedStateAccessor T :=
  mkSharedStateAccessor shared_state
    (EventAccessor_new (shared_state + offset_of SharedState_t "trigger"))
    (EventAccessor_new (shared_state + offset_of SharedState_t "recycle"))
    (EventAccessor_new (shared_state + offset_of SharedState_t "sync_trigger"))
    (EventAccessor_new (shared_state + offset_of SharedState_t "sync_release")).

Definition initialized {T} (a : SharedStateAccessor T) := volatile_getter_u32 SharedState_t "initialized" (ss_inner a).
Definition set_initialized {T} (a : SharedStateAccessor T) := volatile_setter_u32 SharedState_t "initialized" (ss_inner a).
Definition slot_first {T} (a : SharedStateAccessor T) := volatile_getter_u32 SharedState_t "slot_first" (ss_inner a).
Definition set_slot_first {T} (a : SharedStateAccessor T) := volatile_setter_u32 SharedState_t "slot_first" (ss_inner a).
Definition slot_last {T} (a : SharedStateAccessor T) := volatile_getter_u32 SharedState_t "slot_last" (ss_inner a).
Definition set_slot_last {T} (a : SharedStateAccessor T) := volatile_setter_u32 SharedState_t "slot_last" (ss_inner a).
Definition slot_sync {T} (a : SharedStateAccessor T) := volatile_getter_u32 SharedState_t "slot_sync" (ss_inner a).
Definition set_slot_sync {T} (a : SharedStateAccessor T) := volatile_setter_u32 SharedState_t "slot_sync" (ss_inner a).
Definition tx_pos {T} (a : SharedStateAccessor T) := volatile_getter_u32 SharedState_t "tx_pos" (ss_inner a).
Definition set_tx_pos {T} (a : SharedStateAccessor T) := volatile_setter_u32 SharedState_t "tx_pos" (ss_inner a).
Definition slot_queue_recycle {T} (a : SharedStateAccessor T) := volatile_getter_u32 SharedState_t "slot_queue_recycle" (ss_inner a).
Definition set_slot_queue_recycle {T} (a : SharedStateAccessor T) := volatile_setter_u32 SharedState_t "slot_queue_recycle" (ss_inner a).
Definition slot_queue {T} (a : SharedStateAccessor T) := volatile_getter_u32s SharedState_t "slot_queue" VCHIQ_MAX_SLOTS_PER_SIDE (ss_inner a).
Definition set_slot_queue {T} (a : SharedStateAccessor T) := volatile_setter_u32s SharedState_t "slot_queue" (ss_inner a).
Definition debug {T} (a : SharedStateAccessor T) := volatile_getter_u32s SharedState_t "debug" (DebugInfo_val MAX) (ss_inner a).
Definition set_debug {T} (a : SharedStateAccessor T) := volatile_setter_u32s SharedState_t "debug" (ss_inner a).

(** ** [SlotZeroAccessor] *)

(** [slots], the accessor of the slot infos, is kept by its address; the code never reads or
    writes through it. *)
Record SlotZeroAccessor : Type := mkSlotZeroAccessor {
  sz_inner : Z;
  local : SharedStateAccessor LocalEvent;
  remote : SharedStateAccessor RemoteEvent;
  slots : Z;
  total_memory : Z;
}.
#[export] Instance eta_SlotZeroAccessor : Eta SlotZeroAccessor := fun r =>
  mkSlotZeroAccessor (sz_inner r) (local r) (remote r) (slots r) (total_memory r).

Definition SlotZeroAccessor_new (slot_zero total_memory : Z) : SlotZeroAccessor :=
  mkSlotZeroAccessor slot_zero
    (SharedStateAccessor_new (slot_zero + offset_of SlotZero_t "slave"))
    (SharedStateAccessor_new (slot_zero + offset_of SlotZero_t "master"))
    (slot_zero + offset_of SlotZero_t "slots") total_memory.

Definition magic (a : SlotZeroAccessor) := volatile_getter_u32 SlotZero_t "magic" (sz_inner a).
Definition set_magic (a : SlotZeroAccessor) := volatile_setter_u32 SlotZero_t "magic" (sz_inner a).
Definition version (a : SlotZeroAccessor) := volatile_getter_u16 SlotZero_t "version" (sz_inner a).
Definition set_version (a : SlotZeroAccessor) := volatile_setter_u16 SlotZero_t "version" (sz_inner a).
Definition version_min (a : SlotZeroAccessor) := volatile_getter_u16 SlotZero_t "version_min" (sz_inner a).
Definition set_version_min (a : SlotZeroAccessor) := volatile_setter_u16 SlotZero_t "version_min" (sz_inner a).
Definition slot_zero_size (a : SlotZeroAccessor) := volatile_getter_u32 SlotZero_t "slot_zero_size" (sz_inner a).
Definition set_slot_zero_size (a : SlotZeroAccessor) := volatile_setter_u32 SlotZero_t "slot_zero_size" (sz_inner a).
Definition slot_size (a : SlotZeroAccessor) := volatile_getter_u32 SlotZero_t "slot_size" (sz_inner a).
Definition set_slot_size (a : SlotZeroAccessor) := volatile_setter_u32 SlotZero_t "slot_size" (sz_inner a).
Definition max_slots (a : SlotZeroAccessor) := volatile_getter_u32 SlotZero_t "max_slots" (sz_inner a).
Definition set_max_slots (a : SlotZeroAccessor) := volatile_setter_u32 SlotZero_t "max_slots" (sz_inner a).
Definition max_slots_per_side (a : SlotZeroAccessor) := volatile_getter_u32 SlotZero_t "max_slots_per_side" (sz_inner a).
Definition set_max_slots_per_side (a : SlotZeroAccessor) := volatile_setter_u32 SlotZero_t "max_slots_per_side" (sz_inner a).
Definition platform_data (a : SlotZeroAccessor) := volatile_getter_u32s SlotZero_t "platform_data" 2 (sz_inner a).
Definition set_platform_data (a : SlotZeroAccessor) := volatile_setter_u32s SlotZero_t "platform_data" (sz_inner a).

(** [for i in 0..n { slot_queue[i as usize] = i + first; }] *)
Fixpoint fill_slot_queue (first : Z) (n : nat) (slot_queue : list Z) : outcome (list Z) :=
  match n with
  | O => Ret slot_queue
  | S n =>
      match fill_slot_queue first n slot_queue with
      | Ret q => if decide (n < length q)%nat then Ret (<[n := u32 (Z.of_nat n + first)]> q)
                 else Panic PIndex
      | o => o
      end
  end.

(** The plain fields and the slot indices, up to [self.local_mut().set_tx_pos(0)]. *)
Definition initialize_fields (a : SlotZeroAccessor) (first_data_slot num_slots : Z) (m : mem) : mem :=
  let m := set_magic a (FourCC_from [86; 67; 72; 73]) m in (* b"VCHI" *)
  let m := set_version a 8 m in
  let m := set_version_min a 3 m in
  let m := set_slot_zero_size a (u32 (size_of SlotZero_t)) m in
  let m := set_slot_size a (u32 VCHIQ_SLOT_SIZE) m in
  let m := set_max_slots a (u32 VCHIQ_MAX_SLOTS) m in
  let m := set_max_slots_per_side a (u32 VCHIQ_MAX_SLOTS_PER_SIDE) m in
  let m := set_slot_sync (remote a) (u32 first_data_slot) m in
  let m := set_slot_first (remote a) (u32 (usize_add first_data_slot 1)) m in
  let m := set_slot_last (remote a) (u32 (usize_sub (usize_add first_data_slot (num_slots / 2)) 1)) m in
  let m := set_slot_sync (local a) (u32 (usize_add first_data_slot (num_slots / 2))) m in
  let m := set_slot_first (local a) (u32 (usize_add (usize_add first_data_slot (num_slots / 2)) 1)) m in
  let m := set_slot_last (local a) (u32 (usize_sub (usize_add first_data_slot num_slots) 1)) m in
  set_tx_pos (local a) 0 m.

(** The events of the ARM side get a semaphore each; then the side is marked initialized. *)
Definition initialize_events (a : SlotZeroAccessor) (m : mem) : SlotZeroAccessor * mem :=
  let '(e, m) := Event_init (trigger (local a)) (Some (sem_new 0)) m in
  let a := a <| local ::= fun l => l <| trigger := e |> |> in
  let '(e, m) := Event_init (sync_trigger (local a)) (Some (sem_new 0)) m in
  let a := a <| local ::= fun l => l <| sync_trigger := e |> |> in
  let '(e, m) := Event_init (sync_release (local a)) (Some (sem_new 0)) m in
  let a := a <| local ::= fun l => l <| sync_release := e |> |> in
  let '(e, m) := Event_init (recycle (local a)) (Some (sem_new 0)) m in
  let a := a <| local ::= fun l => l <| recycle := e |> |> in
  (a, set_initialized (local a) 1 m).

(** [SlotZeroAccessor::initialize]: returns the number of slots. *)
Definition initialize (a : SlotZeroAccessor) (m : mem) : outcome (Z * SlotZeroAccessor * mem) :=
  let slot_zero_size := size_of SlotZero_t in
  let first_data_slot := (slot_zero_size + VCHIQ_SLOT_SIZE - 1) / VCHIQ_SLOT_SIZE in
  let num_slots := usize_sub (total_memory a / VCHIQ_SLOT_SIZE) first_data_slot in
  if num_slots <? 4 then Panic PAssert else
  let m := initialize_fields a first_data_slot num_slots m in
  let q := slot_queue (local a) m in
  let first := slot_first (local a) m in
  let last := slot_last (local a) m in
  let slot_queue_available := u32 (u32 (last - first) + 1) in
  match fill_slot_queue first (Z.to_nat slot_queue_available) q with
  | Ret q =>
      let m := set_slot_queue (local a) q m in
      let d := debug (local a) m in
      let d := <[Z.to_nat (DebugInfo_val ENTRIES) := u32 (DebugInfo_val MAX)]> d in
      let m := set_debug (local a) d m in
      let '(a, m) := initialize_events a m in
      Ret (num_slots, a, m)
  | Panic p => Panic p
  | Blocked => Blocked
  | OutOfFuel => OutOfFuel
  end.
End slotzero.
Arguments mkSharedStateAccessor {L T} _ _ _ _ _.
Arguments ss_inner {L T} _.
Arguments trigger {L T} _.
Arguments recycle {L T} _.
Arguments sync_trigger {L T} _.
Arguments sync_release {L T} _.
#[global] Arguments SharedStateAccessor {L} T.
#[export] Existing Instance eta_SharedStateAccessor.
#[export] Existing Instance eta_SlotZeroAccessor.

Create HintDb accessors.
#[export] Hint Unfold initialized set_initialized slot_first set_slot_first slot_last set_slot_last
  slot_sync set_slot_sync tx_pos set_tx_pos slot_queue_recycle set_slot_queue_recycle slot_queue
  set_slot_queue debug set_debug magic set_magic version set_version version_min set_version_min
  slot_zero_size set_slot_zero_size slot_size set_slot_size max_slots set_max_slots
  max_slots_per_side set_max_slots_per_side platform_data set_platform_data armed set_armed fired
  set_fired volatile_getter_u16 volatile_getter_u32 volatile_getter_u32s volatile_setter_u16
  volatile_setter_u32 volatile_setter_u32s read_u16 write_u16 read_u32 write_u32 : accessors.

(** ** Properties *)

(** Exposes the memory accesses of accessor terms as reads and writes at plain addresses. *)
Ltac accessors_simpl :=
  autounfold with accessors in *;
  cbn [sz_inner local remote slots total_memory ss_inner trigger recycle sync_trigger sync_release
       ev_inner SlotZeroAccessor_new SharedStateAccessor_new EventAccessor_new update] in *;
  layout_simpl;
  change VCHIQ_SLOT_SIZE with 4096 in *; change VCHIQ_MAX_SLOTS with 128 in *;
  change VCHIQ_MAX_SLOTS_PER_SIDE with 64 in *; change (size_of SlotZero_t) with 1288 in *;
  change (DebugInfo_val MAX) with 11 in *; change (DebugInfo_val ENTRIES) with 0 in *;
  change (FourCC_from [86; 67; 72; 73]) with 1447249993 in *.

Section slotzero_props.
Context {L : LockLib}.

(** The slots of the two sides after initialization: one sync slot and a range of data slots for
    the VideoCore, then the same for the ARM side, up to the last slot. *)
Record partitioned (a : SlotZeroAccessor) (num_slots : Z) (m : mem) : Prop := {
  part_remote_sync : slot_sync (remote a) m = 1;
  part_remote_first : slot_first (remote a) m = 2;
  part_remote_last : slot_last (remote a) m = num_slots / 2;
  part_local_sync : slot_sync (local a) m = num_slots / 2 + 1;
  part_local_first : slot_first (local a) m = num_slots / 2 + 2;
  part_local_last : slot_last (local a) m = num_slots;
  part_tx_pos : tx_pos (local a) m = 0;
  part_magic : magic a m = 1447249993; (* 'VCHI' *)
  part_slot_size : slot_size a m = 4096;
}.

Lemma initialize_fields_spec base total ns m :
  4 <= ns < 2 ^ 31 ->
  partitioned (SlotZeroAccessor_new base total) ns
    (initialize_fields (SlotZeroAccessor_new base total) 1 ns m).
Proof.
  intros Hns. assert (2 <= ns / 2 < 2 ^ 30) by zdiv.
  constructor; unfold initialize_fields; accessors_simpl; ints; mem_simpl; lia.
Qed.

Lemma initialize_fields_agree base total fds ns m a n :
  a + n <= base \/ base + 1288 <= a ->
  agree (initialize_fields (SlotZeroAccessor_new base total) fds ns m) m a n.
Proof.
  intros Ha. unfold initialize_fields. accessors_simpl.
  repeat (eapply agree_trans; [apply write_uint_agree; lia|]). done.
Qed.

Lemma fill_slot_queue_length first n q q' : fill_slot_queue first n q = Ret q' -> length q' = length q.
Proof.
  revert q'. induction n as [|n IH]; cbn; intros q' Hq; [by simplify_eq|].
  destruct (fill_slot_queue first n q) as [q1| | |] eqn:E; [|done..].
  case_decide; simplify_eq. rewrite length_insert. by apply IH.
Qed.

Lemma fill_slot_queue_Ret first n q :
  (n <= length q)%nat ->
  exists q', fill_slot_queue first n q = Ret q' /\
    forall i, q' !! i = if decide (i < n)%nat then Some (u32 (Z.of_nat i + first)) else q !! i.
Proof.
  induction n as [|n IH]; intros Hn; cbn.
  { exists q. split; [done|]. intros i. by rewrite decide_False by lia. }
  destruct IH as (q1 & E & Hq1); [lia|]. rewrite E.
  pose proof (fill_slot_queue_length _ _ _ _ E). rewrite decide_True by lia.
  eexists. split; [done|]. intros i. destruct (decide (i = n)) as [->|].
  - rewrite list_lookup_insert_eq by lia. by rewrite decide_True by lia.
  - rewrite list_lookup_insert_ne by done. rewrite Hq1.
    repeat case_decide; done || lia.
Qed.

Lemma fill_slot_queue_Panic first n q :
  (length q < n)%nat -> fill_slot_queue first n q = Panic PIndex.
Proof.
  intros Hn. induction n as [|n IH]; [lia|]. cbn.
  destruct (decide (length q = n)) as [<-|].
  - destruct (fill_slot_queue_Ret first (length q) q) as (q' & E & _); [done|]. rewrite E.
    rewrite decide_False; [done|]. rewrite (fill_slot_queue_length _ _ _ _ E). lia.
  - by rewrite IH by lia.
Qed.

(** The event part of [initialize] sets the [armed] flags and the [initialized] word, nothing
    else, and leaves all addresses of the accessor as they are. *)
Lemma initialize_events_spec base total m :
  let a := SlotZeroAccessor_new base total in
  let '(a', m') := initialize_events a m in
  a' = a <| local := (local a) <| trigger ::= fun e => e <| ev_event := Some (sem_new 0) |> |>
                               <| sync_trigger ::= fun e => e <| ev_event := Some (sem_new 0) |> |>
                               <| sync_release ::= fun e => e <| ev_event := Some (sem_new 0) |> |>
                               <| recycle ::= fun e => e <| ev_event := Some (sem_new 0) |> |> |> /\
  initialized (local a) m' = 1 /\
  agree m' m base 404 /\
  agree m' m (base + 404 + 4) 12 /\
  agree m' m (base + 404 + 28) 4 /\
  agree m' m (base + 404 + 72) 256 /\
  (forall b n, b + n <= base \/ base + 1288 <= b -> agree m' m b n).
Proof.
  cbv zeta. unfold initialize_events, Event_init. accessors_simpl.
  split_and!; [done|by mem_simpl|..]; intros;
    repeat (eapply agree_trans; [apply write_uint_agree; lia|]); done.
Qed.

(** Slot indices and the queue survive any change of memory outside the words that hold them. *)
Lemma partitioned_agree base total ns m m' :
  let a := SlotZeroAccessor_new base total in
  agree m' m base 24 -> agree m' m (base + 32) 372 ->
  agree m' m (base + 404 + 4) 12 -> agree m' m (base + 404 + 28) 4 ->
  partitioned a ns m -> partitioned a ns m'.
Proof.
  cbv zeta. intros H1 H4 H2 H3 []; constructor; accessors_simpl;
    (erewrite read_uint_agree; [eassumption|]);
    first [ eapply agree_sub; [exact H1|lia|lia] | eapply agree_sub; [exact H2|lia|lia]
          | eapply agree_sub; [exact H4|lia|lia] | eapply agree_sub; [exact H3|lia|lia] ].
Qed.

(** What [initialize] promises its callers. *)
Record initialized_ok (base total : Z) (a' : SlotZeroAccessor) (m m' : mem) : Prop := {
  init_partition : partitioned (SlotZeroAccessor_new base total) (total / 4096 - 1) m';
  init_queue : forall i, 0 <= i < (total / 4096 - 1) - (total / 4096 - 1) / 2 - 1 ->
    slot_queue (local a') m' !! Z.to_nat i = Some ((total / 4096 - 1) / 2 + 2 + i);
  init_flag : initialized (local a') m' = 1;
  init_addresses : sz_inner a' = base /\ ss_inner (local a') = base + 404 /\
    remote a' = remote (SlotZeroAccessor_new base total);
  init_frame : forall b n, b + n <= base \/ base + 1288 <= b -> agree m' m b n;
}.

Lemma initialize_num_slots total :
  5 <= total / 4096 < 2 ^ 64 ->
  usize_sub (total / VCHIQ_SLOT_SIZE) ((size_of SlotZero_t + VCHIQ_SLOT_SIZE - 1) / VCHIQ_SLOT_SIZE)
  = total / 4096 - 1.
Proof. intros. change VCHIQ_SLOT_SIZE with 4096. apply usize_sub_small. cbn. lia. Qed.

Lemma length_slot_queue {T} (a : SharedStateAccessor T) m : length (slot_queue a m) = 64%nat.
Proof. unfold slot_queue, volatile_getter_u32s. by rewrite length_read_u32s. Qed.

Lemma length_debug {T} (a : SharedStateAccessor T) m : length (debug a m) = 11%nat.
Proof. unfold debug, volatile_getter_u32s. by rewrite length_read_u32s. Qed.

(** The queue and the debug words come last in [SharedState], from byte 72 on. *)
Lemma set_slot_queue_agree {T} (a : SharedStateAccessor T) q m b n :
  length q = 64%nat -> b + n <= ss_inner a + 72 \/ ss_inner a + 328 <= b ->
  agree (set_slot_queue a q m) m b n.
Proof.
  intros Hq Hb. unfold set_slot_queue, volatile_setter_u32s. layout_simpl.
  apply write_u32s_agree. rewrite Hq. lia.
Qed.

Lemma set_debug_agree {T} (a : SharedStateAccessor T) d m b n :
  length d = 11%nat -> b + n <= ss_inner a + 328 \/ ss_inner a + 372 <= b ->
  agree (set_debug a d m) m b n.
Proof.
  intros Hd Hb. unfold set_debug, volatile_setter_u32s. layout_simpl.
  apply write_u32s_agree. rewrite Hd. lia.
Qed.

Lemma slot_queue_agree {T} (a : SharedStateAccessor T) m m' :
  agree m m' (ss_inner a + 72) 256 -> slot_queue a m = slot_queue a m'.
Proof. intros H. unfold slot_queue, volatile_getter_u32s. layout_simpl. by apply read_u32s_agree. Qed.

Lemma slot_queue_set {T} (a : SharedStateAccessor T) q m :
  length q = 64%nat -> slot_queue a (set_slot_queue a q m) = map u32 q.
Proof.
  intros Hq. unfold slot_queue, set_slot_queue, volatile_getter_u32s, volatile_setter_u32s.
  by rewrite read_write_u32s_wrap by (rewrite Hq; done).
Qed.

(** The number of slots queued: those of the ARM side without its sync slot. *)
Lemma initialize_available base total ns m :
  4 <= ns < 2 ^ 31 ->
  let a := SlotZeroAccessor_new base total in
  let m1 := initialize_fields a 1 ns m in
  u32 (u32 (slot_last (local a) m1 - slot_first (local a) m1) + 1) = ns - ns / 2 - 1.
Proof.
  cbv zeta. intros Hns. destruct (initialize_fields_spec base total ns m Hns).
  rewrite part_local_last0, part_local_first0. assert (2 <= ns / 2 <= ns - 2) by zdiv. ints. lia.
Qed.

(** With room for 4 to 130 slots, [initialize] returns the number of slots, splits them
    between the two sides without overlap - a sync slot and a range of data slots each - queues
    the data slots of the ARM side in order, and touches nothing outside the control block. *)
Lemma initialize_spec (base total : Z) (m : mem) :
  5 <= total / 4096 <= 131 ->
  exists a' m', initialize (SlotZeroAccessor_new base total) m = Ret (total / 4096 - 1, a', m') /\
    initialized_ok base total a' m m'.
Proof.
  intros Ht. set (ns := total / 4096 - 1). assert (4 <= ns <= 130) as Hns by lia.
  assert (2 <= ns / 2 <= ns - 2) as Hh by zdiv.
  assert (ns - ns / 2 - 1 <= 64) as Hq by zdiv.
  unfold initialize. cbn [total_memory SlotZeroAccessor_new].
  rewrite initialize_num_slots by lia. fold ns.
  rewrite (proj2 (Z.ltb_ge ns 4)) by lia.
  change ((size_of SlotZero_t + VCHIQ_SLOT_SIZE - 1) / VCHIQ_SLOT_SIZE) with 1.
  fold (SlotZeroAccessor_new base total). set (a := SlotZeroAccessor_new base total).
  pose proof (initialize_fields_spec base total ns m ltac:(lia)) as Hp. fold a in Hp.
  pose proof (initialize_available base total ns m ltac:(lia)) as Hav. cbv zeta in Hav. fold a in Hav.
  set (m1 := initialize_fields a 1 ns m) in *. rewrite Hav.
  destruct (fill_slot_queue_Ret (slot_first (local a) m1) (Z.to_nat (ns - ns / 2 - 1)) (slot_queue (local a) m1))
    as (q & Eq & Hlk).
  { rewrite length_slot_queue. lia. }
  rewrite Eq. pose proof (fill_slot_queue_length _ _ _ _ Eq) as Hlen.
  assert (length q = 64%nat) as Hlen64.
  { by rewrite Hlen, length_slot_queue. }
  set (m2 := set_slot_queue (local a) q m1).
  set (m3 := set_debug (local a) _ m2).
  pose proof (initialize_events_spec base total m3) as He. cbv zeta in He. fold a in He.
  destruct (initialize_events a m3) as [a' m'].
  destruct He as (Ha' & Hinit & A1 & A2 & A3 & A4 & A5).
  assert (forall b n, b + n <= base + 404 + 72 \/ base + 404 + 372 <= b -> agree m3 m1 b n) as Am.
  { intros b n Hb.
    eapply agree_trans; [apply set_debug_agree|apply set_slot_queue_agree; [done|]].
    - by rewrite length_insert, length_debug.
    - change (ss_inner (local a)) with (base + 404). lia.
    - change (ss_inner (local a)) with (base + 404). lia. }
  exists a', m'. split; [done|]. split.
  - apply (partitioned_agree base total ns m1 m'); [..|done];
      (eapply agree_trans; [|apply Am; lia]);
      first [eassumption | eapply agree_sub; [exact A1|lia|lia]].
  - intros i Hi. fold ns in Hi |- *. subst a'. change (slot_queue (local _) m') with (slot_queue (local a) m').
    rewrite (slot_queue_agree _ m' m2).
    + unfold m2. rewrite slot_queue_set, list_lookup_fmap, Hlk, decide_True by (done || lia).
      cbn [fmap option_fmap option_map]. rewrite (part_local_first _ _ _ Hp). f_equal.
      rewrite (u32_small (Z.of_nat _ + _)), u32_small by (unfold is_u32; lia). lia.
    + change (ss_inner _) with (base + 404).
      eapply agree_trans; [exact A4|]. apply set_debug_agree.
      * by rewrite length_insert, length_debug.
      * change (ss_inner (local a)) with (base + 404). lia.
  - subst a'. exact Hinit.
  - subst a'. done.
  - intros b n Hb. eapply agree_trans; [by apply A5|]. eapply agree_trans; [apply Am; lia|].
    apply initialize_fields_agree. lia.
Qed.

(** With memory for fewer than four slots [initialize] panics on its assertion, and with more
    than 130 it panics writing past the end of the 64-entry slot queue. *)
Lemma initialize_panics (base total : Z) (m : mem) :
  (1 <= total / 4096 < 5 -> initialize (SlotZeroAccessor_new base total) m = Panic PAssert) /\
  (131 < total / 4096 < 2 ^ 31 -> initialize (SlotZeroAccessor_new base total) m = Panic PIndex).
Proof.
  split; intros Ht; unfold initialize; cbn [total_memory SlotZeroAccessor_new].
  - change ((size_of SlotZero_t + VCHIQ_SLOT_SIZE - 1) / VCHIQ_SLOT_SIZE) with 1.
    change VCHIQ_SLOT_SIZE with 4096. ints.
    by rewrite (proj2 (Z.ltb_lt _ _)) by lia.
  - rewrite initialize_num_slots by lia. set (ns := total / 4096 - 1) in *.
    rewrite (proj2 (Z.ltb_ge ns 4)) by lia.
    change ((size_of SlotZero_t + VCHIQ_SLOT_SIZE - 1) / VCHIQ_SLOT_SIZE) with 1.
    fold (SlotZeroAccessor_new base total).
    pose proof (initialize_available base total ns m ltac:(lia)) as Hav. cbv zeta in Hav.
    rewrite Hav, fill_slot_queue_Panic; [done|]. rewrite length_slot_queue. zdiv.
Qed.
End slotzero_props.

Lemma initialize_panics_witness :
  initialize (L := counting_locks) (SlotZeroAccessor_new 8192 16384) (fun _ => 0) = Panic PAssert /\
  initialize (L := counting_locks) (SlotZeroAccessor_new 8192 819200) (fun _ => 0) = Panic PIndex.
Proof.
  split.
  - apply (initialize_panics (L := counting_locks) 8192 16384 (fun _ => 0)). vm_compute. done.
  - apply (initialize_panics (L := counting_locks) 8192 819200 (fun _ => 0)). vm_compute. done.
Defined.
