(* ===== verification/Slot.v ===== *)
(** Slots and the messages in them: [src/vchiq/shared/slot.rs]. *)

From S2P Require Import Prelude Memory Layout Types SlotMessage Event.

(** [SlotPosition(index, offset)]. *)
Record SlotPosition : Type := mkPosition { pos_index : Z; pos_offset : Z }.
#[export] Instance SlotPosition_eq_dec : EqDecision SlotPosition.
Proof. solve_decision. Defined.

Record SlotAccessor : Type := mkSlotAccessor { sa_inner : Z; sa_len : Z }.

(** [slot_queue_index_from_pos]. *)
Definition slot_queue_index_from_pos (pos : Z) : Z := pos / VCHIQ_SLOT_SIZE.

(** The address of [data[slot_pos.1 & VCHIQ_SLOT_MASK]] of the slot [inner.add(slot_pos.0)]: that of a
    message. *)
Definition message_ptr (a : SlotAccessor) (pos : SlotPosition) : Z :=
  sa_inner a + pos_index pos * size_of Slot_t + Z.land (pos_offset pos) VCHIQ_SLOT_MASK.

(** [size_of::<SlotMessageHeader>()], also where the payload starts. *)
Definition header_size : Z := size_of SlotMessageHeader_t.

Definition read_header (m : mem) (p : Z) : SlotMessageHeader :=
  mkHeader (read_u32 m (p + offset_of SlotMessageHeader_t "msgid"))
           (read_u32 m (p + offset_of SlotMessageHeader_t "size")).

(** [ptr::write_volatile(msg_ptr, message)]. *)
Definition write_message (m : mem) (p : Z) (message : SlotMessage) : mem :=
  let m := write_u32 m (p + offset_of SlotMessageHeader_t "msgid") (msgid (header message)) in
  let m := write_u32 m (p + offset_of SlotMessageHeader_t "size") (msg_size (header message)) in
  write_bytes m (p + header_size) (data message).

(** The two assertions on a slot position. *)
Definition position_ok (a : SlotAccessor) (pos : SlotPosition) : bool :=
  (0 <? pos_index pos) && (pos_index pos <? sa_len a).

(** [store_message::<T, F>]: [size_T] is [size_of::<T>()]; the closure may return, besides the
    message, whatever else it changed. *)
Definition store_message {X} (a : SlotAccessor) (slot_pos : SlotPosition) (size_T : nat)
    (f : SlotMessage -> outcome (SlotMessage * X)) (m : mem) : outcome (X * mem) :=
  if position_ok a slot_pos then
    let msg_ptr := message_ptr a slot_pos in
    let message := mkMessage (read_header m msg_ptr) (read_bytes m (msg_ptr + header_size) size_T) in
    match f message with
    | Ret (message, x) => Ret (x, write_message m msg_ptr message)
    | Panic p => Panic p
    | Blocked => Blocked
    | OutOfFuel => OutOfFuel
    end
  else Panic PAssert.

(** [read_message]: header and as many payload bytes as the header says. *)
Definition read_message (a : SlotAccessor) (slot_pos : SlotPosition) (m : mem) : outcome SlotMessage :=
  if position_ok a slot_pos then
    let msg_ptr := message_ptr a slot_pos in
    let msg_hdr := read_header m msg_ptr in
    Ret (mkMessage msg_hdr (read_bytes m (msg_ptr + header_size) (Z.to_nat (msg_size msg_hdr))))
  else Panic PAssert.

(** ** Properties *)

Lemma slot_size_of : size_of Slot_t = 4096.
Proof. reflexivity. Qed.

Lemma message_ptr_val a pos :
  message_ptr a pos = sa_inner a + pos_index pos * 4096 + pos_offset pos mod 4096.
Proof. unfold message_ptr. rewrite slot_size_of. by rewrite (land_mask _ 12) by (done || lia). Qed.

Lemma message_ptr_small a pos :
  0 <= pos_offset pos < 4096 -> message_ptr a pos = sa_inner a + pos_index pos * 4096 + pos_offset pos.
Proof. intros H. by rewrite message_ptr_val, Z.mod_small. Qed.

(** Well-formed messages: the size word is that of the payload. *)
Definition message_wf (msg : SlotMessage) : Prop :=
  is_u32 (msgid (header msg)) /\ is_u32 (msg_size (header msg)) /\
  msg_size (header msg) = Z.of_nat (length (data msg)).

(** What [read_message] yields at an address. *)
Definition message_at (m : mem) (p : Z) (msg : SlotMessage) : Prop :=
  read_header m p = header msg /\ read_bytes m (p + 8) (length (data msg)) = data msg.

Lemma read_header_write m p msg :
  is_u32 (msgid (header msg)) -> is_u32 (msg_size (header msg)) ->
  read_header (write_message m p msg) p = header msg.
Proof.
  intros H1 H2. unfold read_header, write_message. layout_simpl. change header_size with 8.
  destruct msg as [[i n] d]. cbn [header msgid msg_size data] in *. f_equal.
  - etransitivity; [apply (read_uint_agree 4), write_bytes_agree; lia|].
    etransitivity; [apply (read_uint_agree 4), write_uint_agree; lia|]. by apply read_write_u32.
  - etransitivity; [apply (read_uint_agree 4), write_bytes_agree; lia|]. by apply read_write_u32.
Qed.

Lemma write_message_at m p msg : message_wf msg -> message_at (write_message m p msg) p msg.
Proof.
  intros (H1 & H2 & H3). split; [by apply read_header_write|].
  unfold write_message. by rewrite read_write_same.
Qed.

Lemma write_message_agree m p msg a n :
  a + n <= p \/ p + 8 + Z.of_nat (length (data msg)) <= a -> agree (write_message m p msg) m a n.
Proof.
  intros H. unfold write_message. layout_simpl. change header_size with 8.
  eapply agree_trans; [apply write_bytes_agree; lia|].
  eapply agree_trans; [apply write_uint_agree; lia|]. apply write_uint_agree. lia.
Qed.

Lemma read_header_agree m m' p : agree m' m p 8 -> read_header m' p = read_header m p.
Proof.
  intros Ha. unfold read_header. layout_simpl.
  f_equal; apply (read_uint_agree 4); (eapply agree_sub; [exact Ha|lia|lia]).
Qed.

Lemma message_at_agree m m' p msg :
  agree m' m p (8 + Z.of_nat (length (data msg))) -> message_at m p msg -> message_at m' p msg.
Proof.
  intros Ha [H1 H2]. split.
  - rewrite <- H1. apply read_header_agree. eapply agree_sub; [exact Ha|lia|lia].
  - rewrite <- H2. rewrite H2 at 1. apply read_bytes_agree. eapply agree_sub; [exact Ha|lia|lia].
Qed.

Lemma read_message_at a pos m msg :
  position_ok a pos = true -> message_wf msg -> message_at m (message_ptr a pos) msg ->
  read_message a pos m = Ret msg.
Proof.
  intros Hpos (H1 & H2 & H3) [Hh Hd]. unfold read_message. rewrite Hpos, Hh, H3, Nat2Z.id.
  change header_size with 8. rewrite Hd. by destruct msg.
Qed.

(** C27: what is stored is what is read.  Storing a message at a valid position and reading the
    position back yields the same header and payload, and every byte outside the message - the
    control block and all other messages included - is as before. *)
Theorem store_read_roundtrip {X} (a : SlotAccessor) (pos : SlotPosition) (msg : SlotMessage) (x : X)
    (f : SlotMessage -> outcome (SlotMessage * X)) (m : mem) :
  position_ok a pos = true -> message_wf msg -> (forall old, f old = Ret (msg, x)) ->
  exists m', store_message a pos (length (data msg)) f m = Ret (x, m') /\
    read_message a pos m' = Ret msg /\
    forall b n, b + n <= message_ptr a pos \/
                message_ptr a pos + 8 + Z.of_nat (length (data msg)) <= b -> agree m' m b n.
Proof.
  intros Hpos Hwf Hf. unfold store_message. rewrite Hpos, Hf. eexists. split; [done|]. split.
  - apply read_message_at; [done..|]. by apply write_message_at.
  - intros b n Hb. by apply write_message_agree.
Qed.

Lemma store_read_roundtrip_witness :
  let a := mkSlotAccessor 8192 65 in
  let msg := mkMessage (mkHeader (make_msg_id DATA 0 75) 3) [1; 2; 3] in
  exists m', store_message a (mkPosition 34 16) 3 (fun _ => Ret (msg, tt)) (fun _ => 0) = Ret (tt, m') /\
    read_message a (mkPosition 34 16) m' = Ret msg /\
    forall b n, b + n <= message_ptr a (mkPosition 34 16) \/
                message_ptr a (mkPosition 34 16) + 8 + Z.of_nat 3 <= b -> agree m' (fun _ => 0) b n.
Proof.
  intros a msg.
  apply (store_read_roundtrip a (mkPosition 34 16) msg tt (fun _ => Ret (msg, tt)) (fun _ => 0));
    [vm_compute; reflexivity| |reflexivity].
  split_and!; vm_compute; done.
Defined.

(** Distinct slots do not overlap, nor does slot 0, where the control block is. *)
Lemma position_bounds a pos n :
  position_ok a pos = true -> 0 <= n -> pos_offset pos mod 4096 + n <= 4096 ->
  sa_inner a + 4096 <= message_ptr a pos /\
  message_ptr a pos + n <= sa_inner a + sa_len a * 4096.
Proof.
  intros [H1%Z.ltb_lt H2%Z.ltb_lt]%andb_prop Hn Hf. rewrite message_ptr_val.
  pose proof (Z.mod_pos_bound (pos_offset pos) 4096). lia.
Qed.

Lemma write_message_ok m p msg : mem_ok m -> Forall is_byte (data msg) -> mem_ok (write_message m p msg).
Proof.
  intros Hm Hd. apply write_bytes_ok; [|done]. apply (write_uint_ok 4), (write_uint_ok 4), Hm.
Qed.
