(* ===== verification/Service.v ===== *)
(** Services: the data of [src/vchiq/service.rs] and the [Service::new] / [set_state] operations. *)

From S2P Require Import Prelude Locks Layout Types SlotMessage.

(** The closures and the user data services carry.  Their types belong to the component on top
    ([src/vchiq/instance/mod.rs] makes the closures; [UserData] is a shared, dynamically typed
    box), so they are an interface here. *)
Class Callbacks : Type := {
  VchiqCallback : Type; (* Arc<dyn Fn(Reason, Option<Arc<SlotMessage>>, ServiceHandle, Option<()>)> *)
  UserData : Type;      (* Arc<RWLock<Box<dyn Any>>>: a reference to the box *)
}.

Definition VCHIQ_PORT_FREE : Z := 4096. (* 0x1000 *)

Module ServiceState.
Inductive t : Type :=
| FREE | HIDDEN | LISTENING | OPENING | OPEN | OPENSYNC | CLOSESENT | CLOSERECVD | CLOSEWAIT
| CLOSED.

#[export] Instance t_eq_dec : EqDecision t.
Proof. solve_decision. Defined.
End ServiceState.
#[export] Existing Instance ServiceState.t_eq_dec.

Inductive ServiceOption : Type := AUTOCLOSE | SLOT_QUOTA | MESSAGE_QUOTA | SYNCHRONOUS | TRACE.

Record Bulk : Type := mkBulk {
  mode : Z; dir : Z; bulk_handle : Z; bulk_size : Z; remote_size : Z; actual : Z }.
Definition Bulk_default : Bulk := mkBulk 0 0 0 0 0 0.

Record BulkQueue : Type := mkBulkQueue {
  local_insert : Z; remote_insert : Z; process : Z; remote_notify : Z; remove : Z;
  bulks : list Bulk }.
Definition BulkQueue_default : BulkQueue :=
  mkBulkQueue 0 0 0 0 0 (replicate (Z.to_nat VCHIQ_NUM_SERVICE_BULKS) Bulk_default).

Section service.
Context {L : LockLib} {CB : Callbacks}.

Record ServiceParams : Type := mkServiceParams {
  sp_fourcc : FourCC;
  sp_callback : option VchiqCallback;
  sp_userdata : option UserData;
  sp_version : Z;
  sp_version_min : Z;
}.

Record ServiceBase : Type := mkServiceBase {
  fourcc : FourCC;
  callback : option VchiqCallback;
  userdata : option UserData;
}.
#[export] Instance eta_ServiceBase : Eta ServiceBase := fun r =>
  mkServiceBase (fourcc r) (callback r) (userdata r).

Record Service : Type := mkService {
  base : ServiceBase;
  handle : ServiceHandle;
  srvstate : ServiceState.t;
  localport : Z;
  remoteport : Z;
  public_fourcc : option FourCC;
  client_id : Z;
  auto_close : bool;
  sync : bool;
  closing : bool;
  trace : bool;
  version : Z;
  version_min : Z;
  peer_version : Z;
  service_use_count : Z;
  bulk_tx : BulkQueue;
  bulk_rx : BulkQueue;
  remove_event : sem;
  bulk_remove_event : sem;
}.
#[export] Instance eta_Service : Eta Service := fun r =>
  mkService (base r) (handle r) (srvstate r) (localport r) (remoteport r) (public_fourcc r)
    (client_id r) (auto_close r) (sync r) (closing r) (trace r) (version r) (version_min r)
    (peer_version r) (service_use_count r) (bulk_tx r) (bulk_rx r) (remove_event r)
    (bulk_remove_event r).

(** [Service::new]; [new_handle] is what [NEXT_SRV_HANDLE.fetch_add(1)] returned. *)
Definition Service_new (params : ServiceParams) (new_handle : ServiceHandle) : Service := {|
  base := {| fourcc := sp_fourcc params; callback := sp_callback params;
             userdata := sp_userdata params |};
  handle := new_handle;
  srvstate := ServiceState.FREE;
  localport := VCHIQ_PORT_FREE;
  remoteport := VCHIQ_PORT_FREE;
  public_fourcc := Some (sp_fourcc params);
  client_id := 0;
  auto_close := true;
  sync := false;
  closing := false;
  trace := false;
  version := sp_version params;
  version_min := sp_version_min params;
  peer_version := 0;
  service_use_count := 0;
  bulk_tx := BulkQueue_default;
  bulk_rx := BulkQueue_default;
  remove_event := sem_new 0;
  bulk_remove_event := sem_new 0;
|}.

Definition set_state (new_state : ServiceState.t) (s : Service) : Service :=
  s <| srvstate := new_state |>.

Record ServiceQuota : Type := mkServiceQuota {
  slot_quota : Z;
  slot_use_count : Z;
  message_quota : Z;
  message_use_count : Z;
  quota_event : sem;
  previous_tx_index : Z;
}.
#[export] Instance eta_ServiceQuota : Eta ServiceQuota := fun r =>
  mkServiceQuota (slot_quota r) (slot_use_count r) (message_quota r) (message_use_count r)
    (quota_event r) (previous_tx_index r).

(** [#[derive(Default)]]. *)
Definition ServiceQuota_default : ServiceQuota := mkServiceQuota 0 0 0 0 sem_default 0.

(** The record a VCHI service keeps on the VCHIQ side; the messages are shared, immutable. *)
Record ServiceUser : Type := mkServiceUser {
  su_userdata : option UserData;
  is_vchi : bool;
  dequeue_pending : bool;
  close_pending : bool;
  message_available_pos : Z;
  msg_insert : Z;
  msg_remove : Z;
  su_insert_event : sem;
  su_remove_event : sem;
  close_event : sem;
  msg_queue : list (option SlotMessage);
}.
#[export] Instance eta_ServiceUser : Eta ServiceUser := fun r =>
  mkServiceUser (su_userdata r) (is_vchi r) (dequeue_pending r) (close_pending r)
    (message_available_pos r) (msg_insert r) (msg_remove r) (su_insert_event r)
    (su_remove_event r) (close_event r) (msg_queue r).

Record ServiceCompletion : Type := mkServiceCompletion {
  reason : Reason;
  msg : option SlotMessage;
  service_userdata : option UserData;
}.
End service.
#[export] Existing Instances eta_ServiceBase eta_Service eta_ServiceQuota eta_ServiceUser.
