(* ===== verification/State.v ===== *)
(** The central state of the interface: the data and operations of [src/vchiq/state.rs].
    Properties are in the files after this one. *)

From S2P Require Import Prelude Locks Memory Layout Types SlotMessage Event SlotZero Slot Service.

Inductive ConnectState : Type :=
| DISCONNECTED | CONNECTING | CONNECTED | PAUSING | PAUSE_SENT | PAUSED | RESUMING | PAUSE_TIMEOUT
| RESUME_TIMEOUT.

#[export] Instance ConnectState_eq_dec : EqDecision ConnectState.
Proof. solve_decision. Defined.

(** [core::alloc::Layout]. *)
Record AllocLayout : Type := mkAllocLayout { layout_size : Z; layout_align : Z }.

(** [Layout::from_size_align]: the alignment must be a power of two and the size, rounded up to it,
    must not exceed [isize::MAX]. *)
Definition Layout_from_size_align (size align : Z) : option AllocLayout :=
  if (0 <? align) && (align =? 2 ^ Z.log2 align) && (size <=? 2 ^ 63 - align)
  then Some (mkAllocLayout size align) else None.

(** What the platform crates provide: [ruspiro_mmu], the allocator, [ruspiro_mailbox].  A memory
    has to be allocated and mapped at some address, and the mailbox call has some result. *)
Class Platform : Type := {
  page_size : Z;
  page_align : Z -> Z;
  alloc : AllocLayout -> Z;
  map_memory : Z -> Z -> Z -> Z;
  set_vchiq_slot_base : Z -> VchiqResult Z;
}.

(** The memory image of the [OpenPayload] structure: it has no [#[repr(C)]], so the order of its
    fields is the compiler's choice; its size is 12 bytes in any order. *)
Record OpenPayload : Type := mkOpenPayload {
  op_fourcc : FourCC; op_client_id : Z; op_version : Z; op_version_min : Z }.
Class OpenPayloadRepr : Type := {
  open_payload_image : OpenPayload -> list Z;
  open_payload_size : forall p, length (open_payload_image p) = 12%nat;
}.

Section state.
Context {L : LockLib} {CB : Callbacks}.

Record SlotState : Type := mkSlotState {
  slot_zero : SlotZeroAccessor;
  slot_data : SlotAccessor;
  tx_data : option SlotPosition;
  rx_data : option SlotPosition;
  local_tx_pos : Z;
  rx_pos : Z;
}.
#[export] Instance eta_SlotState : Eta SlotState := fun r =>
  mkSlotState (slot_zero r) (slot_data r) (tx_data r) (rx_data r) (local_tx_pos r) (rx_pos r).

Record QuotaState : Type := mkQuotaState {
  previous_data_index : Z;
  data_use_count : Z;
  data_quota : Z;
  service_quotas : list ServiceQuota;
}.
#[export] Instance eta_QuotaState : Eta QuotaState := fun r =>
  mkQuotaState (previous_data_index r) (data_use_count r) (data_quota r) (service_quotas r).

(** [services] holds references ([Arc<RefCell<Service>>]) into the heap of services. *)
Record SrvState : Type := mkSrvState { services : list (option nat); unused_service : Z }.
#[export] Instance eta_SrvState : Eta SrvState := fun r => mkSrvState (services r) (unused_service r).

Record State : Type := mkState {
  initialized : bool;
  shm_ptr : Z;
  shm_ptr_phys : Z;
  shm_ptr_layout : AllocLayout;
  slot_state : SlotState;
  conn_state : ConnectState;
  slot_queue_available : Z;
  poll_needed : bool;
  quota_state : QuotaState;
  srv_state : SrvState;
  default_slot_quota : Z;
  default_message_quota : Z;
  connect_sem : asem; (* field [connect] *)
  slot_available_event : sem;
  slot_remove_event : sem;
  data_quota_event : sem;
}.
#[export] Instance eta_State : Eta State := fun r =>
  mkState (initialized r) (shm_ptr r) (shm_ptr_phys r) (shm_ptr_layout r) (slot_state r)
    (conn_state r) (slot_queue_available r) (poll_needed r) (quota_state r) (srv_state r)
    (default_slot_quota r) (default_message_quota r) (connect_sem r) (slot_available_event r)
    (slot_remove_event r) (data_quota_event r).

(** ** Creating the state *)

Section new.
Context {P : Platform}.

(** [for f in c.iter_mut()], for the elements number [first] to [first + n - 1]: each fragment
    gets, as its first word, the address of the next one. *)
Fixpoint link_fragments (fragments_addr : Z) (first n : nat) (m : mem) : mem :=
  match n with
  | O => m
  | S n =>
      let f := fragments_addr + Z.of_nat first * size_of Fragment_t in
      link_fragments fragments_addr (S first) n (write_u32 m f (u32 (f + size_of Fragment_t)))
  end.

(** [for c in fragments.chunks_exact_mut(chunk)]: [k] full chunks of an array of fragments. *)
Fixpoint init_fragments (fragments_addr : Z) (chunk k : nat) (m : mem) : mem :=
  match k with
  | O => m
  | S k => link_fragments fragments_addr (k * chunk) chunk (init_fragments fragments_addr chunk k m)
  end.

Definition State_new (m : mem) : outcome (VchiqResult State * mem) :=
  let slot_mem_size := page_align (TOTAL_SLOTS * VCHIQ_SLOT_SIZE) in
  match Layout_from_size_align slot_mem_size page_size with
  | None => Ret (Err (EGeneric "invalid parameters to Layout::from_size_align"), m)
  | Some layout =>
      let shm_ptr := alloc layout in
      let shm_ptr_phys := Z.lor shm_ptr 3221225472 in (* 0xC000_0000 *)
      let shm_ptr := map_memory shm_ptr (layout_size layout)
        (Z.lor (Z.lor (Z.shiftl 1 10) (Z.shiftl 2 8)) (Z.shiftl 3 2)) in
      let slot_zero_offset := Z.land (usize_sub VCHIQ_SLOT_SIZE shm_ptr) VCHIQ_SLOT_MASK in
      let slot_zero_ptr := shm_ptr + slot_zero_offset in
      if negb (slot_zero_ptr mod VCHIQ_SLOT_SIZE =? 0) then Panic PAssert else
      let slot_zero := SlotZeroAccessor_new slot_zero_ptr (usize_sub slot_mem_size slot_zero_offset) in
      match initialize slot_zero m with
      | Panic p => Panic p
      | Blocked => Blocked
      | OutOfFuel => OutOfFuel
      | Ret (num_slots, slot_zero, m) =>
          let slot_data := mkSlotAccessor slot_zero_ptr (usize_add num_slots VCHIQ_SLOT_ZERO_SLOTS) in
          let m := set_platform_data slot_zero
            [u32 (usize_add shm_ptr_phys slot_mem_size); u32 MAX_FRAGMENTS] m in
          let chunk := Z.to_nat (MAX_FRAGMENTS - 1) in
          let m := init_fragments (usize_add shm_ptr slot_mem_size) chunk
                     (Z.to_nat MAX_FRAGMENTS / chunk) m in
          let slot_queue_available :=
            u32 (u32 (slot_last (local slot_zero) m - slot_first (local slot_zero) m) + 1) in
          let default_slot_quota := slot_queue_available / 2 in
          let default_message_quota := Z.min (usize_mul default_slot_quota 256) usize_max in
          Ret (Ok {|
            initialized := false;
            shm_ptr := shm_ptr;
            shm_ptr_phys := shm_ptr_phys;
            shm_ptr_layout := layout;
            slot_state := {|
              slot_zero := slot_zero; slot_data := slot_data; tx_data := None; rx_data := None;
              local_tx_pos := 0; rx_pos := 0 |};
            conn_state := DISCONNECTED;
            slot_queue_available := slot_queue_available;
            poll_needed := false;
            quota_state := {|
              previous_data_index := -1; data_use_count := 0;
              data_quota := usize_sub slot_queue_available 1;
              service_quotas := replicate (Z.to_nat VCHIQ_MAX_SERVICES) ServiceQuota_default |};
            srv_state := {|
              services := replicate (Z.to_nat VCHIQ_MAX_SERVICES) None; unused_service := 0 |};
            default_slot_quota := default_slot_quota;
            default_message_quota := default_message_quota;
            connect_sem := asem_new 0;
            slot_available_event := sem_new slot_queue_available;
            slot_remove_event := sem_new 0;
            data_quota_event := sem_new 0
          |}, m)
      end
  end.
End new.

(** ** The world the operations run in *)

(** [w_heap] holds the services created so far; a reference to a service is its index.
    [w_next_handle] is the static [NEXT_SRV_HANDLE], [w_client] the state of the component on top
    (completion queue, user data). *)
Record World (C : Type) : Type := mkWorld {
  w_state : State;
  w_heap : list Service;
  w_hw : Hw;
  w_next_handle : Z;
  w_client : C;
}.
Arguments mkWorld {C} _ _ _ _ _.
Arguments w_state {C} _.
Arguments w_heap {C} _.
Arguments w_hw {C} _.
Arguments w_next_handle {C} _.
Arguments w_client {C} _.
#[export] Instance eta_World {C} : Eta (World C) := fun r =>
  mkWorld (w_state r) (w_heap r) (w_hw r) (w_next_handle r) (w_client r).

Section operations.
Context {C : Type}.

Definition get_slot : M (World C) SlotState := gets (fun w => slot_state (w_state w)).
Definition get_quota : M (World C) QuotaState := gets (fun w => quota_state (w_state w)).
Definition get_srv : M (World C) SrvState := gets (fun w => srv_state (w_state w)).
Definition upd_state (f : State -> State) : M (World C) unit := modify (fun w => w <| w_state ::= f |>).
Definition upd_slot (f : SlotState -> SlotState) : M (World C) unit :=
  upd_state (fun s => s <| slot_state ::= f |>).
Definition upd_quota (f : QuotaState -> QuotaState) : M (World C) unit :=
  upd_state (fun s => s <| quota_state ::= f |>).
Definition upd_srv (f : SrvState -> SrvState) : M (World C) unit :=
  upd_state (fun s => s <| srv_state ::= f |>).
Definition get_mem : M (World C) mem := gets (fun w => hw_mem (w_hw w)).
Definition upd_hw (f : Hw -> Hw) : M (World C) unit := modify (fun w => w <| w_hw ::= f |>).
Definition upd_mem (f : mem -> mem) : M (World C) unit := upd_hw (fun hw => hw <| hw_mem ::= f |>).

(** [service.borrow()] and updates through [service.borrow_mut()]. *)
Definition get_service (service : nat) : M (World C) Service :=
  let* heap := gets w_heap in unwrap (heap !! service).
Definition upd_service (service : nat) (f : Service -> Service) : M (World C) unit :=
  let* s := get_service service in
  modify (fun w => w <| w_heap ::= <[service := f s]> |>).
Definition upd_service_quota (i : nat) (f : ServiceQuota -> ServiceQuota) : M (World C) unit :=
  upd_quota (fun q => q <| service_quotas ::= alter f i |>).

(** [slot_state.slot_data.store_message(..)], the closure capturing the quota state. *)
Definition store (slot_pos : SlotPosition) (size_T : nat)
    (f : QuotaState -> SlotMessage -> outcome (SlotMessage * QuotaState)) : M (World C) unit :=
  let* ss := get_slot in
  let* q := get_quota in
  let* m := get_mem in
  let* r := lift (store_message (slot_data ss) slot_pos size_T (f q) m) in
  let '(q, m) := r in
  upd_quota (fun _ => q) ;;
  upd_mem (fun _ => m).

(** ** [State::initialize] *)

Definition State_initialize {P : Platform} : M (World C) (VchiqResult unit) :=
  let* ss := get_slot in
  let* m := get_mem in
  let slot_index := slot_sync (local (slot_zero ss)) m in
  store (mkPosition slot_index 0) 0 (fun q message =>
    Ret (message <| header ::= fun h => h <| msgid := VCHIQ_MSGID_PADDING |> |>, q)) ;;
  let* s := gets w_state in
  let? status := ret (set_vchiq_slot_base (u32 (shm_ptr_phys s))) in
  if negb (status =? 0)
  then ret (Err (EGeneric "unable to set VCHIQ base address"))
  else upd_state (fun s => s <| initialized := true |>) ;; ret (Ok tt).

(** ** Looking services up *)

(** [service_by_port]. *)
Definition service_by_port (local_port : Z) : M (World C) (option nat) :=
  let* srv := get_srv in
  let* service := index (services srv) local_port in
  match service with
  | Some l =>
      let* s := get_service l in
      if decide (srvstate s = ServiceState.FREE) then ret None else ret (Some l)
  | None => ret None
  end.

(** [services.iter().find(..)]. *)
Fixpoint find_handle (heap : list Service) (h : ServiceHandle) (services : list (option nat))
  : option nat :=
  match services with
  | [] => None
  | Some l :: services =>
      match heap !! l with
      | Some s => if handle s =? h then Some l else find_handle heap h services
      | None => find_handle heap h services
      end
  | None :: services => find_handle heap h services
  end.

Definition service_from_handle (srvhandle : ServiceHandle) : M (World C) (VchiqResult nat) :=
  let* srv := get_srv in
  let* heap := gets w_heap in
  match find_handle heap srvhandle (services srv) with
  | Some l => ret (Ok l)
  | None => ret (Err (EVchiq (ServiceNotFound srvhandle)))
  end.

(** [.unwrap()] on a result. *)
Definition unwrap_result {A} (r : VchiqResult A) : M (World C) A :=
  match r with Ok a => ret a | Err _ => raise PUnwrap end.

(** ** [State::add_service] *)

(** [find_map] for the first [None], with its index. *)
Fixpoint first_unused (i : nat) (services : list (option nat)) : option nat :=
  match services with
  | [] => None
  | None :: _ => Some i
  | Some _ :: services => first_unused (S i) services
  end.

Definition add_service (srv_params : ServiceParams) (srv_st : ServiceState.t)
  : M (World C) (VchiqResult ServiceHandle) :=
  let* new_handle := gets w_next_handle in
  modify (fun w => w <| w_next_handle := usize_add new_handle 1 |>) ;;
  let service := Service_new srv_params new_handle in
  let service := if decide (srv_st = ServiceState.OPENING)
                 then service <| public_fourcc := None |> else service in
  let* srv := get_srv in
  let* srv_index :=
    (if decide (srv_st = ServiceState.OPENING) then
       if Z.of_nat (length (services srv)) <? unused_service srv then raise PIndex
       else ret (first_unused 0 (take (Z.to_nat (unused_service srv)) (services srv)))
     else raise PUnreachable) in
  let srv_index :=
    match srv_index with
    | Some i => Some i
    | None => if unused_service srv <? VCHIQ_MAX_SERVICES
              then Some (Z.to_nat (unused_service srv)) else None
    end in
  match srv_index with
  | Some reuse_idx =>
      let service_handle := handle service in
      let service := service <| localport := u32 (Z.of_nat reuse_idx) |> in
      let service := set_state srv_st service in
      let* heap := gets w_heap in
      let* _ := index (services srv) (Z.of_nat reuse_idx) in
      modify (fun w => w <| w_heap := heap ++ [service] |>) ;;
      upd_srv (fun s => s <| services ::= <[reuse_idx := Some (length heap)]> |>
                          <| unused_service := usize_add (unused_service s) 1 |>) ;;
      let* s := gets w_state in
      let local_tx_pos := local_tx_pos (slot_state s) in
      upd_service_quota reuse_idx (fun quota =>
        let quota := quota <| slot_quota := default_slot_quota s |>
                           <| message_quota := default_message_quota s |> in
        if slot_use_count quota =? 0
        then quota <| previous_tx_index := isize (isize (slot_queue_index_from_pos local_tx_pos) - 1) |>
        else quota) ;;
      ret (Ok service_handle)
  | None => ret (Err (EVchiq UnableToAddService))
  end.

(** ** [State::reserve_space] *)

Definition reserve_space (space_needed : Z) (block : bool) : M (World C) (VchiqResult SlotPosition) :=
  let* ss := get_slot in
  let tx_pos := local_tx_pos ss in
  let slot_space := usize_sub VCHIQ_SLOT_SIZE (Z.land tx_pos VCHIQ_SLOT_MASK) in
  let* tx_pos :=
    (if slot_space <? space_needed then
       let* slot_pos := unwrap (tx_data ss) in
       let size := usize_sub slot_space header_size in
       store slot_pos 0 (fun q message =>
         Ret (message <| header := mkHeader VCHIQ_MSGID_PADDING (u32 size) |>, q)) ;;
       ret (usize_add tx_pos slot_space)
     else ret tx_pos) in
  let* slot_position :=
    (if Z.land tx_pos VCHIQ_SLOT_MASK =? 0 then
       let* s := gets w_state in
       assert (negb (tx_pos =? usize_mul (slot_queue_available s) VCHIQ_SLOT_SIZE)) ;;
       let slot_queue_index := Z.land (slot_queue_index_from_pos tx_pos) VCHIQ_SLOT_QUEUE_MASK in
       let* m := get_mem in
       let* slot_index := index (slot_queue (local (slot_zero ss)) m) slot_queue_index in
       ret (mkPosition slot_index 0)
     else
       let* tx_data := unwrap (tx_data ss) in
       ret (mkPosition (pos_index tx_data) (Z.land tx_pos VCHIQ_SLOT_MASK))) in
  upd_slot (fun ss => ss <| local_tx_pos := usize_add tx_pos space_needed |>
                         <| tx_data := Some slot_position |>) ;;
  ret (Ok slot_position).

(** ** [State::queue_message] *)

(** [Semaphore::down]: blocks while there is no permit. *)
Definition down (s : sem) : M (World C) sem :=
  match sem_try_down s with Some s' => ret s' | None => block end.

(** [slot_queue_index_from_pos(slot_state.local_tx_pos + msg_stride - 1) as isize]. *)
Definition tx_end_index (ss : SlotState) (msg_stride : Z) : Z :=
  isize (slot_queue_index_from_pos (usize_sub (usize_add (local_tx_pos ss) msg_stride) 1)).

(** The first [while] loop: data messages must not use more than their share of the slots. *)
Fixpoint wait_data_quota (fuel : nat) (msg_stride tx_end : Z) : M (World C) Z :=
  let* q := get_quota in
  if negb (tx_end =? previous_data_index q) && (data_use_count q =? data_quota q) then
    match fuel with
    | O => lift OutOfFuel
    | S fuel =>
        let* s := gets w_state in
        let* s' := down (data_quota_event s) in
        upd_state (fun s => s <| data_quota_event := s' |>) ;;
        let* ss := get_slot in
        let tx_end := tx_end_index ss msg_stride in
        if (tx_end =? previous_data_index q) || (data_use_count q <? data_quota q) then
          upd_state (fun s => s <| data_quota_event ::= sem_up |>) ;;
          ret tx_end
        else wait_data_quota fuel msg_stride tx_end
    end
  else ret tx_end.

(** The second [while] loop: the quota of the service. *)
Fixpoint wait_service_quota (fuel : nat) (service : nat) (msg_stride tx_end : Z)
  : M (World C) (VchiqResult unit) :=
  let* srv := get_service service in
  let* q := get_quota in
  let* service_quota := unwrap (service_quotas q !! Z.to_nat (localport srv)) in
  if (message_use_count service_quota =? message_quota service_quota)
     || (negb (tx_end =? previous_tx_index service_quota)
         && (slot_use_count service_quota =? slot_quota service_quota)) then
    match fuel with
    | O => lift OutOfFuel
    | S fuel =>
        let* s' := down (quota_event service_quota) in
        upd_service_quota (Z.to_nat (localport srv)) (fun q => q <| quota_event := s' |>) ;;
        if closing srv then ret (Err (EVchiq ServiceClosing))
        else if negb (bool_decide (srvstate srv = ServiceState.OPEN))
        then ret (Err (EVchiq (ServiceAlreadyClosed (handle srv))))
        else
          let* ss := get_slot in
          wait_service_quota fuel service msg_stride (tx_end_index ss msg_stride)
    end
  else ret (Ok tt).

(** The checks made for [MessageType::DATA] before space is reserved. *)
Definition check_data_message (fuel : nat) (service : option nat) (msg_stride : Z)
  : M (World C) (VchiqResult unit) :=
  match service with
  | None => ret (Err (EVchiq DataMessageWithoutService))
  | Some service =>
      let* srv := get_service service in
      if closing srv then ret (Err (EVchiq (ServiceAlreadyClosed (handle srv)))) else
      let* q := get_quota in
      let* _ := unwrap (service_quotas q !! Z.to_nat (localport srv)) in
      let* ss := get_slot in
      let* tx_end := wait_data_quota fuel msg_stride (tx_end_index ss msg_stride) in
      wait_service_quota fuel service msg_stride tx_end
  end.

(** The quota bookkeeping of a DATA message that ends in slot number [tx_end]. *)
Definition account_data (tx_end : Z) (port : nat) (q : QuotaState) : QuotaState :=
  let q := if tx_end =? previous_data_index q then q
           else q <| previous_data_index := tx_end |> <| data_use_count ::= fun n => usize_add n 1 |> in
  q <| service_quotas ::= alter (fun service_quota =>
         if tx_end =? previous_tx_index service_quota then service_quota
         else service_quota <| previous_tx_index := tx_end |>
                            <| slot_use_count ::= fun n => usize_add n 1 |>) port |>.

(** The closure that fills the message in: payload and header, and the bookkeeping of DATA. *)
Definition fill_message (service : option nat) (heap : list Service) (msg_type : MessageType)
    (msg_id : Z) (context : option (list Z)) (msg_size tx_end : Z)
    (q : QuotaState) (message : SlotMessage) : outcome (SlotMessage * QuotaState) :=
  let message := match context with Some cx => message <| data := cx |> | None => message end in
  let message := message <| header := mkHeader msg_id (u32 msg_size) |> in
  if decide (msg_type = DATA) then
    match service with
    | Some l =>
        match heap !! l with
        | Some srv =>
            let port := Z.to_nat (localport srv) in
            match service_quotas q !! port with
            | Some _ => Ret (message, account_data tx_end port q)
            | None => Panic PUnwrap
            end
        | None => Panic PUnwrap
        end
    | None => Panic PUnwrap
    end
  else Ret (message, q).

(** The end of [queue_message]: the new position is published, a service whose CLOSE was queued
    changes its state, and the VideoCore is signalled. *)
Definition publish (service : option nat) (msg_type : MessageType) : M (World C) unit :=
  let* ss := get_slot in
  upd_mem (set_tx_pos (local (slot_zero ss)) (u32 (local_tx_pos ss))) ;;
  match service with
  | Some l =>
      if decide (msg_type = CLOSE) then upd_service l (set_state ServiceState.CLOSESENT)
      else ret tt
  | None => ret tt
  end ;;
  upd_hw (signal_remote (trigger (remote (slot_zero ss)))).

(** [queue_message] once a message may be sent. *)
Definition queue_message_rest (service : option nat) (msg_type : MessageType) (msg_id : Z)
    (context : option (list Z)) (block : bool) : M (World C) (VchiqResult unit) :=
  let msg_size := match context with Some cx => Z.of_nat (length cx) | None => 0 end in
  let? slot_position := reserve_space (calc_msg_stride msg_size) block in
  let* ss := get_slot in
  let tx_end := isize (slot_queue_index_from_pos (usize_sub (local_tx_pos ss) 1)) in
  let* heap := gets w_heap in
  store slot_position (Z.to_nat msg_size)
    (fill_message service heap msg_type msg_id context msg_size tx_end) ;;
  publish service msg_type ;;
  ret (Ok tt).

(** [queue_message::<T>]: [context] is the memory image of the [T]; the callers that pass no
    context have [T = ()].  [fuel] bounds the waiting loops of DATA messages. *)
Definition queue_message (fuel : nat) (service : option nat) (msg_id : Z)
    (context : option (list Z)) (block : bool) : M (World C) (VchiqResult unit) :=
  let* msg_type := lift (msg_type_from_id msg_id) in
  let msg_size := match context with Some cx => Z.of_nat (length cx) | None => 0 end in
  let? _ := (if decide (msg_type = DATA)
             then check_data_message fuel service (calc_msg_stride msg_size)
             else ret (Ok tt)) in
  queue_message_rest service msg_type msg_id context block.

(** ** [State::connect] *)

(** One poll of [self.connect.down()]. *)
Definition poll_connect : M (World C) (option unit) :=
  let* s := gets w_state in
  match asem_poll_down (connect_sem s) with
  | Some c => upd_state (fun s => s <| connect_sem := c |>) ;; ret (Some tt)
  | None => ret None
  end.

Definition set_conn_state (c : ConnectState) : M (World C) unit :=
  upd_state (fun s => s <| conn_state := c |>).

(** [connect] up to its [.await] of the semaphore; [true]: the semaphore is awaited next. *)
Definition connect_start : M (World C) (VchiqResult bool) :=
  let* s := gets w_state in
  if negb (initialized s) then ret (Err (EVchiq StateNotInitialized)) else
  let? _ :=
    (if decide (conn_state s = DISCONNECTED) then
       let? _ := queue_message 0 None (make_msg_id CONNECT 0 0) None true in
       set_conn_state CONNECTING ;;
       ret (Ok tt)
     else ret (Ok tt)) in
  let* s := gets w_state in
  ret (Ok (bool_decide (conn_state s = CONNECTING))).

Definition State_connect : Async (World C) (VchiqResult unit) :=
  await? connecting := astep connect_start in
  if (connecting : bool) then
    await* _ := Await poll_connect Done in
    await* _ := astep (set_conn_state CONNECTED) in
    Done (Ok tt)
  else Done (Ok tt).

(** ** [State::open_service] *)

(** [service.remove_event.try_down().is_ok()]. *)
Definition try_down_remove_event (service : nat) : M (World C) bool :=
  let* s := get_service service in
  match sem_try_down (remove_event s) with
  | Some e => upd_service service (fun s => s <| remove_event := e |>) ;; ret true
  | None => ret false
  end.

(** [service.remove_event.up()]. *)
Definition up_remove_event (service : nat) : M (World C) unit :=
  upd_service service (fun s => s <| remove_event ::= sem_up |>).

(** The closure polled for the answer of the VideoCore. *)
Definition poll_open (srv_handle : ServiceHandle) : M (World C) (option ServiceState.t) :=
  let* r := service_from_handle srv_handle in
  let* service := unwrap_result r in
  let* down := try_down_remove_event service in
  let* s := get_service service in
  ret (if down then Some (srvstate s) else None).

Definition open_result (srv_handle : ServiceHandle) (st : ServiceState.t) : VchiqResult unit :=
  match st with
  | ServiceState.OPEN | ServiceState.OPENSYNC | ServiceState.CLOSEWAIT => Ok tt
  | _ => Err (EVchiq (UnableToOpenService srv_handle))
  end.

(** [open_service] up to its [.await] of the answer. *)
Definition open_start {R : OpenPayloadRepr} (srv_handle : ServiceHandle)
  : M (World C) (VchiqResult unit) :=
  let* r := service_from_handle srv_handle in
  let* service := unwrap_result r in
  let* s := get_service service in
  let payload := mkOpenPayload (fourcc (base s)) 0 (version s) (version_min s) in
  queue_message 0 None (make_msg_id OPEN (localport s) 0) (Some (open_payload_image payload)) true.

Definition open_service {R : OpenPayloadRepr} (srv_handle : ServiceHandle)
  : Async (World C) (VchiqResult unit) :=
  await? _ := astep (open_start srv_handle) in
  await* srvstate := Await (poll_open srv_handle) Done in
  Done (open_result srv_handle srvstate).

(** ** [State::close_service] *)

Definition free_service (service : nat) : M (World C) unit :=
  let* s := get_service service in
  match srvstate s with
  | ServiceState.OPENING | ServiceState.CLOSED | ServiceState.HIDDEN
  | ServiceState.LISTENING | ServiceState.CLOSEWAIT =>
      upd_service service (set_state ServiceState.FREE) ;;
      up_remove_event service
  | _ => ret tt
  end.

(** Sending the CLOSE message of a service. *)
Definition queue_close (service : nat) : M (World C) (VchiqResult unit) :=
  let* s := get_service service in
  queue_message 0 (Some service)
    (make_msg_id CLOSE (localport s) (Z.land (remoteport s) 4095)) None false.

(** The part on the linux model of [vchiq_close_service_internal], with [close_recvd = false]. *)
Definition close_service_internal (service : nat) : M (World C) (VchiqResult unit) :=
  let* s := get_service service in
  match srvstate s with
  | ServiceState.CLOSED | ServiceState.HIDDEN | ServiceState.LISTENING
  | ServiceState.CLOSEWAIT => free_service service ;; ret (Ok tt)
  | ServiceState.OPENING => queue_close service
  | ServiceState.OPENSYNC | ServiceState.OPEN =>
      let* r := queue_close service in
      match r with
      | Ok _ => upd_service service (set_state ServiceState.CLOSESENT)
      | Err _ => ret tt
      end ;;
      ret (Ok tt)
  | ServiceState.CLOSESENT => raise PTodo
  | ServiceState.CLOSERECVD => raise PTodo
  | ServiceState.FREE => ret (Ok tt)
  end.

Definition poll_close (srv_handle : ServiceHandle) : M (World C) (option (VchiqResult unit)) :=
  let* r := service_from_handle srv_handle in
  let* service := unwrap_result r in
  let* down := try_down_remove_event service in
  let* s := get_service service in
  ret (if down then
         Some (if bool_decide (srvstate s <> ServiceState.FREE) &&
                  bool_decide (srvstate s <> ServiceState.LISTENING)
               then Err (EVchiq (UnableToCloseService srv_handle)) else Ok tt)
       else None).

(** [close_service] up to its [.await] of the answer. *)
Definition close_start (srv_handle : ServiceHandle) : M (World C) (VchiqResult unit) :=
  let? service := service_from_handle srv_handle in
  let* s := get_service service in
  match srvstate s with
  | ServiceState.FREE | ServiceState.LISTENING | ServiceState.HIDDEN =>
      ret (Err (EVchiq (UnableToCloseService srv_handle)))
  | _ =>
      upd_service service (fun s => s <| closing := true |>) ;;
      close_service_internal service
  end.

Definition close_service (srv_handle : ServiceHandle) : Async (World C) (VchiqResult unit) :=
  await? _ := astep (close_start srv_handle) in
  Await (poll_close srv_handle) Done.

(** ** [State::close_service_complete], called by the slot handler *)

Definition close_service_complete (service : nat) (failstate : ServiceState.t)
  : M (World C) (VchiqResult unit) :=
  let* s := get_service service in
  let? _ :=
    match srvstate s with
    | ServiceState.OPEN | ServiceState.CLOSESENT | ServiceState.CLOSERECVD =>
        upd_service service (set_state ServiceState.CLOSED) ;; ret (Ok tt)
    | ServiceState.LISTENING => ret (Ok tt)
    | _ => ret (Err (EVchiq (UnableToCloseService (handle s))))
    end in
  upd_service service (fun s => s <| client_id := 0 |>) ;;
  upd_service service (fun s => s <| remoteport := VCHIQ_PORT_FREE |>) ;;
  let* s := get_service service in
  (if decide (srvstate s = ServiceState.CLOSED) then free_service service
   else if decide (srvstate s = ServiceState.CLOSEWAIT) then ret tt
   else up_remove_event service) ;;
  ret (Ok tt).

(** [Drop for State]: the address and the layout given to [dealloc]. *)
Definition State_drop (s : State) : Z * AllocLayout :=
  (Z.land (shm_ptr_phys s) (usize_not 3221225472), shm_ptr_layout s).
End operations.
End state.
Arguments mkWorld {L CB C} _ _ _ _ _.
Arguments w_state {L CB C} _.
Arguments w_heap {L CB C} _.
Arguments w_hw {L CB C} _.
Arguments w_next_handle {L CB C} _.
Arguments w_client {L CB C} _.
#[export] Existing Instances eta_SlotState eta_QuotaState eta_SrvState eta_State eta_World.
