(* ===== verification/SlotHandler.v ===== *)
(** The slot handler, which consumes the messages of the VideoCore: [src/vchiq/slothandler.rs].
    Properties are in the files after this one. *)

From S2P Require Import Prelude Locks Memory Layout Types SlotMessage Event SlotZero Slot Service State.

(** What the slot handler needs of the component that registers callbacks: running one. *)
Class CallbackHost {L : LockLib} {CB : Callbacks} (C : Type) : Type :=
  invoke_callback : VchiqCallback -> Reason -> option SlotMessage -> ServiceHandle -> M (World C) unit.

(** What the callbacks may do: change the state of their own component, and nothing of the
    interface.  The laws are discharged for the callback of [src/vchiq/instance/mod.rs]. *)
Record client_frame {L : LockLib} {CB : Callbacks} {C : Type} (w w' : World C) : Prop := {
  client_frame_state : w_state w' = w_state w;
  client_frame_heap : w_heap w' = w_heap w;
  client_frame_hw : w_hw w' = w_hw w;
  client_frame_handle : w_next_handle w' = w_next_handle w;
}.
#[export] Instance client_frame_preorder {L : LockLib} {CB : Callbacks} {C : Type} :
  PreOrder (client_frame (C := C)).
Proof. split; [done|]. intros w1 w2 w3 [? ? ? ?] [? ? ? ?]. split; congruence. Qed.

Class CallbackLaws {L : LockLib} {CB : Callbacks} (C : Type) {H : CallbackHost C} : Prop :=
  invoke_frame : forall cb r m h, evolves client_frame (invoke_callback cb r m h).

Section slothandler.
Context {L : LockLib} {CB : Callbacks} {C : Type} {H : CallbackHost C}.

(** The service a message is for.  CLOSE and the messages of an open connection need one; where
    the code has [todo!()] it panics. *)
Definition message_service (msg_type : MessageType) (local_port remote_port : Z)
  : M (World C) (option nat) :=
  match msg_type with
  | CLOSE =>
      let* service := service_by_port local_port in
      match service with
      | Some l =>
          let* s := get_service l in
          if negb (remoteport s =? remote_port) && negb (remoteport s =? VCHIQ_PORT_FREE)
             && (local_port =? 0)
          then raise PTodo else ret (Some l)
      | None => raise PTodo
      end
  | OPENACK | DATA | BULK_RX | BULK_TX | BULK_RX_DONE | BULK_TX_DONE =>
      let* service := service_by_port local_port in
      match service with
      | Some l => ret (Some l)
      | None => raise PTodo
      end
  | _ => ret None
  end.

Definition handle_openack (service : nat) (remote_port : Z) (slot_data : SlotMessage)
  : M (World C) unit :=
  match OpenAckPayload_try_from slot_data with
  | Ok version => upd_service service (fun s => s <| peer_version := version |>)
  | Err _ => ret tt
  end ;;
  let* s := get_service service in
  if decide (srvstate s = ServiceState.OPENING) then
    upd_service service (fun s => s <| remoteport := remote_port |>) ;;
    upd_service service (set_state ServiceState.OPEN) ;;
    up_remove_event service
  else ret tt.

Definition handle_close (service : nat) : M (World C) unit :=
  upd_service service (fun s => s <| closing := true |>) ;;
  let* s := get_service service in
  let* q := get_quota in
  let* _ := index (service_quotas q) (localport s) in
  upd_service_quota (Z.to_nat (localport s)) (fun q => q <| quota_event ::= sem_up |>) ;;
  match srvstate s with
  | ServiceState.CLOSED | ServiceState.HIDDEN | ServiceState.LISTENING | ServiceState.CLOSEWAIT => ret tt
  | ServiceState.OPENING =>
      upd_service service (set_state ServiceState.CLOSEWAIT) ;;
      up_remove_event service
  | ServiceState.CLOSESENT =>
      let* _ := close_service_complete service ServiceState.CLOSERECVD in
      ret tt
  | ServiceState.CLOSERECVD => ret tt
  | _ => ret tt
  end.

Definition handle_data (service : nat) (remote_port : Z) (slot_data : SlotMessage)
  : M (World C) unit :=
  let* s := get_service service in
  if (remoteport s =? remote_port) && bool_decide (srvstate s = ServiceState.OPEN) then
    let cb := callback (base s) in
    upd_service service (fun s => s <| base ::= fun b => b <| callback := None |> |>) ;;
    let srv_handle := handle s in
    match cb with
    | Some cb =>
        invoke_callback cb MESSAGE_AVAILABLE (Some slot_data) srv_handle ;;
        upd_service service (fun s => s <| base ::= fun b => b <| callback := Some cb |> |>)
    | None => ret tt
    end
  else ret tt.

Definition handle_connect : M (World C) unit :=
  upd_state (fun s => s <| connect_sem ::= asem_up |>).

(** The dispatch on the message type. *)
Definition dispatch (msg_type : MessageType) (service : option nat) (remote_port : Z)
    (slot_data : SlotMessage) : M (World C) unit :=
  match msg_type with
  | OPEN => raise PUnimplemented
  | OPENACK => let* service := unwrap service in handle_openack service remote_port slot_data
  | CLOSE => let* service := unwrap service in handle_close service
  | DATA => let* service := unwrap service in handle_data service remote_port slot_data
  | CONNECT => handle_connect
  | BULK_RX | BULK_TX => raise PUnimplemented
  | BULK_RX_DONE | BULK_TX_DONE => ret tt
  | PADDING => ret tt
  | PAUSE | RESUME | REMOTE_USE | REMOTE_RELEASE | REMOTE_USE_ACTIVE => raise PUnimplemented
  end.

(** Where the next message is read: the current slot, or a new one from the slot queue of the
    VideoCore, looked up with [tx_pos]. *)
Definition current_rx (tx_pos : Z) : M (World C) SlotPosition :=
  let* ss := get_slot in
  match rx_data ss with
  | Some pos => ret pos
  | None =>
      let slot_queue_index := Z.land (slot_queue_index_from_pos tx_pos) VCHIQ_SLOT_QUEUE_MASK in
      let* m := get_mem in
      let* slot_index := index (slot_queue (remote (slot_zero ss)) m) slot_queue_index in
      let pos := mkPosition slot_index 0 in
      upd_slot (fun ss => ss <| rx_data := Some pos |>) ;;
      ret pos
  end.

(** Moving past a message of [size] payload bytes at [pos]. *)
Definition advance_rx (pos : SlotPosition) (size : Z) : M (World C) unit :=
  let msg_stride := calc_msg_stride size in
  let offset := usize_add (pos_offset pos) msg_stride in
  upd_slot (fun ss =>
    let ss := ss <| rx_pos ::= fun p => usize_add p msg_stride |> in
    if Z.land (rx_pos ss) VCHIQ_SLOT_MASK =? 0
    then ss <| rx_data := None |>
    else ss <| rx_data := Some (mkPosition (pos_index pos) offset) |>).

(** One round of the loop: one message. *)
Definition handle_message (tx_pos : Z) : M (World C) unit :=
  let* rx_data := current_rx tx_pos in
  let* ss := get_slot in
  let* m := get_mem in
  let* slot_data := lift (read_message (slot_data ss) rx_data m) in
  let* msg_type := lift (msg_type_from_id (msgid (header slot_data))) in
  let local_port := dst_port_from_id (msgid (header slot_data)) in
  let remote_port := src_port_from_id (msgid (header slot_data)) in
  let size := msg_size (header slot_data) in
  let* service := message_service msg_type local_port remote_port in
  dispatch msg_type service remote_port slot_data ;;
  advance_rx rx_data size.

(** [while slot_state.rx_pos != tx_pos]. *)
Fixpoint handle_messages (fuel : nat) (tx_pos : Z) : M (World C) unit :=
  let* ss := get_slot in
  if rx_pos ss =? tx_pos then ret tt else
  match fuel with
  | O => lift OutOfFuel
  | S fuel => handle_message tx_pos ;; handle_messages fuel tx_pos
  end.

(** [slot_handler]; it always asks to be polled again.  [locked] is whether
    [state.slot_state.try_lock()] got the lock. *)
Definition slot_handler (fuel : nat) (locked : bool) : M (World C) unit :=
  if locked then
    let* ss := get_slot in
    let* m := get_mem in
    let tx_pos := tx_pos (remote (slot_zero ss)) m in
    handle_messages fuel tx_pos
  else ret tt.
End slothandler.
