(* ===== verification/Completion.v ===== *)
(** The completion queue: [src/vchiq/instance/completion.rs], a ring of [MAX_COMPLETIONS] entries. *)

From S2P Require Import Prelude Locks Layout Types SlotMessage Service.

Section completion.
Context {L : LockLib} {CB : Callbacks}.

Record Completion : Type := mkCompletion {
  completion_insert : Z;
  completion_remove : Z;
  insert_event : sem;
  remove_event : sem;
  completions : list (option ServiceCompletion);
}.
#[export] Instance eta_Completion : Eta Completion := fun r =>
  mkCompletion (completion_insert r) (completion_remove r) (insert_event r) (remove_event r)
    (completions r).

Definition Completion_default : Completion :=
  mkCompletion 0 0 (sem_new 0) (sem_new 0) (replicate (Z.to_nat MAX_COMPLETIONS) None).

(** The index of a position in a ring of [n] entries, [pos & (n - 1)]. *)
Definition ring_index (n pos : Z) : nat := Z.to_nat (Z.land pos (n - 1)).

(** [add_completion].  A full queue is reported, but the entry is written all the same. *)
Definition add_completion (reason : Reason) (message : option SlotMessage)
    (c : Completion) (user_service : ServiceUser) : outcome (Completion * ServiceUser) :=
  let insert := completion_insert c in
  let remove := completion_remove c in
  let c :=
    if MAX_COMPLETIONS <=? usize_sub insert remove then
      match sem_try_down (remove_event c) with
      | Some e => c <| remove_event := e |>
      | None => c
      end
    else c in
  let i := ring_index MAX_COMPLETIONS insert in
  match completions c !! i with
  | None => Panic PUnwrap
  | Some _ =>
      let c := c <| completions ::= <[i := Some (mkServiceCompletion reason message (su_userdata user_service))]> |> in
      let user_service :=
        if decide (reason = MESSAGE_AVAILABLE)
        then user_service <| message_available_pos := isize insert |> else user_service in
      let c := c <| completion_insert := usize_add insert 1 |> in
      Ret (c <| insert_event ::= sem_up |>, user_service)
  end.

(** The loop of [Instance::await_completion] ([src/vchiq/instance/mod.rs]): takes up to [count]
    entries, oldest first. *)
Fixpoint take_completions (count : nat) (c : Completion) : outcome (list ServiceCompletion * Completion) :=
  match count with
  | O => Ret ([], c)
  | S count =>
      let remove := completion_remove c in
      if remove =? completion_insert c then Ret ([], c) else
      let i := ring_index MAX_COMPLETIONS remove in
      match completions c !! i with
      | Some (Some completion) =>
          let c := c <| completions ::= <[i := None]> |>
                     <| completion_remove := usize_add remove 1 |> in
          match take_completions count c with
          | Ret (result, c) => Ret (completion :: result, c)
          | o => o
          end
      | _ => Panic PUnwrap
      end
  end.
End completion.
#[export] Existing Instance eta_Completion.
