(* ===== verification/Instance.v ===== *)
(** The VCHIQ instance: [src/vchiq/instance/mod.rs].  It opens services with its own callback,
    which queues what the slot handler receives, and lets clients take it out again.
    Properties are in the files after this one. *)

From S2P Require Import Prelude Locks Memory Layout Types SlotMessage Event SlotZero Slot Service.
From S2P Require Import State SlotHandler Completion.

(** The only closure the program registers is the one made by [Instance::create_service]. *)
Inductive InstanceCallback : Type := service_callback_closure.

(** A [UserData] is a reference into the heap of boxes. *)
#[export] Instance instance_callbacks : Callbacks := {
  VchiqCallback := InstanceCallback;
  UserData := nat;
}.

Section instance.
Context {L : LockLib}.

(** [CallbackData] of the test program, [src/main.rs]. *)
Record CallbackData : Type := mkCallbackData {
  cd_service : option ServiceHandle;
  reply_event : sem;
}.
#[export] Instance eta_CallbackData : Eta CallbackData := fun r =>
  mkCallbackData (cd_service r) (reply_event r).

(** [Box<dyn Any>]: the types of which the program puts values in a [UserData]. *)
Inductive AnyBox : Type :=
| AnyServiceUser (u : ServiceUser)
| AnyServiceHandle (h : ServiceHandle)
| AnyCallbackData (d : CallbackData).

(** [Instance], apart from [state], with the heap of user data and the component on top. *)
Record Client (X : Type) : Type := mkClient {
  connected : bool;
  completion : Completion;
  user_data : list AnyBox;
  upper : X;
}.
Arguments mkClient {X} _ _ _ _.
Arguments connected {X} _.
Arguments completion {X} _.
Arguments user_data {X} _.
Arguments upper {X} _.
#[export] Instance eta_Client {X} : Eta (Client X) := fun r =>
  mkClient (connected r) (completion r) (user_data r) (upper r).

(** ** [service_callback] *)

(** Its effect on the completion queue and on the record of the service. *)
Definition queue_received (reason : Reason) (message : option SlotMessage)
    (c : Completion) (u : ServiceUser) : outcome (Completion * ServiceUser) :=
  let add_unless (skip : bool) (c : Completion) (u : ServiceUser) :=
    if skip then Ret (c, u) else add_completion reason message c u in
  if is_vchi u then
    let full :=
      if msg_insert u =? usize_add (msg_remove u) MSG_QUEUE_SIZE then
        let r := if message_available_pos u <? isize (completion_remove c)
                 then add_completion reason None c u else Ret (c, u) in
        match r with
        | Ret (c, u) =>
            Ret (c, match sem_try_down (su_remove_event u) with
                    | Some e => u <| su_remove_event := e |>
                    | None => u
                    end)
        | o => o
        end
      else Ret (c, u) in
    match full with
    | Ret (c, u) =>
        let i := ring_index MSG_QUEUE_SIZE (msg_insert u) in
        match msg_queue u !! i with
        | None => Panic PUnwrap
        | Some _ =>
            let u := u <| msg_queue ::= <[i := message]> |>
                       <| msg_insert ::= fun n => usize_add n 1 |> in
            let skip := (isize (completion_remove c) <=? message_available_pos u)
                        || dequeue_pending u in
            let u := if skip then u <| dequeue_pending := false |> else u in
            add_unless skip c (u <| su_insert_event ::= sem_up |>)
        end
    | o => o
    end
  else add_unless false c u.

Section operations.
Context {X : Type}.
Notation W := (World (Client X)).

Definition get_client : M W (Client X) := gets w_client.
Definition upd_client (f : Client X -> Client X) : M W unit := modify (fun w => w <| w_client ::= f |>).

(** [user_data.downcast_ref::<ServiceUser>().unwrap()]. *)
Definition get_user (ud : nat) : M W ServiceUser :=
  let* c := get_client in
  match user_data c !! ud with
  | Some (AnyServiceUser u) => ret u
  | _ => raise PUnwrap
  end.
Definition set_user (ud : nat) (u : ServiceUser) : M W unit :=
  upd_client (fun c => c <| user_data ::= <[ud := AnyServiceUser u]> |>).

(** [UserData::new]. *)
Definition UserData_new (b : AnyBox) : M W nat :=
  let* c := get_client in
  upd_client (fun c => c <| user_data ::= fun l => l ++ [b] |>) ;;
  ret (length (user_data c)).

Definition service_callback (reason : Reason) (message : option SlotMessage) (service : nat)
  : M W (VchiqResult unit) :=
  let* s := get_service service in
  let* ud := unwrap (userdata (base s)) in
  let* u := get_user ud in
  let* c := get_client in
  let* r := lift (queue_received reason message (completion c) u) in
  let '(c, u) := r in
  upd_client (fun cl => cl <| completion := c |>) ;;
  set_user ud u ;;
  ret (Ok tt).

(** The closure [create_service] registers. *)
#[export] Instance instance_host : CallbackHost (Client X) :=
  fun cb reason message srv_handle =>
    match cb with
    | service_callback_closure =>
        let* r := service_from_handle srv_handle in
        let* service := unwrap_result r in
        let* _ := service_callback reason message service in
        ret tt
    end.

(** ** Operations *)

Definition Instance_connect : Async W (VchiqResult unit) :=
  await* c := astep get_client in
  if connected c then Done (Err (EVchiq AlreadyConnected)) else
  await? _ := State_connect in
  await* _ := astep (upd_client (fun c => c <| connected := true |>)) in
  Done (Ok tt).

(** The record made for a new service. *)
Definition ServiceUser_new (ud : option nat) (vchi : bool) : ServiceUser := {|
  su_userdata := ud;
  is_vchi := vchi;
  dequeue_pending := false;
  close_pending := false;
  message_available_pos := -1;
  msg_insert := 0;
  msg_remove := 0;
  su_insert_event := sem_new 0;
  su_remove_event := sem_new 0;
  close_event := sem_new 0;
  msg_queue := replicate (Z.to_nat MSG_QUEUE_SIZE) None;
|}.

Definition create_service {R : OpenPayloadRepr} (params : ServiceParams) (open vchi : bool)
  : Async W (VchiqResult ServiceHandle) :=
  await* c := astep get_client in
  await? srv_state :=
    Done (if open then
            if negb (connected c) then Err (EVchiq NotConnected) else Ok ServiceState.OPENING
          else if connected c then Ok ServiceState.LISTENING else Ok ServiceState.HIDDEN) in
  await* ud := astep (UserData_new (AnyServiceUser (ServiceUser_new (sp_userdata params) vchi))) in
  let params := {| sp_fourcc := sp_fourcc params;
                   sp_callback := Some service_callback_closure;
                   sp_userdata := Some ud;
                   sp_version := sp_version params;
                   sp_version_min := sp_version_min params |} in
  await? srv_handle := astep (add_service params srv_state) in
  await? _ := (if open then open_service srv_handle else Done (Ok tt)) in
  Done (Ok srv_handle).

Definition Instance_close_service (service_handle : ServiceHandle) : Async W (VchiqResult unit) :=
  close_service service_handle.

(** [Instance::queue_message]; [data] is the memory image of the value sent. *)
Definition Instance_queue_message (fuel : nat) (service : ServiceHandle) (data : list Z)
  : M W (VchiqResult unit) :=
  let? service := service_from_handle service in
  let* s := get_service service in
  queue_message fuel (Some service) (make_msg_id DATA (localport s) (remoteport s)) (Some data) false.

(** The closure [dequeue_message] polls. *)
Definition poll_dequeue (ud : nat) : M W (option unit) :=
  let* u := get_user ud in
  if msg_remove u =? msg_insert u then
    let u := u <| dequeue_pending := true |> in
    match sem_try_down (su_insert_event u) with
    | Some e =>
        let u := u <| su_insert_event := e |> in
        set_user ud u ;;
        ret (if negb (msg_remove u =? msg_insert u) then Some tt else None)
    | None => set_user ud u ;; ret None
    end
  else ret (Some tt).

(** What [dequeue_message] does once there is a message. *)
Definition take_message {T} (try_into : SlotMessage -> VchiqResult T) (ud : nat)
  : M W (VchiqResult T) :=
  let* u := get_user ud in
  if msg_insert u <? msg_remove u
  then ret (Err (EGeneric "user service msg_remove > msg_insert")) else
  let i := ring_index MSG_QUEUE_SIZE (msg_remove u) in
  let* entry := unwrap (msg_queue u !! i) in
  let* message := unwrap entry in
  let* result := unwrap_result (try_into message) in
  set_user ud (u <| msg_remove ::= fun n => usize_add n 1 |>
                 <| msg_queue ::= <[i := None]> |>
                 <| su_remove_event ::= sem_up |>) ;;
  ret (Ok result).

(** [dequeue_message::<T>]; [try_into] is the conversion of the message to [T]. *)
Definition dequeue_message {T} (try_into : SlotMessage -> VchiqResult T) (service : ServiceHandle)
  : Async W (VchiqResult T) :=
  await? service := astep (service_from_handle service) in
  await* ud := astep (let* s := get_service service in unwrap (userdata (base s))) in
  await* u := astep (get_user ud) in
  if negb (is_vchi u)
  then Done (Err (EGeneric "called dequeue for a service that is not marked as vchi")) else
  await* _ := Await (poll_dequeue ud) Done in
  astep (take_message try_into ud).

(** The conversion to [Vec<u8>] ([src/vchiq/shared/slotmessage.rs]). *)
Definition Vec_try_from (message : SlotMessage) : VchiqResult (list Z) := Ok (data message).

Definition poll_completion : M W (option unit) :=
  let* cl := get_client in
  let c := completion cl in
  if completion_remove c =? completion_insert c then
    match sem_try_down (insert_event c) with
    | Some e => upd_client (fun cl => cl <| completion ::= fun c => c <| insert_event := e |> |>)
    | None => ret tt
    end ;;
    ret None
  else ret (Some tt).

(** What [await_completion] does once there is a completion. *)
Definition collect_completions (count : nat) : M W (VchiqResult (list ServiceCompletion)) :=
  let* cl := get_client in
  let* r := lift (take_completions count (completion cl)) in
  let '(result, c) := r in
  upd_client (fun cl => cl <| completion := c |>) ;;
  ret (Ok result).

Definition await_completion (count : nat) : Async W (VchiqResult (list ServiceCompletion)) :=
  await* cl := astep get_client in
  if negb (connected cl) then Done (Err (EVchiq NotConnected)) else
  await* _ := Await poll_completion Done in
  astep (collect_completions count).
End operations.

(** [Instance::new]: creates and initializes the state. *)
Definition Instance_new {P : Platform} {X : Type} (x : X) (next_handle : Z) (hw : Hw)
  : outcome (VchiqResult (World (Client X))) :=
  match State_new (hw_mem hw) with
  | Ret (Ok s, m) =>
      let w := {| w_state := s; w_heap := []; w_hw := hw <| hw_mem := m |>;
                  w_next_handle := next_handle;
                  w_client := {| connected := false; completion := Completion_default;
                                 user_data := []; upper := x |} |} in
      match State_initialize w with
      | Ret (Ok _, w) => Ret (Ok w)
      | Ret (Err e, _) => Ret (Err e)
      | Panic p => Panic p
      | Blocked => Blocked
      | OutOfFuel => OutOfFuel
      end
  | Ret (Err e, _) => Ret (Err e)
  | Panic p => Panic p
  | Blocked => Blocked
  | OutOfFuel => OutOfFuel
  end.
End instance.
Arguments mkClient {L X} _ _ _ _.
Arguments connected {L X} _.
Arguments completion {L X} _.
Arguments user_data {L X} _.
Arguments upper {L X} _.
#[export] Existing Instances eta_Client eta_CallbackData instance_host.
