(* ===== verification/Registry.v ===== *)
(** The registry of services: the table [services] of [SrvState], the heap of services it refers
    to, and the quotas that go with it.  What every operation of [src/vchiq/state.rs] and of the slot
    handler keeps of it, and which state changes a service can go through. *)

From stdpp Require Import relations.
From S2P Require Import Prelude Locks Memory Layout Types SlotMessage Event SlotZero Slot Service.
From S2P Require Import State SlotHandler.

(** One allowed change of state, or none. *)
Ltac svc_step :=
  split; [done..|]; cbn; repeat match goal with E : srvstate _ = _ |- _ => rewrite E end;
  first [reflexivity | apply rtc_once; constructor].

Section registry.
Context {L : LockLib} {CB : Callbacks} {C : Type}.
Implicit Types w : World C.

(** ** Updates of one service *)

Definition with_service (w : World C) (l : nat) (s : Service) : World C :=
  w <| w_heap ::= fun heap => <[l := s]> heap |>.

Lemma get_service_Ret l w s : w_heap w !! l = Some s -> get_service l w = Ret (s, w).
Proof. intros H. unfold get_service, bind, gets. by rewrite H. Qed.

Lemma get_service_inv l w s w' :
  get_service l w = Ret (s, w') -> w_heap w !! l = Some s /\ w' = w.
Proof.
  unfold get_service, bind, gets. intros H. destruct (w_heap w !! l); cbn in H; [|done].
  by injection H as -> ->.
Qed.

Lemma upd_service_Ret l f w s :
  w_heap w !! l = Some s -> upd_service l f w = Ret (tt, with_service w l (f s)).
Proof. intros H. unfold upd_service. erewrite bind_Ret by (by apply get_service_Ret). done. Qed.

Lemma upd_service_inv l f w u w' :
  upd_service l f w = Ret (u, w') ->
  exists s, w_heap w !! l = Some s /\ w' = with_service w l (f s).
Proof.
  unfold upd_service. intros (s & w1 & H1 & H2)%bind_Ret_inv.
  apply get_service_inv in H1 as [Hs ->]. exists s. split; [done|].
  unfold modify in H2. by injection H2 as <- <-.
Qed.

Lemma with_service_lookup w l s s0 :
  w_heap w !! l = Some s0 -> w_heap (with_service w l s) !! l = Some s.
Proof. intros H. cbn. apply list_lookup_insert_eq. by eapply lookup_lt_Some. Qed.

Lemma with_service_twice w l s s' : with_service (with_service w l s) l s' = with_service w l s'.
Proof. unfold with_service. destruct w; cbn. by rewrite list_insert_insert_eq. Qed.

Lemma with_service_self w l s : w_heap w !! l = Some s -> with_service w l s = w.
Proof. intros H. unfold with_service. destruct w; cbn in *. by rewrite list_insert_id. Qed.

(** Two updates of a service in a row are one. *)
Lemma upd_service_bind {A} l f (k : unit -> M (World C) A) w s :
  w_heap w !! l = Some s ->
  bind (upd_service l f) k w = k tt (with_service w l (f s)).
Proof. intros H. eapply bind_Ret. by apply upd_service_Ret. Qed.

(** ** What the operations on a service do *)

Definition up_remove (s : Service) : Service := s <| remove_event ::= sem_up |>.

(** [free_service] frees a service that is on its way out or not open yet, and says so. *)
Definition freed (s : Service) : Service :=
  match srvstate s with
  | ServiceState.OPENING | ServiceState.CLOSED | ServiceState.HIDDEN
  | ServiceState.LISTENING | ServiceState.CLOSEWAIT => up_remove (set_state ServiceState.FREE s)
  | _ => s
  end.

Lemma free_service_Ret l w s :
  w_heap w !! l = Some s -> free_service l w = Ret (tt, with_service w l (freed s)).
Proof.
  intros H. unfold free_service. erewrite bind_Ret by (by apply get_service_Ret).
  unfold freed.
  destruct (srvstate s); try (unfold ret; by rewrite with_service_self);
    (erewrite upd_service_bind by done; unfold up_remove_event;
     erewrite upd_service_Ret by (by eapply with_service_lookup); by rewrite with_service_twice).
Qed.

(** The state a service is in after the VideoCore confirmed that it is closed: free, without a
    remote port, and with the waiting client woken. *)
Definition close_completed (s : Service) : Service :=
  up_remove (set_state ServiceState.FREE (s <| client_id := 0 |> <| remoteport := VCHIQ_PORT_FREE |>)).

Lemma close_service_complete_Ret l w s st :
  w_heap w !! l = Some s ->
  srvstate s = ServiceState.OPEN \/ srvstate s = ServiceState.CLOSESENT \/
  srvstate s = ServiceState.CLOSERECVD ->
  close_service_complete l st w = Ret (Ok tt, with_service w l (close_completed s)).
Proof.
  intros H Hst. unfold close_service_complete. erewrite bind_Ret by (by apply get_service_Ret).
  assert (exists s1, s1 = set_state ServiceState.CLOSED s) as [s1 Es1] by eauto.
  transitivity (bind (free_service l) (fun _ => ret (Ok tt : VchiqResult unit))
    (with_service w l (s1 <| client_id := 0 |> <| remoteport := VCHIQ_PORT_FREE |>))).
  - assert (w_heap (with_service w l s1) !! l = Some s1) as Hl by by eapply with_service_lookup.
    erewrite bind_try_Ok.
    2: { destruct Hst as [E|[E|E]]; rewrite E; cbn;
         (erewrite upd_service_bind by done; reflexivity). }
    rewrite <- Es1.
    erewrite upd_service_bind by done. rewrite with_service_twice.
    erewrite upd_service_bind by (by eapply with_service_lookup). rewrite with_service_twice.
    erewrite bind_Ret by (eapply get_service_Ret; by eapply with_service_lookup).
    by subst s1.
  - erewrite bind_Ret by (eapply free_service_Ret; by eapply with_service_lookup).
    rewrite with_service_twice. by subst s1.
Qed.

(** ** What the message layer leaves alone *)

(** Reserving space, storing and queueing messages change neither the services nor the table, nor
    the state of the component on top. *)
Record io_frame (w w' : World C) : Prop := {
  frame_heap : w_heap w' = w_heap w;
  frame_srv : srv_state (w_state w') = srv_state (w_state w);
  frame_handle : w_next_handle w' = w_next_handle w;
  frame_client : w_client w' = w_client w;
  frame_quotas : length (service_quotas (quota_state (w_state w'))) =
                 length (service_quotas (quota_state (w_state w)));
}.

#[export] Instance io_frame_preorder : PreOrder io_frame.
Proof.
  split; [done|]. intros w1 w2 w3 [? ? ? ? ?] [? ? ? ? ?]. split; congruence.
Qed.

Lemma upd_state_frame f :
  (forall s, srv_state (f s) = srv_state s) ->
  (forall s, length (service_quotas (quota_state (f s))) = length (service_quotas (quota_state s))) ->
  evolves io_frame (upd_state f).
Proof. intros H1 H2. apply evolves_modify. intros w. split; cbn; auto. Qed.

Lemma upd_slot_frame f : evolves io_frame (upd_slot f).
Proof. by apply upd_state_frame. Qed.

Lemma upd_quota_frame f :
  (forall q, length (service_quotas (f q)) = length (service_quotas q)) ->
  evolves io_frame (upd_quota f).
Proof. intros H. apply upd_state_frame; [done|]. intros s. apply H. Qed.

Lemma upd_service_quota_frame i f : evolves io_frame (upd_service_quota i f).
Proof. apply upd_quota_frame. intros q. apply length_alter. Qed.

Lemma upd_hw_frame f : evolves io_frame (upd_hw f).
Proof. by apply evolves_modify. Qed.

Lemma get_service_frame l : evolves io_frame (get_service l).
Proof. by intros w s w' [_ ->]%get_service_inv. Qed.

Lemma store_frame pos n f :
  (forall q m m' q', f q m = Ret (m', q') ->
     length (service_quotas q') = length (service_quotas q)) ->
  evolves io_frame (store pos n f).
Proof.
  intros Hf w u w'. unfold store, get_slot, get_quota, get_mem. intros H. inv_monad.
  unfold upd_mem, upd_hw, upd_quota, upd_state in *. inv_monad.
  split; try done. cbn. unfold store_message in *.
  destruct (position_ok _ _); [|done].
  destruct (f _ _) as [[m' q']| | |] eqn:E; simplify_eq. by eapply Hf.
Qed.

Lemma down_frame s : evolves io_frame (down s).
Proof. unfold down. destruct (sem_try_down s); auto with evolves typeclass_instances. Qed.
End registry.
#[export] Existing Instance io_frame_preorder.
#[export] Hint Resolve upd_slot_frame upd_service_quota_frame upd_hw_frame get_service_frame
  down_frame : evolves.

Section registry.
Context {L : LockLib} {CB : Callbacks} {C : Type}.
Implicit Types w : World C.

Lemma reserve_space_frame n b : evolves io_frame (reserve_space n b : M (World C) _).
Proof.
  unfold reserve_space, get_slot, get_mem. evolves_solve.
  all: apply store_frame; by intros q m m' q' [= <- <-].
Qed.

Lemma wait_data_quota_frame fuel stride tx_end :
  evolves io_frame (wait_data_quota fuel stride tx_end : M (World C) _).
Proof.
  revert tx_end. induction fuel as [|fuel IH]; intros tx_end; cbn [wait_data_quota];
    unfold get_quota, get_slot; evolves_solve; by apply upd_state_frame.
Qed.

Lemma wait_service_quota_frame fuel l stride tx_end :
  evolves io_frame (wait_service_quota fuel l stride tx_end : M (World C) _).
Proof.
  revert tx_end. induction fuel as [|fuel IH]; intros tx_end; cbn [wait_service_quota];
    unfold get_quota, get_slot; evolves_solve.
Qed.
#[local] Hint Resolve reserve_space_frame wait_data_quota_frame wait_service_quota_frame : evolves.

Lemma check_data_message_frame fuel service stride :
  evolves io_frame (check_data_message fuel service stride : M (World C) _).
Proof. unfold check_data_message, get_quota, get_slot. evolves_solve. Qed.
#[local] Hint Resolve check_data_message_frame : evolves.

Lemma length_account_data tx_end port q :
  length (service_quotas (account_data tx_end port q)) = length (service_quotas q).
Proof. unfold account_data. destruct (tx_end =? _); cbn; apply length_alter. Qed.

Lemma fill_message_quotas service heap t id cx n tx_end q m m' q' :
  fill_message service heap t id cx n tx_end q m = Ret (m', q') ->
  length (service_quotas q') = length (service_quotas q).
Proof.
  unfold fill_message. repeat case_match; intros; simplify_eq; try done; apply length_account_data.
Qed.

(** The one exception: a CLOSE message sent for a service leaves it in CLOSESENT. *)
Definition close_sent (service : option nat) (t : MessageType) (w w' : World C) : Prop :=
  exists l s, service = Some l /\ t = CLOSE /\ w_heap w !! l = Some s /\
    io_frame (with_service w l (set_state ServiceState.CLOSESENT s)) w'.

Lemma publish_frame service t w u w' :
  publish service t w = Ret (u, w') -> io_frame w w' \/ close_sent service t w w'.
Proof.
  unfold publish, get_slot. rewrite bind_gets. intros H.
  apply bind_Ret_inv in H as ([] & w2 & H2 & H). apply upd_hw_frame in H2.
  apply bind_Ret_inv in H as ([] & w3 & H3 & H). apply upd_hw_frame in H.
  destruct service as [l|]; [destruct (decide (t = CLOSE)) as [->|]|].
  - right. apply upd_service_inv in H3 as (s & Hs & ->). destruct H2.
    exists l, s. split_and!; [done..|by congruence|]. etransitivity; [|exact H].
    split; cbn; congruence.
  - left. injection H3 as <-. by etransitivity.
  - left. injection H3 as <-. by etransitivity.
Qed.

Lemma queue_message_frame fuel service id cx b w r w' :
  queue_message fuel service id cx b w = Ret (r, w') ->
  io_frame w w' \/
  exists w1 t, msg_type_from_id id = Ret t /\ io_frame w w1 /\ close_sent service t w1 w' .
Proof.
  unfold queue_message. intros (t & w1 & Ht & H)%bind_Ret_inv.
  unfold lift in Ht. destruct (msg_type_from_id id) as [t'| | |]; simplify_eq.
  revert H. cbv zeta. unfold bind_try at 1. intros (r1 & w2 & H1 & H)%bind_Ret_inv.
  assert (io_frame w1 w2) as F1.
  { destruct (decide (t = DATA)); [by eapply check_data_message_frame|by injection H1 as <- <-]. }
  destruct r1 as [[]|e]; [|injection H as <- <-; by left].
  revert H. unfold queue_message_rest, bind_try at 1. cbv zeta. intros (r2 & w3 & H2 & H)%bind_Ret_inv.
  apply reserve_space_frame in H2. destruct r2 as [pos|e]; [|injection H as <- <-; left; by etransitivity].
  unfold get_slot in H. rewrite !bind_gets in H.
  apply bind_Ret_inv in H as ([] & w4 & H3 & H).
  apply store_frame in H3; [|intros q m m' q'; apply fill_message_quotas].
  apply bind_Ret_inv in H as ([] & w5 & H4 & H). injection H as <- <-.
  apply publish_frame in H4 as [H4|H4]; [left|right; exists w4, t; split; [done|]].
  - by repeat (etransitivity; [eassumption|]).
  - split; [|done]. by repeat (etransitivity; [eassumption|]).
Qed.

(** ** The life of a service *)

(** The changes of state the program makes. *)
Inductive srv_step : ServiceState.t -> ServiceState.t -> Prop :=
| srv_opened : srv_step ServiceState.OPENING ServiceState.OPEN              (* OPENACK received *)
| srv_refused : srv_step ServiceState.OPENING ServiceState.CLOSEWAIT        (* CLOSE received *)
| srv_close_early : srv_step ServiceState.OPENING ServiceState.CLOSESENT    (* CLOSE sent *)
| srv_close : srv_step ServiceState.OPEN ServiceState.CLOSESENT             (* CLOSE sent *)
| srv_closed : srv_step ServiceState.CLOSESENT ServiceState.FREE            (* CLOSE received *)
| srv_released : srv_step ServiceState.CLOSEWAIT ServiceState.FREE.         (* closed by the client *)

(** The states services are ever in between operations. *)
Definition live (st : ServiceState.t) : Prop := rtc srv_step ServiceState.OPENING st.

(** Identity and history of a service. *)
Record svc_evolves (s s' : Service) : Prop := {
  evolves_handle : handle s' = handle s;
  evolves_port : localport s' = localport s;
  evolves_fourcc : fourcc (base s') = fourcc (base s);
  evolves_userdata : userdata (base s') = userdata (base s);
  evolves_state : rtc srv_step (srvstate s) (srvstate s');
}.

#[export] Instance svc_evolves_preorder : PreOrder svc_evolves.
Proof.
  split; [done|]. intros s1 s2 s3 [? ? ? ? ?] [? ? ? ? ?]. split; [congruence..|by etransitivity].
Qed.

(** The history of the whole heap: services are never removed, and each evolves. *)
Definition heap_evolves (h h' : list Service) : Prop :=
  forall l s, h !! l = Some s -> exists s', h' !! l = Some s' /\ svc_evolves s s'.

#[export] Instance heap_evolves_preorder : PreOrder heap_evolves.
Proof.
  split; [intros h l s Hs; by exists s|]. intros h1 h2 h3 H1 H2 l s Hs.
  destruct (H1 _ _ Hs) as (s2 & Hs2 & ?). destruct (H2 _ _ Hs2) as (s3 & ? & ?).
  exists s3. split; [done|by etransitivity].
Qed.

Lemma heap_evolves_length h h' : heap_evolves h h' -> (length h <= length h')%nat.
Proof.
  intros H. destruct (length h) as [|n] eqn:E; [lia|].
  destruct (lookup_lt_is_Some_2 h n) as [s Hs]; [lia|].
  destruct (H _ _ Hs) as (s' & Hs' & _). by apply lookup_lt_Some in Hs'.
Qed.

(** ** The registry invariant *)

(** [n] services were created; service number [i] is in entry [i] of the table, has port [i] and
    handle [VCHIQ_MAX_SERVICES + i]; as long as there is room the next handle follows. *)
Record reg_inv (w : World C) : Prop := {
  inv_count : Z.of_nat (length (w_heap w)) <= VCHIQ_MAX_SERVICES;
  inv_services : services (srv_state (w_state w)) =
    map Some (seq 0 (length (w_heap w))) ++
    replicate (Z.to_nat VCHIQ_MAX_SERVICES - length (w_heap w)) None;
  inv_unused : unused_service (srv_state (w_state w)) = Z.of_nat (length (w_heap w));
  inv_heap : forall l s, w_heap w !! l = Some s ->
    localport s = Z.of_nat l /\ handle s = VCHIQ_MAX_SERVICES + Z.of_nat l /\ live (srvstate s);
  inv_handle : Z.of_nat (length (w_heap w)) < VCHIQ_MAX_SERVICES ->
    w_next_handle w = VCHIQ_MAX_SERVICES + Z.of_nat (length (w_heap w));
  inv_quotas : length (service_quotas (quota_state (w_state w))) = Z.to_nat VCHIQ_MAX_SERVICES;
}.

(** What every operation does to the registry. *)
Record reg_ok (w w' : World C) : Prop := {
  ok_inv : reg_inv w';
  ok_heap : heap_evolves (w_heap w) (w_heap w');
}.
Definition reg_step (w w' : World C) : Prop := reg_inv w -> reg_ok w w'.

#[export] Instance reg_step_preorder : PreOrder reg_step.
Proof.
  split; [intros w Hi; by split|]. intros w1 w2 w3 H1 H2 Hi. destruct (H1 Hi) as [? ?].
  destruct H2 as [? ?]; [done|]. split; [done|by etransitivity].
Qed.

Lemma io_frame_step w w' : io_frame w w' -> reg_step w w'.
Proof.
  intros [Hh Hs Hn _ Hq] [? ? ? ? ? ?]. split; [|by rewrite Hh].
  split; rewrite ?Hh, ?Hs, ?Hn, ?Hq; assumption.
Qed.

Lemma with_service_step w l s s' :
  w_heap w !! l = Some s -> svc_evolves s s' -> reg_step w (with_service w l s').
Proof.
  intros Hs He [? ? ? Hheap ? ?].
  assert (length (w_heap (with_service w l s')) = length (w_heap w)) as Hlen by apply length_insert.
  split.
  - split; rewrite ?Hlen; try done. intros l0 s0 Hl0. cbn in Hl0.
    apply list_lookup_insert_Some in Hl0 as [(<- & <- & _)|[_ Hl0]]; [|by apply Hheap].
    destruct (Hheap _ _ Hs) as (? & ? & ?). destruct He as [-> -> _ _ ?].
    split_and!; [done..|]. unfold live in *. by eapply rtc_trans.
  - intros l0 s0 Hl0. cbn. destruct (decide (l0 = l)) as [->|].
    + rewrite list_lookup_insert_eq by (by eapply lookup_lt_Some). simplify_eq. by exists s'.
    + rewrite list_lookup_insert_ne by done. by exists s0.
Qed.

Lemma upd_service_step l f :
  (forall s, svc_evolves s (f s)) -> evolves reg_step (upd_service l f : M (World C) unit).
Proof.
  intros Hf w u w' (s & Hs & ->)%upd_service_inv. by eapply with_service_step.
Qed.

Lemma frame_step {A} (m : M (World C) A) : evolves io_frame m -> evolves reg_step m.
Proof. apply evolves_mono, io_frame_step. Qed.

(** ** Operations on one service keep the registry *)

Lemma freed_evolves s : srvstate s = ServiceState.CLOSEWAIT -> svc_evolves s (freed s).
Proof. intros E. unfold freed. rewrite E. svc_step. Qed.

Lemma close_completed_evolves s : srvstate s = ServiceState.CLOSESENT -> svc_evolves s (close_completed s).
Proof. intros E. svc_step. Qed.

Lemma close_sent_evolves s :
  srvstate s = ServiceState.OPENING \/ srvstate s = ServiceState.OPEN \/
  srvstate s = ServiceState.CLOSESENT ->
  svc_evolves s (set_state ServiceState.CLOSESENT s).
Proof. intros [E|[E|E]]; svc_step. Qed.

(** The service after an OPENACK message. *)
Definition openacked (remote_port : Z) (message : SlotMessage) (s : Service) : Service :=
  let s := match OpenAckPayload_try_from message with
           | Ok version => s <| peer_version := version |>
           | Err _ => s
           end in
  if decide (srvstate s = ServiceState.OPENING)
  then up_remove (set_state ServiceState.OPEN (s <| remoteport := remote_port |>)) else s.

Lemma handle_openack_Ret l rp message w s :
  w_heap w !! l = Some s ->
  handle_openack l rp message w = Ret (tt, with_service w l (openacked rp message s)).
Proof.
  intros Hs. unfold handle_openack, openacked.
  set (s1 := match OpenAckPayload_try_from message with
             | Ok version => s <| peer_version := version |>
             | Err _ => s
             end).
  transitivity (bind (get_service l) (fun s =>
    if decide (srvstate s = ServiceState.OPENING) then
      upd_service l (fun s => s <| remoteport := rp |>) ;;
      upd_service l (set_state ServiceState.OPEN) ;;
      up_remove_event l
    else ret tt) (with_service w l s1)).
  { unfold s1. destruct (OpenAckPayload_try_from message).
    - by erewrite upd_service_bind.
    - rewrite with_service_self by done. reflexivity. }
  assert (w_heap (with_service w l s1) !! l = Some s1) as H1 by by eapply with_service_lookup.
  erewrite bind_Ret by by apply get_service_Ret. cbv zeta.
  destruct (decide (srvstate s1 = ServiceState.OPENING)); [|done].
  erewrite upd_service_bind by done. rewrite with_service_twice.
  erewrite upd_service_bind by by eapply with_service_lookup. rewrite with_service_twice.
  unfold up_remove_event. erewrite upd_service_Ret by by eapply with_service_lookup.
  by rewrite with_service_twice.
Qed.

Lemma openacked_evolves rp message s : svc_evolves s (openacked rp message s).
Proof.
  unfold openacked. destruct (OpenAckPayload_try_from message); cbv zeta; case_decide as E; cbn in E;
    svc_step.
Qed.

(** The service after a CLOSE message. *)
Definition close_received (s : Service) : Service :=
  let s := s <| closing := true |> in
  match srvstate s with
  | ServiceState.OPENING => up_remove (set_state ServiceState.CLOSEWAIT s)
  | ServiceState.CLOSESENT => close_completed s
  | _ => s
  end.

(** A CLOSE message also wakes whoever waits for the quota of the service. *)
Definition quota_raised (w : World C) (i : nat) : World C :=
  w <| w_state ::= fun st => st <| quota_state ::= fun q => q <| service_quotas ::=
    alter (fun q => q <| quota_event ::= sem_up |>) i |> |> |>.

Lemma quota_raised_with_service w i l s :
  quota_raised (with_service w l s) i = with_service (quota_raised w i) l s.
Proof. done. Qed.

Lemma handle_close_Ret l w s :
  w_heap w !! l = Some s ->
  0 <= localport s < Z.of_nat (length (service_quotas (quota_state (w_state w)))) ->
  handle_close l w =
    Ret (tt, with_service (quota_raised w (Z.to_nat (localport s))) l (close_received s)).
Proof.
  intros Hs Hp. unfold handle_close.
  erewrite upd_service_bind by done.
  set (s1 := s <| closing := true |>).
  erewrite bind_Ret by (eapply get_service_Ret; by eapply with_service_lookup).
  unfold get_quota. rewrite bind_gets.
  destruct (lookup_lt_is_Some_2 (service_quotas (quota_state (w_state w))) (Z.to_nat (localport s)))
    as [q Hq]; [lia|].
  erewrite bind_Ret.
  2: { unfold index. cbn. rewrite Hq, decide_True by lia. reflexivity. }
  unfold upd_service_quota, upd_quota, upd_state. rewrite bind_modify.
  set (w0 := quota_raised w (Z.to_nat (localport s))).
  match goal with |- ?m ?x = _ => change x with (with_service w0 l s1) end.
  assert (w_heap (with_service w0 l s1) !! l = Some s1) as H1 by by eapply with_service_lookup.
  unfold close_received. cbv zeta. change (s <| closing := true |>) with s1.
  destruct (srvstate s1) eqn:E; try done.
  - erewrite upd_service_bind by done. unfold up_remove_event.
    erewrite upd_service_Ret by by eapply with_service_lookup.
    by rewrite !with_service_twice.
  - erewrite bind_Ret by (apply close_service_complete_Ret; [done|by auto]).
    by rewrite !with_service_twice.
Qed.


(** ** Every operation keeps the registry *)

Lemma quota_raised_frame w i : io_frame w (quota_raised w i).
Proof. split; try done. cbn. apply length_alter. Qed.

Lemma close_received_evolves s : svc_evolves s (close_received s).
Proof.
  unfold close_received. cbv zeta. destruct (srvstate (s <| closing := true |>)) eqn:E;
    cbn in E; try (by svc_step).
Qed.

Lemma handle_openack_step l rp message : evolves reg_step (handle_openack l rp message : M (World C) unit).
Proof.
  intros w u w' H Hi. destruct (w_heap w !! l) as [s|] eqn:Hs.
  - erewrite handle_openack_Ret in H by done. injection H as <- <-.
    eapply with_service_step; [done| |done]. apply openacked_evolves.
  - exfalso. unfold handle_openack in H. apply bind_Ret_inv in H as (v & w1 & H1 & H2).
    assert (w_heap w1 !! l = None) as Hn.
    { destruct (OpenAckPayload_try_from message).
      - by apply upd_service_inv in H1 as (s & Hs' & _); simplify_eq.
      - by injection H1 as <- <-. }
    apply bind_Ret_inv in H2 as (s & w2 & H2 & _). apply get_service_inv in H2 as [H2 _]. congruence.
Qed.

Lemma handle_close_step l : evolves reg_step (handle_close l : M (World C) unit).
Proof.
  intros w u w' H Hi. destruct (w_heap w !! l) as [s|] eqn:Hs.
  - destruct (inv_heap _ Hi _ _ Hs) as (Hp & _). apply lookup_lt_Some in Hs as Hl.
    pose proof (inv_count _ Hi). pose proof (inv_quotas _ Hi) as Hq.
    rewrite (handle_close_Ret _ _ s) in H by (done || rewrite Hq; lia). injection H as <- <-.
    eapply (transitivity (R := reg_step) (y := quota_raised w (Z.to_nat (localport s)))); [| |done].
    + apply io_frame_step, quota_raised_frame.
    + eapply with_service_step; [done|]. apply close_received_evolves.
  - exfalso. unfold handle_close in H. apply bind_Ret_inv in H as (v & w1 & H1 & H2).
    apply upd_service_inv in H1 as (s & Hs' & _). congruence.
Qed.

(** *** Closing *)

(** A service that may send CLOSE: after [queue_close] it is as before, or in CLOSESENT. *)
Lemma queue_close_inv l w s r w' :
  reg_inv w -> w_heap w !! l = Some s ->
  srvstate s = ServiceState.OPENING \/ srvstate s = ServiceState.OPEN ->
  queue_close l w = Ret (r, w') ->
  reg_ok w w' /\ exists s', w_heap w' !! l = Some s' /\
    (srvstate s' = srvstate s \/ srvstate s' = ServiceState.CLOSESENT).
Proof.
  intros Hi Hs Hst H. unfold queue_close in H. erewrite bind_Ret in H by by apply get_service_Ret.
  apply queue_message_frame in H as [F|(w1 & t & _ & F & (l' & s' & Hl & _ & Hs' & F'))].
  - split; [by apply io_frame_step|]. exists s. split; [|by left]. by rewrite (frame_heap _ _ F).
  - injection Hl as <-. rewrite (frame_heap _ _ F), Hs in Hs'. injection Hs' as <-. split.
    + eapply (transitivity (R := reg_step) (io_frame_step _ _ F)); [|done].
      eapply (transitivity (R := reg_step)); [|by apply io_frame_step].
      eapply with_service_step; [by rewrite (frame_heap _ _ F)|]. apply close_sent_evolves. tauto.
    + exists (set_state ServiceState.CLOSESENT s). split; [|by right].
      rewrite (frame_heap _ _ F'). eapply with_service_lookup. by rewrite (frame_heap _ _ F).
Qed.

Lemma reg_inv_live w l s : reg_inv w -> w_heap w !! l = Some s -> live (srvstate s).
Proof. intros Hi Hs. by apply (inv_heap _ Hi _ _ Hs). Qed.

(** The states that are never entered. *)
Lemma live_cases st :
  live st -> st = ServiceState.OPENING \/ st = ServiceState.OPEN \/ st = ServiceState.CLOSESENT \/
             st = ServiceState.CLOSEWAIT \/ st = ServiceState.FREE.
Proof.
  intros H. apply rtc_ind_r with (P := fun st =>
    st = ServiceState.OPENING \/ st = ServiceState.OPEN \/ st = ServiceState.CLOSESENT \/
    st = ServiceState.CLOSEWAIT \/ st = ServiceState.FREE) (x := ServiceState.OPENING) (3 := H);
    [tauto|]. intros y z _ Hyz. inversion Hyz; subst; auto 7.
Qed.

Lemma close_service_internal_step l : evolves reg_step (close_service_internal l : M (World C) _).
Proof.
  intros w r w' H Hi. unfold close_service_internal in H.
  apply bind_Ret_inv in H as (s & w1 & H1 & H). apply get_service_inv in H1 as [Hs ->].
  destruct (live_cases _ (reg_inv_live _ _ _ Hi Hs)) as [E|[E|[E|[E|E]]]]; rewrite E in H.
  - eapply queue_close_inv; eauto.
  - apply bind_Ret_inv in H as (q & w2 & H2 & H).
    apply (queue_close_inv _ _ _ _ _ Hi Hs) in H2 as (Hok & s' & Hs' & E'); [|by right].
    apply bind_Ret_inv in H as ([] & w3 & H3 & H). injection H as <- <-.
    destruct q; [|by injection H3 as <-].
    rewrite (upd_service_Ret _ _ _ _ Hs') in H3. injection H3 as <-.
    destruct Hok as [Hi2 Hh].
    destruct (with_service_step w2 l s' (set_state ServiceState.CLOSESENT s') Hs') as [? ?];
      [apply close_sent_evolves; rewrite E in E'; tauto|done|].
    split; [done|by etransitivity].
  - done.
  - apply bind_Ret_inv in H as ([] & w2 & H2 & H). injection H as <- <-.
    rewrite (free_service_Ret _ _ _ Hs) in H2. injection H2 as <-.
    eapply with_service_step; [done|by apply freed_evolves|done].
  - injection H as <- <-. by apply reg_step_preorder.
Qed.

Lemma close_start_step h : evolves reg_step (close_start h : M (World C) _).
Proof.
  unfold close_start. evolves_step.
  - apply frame_step. unfold service_from_handle, get_srv. evolves_solve.
  - evolves_step; [apply frame_step; auto with evolves|].
    assert (evolves reg_step (upd_service a (fun s => s <| closing := true |>) ;;
                              close_service_internal a : M (World C) _)) as Hc.
    { evolves_step; [|apply close_service_internal_step]. apply upd_service_step. intros s. svc_step. }
    destruct (srvstate _); first [exact Hc | auto with evolves typeclass_instances].
Qed.

(** *** Connecting, opening, looking services up *)

Lemma service_from_handle_frame h : evolves io_frame (service_from_handle h : M (World C) _).
Proof. unfold service_from_handle, get_srv. evolves_solve. Qed.

Lemma service_by_port_frame p : evolves io_frame (service_by_port p : M (World C) _).
Proof. unfold service_by_port, get_srv. evolves_solve. Qed.

Lemma unwrap_result_frame {A} (r : VchiqResult A) : evolves io_frame (unwrap_result r : M (World C) A).
Proof. unfold unwrap_result. evolves_solve. Qed.

(** Without a service there is nothing to close. *)
Lemma queue_message_None_frame fuel id cx b :
  evolves io_frame (queue_message fuel None id cx b : M (World C) _).
Proof.
  intros w r w' [?|(w1 & t & _ & _ & (l & s & ? & _))]%queue_message_frame; [done|discriminate].
Qed.

(** Neither is there for other messages. *)
Lemma queue_message_other_frame fuel service id cx b :
  msg_type_from_id id <> Ret CLOSE ->
  evolves io_frame (queue_message fuel service id cx b : M (World C) _).
Proof.
  intros Ht w r w' [?|(w1 & t & ? & _ & (l & s & _ & -> & _))]%queue_message_frame; done.
Qed.

Lemma try_down_remove_event_step l : evolves reg_step (try_down_remove_event l : M (World C) bool).
Proof.
  unfold try_down_remove_event. evolves_step; [apply frame_step; auto with evolves|].
  destruct (sem_try_down _); [|auto with evolves typeclass_instances].
  evolves_step; [|auto with evolves typeclass_instances]. apply upd_service_step. intros s0. svc_step.
Qed.
#[local] Hint Resolve frame_step service_from_handle_frame service_by_port_frame
  unwrap_result_frame try_down_remove_event_step close_start_step get_service_frame : evolves.

Lemma set_conn_state_frame c : evolves io_frame (set_conn_state c : M (World C) unit).
Proof. by apply upd_state_frame. Qed.

Lemma connect_start_frame : evolves io_frame (connect_start : M (World C) _).
Proof.
  unfold connect_start. evolves_solve; first [apply queue_message_None_frame | apply set_conn_state_frame].
Qed.

Lemma poll_connect_frame : evolves io_frame (poll_connect : M (World C) _).
Proof. unfold poll_connect. evolves_solve. by apply upd_state_frame. Qed.

Lemma State_connect_step : aevolves reg_step (State_connect : Async (World C) _).
Proof.
  split; [apply frame_step, connect_start_frame|]. intros [[]|e]; cbn; [|done..].
  split; [apply frame_step, poll_connect_frame|]. intros _.
  split; [apply frame_step, set_conn_state_frame|done].
Qed.

Lemma open_service_step `{R : OpenPayloadRepr} h : aevolves reg_step (open_service h : Async (World C) _).
Proof.
  split.
  - apply frame_step. unfold open_start. evolves_solve. apply queue_message_None_frame.
  - intros [[]|e]; cbn; [|done]. split; [|done]. unfold poll_open. evolves_solve.
Qed.

Lemma close_service_step h : aevolves reg_step (close_service h : Async (World C) _).
Proof.
  split; [apply close_start_step|]. intros [[]|e]; cbn; [|done]. split; [|done].
  unfold poll_close. evolves_solve.
Qed.

(** *** Adding a service *)

Lemma first_unused_None i n : first_unused i (map Some (seq 0 n)) = None.
Proof. generalize 0%nat. revert i. induction n as [|n IH]; intros i j; cbn; [done|apply IH]. Qed.

(** The new service, and the world with it. *)
Definition new_service (params : ServiceParams) (w : World C) : Service :=
  set_state ServiceState.OPENING
    ((Service_new params (w_next_handle w)) <| public_fourcc := None |>
       <| localport := Z.of_nat (length (w_heap w)) |>).

Definition opened_quota (w : World C) (quota : ServiceQuota) : ServiceQuota :=
  let quota := quota <| slot_quota := default_slot_quota (w_state w) |>
                     <| message_quota := default_message_quota (w_state w) |> in
  if slot_use_count quota =? 0
  then quota <| previous_tx_index :=
         isize (isize (slot_queue_index_from_pos (local_tx_pos (slot_state (w_state w)))) - 1) |>
  else quota.

Definition with_new_service (params : ServiceParams) (w : World C) : World C :=
  let n := length (w_heap w) in
  w <| w_next_handle := usize_add (w_next_handle w) 1 |>
    <| w_heap := w_heap w ++ [new_service params w] |>
    <| w_state ::= fun st =>
         st <| srv_state ::= fun s => s <| services ::= <[n := Some n]> |>
                                        <| unused_service := Z.of_nat n + 1 |> |>
            <| quota_state ::= fun q => q <| service_quotas ::= alter (opened_quota w) n |> |> |>.

Lemma add_service_Ok params w :
  reg_inv w -> Z.of_nat (length (w_heap w)) < VCHIQ_MAX_SERVICES ->
  add_service params ServiceState.OPENING w = Ret (Ok (w_next_handle w), with_new_service params w).
Proof.
  intros [Hc Hs Hu _ _ Hq] Hn. change VCHIQ_MAX_SERVICES with 4096 in *.
  unfold add_service, get_srv. rewrite bind_gets, bind_modify, bind_gets.
  rewrite !decide_True by done. unfold with_new_service, new_service.
  set (s0 := (Service_new _ _) <| public_fourcc := None |>). assert (handle s0 = w_next_handle w) as Hh by done.
  clearbody s0.
  cbn [w_state w_heap services srv_state unused_service update].
  rewrite Hs, Hu, length_app, length_map, length_seq, length_replicate.
  rewrite (proj2 (Z.ltb_ge _ _)) by lia.
  rewrite Nat2Z.id, take_app_length' by by rewrite length_map, length_seq.
  rewrite first_unused_None, (proj2 (Z.ltb_lt _ _)) by done.
  rewrite bind_ret_l, bind_gets. cbn [w_heap update].
  erewrite bind_Ret.
  2: { unfold index. rewrite Nat2Z.id, lookup_app_r, lookup_replicate_2, decide_True
         by (rewrite ?length_map, ?length_seq; lia). reflexivity. }
  rewrite u32_small by (unfold is_u32; lia).
  assert (usize_add (unused_service (srv_state (w_state w))) 1 = Z.of_nat (length (w_heap w)) + 1) as Hadd
    by (rewrite Hu; ints; done).
  rewrite <- ?Hs, <- Hadd, <- Hh. reflexivity.
Qed.

Lemma add_service_full params w :
  reg_inv w -> Z.of_nat (length (w_heap w)) = VCHIQ_MAX_SERVICES ->
  add_service params ServiceState.OPENING w =
    Ret (Err (EVchiq UnableToAddService), w <| w_next_handle := usize_add (w_next_handle w) 1 |>).
Proof.
  intros [Hc Hs Hu _ _ Hq] Hn. change VCHIQ_MAX_SERVICES with 4096 in *.
  unfold add_service, get_srv. rewrite bind_gets, bind_modify, bind_gets.
  rewrite !decide_True by done. set (s0 := (Service_new _ _) <| public_fourcc := None |>). clearbody s0.
  cbn [w_state w_heap services srv_state unused_service update].
  rewrite Hs, Hu, length_app, length_map, length_seq, length_replicate.
  rewrite (proj2 (Z.ltb_ge _ _)) by lia.
  rewrite Nat2Z.id, take_app_length' by by rewrite length_map, length_seq.
  rewrite first_unused_None, (proj2 (Z.ltb_ge _ _)) by (change VCHIQ_MAX_SERVICES with 4096; lia).
  reflexivity.
Qed.

(** [add_service] for any other initial state does not return. *)
Lemma add_service_opening params st w r w' :
  add_service params st w = Ret (r, w') -> st = ServiceState.OPENING.
Proof.
  unfold add_service, get_srv. rewrite bind_gets, bind_modify, bind_gets.
  destruct (decide (st = ServiceState.OPENING)); [done|]. discriminate.
Qed.

Lemma table_insert n k : (n < k)%nat ->
  <[n := Some n]> (map Some (seq 0 n) ++ replicate (k - n) None) =
  map Some (seq 0 (S n)) ++ replicate (k - S n) None.
Proof.
  intros Hn. rewrite seq_S, map_app, <- app_assoc.
  replace (k - n)%nat with (S (k - S n)) by lia. cbn [replicate].
  rewrite insert_app_r_alt by by rewrite length_map, length_seq.
  by rewrite length_map, length_seq, Nat.sub_diag.
Qed.

Lemma with_new_service_ok params w :
  reg_inv w -> Z.of_nat (length (w_heap w)) < VCHIQ_MAX_SERVICES -> reg_ok w (with_new_service params w).
Proof.
  intros [Hc Hs Hu Hh Hn Hq] Hlt.
  assert (w_heap (with_new_service params w) = w_heap w ++ [new_service params w]) as Hw by done.
  split.
  - split; rewrite ?Hw, ?length_app; cbn [length].
    + lia.
    + cbn -[insert list_insert Z.to_nat seq map VCHIQ_MAX_SERVICES]. rewrite Hs, table_insert by lia.
      by rewrite Nat.add_1_r.
    + cbn -[Z.of_nat]. lia.
    + intros l s [Hl|[Hge Hl]]%lookup_app_Some; [by apply Hh|].
      apply list_lookup_singleton_Some in Hl as [Hl <-].
      assert (l = length (w_heap w)) as -> by lia. split_and!; [done| |apply rtc_refl].
      cbn -[Z.of_nat]. by apply Hn.
    + intros H. cbn -[Z.of_nat]. rewrite Hn by done. change VCHIQ_MAX_SERVICES with 4096 in *. ints. lia.
    + cbn -[Z.to_nat alter list_alter]. by rewrite length_alter.
  - intros l s Hl. exists s. split; [|done]. rewrite Hw. by apply lookup_app_l_Some.
Qed.

Lemma add_service_step params st : evolves reg_step (add_service params st : M (World C) _).
Proof.
  intros w r w' H Hi. pose proof (add_service_opening _ _ _ _ _ H) as ->.
  pose proof (inv_count _ Hi).
  destruct (decide (Z.of_nat (length (w_heap w)) = VCHIQ_MAX_SERVICES)) as [E|].
  - rewrite add_service_full in H by done. injection H as <- <-. destruct Hi. split; [|done].
    split; try done. cbn. lia.
  - rewrite add_service_Ok in H by (done || lia). injection H as <- <-.
    apply with_new_service_ok; [done|lia].
Qed.

(** ** Looking services up *)

(** The service a handle stands for. *)
Definition handle_index (w : World C) (h : ServiceHandle) : option nat :=
  if decide (VCHIQ_MAX_SERVICES <= h < VCHIQ_MAX_SERVICES + Z.of_nat (length (w_heap w)))
  then Some (Z.to_nat (h - VCHIQ_MAX_SERVICES)) else None.

Lemma find_handle_replicate heap h k : find_handle heap h (replicate k None) = None.
Proof. induction k as [|k IH]; [done|apply IH]. Qed.

Lemma find_handle_seq heap h n k j :
  (forall l s, heap !! l = Some s -> handle s = VCHIQ_MAX_SERVICES + Z.of_nat l) ->
  (j + n <= length heap)%nat ->
  find_handle heap h (map Some (seq j n) ++ replicate k None) =
    if decide (VCHIQ_MAX_SERVICES + Z.of_nat j <= h < VCHIQ_MAX_SERVICES + Z.of_nat (j + n))
    then Some (Z.to_nat (h - VCHIQ_MAX_SERVICES)) else None.
Proof.
  intros Hheap. revert j. induction n as [|n IH]; intros j Hj; cbn [seq map app find_handle].
  { rewrite decide_False by lia. apply find_handle_replicate. }
  destruct (lookup_lt_is_Some_2 heap j) as [s Hs]; [lia|]. rewrite Hs, (Hheap _ _ Hs).
  destruct (Z.eqb_spec (VCHIQ_MAX_SERVICES + Z.of_nat j) h) as [<-|].
  - rewrite decide_True by lia. f_equal. lia.
  - rewrite IH by lia. repeat case_decide; try done; lia.
Qed.

Lemma service_from_handle_Ret h w :
  reg_inv w ->
  service_from_handle h w =
    Ret (match handle_index w h with
         | Some l => Ok l
         | None => Err (EVchiq (ServiceNotFound h))
         end, w).
Proof.
  intros Hi. unfold service_from_handle, get_srv. rewrite !bind_gets, (inv_services _ Hi).
  rewrite find_handle_seq; [|intros l s Hs; by apply (inv_heap _ Hi)|lia].
  unfold handle_index. cbn [Z.of_nat]. rewrite Z.add_0_r, Nat.add_0_l. by case_decide.
Qed.

(** The service that listens at a port. *)
Definition port_index (w : World C) (port : Z) : option nat :=
  match w_heap w !! Z.to_nat port with
  | Some s => if decide (srvstate s = ServiceState.FREE) then None else Some (Z.to_nat port)
  | None => None
  end.

Lemma service_by_port_Ret port w :
  reg_inv w -> 0 <= port < VCHIQ_MAX_SERVICES ->
  service_by_port port w = Ret (port_index w port, w).
Proof.
  intros Hi Hp. unfold service_by_port, get_srv, port_index. rewrite bind_gets, (inv_services _ Hi).
  pose proof (inv_count _ Hi) as Hc. unfold index.
  destruct (w_heap w !! Z.to_nat port) as [s|] eqn:Hs.
  - apply lookup_lt_Some in Hs as Hl.
    rewrite lookup_app_l, list_lookup_fmap, lookup_seq_lt by (rewrite ?length_map, ?length_seq; done).
    cbn [fmap option_fmap option_map]. rewrite decide_True, bind_ret_l by lia. rewrite Nat.add_0_l.
    erewrite bind_Ret by by apply get_service_Ret. by case_decide.
  - apply lookup_ge_None in Hs.
    rewrite lookup_app_r, lookup_replicate_2, decide_True, bind_ret_l
      by (rewrite ?length_map, ?length_seq; lia). done.
Qed.

(** Services are found by what identifies them.  The handle [4096 + i] stands for service number
    [i] and every other handle is reported as [ServiceNotFound]; a 12-bit port finds the service
    created with it unless that is free again.  Neither lookup panics or changes anything. *)
Lemma service_lookup (w : World C) :
  reg_inv w ->
  (forall h, service_from_handle h w =
     Ret (match handle_index w h with
          | Some l => Ok l
          | None => Err (EVchiq (ServiceNotFound h))
          end, w)) /\
  (forall id, service_by_port (dst_port_from_id id) w = Ret (port_index w (dst_port_from_id id), w)).
Proof.
  intros Hi. split; [intros h; by apply service_from_handle_Ret|].
  intros id. apply service_by_port_Ret; [done|]. apply dst_port_range.
Qed.

(** C25: adding a service.  While fewer than 4096 services exist, [add_service] returns the next
    handle; the new service is in state OPENING at the next port, has the parameters given, and is
    found by its handle and its port; the others are untouched.  With 4096 services it fails with
    [UnableToAddService], and nothing but the handle counter changes. *)
Theorem add_service_spec (w : World C) (params : ServiceParams) :
  reg_inv w ->
  let n := length (w_heap w) in
  let h := VCHIQ_MAX_SERVICES + Z.of_nat n in
  (Z.of_nat n < VCHIQ_MAX_SERVICES ->
   exists w' s, add_service params ServiceState.OPENING w = Ret (Ok h, w') /\
     reg_inv w' /\ w_heap w' = w_heap w ++ [s] /\
     srvstate s = ServiceState.OPENING /\ handle s = h /\ localport s = Z.of_nat n /\
     remoteport s = VCHIQ_PORT_FREE /\
     base s = mkServiceBase (sp_fourcc params) (sp_callback params) (sp_userdata params) /\
     service_from_handle h w' = Ret (Ok n, w') /\ service_by_port (Z.of_nat n) w' = Ret (Some n, w')) /\
  (Z.of_nat n = VCHIQ_MAX_SERVICES ->
   exists w', add_service params ServiceState.OPENING w = Ret (Err (EVchiq UnableToAddService), w') /\
     reg_inv w' /\ w_heap w' = w_heap w /\ w_state w' = w_state w).
Proof.
  intros Hi n h. split; intros Hn.
  - destruct (with_new_service_ok params w Hi Hn) as [Hi' _].
    assert (handle (new_service params w) = h) as Hh by by apply (inv_handle _ Hi).
    exists (with_new_service params w), (new_service params w).
    assert (w_heap (with_new_service params w) = w_heap w ++ [new_service params w]) as Hw by done.
    split_and!; try done.
    + rewrite add_service_Ok by done. by rewrite (inv_handle _ Hi).
    + rewrite service_from_handle_Ret by done. unfold handle_index. rewrite Hw, length_app. cbn [length].
      rewrite decide_True by lia. do 3 f_equal. lia.
    + rewrite service_by_port_Ret by (done || lia). unfold port_index.
      rewrite Nat2Z.id, Hw, lookup_app_r, Nat.sub_diag by done. done.
  - rewrite add_service_full by done. eexists. split; [done|]. split; [|done].
    destruct Hi. split; try done. cbn -[VCHIQ_MAX_SERVICES]. fold n. lia.
Qed.

(** *** Handling messages *)

Lemma client_frame_step w w' : client_frame w w' -> reg_step w w'.
Proof.
  intros [Hst Hh _ Hn] [? ? ? ? ? ?]. split; [|by rewrite Hh].
  split; rewrite ?Hst, ?Hh, ?Hn; assumption.
Qed.

Lemma current_rx_frame tx_pos : evolves io_frame (current_rx tx_pos : M (World C) _).
Proof. unfold current_rx, get_slot, get_mem. evolves_solve. Qed.

Lemma message_service_frame t lp rp : evolves io_frame (message_service t lp rp : M (World C) _).
Proof. unfold message_service. evolves_solve. Qed.
#[local] Hint Resolve current_rx_frame message_service_frame : evolves.

Context {H : CallbackHost C} {HL : CallbackLaws C}.

Lemma handle_data_step l rp message : evolves reg_step (handle_data l rp message : M (World C) unit).
Proof.
  unfold handle_data. evolves_solve; try (apply upd_service_step; intros s; svc_step).
  eapply evolves_mono; [apply client_frame_step|apply invoke_frame].
Qed.

Lemma dispatch_step t l rp message : evolves reg_step (dispatch t l rp message : M (World C) unit).
Proof.
  unfold dispatch. evolves_solve;
    first [ apply handle_openack_step | apply handle_close_step | apply handle_data_step
          | apply frame_step; by apply upd_state_frame ].
Qed.

Lemma handle_message_step tx_pos : evolves reg_step (handle_message tx_pos : M (World C) unit).
Proof.
  unfold handle_message, get_slot, get_mem. evolves_solve.
  apply dispatch_step.
Qed.

Lemma handle_messages_step fuel tx_pos : evolves reg_step (handle_messages fuel tx_pos : M (World C) unit).
Proof.
  induction fuel as [|fuel IH]; cbn [handle_messages]; unfold get_slot; evolves_solve.
  apply handle_message_step.
Qed.

Lemma slot_handler_step fuel locked : evolves reg_step (slot_handler fuel locked : M (World C) unit).
Proof. unfold slot_handler, get_slot, get_mem. evolves_solve. apply handle_messages_step. Qed.
End registry.
