(* ===== verification/Queues.v ===== *)
(** The two rings of the client side refine first-in first-out queues: the completion queue
    ([src/vchiq/instance/completion.rs], [await_completion]) and the message queue of a service
    ([service_callback], [dequeue_message] of [src/vchiq/instance/mod.rs]).  Positions are usize and
    wrap; a ring that is full overwrites its oldest entry. *)

From S2P Require Import Prelude Locks Memory Layout Types SlotMessage Event SlotZero Slot Service.
From S2P Require Import State SlotHandler Completion Instance.

(** ** Rings of 128 entries *)

Definition RING : Z := 128.

Lemma ring_index_val pos : ring_index RING pos = Z.to_nat (pos mod 128).
Proof. unfold ring_index. f_equal. apply (land_mask pos 7); done. Qed.

Lemma ring_index_lt pos : (ring_index RING pos < 128)%nat.
Proof. rewrite ring_index_val. pose proof (Z.mod_pos_bound pos 128). lia. Qed.

Lemma ring_index_usize pos : ring_index RING (usize pos) = ring_index RING pos.
Proof.
  rewrite !ring_index_val. unfold usize. f_equal.
  change (2 ^ 64) with (128 * 2 ^ 57). rewrite Z.rem_mul_r by lia. zdiv.
Qed.

Lemma ring_index_usize_add pos k : ring_index RING (usize pos + k) = ring_index RING (pos + k).
Proof.
  rewrite <- (ring_index_usize (usize pos + k)), <- (ring_index_usize (pos + k)).
  unfold usize. by rewrite Zplus_mod_idemp_l.
Qed.

Lemma ring_index_add_ne pos i j :
  0 <= i < 128 -> 0 <= j < 128 -> i <> j -> ring_index RING (pos + i) <> ring_index RING (pos + j).
Proof. rewrite !ring_index_val. intros Hi Hj Hne H. apply Hne. zdiv. Qed.

Lemma ring_index_round pos : ring_index RING (pos + 128) = ring_index RING pos.
Proof. rewrite !ring_index_val. f_equal. zdiv. Qed.

(** [holds es pos q]: from position [pos] on, the entries are those of [q]. *)
Definition holds {A} (es : list (option A)) (pos : Z) (q : list A) : Prop :=
  forall k x, q !! k = Some x -> es !! ring_index RING (pos + Z.of_nat k) = Some (Some x).

Section ring.
Context {A : Type}.
Implicit Types (es : list (option A)) (q : list A).

Lemma holds_nil es pos : holds es pos [].
Proof. by intros [|k] x. Qed.

Lemma holds_head es pos x q : holds es pos (x :: q) -> es !! ring_index RING pos = Some (Some x).
Proof. intros H. rewrite <- (Z.add_0_r pos). by apply (H 0%nat). Qed.

Lemma holds_tail es pos x q : holds es pos (x :: q) -> holds es (pos + 1) q.
Proof.
  intros H k y Hk. replace (pos + 1 + Z.of_nat k) with (pos + Z.of_nat (S k)) by lia. by apply H.
Qed.

Lemma holds_usize es pos q : holds es (usize pos) q <-> holds es pos q.
Proof.
  unfold holds. setoid_rewrite (ring_index_usize_add pos). done.
Qed.

Lemma holds_insert_out es pos q i e :
  holds es pos q -> (forall k, (k < length q)%nat -> ring_index RING (pos + Z.of_nat k) <> i) ->
  holds (<[i := e]> es) pos q.
Proof.
  intros H Hi k x Hk. rewrite list_lookup_insert_ne; [by apply H|].
  apply not_eq_sym, Hi. by eapply lookup_lt_Some.
Qed.

(** Inserting behind the last entry of a ring that is not full. *)
Lemma holds_push es pos q x :
  length es = 128%nat -> (length q < 128)%nat -> holds es pos q ->
  holds (<[ring_index RING (pos + Z.of_nat (length q)) := Some x]> es) pos (q ++ [x]).
Proof.
  intros Hes Hq H k y Hk. apply lookup_app_Some in Hk as [Hk|[Hge Hk]].
  - refine (holds_insert_out _ _ _ _ _ H _ _ _ Hk). intros i Hi. apply ring_index_add_ne; lia.
  - apply list_lookup_singleton_Some in Hk as [Hk <-].
    replace k with (length q) by lia. apply list_lookup_insert_eq. rewrite Hes. apply ring_index_lt.
Qed.

(** Taking the first entry. *)
Lemma holds_pop es pos x q :
  (length q < 128)%nat -> holds es pos (x :: q) ->
  holds (<[ring_index RING pos := None]> es) (pos + 1) q.
Proof.
  intros Hq H. apply holds_insert_out; [by eapply holds_tail|].
  intros k Hk. rewrite <- Z.add_assoc. rewrite <- (Z.add_0_r pos) at 2.
  apply ring_index_add_ne; lia.
Qed.

(** Inserting into a full ring replaces the oldest entry. *)
Lemma holds_overflow es pos x q y :
  length es = 128%nat -> length q = 127%nat -> holds es pos (x :: q) ->
  let es' := <[ring_index RING (pos + 128) := Some y]> es in
  es' !! ring_index RING pos = Some (Some y) /\ holds es' (pos + 1) q.
Proof.
  intros Hes Hq H es'. unfold es'. rewrite ring_index_round. split.
  - apply list_lookup_insert_eq. rewrite Hes. apply ring_index_lt.
  - apply holds_insert_out; [by eapply holds_tail|].
    intros k Hk. rewrite <- Z.add_assoc. rewrite <- (Z.add_0_r pos) at 2.
    apply ring_index_add_ne; lia.
Qed.

(** A ring with its two positions refines the queue [q]. *)
Record ring_repr (es : list (option A)) (insert remove : Z) (q : list A) : Prop := {
  ring_length : length es = 128%nat;
  ring_room : (length q <= 128)%nat;
  ring_remove : is_usize remove;
  ring_insert : insert = usize (remove + Z.of_nat (length q));
  ring_holds : holds es remove q;
}.

Lemma ring_repr_empty : ring_repr (replicate 128 None) 0 0 [].
Proof. split; [reflexivity|cbn; lia|done|reflexivity|apply holds_nil]. Qed.

Lemma ring_push es i r q x :
  ring_repr es i r q -> (length q < 128)%nat ->
  ring_repr (<[ring_index RING i := Some x]> es) (usize_add i 1) r (q ++ [x]).
Proof.
  intros [Hl Hq Hr -> Hh] Hlt. rewrite ring_index_usize. split.
  - by rewrite length_insert.
  - rewrite length_app. cbn. lia.
  - done.
  - unfold usize_add, usize. rewrite Zplus_mod_idemp_l, length_app. f_equal. cbn. lia.
  - by apply holds_push.
Qed.

Lemma ring_pop es i r x q :
  ring_repr es i r (x :: q) ->
  es !! ring_index RING r = Some (Some x) /\ r <> i /\
  ring_repr (<[ring_index RING r := None]> es) i (usize_add r 1) q.
Proof.
  intros [Hl Hq Hr -> Hh]. cbn in Hq. split_and!.
  - by eapply holds_head.
  - unfold usize, is_usize in *. cbn [length]. intros E. zdiv.
  - split.
    + by rewrite length_insert.
    + lia.
    + apply usize_range.
    + unfold usize_add, usize. rewrite Zplus_mod_idemp_l. f_equal. cbn [length]. lia.
    + apply holds_usize. eapply holds_pop; [lia|done].
Qed.

Lemma ring_empty es i r : ring_repr es i r [] -> r = i.
Proof. intros [_ _ Hr -> _]. cbn [length]. rewrite Z.add_0_r, usize_small by done. done. Qed.

Lemma ring_entry es i r q pos : ring_repr es i r q -> exists e, es !! ring_index RING pos = Some e.
Proof. intros [Hl _ _ _ _]. apply lookup_lt_is_Some_2. rewrite Hl. apply ring_index_lt. Qed.
End ring.

(** ** The completion queue *)

Section completions.
Context {L : LockLib} {CB : Callbacks}.
Implicit Types (c : Completion) (u : ServiceUser) (q : list ServiceCompletion).

(** The abstract state of the completion queue: the completions in it, oldest first. *)
Definition comp_repr (c : Completion) (q : list ServiceCompletion) : Prop :=
  ring_repr (completions c) (completion_insert c) (completion_remove c) q.

(** What [add_completion] makes of the queue, and of the record of the service. *)
Definition completion_of (reason : Reason) (message : option SlotMessage) (u : ServiceUser)
  : ServiceCompletion := mkServiceCompletion reason message (su_userdata u).
Definition noted (reason : Reason) (c : Completion) (u : ServiceUser) : ServiceUser :=
  if decide (reason = MESSAGE_AVAILABLE)
  then u <| message_available_pos := isize (completion_insert c) |> else u.

Lemma usize_sub_back r k : is_usize r -> 0 <= k < 2 ^ 64 -> usize_sub (usize (r + k)) r = k.
Proof.
  intros Hr Hk. unfold usize_sub, usize. rewrite Zminus_mod_idemp_l.
  replace (r + k - r) with k by lia. by apply Z.mod_small.
Qed.

(** Full or not, the entry at the insert position is replaced. *)
Lemma add_completion_writes reason message c u :
  length (completions c) = 128%nat ->
  exists c', add_completion reason message c u = Ret (c', noted reason c u) /\
    completions c' = <[ring_index RING (completion_insert c) :=
                         Some (completion_of reason message u)]> (completions c) /\
    completion_insert c' = usize_add (completion_insert c) 1 /\
    completion_remove c' = completion_remove c.
Proof.
  intros Hl. unfold add_completion. cbv zeta. change MAX_COMPLETIONS with RING.
  destruct (lookup_lt_is_Some_2 (completions c) (ring_index RING (completion_insert c))) as [e He];
    [rewrite Hl; apply ring_index_lt|].
  destruct (RING <=? _); [destruct (sem_try_down _)|]; cbn [completions update]; rewrite He;
    eexists; (split; [reflexivity|done]).
Qed.

Lemma add_completion_Ret reason message c u q :
  comp_repr c q -> (length q < 128)%nat ->
  exists c', add_completion reason message c u = Ret (c', noted reason c u) /\
    comp_repr c' (q ++ [completion_of reason message u]) /\
    completion_remove c' = completion_remove c.
Proof.
  intros Hr Hq. destruct (add_completion_writes reason message c u (ring_length _ _ _ _ Hr)) as (c' & E & He & Hi & Hrm).
  exists c'. split; [done|]. split; [|done]. unfold comp_repr. rewrite He, Hi, Hrm. by apply ring_push.
Qed.

(** Several completions added, [c0] being the queue before and [c1] the one after. *)
Record added (c0 : Completion) (cs : list ServiceCompletion) (c1 : Completion) : Prop := {
  added_ring : length (completions c1) = 128%nat;
  added_insert : usize_sub (completion_insert c1) (completion_insert c0) = Z.of_nat (length cs);
  added_entries : forall k x, cs !! k = Some x ->
    completions c1 !! ring_index RING (completion_insert c0 + Z.of_nat k) = Some (Some x);
  added_queue : forall q, comp_repr c0 q -> (length q + length cs <= 128)%nat -> comp_repr c1 (q ++ cs);
}.

Lemma ring_index_sub i j n : usize_sub i j = n -> ring_index RING i = ring_index RING (j + n).
Proof.
  intros <-. rewrite !ring_index_val. unfold usize_sub, usize. f_equal.
  change (2 ^ 64) with (128 * 2 ^ 57). zdiv.
Qed.

Lemma added_nil c : length (completions c) = 128%nat -> added c [] c.
Proof.
  intros Hl. split; [done| |by intros [|k]|].
  - unfold usize_sub. by rewrite Z.sub_diag.
  - intros q Hq _. by rewrite app_nil_r.
Qed.

Lemma added_snoc c0 cs c1 reason message u1 c2 u2 :
  added c0 cs c1 -> (length cs < 128)%nat -> add_completion reason message c1 u1 = Ret (c2, u2) ->
  added c0 (cs ++ [completion_of reason message u1]) c2.
Proof.
  intros [Hl Hi He Hq] Hlt E. destruct (add_completion_writes reason message c1 u1 Hl) as (c & E' & Hes & Hin & Hrm).
  rewrite E in E'. injection E' as <- _. rewrite (ring_index_sub _ _ _ Hi) in Hes. split.
  - by rewrite Hes, length_insert.
  - rewrite Hin, length_app. cbn [length]. revert Hi. unfold usize_add, usize_sub, usize. intros Hi.
    rewrite Zminus_mod_idemp_l. replace (_ + 1 - _) with (completion_insert c1 - completion_insert c0 + 1) by lia.
    rewrite <- Zplus_mod_idemp_l, Hi, Z.mod_small by lia. lia.
  - intros k x [Hk|[Hge Hk]]%lookup_app_Some; rewrite Hes.
    + apply lookup_lt_Some in Hk as Hk'. rewrite list_lookup_insert_ne by (apply ring_index_add_ne; lia). by apply He.
    + apply list_lookup_singleton_Some in Hk as [Hk <-]. replace k with (length cs) by lia.
      apply list_lookup_insert_eq. rewrite Hl. apply ring_index_lt.
  - intros q Hq0 Hlen. rewrite length_app in Hlen. cbn [length] in Hlen. rewrite app_assoc.
    destruct (add_completion_Ret reason message c1 u1 (q ++ cs)) as (c & E' & Hc & _).
    + apply Hq; [done|lia].
    + rewrite length_app. lia.
    + rewrite E in E'. by injection E' as <- _.
Qed.

(** The entries between two insert positions. *)
Definition entries_between (c0 c1 : Completion) : list ServiceCompletion :=
  omap (fun k => mjoin (completions c1 !! ring_index RING (completion_insert c0 + Z.of_nat k)))
    (seq 0 (Z.to_nat (usize_sub (completion_insert c1) (completion_insert c0)))).

Lemma omap_seq_lookup {A} (f : nat -> option A) (l : list A) j :
  (forall k x, l !! k = Some x -> f (j + k)%nat = Some x) -> omap f (seq j (length l)) = l.
Proof.
  revert j. induction l as [|x l IH]; intros j Hf; [done|]. cbn [length seq omap list_omap].
  rewrite <- (Nat.add_0_r j) at 1. rewrite (Hf 0%nat x eq_refl). f_equal. apply IH. intros k y Hk.
  rewrite Nat.add_succ_comm. by apply (Hf (S k)).
Qed.

Lemma added_between c0 cs c1 : added c0 cs c1 -> entries_between c0 c1 = cs.
Proof.
  intros [_ Hi He _]. unfold entries_between. rewrite Hi, Nat2Z.id. apply omap_seq_lookup.
  intros k x Hk. rewrite Nat.add_0_l. by rewrite (He k x Hk).
Qed.

(** Taking completions: the loop of [await_completion]. *)
Lemma take_completions_repr count c q :
  comp_repr c q ->
  exists c', take_completions count c = Ret (take count q, c') /\ comp_repr c' (drop count q) /\
             completion_insert c' = completion_insert c.
Proof.
  revert c q. induction count as [|count IH]; intros c q Hr; cbn [take_completions].
  { exists c. by rewrite take_0. }
  destruct q as [|x q].
  - rewrite (proj2 (Z.eqb_eq _ _)) by by eapply ring_empty. exists c. by rewrite take_nil, drop_nil.
  - destruct (ring_pop _ _ _ _ _ Hr) as (He & Hne & Hr').
    rewrite (proj2 (Z.eqb_neq _ _)) by done. change MAX_COMPLETIONS with RING. rewrite He.
    match goal with |- context [take_completions count ?c1] => destruct (IH c1 q) as (c' & E & Hr2 & Hi) end.
    { exact Hr'. }
    rewrite E. exists c'. done.
Qed.

(** The completion queue is a FIFO queue of up to 128 completions.  Adding to a queue with room
    appends one completion with the message and the user data of the service, and taking [count]
    returns the oldest ones, in the order they were added, and removes exactly those - for any
    positions of the ring, wrapped ones included. *)
Lemma completion_queue_fifo (c : Completion) (q : list ServiceCompletion) :
  comp_repr c q ->
  (forall reason message u, (length q < 128)%nat ->
     exists c', add_completion reason message c u = Ret (c', noted reason c u) /\
       comp_repr c' (q ++ [mkServiceCompletion reason message (su_userdata u)])) /\
  (forall count, exists c', take_completions count c = Ret (take count q, c') /\
       comp_repr c' (drop count q)).
Proof.
  intros Hr. split.
  - intros reason message u Hq. destruct (add_completion_Ret reason message c u q) as (c' & ? & ? & _);
      [done..|]. by exists c'.
  - intros count. destruct (take_completions_repr count c q Hr) as (c' & ? & ? & _). by exists c'.
Qed.

(** A hole in the ring that the positions claim to be an entry makes [await_completion] panic. *)
Lemma take_completions_hole q : forall c count,
  (length q < 128)%nat -> (length q < count)%nat -> is_usize (completion_remove c) ->
  holds (completions c) (completion_remove c) q ->
  completions c !! ring_index RING (completion_remove c + Z.of_nat (length q)) = Some None ->
  (forall k, (k <= length q)%nat -> usize (completion_remove c + Z.of_nat k) <> completion_insert c) ->
  take_completions count c = Panic PUnwrap.
Proof.
  induction q as [|x q IH]; intros c [|count] Hq Hcount Hr Hh Hn Hi; cbn [length] in *; try lia;
    cbn [take_completions]; change MAX_COMPLETIONS with RING;
    pose proof (Hi 0%nat ltac:(lia)) as H0; rewrite Z.add_0_r, usize_small in H0 by done;
    rewrite (proj2 (Z.eqb_neq _ _)) by done.
  - rewrite Z.add_0_r in Hn. by rewrite Hn.
  - rewrite (holds_head _ _ _ _ Hh). cbn -[insert list_insert RING Z.of_nat].
    rewrite IH; [done|..]; cbn -[insert list_insert RING Z.of_nat].
    + lia.
    + lia.
    + apply usize_range.
    + apply holds_usize. eapply holds_pop; [lia|done].
    + unfold usize_add. rewrite ring_index_usize_add, list_lookup_insert_ne.
      * replace (_ + 1 + _) with (completion_remove c + Z.of_nat (S (length q))) by lia. done.
      * rewrite <- (Z.add_0_r (completion_remove c)) at 1. rewrite <- Z.add_assoc.
        apply ring_index_add_ne; lia.
    + intros k Hk. unfold usize_add, usize. rewrite Zplus_mod_idemp_l.
      replace (_ + 1 + _) with (completion_remove c + Z.of_nat (S k)) by lia. apply Hi. lia.
Qed.

(** C37: a full completion queue loses its order.  The code notices that the queue is full and still
    writes: the newest completion takes the place of the oldest, is the first to be returned, and
    asking for more than 128 completions then panics on an empty entry. *)
Theorem completion_queue_overflow (c : Completion) (q : list ServiceCompletion)
    (reason : Reason) (message : option SlotMessage) (u : ServiceUser) :
  comp_repr c q -> length q = 128%nat ->
  exists c' u', add_completion reason message c u = Ret (c', u') /\
    (exists c'', take_completions 1 c' =
       Ret ([mkServiceCompletion reason message (su_userdata u)], c'')) /\
    (forall count, (128 < count)%nat -> take_completions count c' = Panic PUnwrap).
Proof.
  intros Hr Hq. destruct q as [|x q]; [done|]. cbn in Hq. injection Hq as Hq.
  pose proof Hr as [Hes _ Hru Hins Hh].
  destruct (add_completion_writes reason message c u Hes) as (c' & E & He & Hi & Hrm).
  assert (completion_insert c = usize (completion_remove c + 128)) as Hins'.
  { rewrite Hins. cbn [length]. f_equal. lia. }
  rewrite Hins', ring_index_usize in He.
  destruct (holds_overflow _ _ _ _ (completion_of reason message u) Hes Hq Hh) as [Hy Hh'].
  rewrite <- He, <- Hrm in Hy, Hh'. rewrite Hins' in Hi. rewrite <- Hrm in Hi, Hru.
  assert (forall k, (k <= 128)%nat -> usize (completion_remove c' + Z.of_nat k) <> completion_insert c') as Hne.
  { intros k Hk. rewrite Hi. unfold usize_add, usize, is_usize in *. intros Eq. zdiv. }
  pose proof (Hne 0%nat ltac:(lia)) as H0. rewrite Z.add_0_r, usize_small in H0 by done.
  eexists c', _. split; [exact E|]. split.
  - eexists. cbn [take_completions]. rewrite (proj2 (Z.eqb_neq _ _)) by done.
    change MAX_COMPLETIONS with RING. rewrite Hy. reflexivity.
  - intros [|count] Hc; [lia|]. cbn [take_completions]. rewrite (proj2 (Z.eqb_neq _ _)) by done.
    change MAX_COMPLETIONS with RING. rewrite Hy.
    rewrite (take_completions_hole q); [done|..]; cbn -[insert list_insert RING Z.of_nat].
    + lia.
    + lia.
    + apply usize_range.
    + apply holds_usize, holds_insert_out; [done|]. intros k Hk. rewrite <- Z.add_assoc.
      rewrite <- (Z.add_0_r (completion_remove c')) at 2. apply ring_index_add_ne; lia.
    + unfold usize_add. rewrite ring_index_usize_add, Hq.
      replace (_ + 1 + _) with (completion_remove c' + 128) by lia. rewrite ring_index_round.
      apply list_lookup_insert_eq. rewrite He, length_insert, Hes. apply ring_index_lt.
    + intros k Hk. unfold usize_add, usize. rewrite Zplus_mod_idemp_l.
      replace (_ + 1 + _) with (completion_remove c' + Z.of_nat (S k)) by lia. apply Hne. lia.
Qed.
End completions.

(** ** The message queue of a service *)

Section messages.
Context {L : LockLib} {X : Type}.
Notation W := (World (Client X)).
Implicit Types (w : W) (u : ServiceUser) (q : list SlotMessage).

(** [user_repr k u q]: the ring of [u] is the queue [q], with room for [k] more messages before its
    positions would wrap. *)
Definition user_repr (k : nat) (u : ServiceUser) (q : list SlotMessage) : Prop :=
  ring_repr (msg_queue u) (msg_insert u) (msg_remove u) q /\ is_vchi u = true /\
  msg_remove u + Z.of_nat (length q) + Z.of_nat k < 2 ^ 64.

Lemma add_completion_length reason message c u :
  length (completions c) = 128%nat ->
  exists c' u', add_completion reason message c u = Ret (c', u') /\ length (completions c') = 128%nat /\
    msg_queue u' = msg_queue u /\ msg_insert u' = msg_insert u /\ msg_remove u' = msg_remove u /\
    is_vchi u' = is_vchi u.
Proof.
  intros Hc. unfold add_completion. cbv zeta. change MAX_COMPLETIONS with RING.
  destruct (lookup_lt_is_Some_2 (completions c) (ring_index RING (completion_insert c))) as [e He];
    [rewrite Hc; apply ring_index_lt|].
  destruct (RING <=? _); [destruct (sem_try_down _)|]; cbn [completions update]; rewrite He;
    eexists _, _; (split; [reflexivity|]); (split; [cbn [completions]; by rewrite length_insert|]);
    case_decide; done.
Qed.

Lemma queue_received_Ret reason message c u q k :
  length (completions c) = 128%nat -> user_repr (S k) u q -> (length q < 128)%nat ->
  exists c' u', queue_received reason (Some message) c u = Ret (c', u') /\
    length (completions c') = 128%nat /\ user_repr k u' (q ++ [message]).
Proof.
  intros Hc (Hr & Hv & Hb) Hq. unfold queue_received. rewrite Hv.
  change MSG_QUEUE_SIZE with RING.
  assert (msg_insert u =? usize_add (msg_remove u) RING = false) as ->.
  { apply Z.eqb_neq. rewrite (ring_insert _ _ _ _ Hr). pose proof (ring_remove _ _ _ _ Hr).
    unfold usize_add, usize, is_usize, RING in *. intros E. zdiv. }
  cbv zeta. destruct (ring_entry _ _ _ _ (msg_insert u) Hr) as [e He]. rewrite He.
  apply (ring_push _ _ _ _ message) in Hr; [|done].
  assert (msg_remove u + Z.of_nat (length (q ++ [message])) + Z.of_nat k < 2 ^ 64) as Hb'
    by (rewrite length_app; cbn [length]; lia).
  match goal with |- context [if ?b then Ret (_, ?u1) else add_completion _ _ _ ?u2] =>
    destruct b
  end; cbn [dequeue_pending update].
  - eexists _, _. split; [reflexivity|]. split; [done|]. split_and!; [exact Hr|done|exact Hb'].
  - match goal with |- context [add_completion reason (Some message) c ?u1] =>
      destruct (add_completion_length reason (Some message) c u1 Hc) as (c' & u' & E & Hc' & H1 & H2 & H3 & H4)
    end.
    rewrite E. exists c', u'. split; [done|]. split; [done|].
    split_and!; [rewrite H1, H2, H3; exact Hr|by rewrite H4|by rewrite H3].
Qed.

(** What [queue_received] leaves of the record of a service, whatever it does to the queues. *)
Record same_owner (u u' : ServiceUser) : Prop := {
  owner_userdata : su_userdata u' = su_userdata u;
  owner_vchi : is_vchi u' = is_vchi u;
  owner_remove : msg_remove u' = msg_remove u;
}.

(** Induction on the completions it adds, at most two: a property of the queues that [add_completion]
    and changes of the record keep. *)
Lemma queue_received_ind (P : nat -> Completion -> ServiceUser -> Prop) reason message c u c' u' :
  (forall n m c u c' u', P n c u -> add_completion reason m c u = Ret (c', u') -> P (S n) c' u') ->
  (forall n c u u', P n c u -> same_owner u u' -> P n c u') ->
  queue_received reason message c u = Ret (c', u') -> P 0%nat c u -> exists n, (n <= 2)%nat /\ P n c' u'.
Proof.
  intros Ha Hu E H0. unfold queue_received in E.
  assert (forall (skip : bool) n c u, (if skip then Ret (c, u) else add_completion reason message c u) = Ret (c', u') ->
    P n c u -> (n <= 1)%nat -> exists n, (n <= 2)%nat /\ P n c' u') as Hskip.
  { intros [] n c1 u1 E1 H1 Hn; [injection E1 as <- <-; exists n; split; [lia|done]|].
    exists (S n). split; [lia|by eapply Ha]. }
  destruct (is_vchi u); [|apply (Hskip false 0%nat c u E H0); lia].
  match type of E with (match ?o with _ => _ end = _) => destruct o as [[c1 u1]| | |] eqn:E1; try done end.
  assert (exists n, (n <= 1)%nat /\ P n c1 u1) as (n & Hn & H1).
  { destruct (msg_insert u =? _); [|injection E1 as <- <-; exists 0%nat; split; [lia|done]].
    match type of E1 with (match ?o with _ => _ end = _) => destruct o as [[c2 u2]| | |] eqn:E2; try done end.
    assert (exists n, (n <= 1)%nat /\ P n c2 u2) as (n & Hn & H2).
    { destruct (_ <? _); [exists 1%nat|exists 0%nat]; (split; [lia|]); [by eapply Ha|by injection E2 as <- <-]. }
    injection E1 as <- <-. exists n. split; [done|]. destruct (sem_try_down _); [by eapply Hu|done]. }
  destruct (msg_queue u1 !! _); [|done]. eapply Hskip; [exact E| |exact Hn].
  eapply Hu; [exact H1|]. by destruct (_ || _).
Qed.

Lemma queue_received_adds reason message c u c' u' :
  length (completions c) = 128%nat -> queue_received reason message c u = Ret (c', u') ->
  exists cs, added c cs c' /\ same_owner u u'.
Proof.
  intros Hc E. set (P n c1 u1 := (n <= 2)%nat -> exists cs, length cs = n /\ added c cs c1 /\ same_owner u u1).
  destruct (queue_received_ind P reason message c u c' u') as (n & Hn & H); [| |exact E| |].
  - intros n m c1 u1 c2 u2 H1 E1 Hn. destruct (H1 ltac:(lia)) as (cs & Hlen & Ha & [O1 O2 O3]).
    eexists. split; [|split; [eapply added_snoc; [exact Ha|lia|exact E1]|]].
    + rewrite length_app, Hlen. cbn. lia.
    + destruct (add_completion_writes reason m c1 u1 (added_ring _ _ _ Ha)) as (c3 & E3 & _).
      rewrite E1 in E3. injection E3 as _ ->. unfold noted. by case_decide; split.
  - intros n c1 u1 u2 H1 [O1 O2 O3] Hn. destruct (H1 Hn) as (cs & Hlen & Ha & [O4 O5 O6]).
    exists cs. split; [done|]. split; [done|]. split; congruence.
  - intros _. exists []. split; [done|]. split; [by apply added_nil|done].
  - destruct (H Hn) as (cs & _ & Ha & Ho). by exists cs.
Qed.

(** ** The callback keeps to its own component *)

#[export] Instance instance_laws : CallbackLaws (Client X).
Proof.
  intros [] r m h. unfold invoke_callback, instance_host, service_from_handle, get_srv, unwrap_result,
    service_callback, get_service, get_user, get_client, set_user, upd_client.
  evolves_solve; by apply evolves_modify.
Qed.

(** ** Receiving and dequeueing *)

(** The queues are the client's own; nothing else changes, the component on top and the boxes other
    than [ud] included. *)
Record queue_frame (ud : nat) (w w' : W) : Prop := {
  queue_client : client_frame w w';
  queue_upper : upper (w_client w') = upper (w_client w);
  queue_boxes : forall ud', ud' <> ud -> user_data (w_client w') !! ud' = user_data (w_client w) !! ud';
  queue_ring : length (completions (completion (w_client w'))) = length (completions (completion (w_client w)));
}.

(** The service with handle [h] keeps its record in box [ud], and its message queue is [q]. *)
Record client_repr (k : nat) (w : W) (h : ServiceHandle) (ud : nat) (q : list SlotMessage) : Prop := {
  repr_service : exists l s,
    find_handle (w_heap w) h (services (srv_state (w_state w))) = Some l /\
    w_heap w !! l = Some s /\ userdata (base s) = Some ud;
  repr_user : exists u, user_data (w_client w) !! ud = Some (AnyServiceUser u) /\ user_repr k u q;
  repr_completions : length (completions (completion (w_client w))) = 128%nat;
}.

(** The world with another client state. *)
Definition with_client (w : W) (c : Client X) : W := w <| w_client := c |>.
Definition with_user (w : W) (ud : nat) (u : ServiceUser) : W :=
  with_client w ((w_client w) <| user_data ::= <[ud := AnyServiceUser u]> |>).

Lemma service_from_handle_Ok h w l :
  find_handle (w_heap w) h (services (srv_state (w_state w))) = Some l ->
  service_from_handle h w = Ret (Ok l, w).
Proof. intros E. unfold service_from_handle, get_srv. rewrite !bind_gets. by rewrite E. Qed.

Lemma get_service_lookup l w s : w_heap w !! l = Some s -> get_service l w = Ret (s, w).
Proof. intros E. unfold get_service. rewrite bind_gets. by rewrite E. Qed.

Lemma get_user_Ret w ud u :
  user_data (w_client w) !! ud = Some (AnyServiceUser u) -> get_user ud w = Ret (u, w).
Proof. intros E. unfold get_user, get_client. rewrite bind_gets. by rewrite E. Qed.

Lemma get_user_inv ud u w w' :
  get_user ud w = Ret (u, w') -> user_data (w_client w) !! ud = Some (AnyServiceUser u) /\ w' = w.
Proof.
  unfold get_user, get_client. rewrite bind_gets.
  destruct (user_data (w_client w) !! ud) as [[v| |]|]; try done. by intros [= -> ->].
Qed.

Lemma UserData_new_Ret b w :
  UserData_new b w =
    Ret (length (user_data (w_client w)),
         with_client w ((w_client w) <| user_data ::= fun l => l ++ [b] |>)).
Proof. reflexivity. Qed.

Lemma client_repr_with_user k w h ud q u k' q' :
  client_repr k w h ud q -> user_repr k' u q' -> client_repr k' (with_user w ud u) h ud q'.
Proof.
  intros [Hs (u0 & Hu0 & _) Hc] Hu. split; [done| |done]. exists u. split; [|done].
  cbn. apply list_lookup_insert_eq. by eapply lookup_lt_Some.
Qed.

Lemma with_user_frame w ud u c' :
  length (completions c') = length (completions (completion (w_client w))) ->
  queue_frame ud w (with_user (with_client w ((w_client w) <| completion := c' |>)) ud u).
Proof. intros Hc. split; [done|done| |exact Hc]. intros ud' Hne. cbn. by apply list_lookup_insert_ne. Qed.

Lemma with_user_frame_same w ud u : queue_frame ud w (with_user w ud u).
Proof. split; [done|done| |done]. intros ud' Hne. cbn. by apply list_lookup_insert_ne. Qed.

(** The callback of a service: what [queue_received] makes of the queues. *)
Lemma invoke_received w h ud u reason message c' u' l s :
  find_handle (w_heap w) h (services (srv_state (w_state w))) = Some l ->
  w_heap w !! l = Some s -> userdata (base s) = Some ud ->
  user_data (w_client w) !! ud = Some (AnyServiceUser u) ->
  queue_received reason message (completion (w_client w)) u = Ret (c', u') ->
  invoke_callback service_callback_closure reason message h w =
    Ret (tt, with_user (with_client w ((w_client w) <| completion := c' |>)) ud u').
Proof.
  intros Hf Hs Hud Hu E. unfold invoke_callback, instance_host.
  erewrite bind_Ret by by apply service_from_handle_Ok. cbn [unwrap_result]. rewrite bind_ret_l.
  unfold service_callback. erewrite bind_Ret; [reflexivity|].
  erewrite bind_Ret by by apply get_service_lookup. rewrite Hud. cbn [unwrap]. rewrite bind_ret_l.
  erewrite bind_Ret by by apply get_user_Ret. unfold get_client. rewrite bind_gets.
  erewrite bind_Ret by (unfold lift; rewrite E; reflexivity). reflexivity.
Qed.

(** With a message, and room for it: it is queued. *)
Lemma receive_Ret k w h ud q message :
  client_repr (S k) w h ud q -> (length q < 128)%nat ->
  exists w', invoke_callback service_callback_closure MESSAGE_AVAILABLE (Some message) h w = Ret (tt, w') /\
    client_repr k w' h ud (q ++ [message]) /\ queue_frame ud w w'.
Proof.
  intros [(l & s & Hf & Hs & Hud) (u & Hu & Hr) Hc] Hq.
  destruct (queue_received_Ret MESSAGE_AVAILABLE message _ u q k Hc Hr Hq) as (c' & u' & E & Hc' & Hr').
  eexists. split; [by eapply invoke_received|]. split; [|apply with_user_frame; congruence].
  eapply client_repr_with_user; [|exact Hr'].
  split; [by exists l, s|by exists u|done].
Qed.

(** The first message of a service is also announced in the completion queue. *)
Lemma queue_received_first message c u k :
  user_repr (S k) u [] -> message_available_pos u = -1 -> dequeue_pending u = false ->
  comp_repr c [] -> completion_remove c < 2 ^ 63 ->
  exists c' u', queue_received MESSAGE_AVAILABLE (Some message) c u = Ret (c', u') /\
    comp_repr c' [mkServiceCompletion MESSAGE_AVAILABLE (Some message) (su_userdata u)] /\
    user_repr k u' [message].
Proof.
  intros (Hr & Hv & Hb) Hpos Hpd Hc Hrm. unfold queue_received. rewrite Hv.
  change MSG_QUEUE_SIZE with RING.
  assert (msg_insert u =? usize_add (msg_remove u) RING = false) as ->.
  { apply Z.eqb_neq. rewrite <- (ring_empty _ _ _ Hr). pose proof (ring_remove _ _ _ _ Hr).
    unfold usize_add, usize, is_usize, RING in *. intros E. zdiv. }
  cbv zeta. destruct (ring_entry _ _ _ _ (msg_insert u) Hr) as [e He]. rewrite He.
  apply (ring_push _ _ _ _ message) in Hr; [|cbn; lia]. cbn [app length] in *.
  assert (isize (completion_remove c) <=? message_available_pos u = false) as E.
  { rewrite Hpos. pose proof (ring_remove _ _ _ _ Hc) as H. unfold is_usize in H.
    apply Z.leb_gt. unfold isize. zdiv. }
  cbn [message_available_pos dequeue_pending update]. rewrite E, Hpd. cbn [orb].
  match goal with |- context [add_completion _ _ _ ?u1] =>
    destruct (add_completion_Ret MESSAGE_AVAILABLE (Some message) c u1 [] Hc) as (c' & Ea & Hc' & _); [cbn; lia|]
  end.
  rewrite Ea. eexists c', _. split; [reflexivity|]. split; [exact Hc'|].
  unfold noted. rewrite decide_True by done. split_and!; [exact Hr|done|]. cbn. lia.
Qed.

Lemma receive_first_Ret k w h ud u message :
  client_repr (S k) w h ud [] -> user_data (w_client w) !! ud = Some (AnyServiceUser u) ->
  message_available_pos u = -1 -> dequeue_pending u = false ->
  comp_repr (completion (w_client w)) [] -> completion_remove (completion (w_client w)) < 2 ^ 63 ->
  exists w' u', invoke_callback service_callback_closure MESSAGE_AVAILABLE (Some message) h w = Ret (tt, w') /\
    client_repr k w' h ud [message] /\ queue_frame ud w w' /\
    comp_repr (completion (w_client w')) [mkServiceCompletion MESSAGE_AVAILABLE (Some message) (su_userdata u)] /\
    user_data (w_client w') = <[ud := AnyServiceUser u']> (user_data (w_client w)) /\
    connected (w_client w') = connected (w_client w).
Proof.
  intros [(l & s & Hf & Hs & Hud) (u0 & Hu0 & Hr) _] Hu Hpos Hpd Hc Hrm.
  rewrite Hu in Hu0. injection Hu0 as <-.
  destruct (queue_received_first message _ u k Hr Hpos Hpd Hc Hrm) as (c' & u' & E & Hc' & Hr').
  pose proof (ring_length _ _ _ _ Hc) as Hl. pose proof (ring_length _ _ _ _ Hc') as Hl'.
  eexists _, u'. split; [by eapply invoke_received|].
  split; [|split_and!; [apply with_user_frame; congruence|done..]].
  eapply client_repr_with_user; [|exact Hr'].
  split; [by exists l, s|by exists u|]. apply (ring_length _ _ _ _ Hc').
Qed.

Lemma poll_dequeue_ready k w h ud q m :
  client_repr k w h ud (m :: q) -> poll_dequeue ud w = Ret (Some tt, w).
Proof.
  intros [_ (u & Hu & Hr & _) _]. unfold poll_dequeue. erewrite bind_Ret by by apply get_user_Ret.
  apply ring_pop in Hr as (_ & Hne & _). by rewrite (proj2 (Z.eqb_neq _ _)) by done.
Qed.

Lemma poll_dequeue_empty k w h ud :
  client_repr k w h ud [] ->
  exists w', poll_dequeue ud w = Ret (None, w') /\ client_repr k w' h ud [] /\ queue_frame ud w w'.
Proof.
  intros Hw. pose proof Hw as [_ (u & Hu & Hr) _]. unfold poll_dequeue.
  erewrite bind_Ret by by apply get_user_Ret. pose proof Hr as (Hring & Hv & Hb).
  pose proof (ring_empty _ _ _ Hring) as He. rewrite (proj2 (Z.eqb_eq _ _)) by done. cbv zeta.
  destruct (sem_try_down _) as [e|].
  - exists (with_user w ud (u <| dequeue_pending := true |> <| su_insert_event := e |>)).
    split; [|split; [by eapply client_repr_with_user|apply with_user_frame_same]].
    cbn -[Z.eqb]. rewrite (proj2 (Z.eqb_eq _ _)) by done. reflexivity.
  - exists (with_user w ud (u <| dequeue_pending := true |>)).
    split; [reflexivity|split; [by eapply client_repr_with_user|apply with_user_frame_same]].
Qed.

Lemma take_message_Ret k w h ud q m {T} (try_into : SlotMessage -> VchiqResult T) r :
  client_repr k w h ud (m :: q) -> try_into m = Ok r ->
  exists w', take_message try_into ud w = Ret (Ok r, w') /\ client_repr k w' h ud q /\ queue_frame ud w w'.
Proof.
  intros Hw Ht. pose proof Hw as [_ (u & Hu & Hr & Hv & Hb) _]. unfold take_message.
  erewrite bind_Ret by by apply get_user_Ret. cbn [length] in Hb.
  pose proof (ring_remove _ _ _ _ Hr) as Hrm.
  assert (msg_insert u = msg_remove u + Z.of_nat (S (length q))) as Hi.
  { rewrite (ring_insert _ _ _ _ Hr). cbn [length]. apply usize_small. unfold is_usize in Hrm. lia. }
  rewrite (proj2 (Z.ltb_ge _ _)) by lia. cbv zeta. change MSG_QUEUE_SIZE with RING.
  destruct (ring_pop _ _ _ _ _ Hr) as (He & _ & Hr'). rewrite He. cbn [unwrap].
  rewrite bind_ret_l. cbn [unwrap]. rewrite bind_ret_l, Ht. cbn [unwrap_result]. rewrite bind_ret_l.
  eexists (with_user w ud _). split; [reflexivity|]. split; [|apply with_user_frame_same].
  eapply client_repr_with_user; [done|]. split_and!; [exact Hr'|done|]. cbn -[usize_add Z.of_nat Z.pow].
  unfold is_usize in Hrm. ints. lia.
Qed.

(** *** Refinement of a queue of messages *)

(** What happens at a service: the VideoCore sends a message, or the client dequeues one. *)
Inductive client_op : Type := Receive (message : SlotMessage) | Dequeue.

(** The specification: a queue.  [None]: more than 128 messages wait, or there is none to take. *)
Fixpoint queue_run (ops : list client_op) (q : list SlotMessage)
  : option (list (list Z) * list SlotMessage) :=
  match ops with
  | [] => Some ([], q)
  | Receive m :: ops => if decide (length q < 128)%nat then queue_run ops (q ++ [m]) else None
  | Dequeue :: ops =>
      match q with
      | [] => None
      | m :: q => match queue_run ops q with
                  | Some (out, q) => Some (data m :: out, q)
                  | None => None
                  end
      end
  end.

(** The implementation: the callback of the service, and [dequeue_message::<Vec<u8>>]. *)
Fixpoint client_run (h : ServiceHandle) (ops : list client_op) : M W (list (list Z)) :=
  match ops with
  | [] => ret []
  | Receive m :: ops =>
      invoke_callback service_callback_closure MESSAGE_AVAILABLE (Some m) h ;; client_run h ops
  | Dequeue :: ops =>
      let* r := run_with [] (dequeue_message Vec_try_from h) in
      let* out := client_run h ops in
      ret (match r with Some (Ok d) => d :: out | _ => out end)
  end.

Lemma dequeue_message_Ret k w h ud q m :
  client_repr k w h ud (m :: q) ->
  exists w', poll (dequeue_message Vec_try_from h) w = Ret (inl (Ok (data m)), w') /\
    client_repr k w' h ud q /\ queue_frame ud w w'.
Proof.
  intros Hw. pose proof Hw as [(l & s & Hf & Hs & Hud) (u & Hu & Hr & Hv & Hb) _].
  destruct (take_message_Ret _ _ _ _ _ _ Vec_try_from (data m) Hw eq_refl) as (w' & E & Hw' & Hf').
  exists w'. split; [|done]. unfold dequeue_message, abind_try, astep.
  cbn [abind poll]. erewrite bind_Ret by by apply service_from_handle_Ok. cbn [abind poll].
  erewrite bind_Ret.
  2: { erewrite bind_Ret by by apply get_service_lookup. rewrite Hud. reflexivity. }
  erewrite bind_Ret by by apply get_user_Ret. rewrite Hv. cbn [negb abind poll].
  erewrite bind_Ret by by eapply poll_dequeue_ready. cbn [abind poll].
  by erewrite bind_Ret by exact E.
Qed.

Lemma client_repr_less k k' w h ud q : client_repr k w h ud q -> (k' <= k)%nat -> client_repr k' w h ud q.
Proof.
  intros [? (u & ? & ? & ? & ?) ?] Hk. split; [done| |done]. exists u. split; [done|].
  split_and!; [done..|lia].
Qed.

(** Receiving and dequeueing refine a FIFO queue of messages.  For every sequence of received
    messages and dequeues in which at most 128 messages wait and none is taken from an empty queue,
    [service_callback] and [dequeue_message] return, and the dequeues yield the payloads of the
    received messages in the order of their arrival - whatever becomes of the completion queue. *)
Lemma message_queue_refines (h : ServiceHandle) (ud : nat) (ops : list client_op) :
  forall (w : W) (q : list SlotMessage) (out : list (list Z)) (q' : list SlotMessage),
  client_repr (length ops) w h ud q ->
  queue_run ops q = Some (out, q') ->
  exists w', client_run h ops w = Ret (out, w') /\ client_repr 0 w' h ud q'.
Proof.
  induction ops as [|[m|] ops IH]; intros w q out q' Hw Hq; cbn [queue_run] in Hq; cbn [client_run].
  - injection Hq as <- <-. by exists w.
  - destruct (decide (length q < 128)%nat); [|done].
    destruct (receive_Ret _ _ _ _ _ m Hw) as (w1 & E & Hw1 & _); [done|].
    erewrite bind_Ret by exact E. by apply IH with (q := q ++ [m]).
  - destruct q as [|m q]; [done|].
    destruct (queue_run ops q) as [[out1 q1]|] eqn:Eq; [|done]. injection Hq as <- <-.
    destruct (dequeue_message_Ret _ _ _ _ _ _ Hw) as (w1 & E & Hw1 & _).
    destruct (IH w1 q out1 q1) as (w2 & E2 & Hw2); [by eapply client_repr_less, Nat.le_succ_diag_r|done|].
    exists w2. split; [|done]. erewrite bind_Ret by (apply run_with_ready; exact E).
    by erewrite bind_Ret by exact E2.
Qed.

(** What is left of [dequeue_message] while it waits. *)
Definition dequeue_rest (ud : nat) : Async W (VchiqResult (list Z)) :=
  Await (poll_dequeue ud) (fun _ => astep (take_message Vec_try_from ud)).

Lemma dequeue_message_waits k w h ud :
  client_repr k w h ud [] ->
  exists w', poll (dequeue_message Vec_try_from h) w = Ret (inr (dequeue_rest ud), w') /\
    client_repr k w' h ud [] /\ queue_frame ud w w'.
Proof.
  intros Hw. pose proof Hw as [(l & s & Hf & Hs & Hud) (u & Hu & Hr & Hv & Hb) _].
  destruct (poll_dequeue_empty _ _ _ _ Hw) as (w' & E & Hw' & Hf'). exists w'. split; [|done].
  unfold dequeue_message, abind_try, astep. cbn [abind poll].
  erewrite bind_Ret by by apply service_from_handle_Ok. cbn [abind poll].
  erewrite bind_Ret.
  2: { erewrite bind_Ret by by apply get_service_lookup. rewrite Hud. reflexivity. }
  erewrite bind_Ret by by apply get_user_Ret. rewrite Hv. cbn [negb abind poll].
  by erewrite bind_Ret by exact E.
Qed.

Lemma dequeue_rest_Ret k w h ud q m :
  client_repr k w h ud (m :: q) ->
  exists w', poll (dequeue_rest ud) w = Ret (inl (Ok (data m)), w') /\
    client_repr k w' h ud q /\ queue_frame ud w w'.
Proof.
  intros Hw. destruct (take_message_Ret _ _ _ _ _ _ Vec_try_from (data m) Hw eq_refl) as (w' & E & Hw').
  exists w'. split; [|done]. unfold dequeue_rest, astep. cbn [poll].
  erewrite bind_Ret by by eapply poll_dequeue_ready. cbn [poll]. by erewrite bind_Ret by exact E.
Qed.

(** A client that dequeues from an empty queue waits, and the next message wakes it.  The first
    poll of [dequeue_message] is pending; after the callback ran with a message, the next poll
    returns its payload. *)
Lemma dequeue_message_wakes (w : W) (h : ServiceHandle) (ud : nat) (message : SlotMessage) :
  client_repr 1 w h ud [] ->
  exists w', run_with [invoke_callback service_callback_closure MESSAGE_AVAILABLE (Some message) h]
               (dequeue_message Vec_try_from h) w = Ret (Some (Ok (data message)), w') /\
    client_repr 0 w' h ud [].
Proof.
  intros Hw. destruct (dequeue_message_waits _ _ _ _ Hw) as (w1 & E1 & Hw1 & _).
  destruct (receive_Ret _ _ _ _ _ message Hw1) as (w2 & E2 & Hw2 & _); [cbn; lia|].
  destruct (dequeue_rest_Ret _ _ _ _ _ _ Hw2) as (w3 & E3 & Hw3 & _).
  exists w3. split; [|done]. etransitivity; [eapply run_with_pending; [exact E1|exact E2]|].
  by apply run_with_ready.
Qed.
End messages.
#[export] Existing Instance instance_laws.
