(* ===== verification/Overflow.v ===== *)
(** The message queue of a service when it is full: [service_callback] and [dequeue_message] of
    [src/vchiq/instance/mod.rs] beyond the 128 messages up to which they are a queue. *)

From S2P Require Import Prelude Locks Memory Layout Types SlotMessage Event SlotZero Slot Service.
From S2P Require Import State SlotHandler Completion Instance Registry Queues.

Section overflow.
Context {L : LockLib} {X : Type}.
Notation W := (World (Client X)).
Implicit Types (w : W) (u : ServiceUser) (q : list SlotMessage).

(** The service with handle [h] keeps the record [u] in box [ud]. *)
Record holder (w : W) (h : ServiceHandle) (ud : nat) (u : ServiceUser) : Prop := {
  holder_service : exists l s,
    find_handle (w_heap w) h (services (srv_state (w_state w))) = Some l /\
    w_heap w !! l = Some s /\ userdata (base s) = Some ud;
  holder_user : user_data (w_client w) !! ud = Some (AnyServiceUser u);
  holder_vchi : is_vchi u = true;
}.

Lemma holder_with_user w h ud u u' :
  holder w h ud u -> is_vchi u' = true -> holder (with_user w ud u') h ud u'.
Proof.
  intros [Hs Hu Hv] Hv'. split; [done| |done]. cbn. apply list_lookup_insert_eq. by eapply lookup_lt_Some.
Qed.

(** ** Dequeueing, whatever is in the ring *)

(** The record after the entry at the remove position has been taken. *)
Definition taken (u : ServiceUser) : ServiceUser :=
  u <| msg_remove ::= fun n => usize_add n 1 |>
    <| msg_queue ::= <[ring_index RING (msg_remove u) := None]> |>
    <| su_remove_event ::= sem_up |>.

Lemma dequeue_entry w h ud u entry :
  holder w h ud u -> msg_remove u < msg_insert u ->
  msg_queue u !! ring_index RING (msg_remove u) = Some entry ->
  poll (dequeue_message Vec_try_from h) w =
    match entry with
    | Some m => Ret (inl (Ok (data m)), with_user w ud (taken u))
    | None => Panic PUnwrap
    end.
Proof.
  intros [(l & s & Hf & Hs & Hud) Hu Hv] Hlt He. unfold dequeue_message, abind_try, astep.
  cbn [abind poll]. erewrite bind_Ret by by apply service_from_handle_Ok. cbn [abind poll].
  erewrite bind_Ret.
  2: { erewrite bind_Ret by by apply get_service_lookup. rewrite Hud. reflexivity. }
  erewrite bind_Ret by by apply get_user_Ret. rewrite Hv. cbn [negb abind poll].
  erewrite bind_Ret.
  2: { unfold poll_dequeue. erewrite bind_Ret by by apply get_user_Ret.
       rewrite (proj2 (Z.eqb_neq _ _)) by lia. reflexivity. }
  cbn [abind poll]. unfold take_message. rewrite bind_assoc.
  erewrite bind_Ret by by apply get_user_Ret. rewrite (proj2 (Z.ltb_ge _ _)) by lia.
  cbv zeta. change MSG_QUEUE_SIZE with RING. rewrite He. by destruct entry.
Qed.

(** ** The ring after the overflow *)

(** The insert position is one further ahead than there are messages: the ring has a hole behind
    them. *)
Record ahead (u : ServiceUser) (q : list SlotMessage) : Prop := {
  ahead_room : (length q < 128)%nat;
  ahead_remove : 0 <= msg_remove u;
  ahead_insert : msg_insert u = msg_remove u + Z.of_nat (length q) + 1;
  ahead_bound : msg_insert u < 2 ^ 64;
  ahead_holds : holds (msg_queue u) (msg_remove u) q;
  ahead_hole : msg_queue u !! ring_index RING (msg_remove u + Z.of_nat (length q)) = Some None;
}.

Lemma ahead_taken u m q : ahead u (m :: q) -> ahead (taken u) q.
Proof.
  intros [Hl Hr Hi Hb Hh Hn]. cbn [length] in *. unfold taken.
  assert (usize_add (msg_remove u) 1 = msg_remove u + 1) as E by (apply usize_add_small; lia).
  split; cbn -[usize_add ring_index]; rewrite ?E; try lia.
  - apply holds_pop with (x := m); [lia|done].
  - rewrite list_lookup_insert_ne; [|rewrite <- (Z.add_0_r (msg_remove u)) at 1; rewrite <- Z.add_assoc;
      apply ring_index_add_ne; lia].
    replace (msg_remove u + 1 + Z.of_nat (length q)) with (msg_remove u + Z.of_nat (S (length q))) by lia. done.
Qed.

(** All messages are dequeued, and then the hole is found. *)
Lemma dequeue_ahead h ud q : forall w u,
  holder w h ud u -> ahead u q ->
  exists w', client_run h (replicate (length q) Dequeue) w = Ret (map data q, w') /\
    poll (dequeue_message Vec_try_from h) w' = Panic PUnwrap.
Proof.
  induction q as [|m q IH]; intros w u Ho Ha; cbn [length replicate client_run map].
  - exists w. split; [done|]. pose proof (ahead_insert _ _ Ha) as Hi. cbn [length] in Hi.
    apply (dequeue_entry w h ud u None Ho); [lia|]. pose proof (ahead_hole _ _ Ha) as Hn. cbn [length] in Hn.
    by rewrite Z.add_0_r in Hn.
  - pose proof (ahead_insert _ _ Ha) as Hi.
    pose proof (dequeue_entry w h ud u (Some m) Ho ltac:(lia) (holds_head _ _ _ _ (ahead_holds _ _ Ha))) as E.
    destruct (IH (with_user w ud (taken u)) (taken u)) as (w' & E' & Hp).
    { by apply (holder_with_user _ _ _ u); [|apply Ho]. }
    { by eapply ahead_taken. }
    exists w'. split; [|done]. erewrite bind_Ret by (apply run_with_ready; exact E).
    by erewrite bind_Ret by exact E'.
Qed.

(** ** The callback of a full queue *)

Lemma queue_received_full message c u q :
  length (completions c) = 128%nat -> user_repr 1 u q -> length q = 128%nat ->
  exists c' u', queue_received MESSAGE_AVAILABLE (Some message) c u = Ret (c', u') /\
    is_vchi u' = true /\ msg_remove u' = msg_remove u /\ msg_insert u' = msg_insert u + 1 /\
    msg_queue u' = <[ring_index RING (msg_insert u) := Some message]> (msg_queue u).
Proof.
  intros Hc (Hr & Hv & Hb) Hq. pose proof (ring_remove _ _ _ _ Hr) as Hrm. unfold is_usize in Hrm.
  assert (msg_insert u = msg_remove u + 128) as Hi.
  { rewrite (ring_insert _ _ _ _ Hr), Hq. apply usize_small. unfold is_usize. lia. }
  unfold queue_received. rewrite Hv. change MSG_QUEUE_SIZE with RING.
  rewrite usize_add_small by (unfold RING; lia). rewrite Hi. unfold RING at 1. rewrite Z.eqb_refl. cbv zeta.
  set (r := if _ <? _ then _ else _).
  assert (exists c1 u1, r = Ret (c1, u1) /\ length (completions c1) = 128%nat /\
    msg_queue u1 = msg_queue u /\ msg_insert u1 = msg_insert u /\ msg_remove u1 = msg_remove u /\
    is_vchi u1 = is_vchi u) as (c1 & u1 & -> & Hc1 & Hq1 & Hi1 & Hr1 & Hv1).
  { unfold r. destruct (_ <? _); [by apply add_completion_length|]. by exists c, u. }
  set (u2 := match sem_try_down _ with Some _ => _ | None => _ end).
  assert (msg_queue u2 = msg_queue u /\ msg_insert u2 = msg_insert u /\ msg_remove u2 = msg_remove u /\
    is_vchi u2 = is_vchi u) as (Hq2 & Hi2 & Hr2 & Hv2) by (unfold u2; by destruct (sem_try_down _)).
  clearbody u2. rewrite Hi2, Hi. destruct (ring_entry _ _ _ _ (msg_remove u + 128) Hr) as [e He].
  rewrite Hq2, He.
  assert (usize_add (msg_insert u2) 1 = msg_remove u + 128 + 1) as E.
  { rewrite Hi2, Hi. apply usize_add_small; lia. }
  destruct (_ || _).
  - eexists _, _. split; [reflexivity|]. cbn -[usize_add ring_index].
    rewrite Hv2, Hr2, E, Hq2. by split_and!.
  - match goal with |- context [add_completion ?a ?b c1 ?u3] =>
      destruct (add_completion_length a b c1 u3 Hc1) as (c' & u' & E' & _ & H1 & H2 & H3 & H4) end.
    rewrite E'. exists c', u'. rewrite H1, H2, H3, H4. cbn -[usize_add ring_index].
    rewrite Hv2, Hr2, E, Hq2. by split_and!.
Qed.

Lemma ahead_overflow u u' q message :
  user_repr 1 u q -> length q = 128%nat ->
  msg_remove u' = msg_remove u -> msg_insert u' = msg_insert u + 1 ->
  msg_queue u' = <[ring_index RING (msg_insert u) := Some message]> (msg_queue u) ->
  msg_remove u' < msg_insert u' /\
  msg_queue u' !! ring_index RING (msg_remove u') = Some (Some message) /\ ahead (taken u') (tail q).
Proof.
  intros (Hr & Hv & Hb) Hq Hrm' Hi' Hq'. pose proof Hr as [Hes _ Hrm Hi Hh]. unfold is_usize in Hrm.
  assert (msg_insert u = msg_remove u + 128) as Hi0.
  { rewrite Hi, Hq. apply usize_small. unfold is_usize. lia. }
  destruct q as [|m0 q]; [done|]. cbn [tail length] in *.
  destruct (holds_overflow (msg_queue u) (msg_remove u) m0 q message Hes ltac:(lia) Hh) as [Hnew Hrest].
  rewrite <- Hi0, <- Hq', <- Hrm' in Hnew, Hrest. split; [lia|]. split; [exact Hnew|].
  unfold taken. assert (usize_add (msg_remove u') 1 = msg_remove u' + 1) as E by (apply usize_add_small; lia).
  split; cbn -[usize_add ring_index]; rewrite ?E; try lia.
  - apply holds_insert_out; [done|]. intros k Hk. rewrite <- Z.add_assoc.
    rewrite <- (Z.add_0_r (msg_remove u')) at 2. apply ring_index_add_ne; lia.
  - replace (msg_remove u' + 1 + Z.of_nat (length q)) with (msg_remove u' + 128) by lia. rewrite ring_index_round.
    apply list_lookup_insert_eq. rewrite Hq', length_insert, Hes. apply ring_index_lt.
Qed.

(** C36: a full message queue loses a message and its order.  When 128 messages wait and another one
    arrives, the callback notices that the queue is full, does not wait, and writes over the oldest
    message: it is lost, the newest is the first to be dequeued, the others follow, and the dequeue
    after them panics on an empty entry, where it should wait. *)
Theorem message_queue_overflow (w : W) (h : ServiceHandle) (ud : nat) (oldest newest : SlotMessage)
    (q : list SlotMessage) :
  client_repr 1 w h ud (oldest :: q) -> length q = 127%nat ->
  exists w', client_run h (Receive newest :: replicate 128 Dequeue) w = Ret (data newest :: map data q, w') /\
    run_with [] (dequeue_message Vec_try_from h) w' = Panic PUnwrap.
Proof.
  intros [(l & s & Hf & Hs & Hud) (u & Hu & Hr) Hc] Hq.
  destruct (queue_received_full newest _ u (oldest :: q) Hc Hr) as (c' & u' & E & Hv' & Hrm & Hi & Hq');
    [by rewrite <- Hq|].
  set (w1 := with_user (with_client w ((w_client w) <| completion := c' |>)) ud u').
  pose proof (invoke_received w h ud u _ _ c' u' l s Hf Hs Hud Hu E) as E1. fold w1 in E1.
  assert (holder w1 h ud u') as Ho.
  { split; [by exists l, s| |done]. cbn. apply list_lookup_insert_eq. by eapply lookup_lt_Some. }
  destruct (ahead_overflow u u' (oldest :: q) newest Hr) as (Hlt & Hnew & Ha); [by rewrite <- Hq|done..|].
  pose proof (dequeue_entry w1 h ud u' (Some newest) Ho Hlt Hnew) as Ed.
  destruct (dequeue_ahead h ud q (with_user w1 ud (taken u')) (taken u')) as (w' & E' & Hp); [|done|].
  { by apply (holder_with_user _ _ _ u'). }
  exists w'. split.
  - change 128%nat with (S 127). rewrite <- Hq. cbn [client_run replicate].
    erewrite bind_Ret by exact E1. erewrite bind_Ret by (apply run_with_ready; exact Ed).
    by erewrite bind_Ret by exact E'.
  - cbn [run_with]. unfold bind. by rewrite Hp.
Qed.
End overflow.
