(* ===== verification/Concurrency.v ===== *)
(** Reasoning about concurrent asynchronous code: a rely-guarantee logic for [Async], and the
    interleavings of any number of futures with actions that happen by themselves.

    A relation [R] on states is both what a party may rely on - the others change the state only
    along [R] - and what it guarantees.  Assertions between steps may be anything; where a future is
    suspended its assertion must be stable, that is, survive what the others do. *)

From stdpp Require Import relations.
From S2P Require Import Prelude.

Section logic.
Context {S : Type} (R : S -> S -> Prop) `{!PreOrder R}.
Implicit Types P : S -> Prop.

Definition stable P : Prop := forall s s', R s s' -> P s -> P s'.

(** [does P m Q]: from a state in [P], [m] makes a step along [R] and returns as [Q] says. *)
Definition does {A} P (m : M S A) (Q : A -> S -> Prop) : Prop :=
  forall s a s', P s -> m s = Ret (a, s') -> R s s' /\ Q a s'.

(** The same for futures; [I] holds whenever it is suspended. *)
Fixpoint adoes {A} P (f : Async S A) (Q : A -> S -> Prop) : Prop :=
  match f with
  | Done a => forall s, P s -> Q a s
  | Step m k => exists P' : _ -> S -> Prop, does P m P' /\ forall b, adoes (P' b) (k b) Q
  | Await p k =>
      exists (I : S -> Prop) (P' : _ -> S -> Prop), stable I /\ (forall s, P s -> I s) /\
        does I p (fun o s => match o with Some b => P' b s | None => I s end) /\
        forall b, adoes (P' b) (k b) Q
  end.

Definition anything : S -> Prop := fun _ => True.
Definition any_result {A} : A -> S -> Prop := fun _ _ => True.

Lemma stable_anything : stable anything.
Proof. done. Qed.

Lemma stable_and P P' : stable P -> stable P' -> stable (fun s => P s /\ P' s).
Proof. intros H1 H2 s s' Hs [? ?]. split; [by eapply H1|by eapply H2]. Qed.

(** ** Rules *)

Lemma does_evolves {A} P (m : M S A) : evolves R m -> does P m any_result.
Proof. intros Hm s a s' _ E. by split; [eapply Hm|]. Qed.

Lemma does_evolves_inv {A} (m : M S A) Q : does anything m Q -> evolves R m.
Proof. intros Hm s a s' E. by destruct (Hm s a s' I E). Qed.

Lemma does_keeps {A} P (m : M S A) : evolves R m -> stable P -> does P m (fun _ => P).
Proof. intros Hm HP s a s' Hs E. pose proof (Hm _ _ _ E). split; [done|by eapply HP]. Qed.

Lemma does_pure {A} P (m : M S A) (Q : A -> S -> Prop) :
  (forall s a s', P s -> m s = Ret (a, s') -> s' = s /\ Q a s) -> does P m Q.
Proof. intros Hm s a s' Hs E. by destruct (Hm _ _ _ Hs E) as [-> ?]. Qed.

Lemma does_conseq {A} P P' (m : M S A) (Q Q' : A -> S -> Prop) :
  (forall s, P' s -> P s) -> (forall a s, Q a s -> Q' a s) -> does P m Q -> does P' m Q'.
Proof. intros HP HQ Hm s a s' Hs E. destruct (Hm s a s' (HP _ Hs) E) as [? ?]. split; [done|by apply HQ]. Qed.

Lemma does_bind {A B} P (m : M S A) (k : A -> M S B) Q Q' :
  does P m Q -> (forall a, does (Q a) (k a) Q') -> does P (bind m k) Q'.
Proof.
  intros Hm Hk s b s'' Hs (a & s' & E1 & E2)%bind_Ret_inv.
  destruct (Hm _ _ _ Hs E1) as [H1 Ha]. destruct (Hk _ _ _ _ Ha E2) as [H2 ?].
  split; [by etransitivity|done].
Qed.

Lemma adoes_pre {A} P P' (f : Async S A) Q : (forall s, P' s -> P s) -> adoes P f Q -> adoes P' f Q.
Proof.
  intros HP. destruct f as [a|B m k|B p k]; cbn.
  - auto.
  - intros (P1 & Hm & Hk). exists P1. split; [by eapply (does_conseq P)|done].
  - intros (I & P1 & HI & HP1 & Hm & Hk). exists I, P1. auto.
Qed.

Lemma adoes_conseq {A} P (f : Async S A) (Q Q' : A -> S -> Prop) :
  (forall a s, Q a s -> Q' a s) -> adoes P f Q -> adoes P f Q'.
Proof.
  intros HQ. revert P. induction f as [a|B m k IH|B p k IH]; intros P; cbn.
  - auto.
  - intros (P1 & Hm & Hk). exists P1. auto.
  - intros (I & P1 & HI & HP1 & Hm & Hk). exists I, P1. split_and!; auto.
Qed.

Lemma adoes_astep {A} P (m : M S A) Q : does P m Q -> adoes P (astep m) Q.
Proof. intros Hm. exists Q. split; [done|]. by intros b s. Qed.

Lemma adoes_await {A} P (p : M S (option A)) (Q : A -> S -> Prop) :
  stable P -> does P p (fun o s => match o with Some b => Q b s | None => P s end) ->
  adoes P (Await p Done) Q.
Proof. intros HP Hp. exists P, Q. split_and!; [done|done|done|]. by intros b s. Qed.

Lemma adoes_abind {A B} P (f : Async S A) (k : A -> Async S B) Q Q' :
  adoes P f Q -> (forall a, adoes (Q a) (k a) Q') -> adoes P (abind f k) Q'.
Proof.
  intros Hf Hk. revert P Hf. induction f as [a|B' m h IH|B' p h IH]; intros P; cbn.
  - intros Hf. by eapply adoes_pre.
  - intros (P1 & Hm & Hh). exists P1. auto.
  - intros (I & P1 & HI & HP1 & Hm & Hh). exists I, P1. auto.
Qed.

(** [await?]: only a success goes on. *)
Lemma adoes_abind_try {A B E} P (f : Async S (Result A E)) (k : A -> Async S (Result B E)) Q Q' :
  adoes P f (fun r s => match r with Ok a => Q a s | Err e => Q' (Err e) s end) ->
  (forall a, adoes (Q a) (k a) Q') -> adoes P (abind_try f k) Q'.
Proof. intros Hf Hk. eapply adoes_abind; [exact Hf|]. intros [a|e]; [apply Hk|by cbn]. Qed.

(** Code of which nothing is remembered. *)
Lemma adoes_evolves {A} P (f : Async S A) : aevolves R f -> adoes P f any_result.
Proof.
  revert P. induction f as [a|B m k IH|B p k IH]; intros P Hf; cbn in *.
  - done.
  - destruct Hf as [Hm Hk]. exists any_result. split; [by apply does_evolves|]. intros b. apply IH, Hk.
  - destruct Hf as [Hm Hk]. exists anything, any_result. split_and!; try done.
    + intros s o s' _ E. split; [by eapply Hm|by destruct o].
    + intros b. apply IH, Hk.
Qed.

(** An assertion that is stable is still there afterwards. *)
Lemma adoes_keeps {A} P (f : Async S A) : aevolves R f -> stable P -> adoes P f (fun _ => P).
Proof.
  intros Hf HP. revert Hf. induction f as [a|B m k IH|B p k IH]; intros Hf; cbn in *.
  - done.
  - destruct Hf as [Hm Hk]. exists (fun _ => P). split; [by apply does_keeps|]. intros b. apply IH, Hk.
  - destruct Hf as [Hm Hk]. exists P, (fun _ => P). split_and!; try done.
    + intros s o s' Hs E. pose proof (Hm _ _ _ E) as Hr. split; [done|]. destruct o; by eapply HP.
    + intros b. apply IH, Hk.
Qed.

(** The frame rule: a stable assertion can be carried along. *)
Lemma does_frame {A} P F (m : M S A) Q :
  stable F -> does P m Q -> does (fun s => P s /\ F s) m (fun a s => Q a s /\ F s).
Proof.
  intros HF Hm s a s' [Hs Hf] E. destruct (Hm _ _ _ Hs E) as [HR Ha]. split; [done|]. split; [done|by eapply HF].
Qed.

Lemma adoes_frame {A} P F (f : Async S A) Q :
  stable F -> adoes P f Q -> adoes (fun s => P s /\ F s) f (fun a s => Q a s /\ F s).
Proof.
  intros HF. revert P. induction f as [a|B m k IH|B p k IH]; intros P; cbn.
  - intros Hf s [Hs ?]. split; [by apply Hf|done].
  - intros (P1 & Hm & Hk). exists (fun b s => P1 b s /\ F s). split; [by apply does_frame|auto].
  - intros (I & P1 & HI & HP1 & Hm & Hk). exists (fun s => I s /\ F s), (fun b s => P1 b s /\ F s). split_and!.
    + by apply stable_and.
    + intros s [Hs ?]. split; [by apply HP1|done].
    + eapply does_conseq; [| |apply (does_frame I F); [done|exact Hm]]; [done|]. by intros [b|] s.
    + auto.
Qed.

(** ** Polling *)

(** A future with its assertion: what it needs holds now, and goes on holding. *)
Definition covered {A} (Q : A -> S -> Prop) (f : Async S A) (s : S) : Prop :=
  exists P, P s /\ stable P /\ adoes P f Q.

Lemma covered_stable {A} (Q : A -> S -> Prop) f s s' : R s s' -> covered Q f s -> covered Q f s'.
Proof. intros HR (P & Hs & HP & Hf). exists P. split; [by eapply HP|done]. Qed.

Lemma poll_does {A} P (f : Async S A) Q s r s' :
  adoes P f Q -> P s -> poll f s = Ret (r, s') ->
  R s s' /\ match r with inl a => Q a s' | inr f' => covered Q f' s' end.
Proof.
  revert P s. induction f as [a|B m k IH|B p k IH]; intros P s; cbn.
  - intros Hf Hs [= <- <-]. split; [done|]. by apply Hf.
  - intros (P1 & Hm & Hk) Hs (b & s1 & E1 & E2)%bind_Ret_inv. destruct (Hm _ _ _ Hs E1) as [H1 Hb].
    destruct (IH b _ _ (Hk b) Hb E2) as [H2 ?]. split; [by etransitivity|done].
  - intros (I & P1 & HI & HP1 & Hm & Hk) Hs (o & s1 & E1 & E2)%bind_Ret_inv.
    destruct (Hm _ _ _ (HP1 _ Hs) E1) as [H1 Ho]. destruct o as [b|].
    + destruct (IH b _ _ (Hk b) Ho E2) as [H2 ?]. split; [by etransitivity|done].
    + injection E2 as <- <-. split; [done|]. exists I. split; [done|]. split; [done|]. by exists I, P1.
Qed.

(** ** Interleaving *)

(** The futures that are not done yet, and the state. *)
Definition system : Type := list (Async S unit) * S.

(** New futures are spawned as [spawn] says; the executor polls any of them; and the actions [act]
    take place at any time between two polls. *)
Inductive sys_step (spawn : Async S unit -> Prop) (act : M S unit -> Prop) : system -> system -> Prop :=
| step_spawn fs s f : spawn f -> sys_step spawn act (fs, s) (fs ++ [f], s)
| step_pending fs s i f f' s' :
    fs !! i = Some f -> poll f s = Ret (inr f', s') -> sys_step spawn act (fs, s) (<[i := f']> fs, s')
| step_ready fs s i f s' :
    fs !! i = Some f -> poll f s = Ret (inl tt, s') -> sys_step spawn act (fs, s) (delete i fs, s')
| step_act fs s m s' : act m -> m s = Ret (tt, s') -> sys_step spawn act (fs, s) (fs, s').

Context (spawn : Async S unit -> Prop) (act : M S unit -> Prop).
Hypothesis act_does : forall m, act m -> evolves R m.

(** An invariant [Inv] that all parties keep may be assumed by every poll, and by new futures.  [cover]
    is what is known of a future that is suspended: it survives what the others do, and a poll keeps
    to [R] and leaves a future that is covered again. *)
Section cover.
Context (Inv : S -> Prop) (cover : Async S unit -> S -> Prop).
Hypothesis Inv_stable : stable Inv.
Hypothesis cover_stable : forall f s s', Inv s -> R s s' -> cover f s -> cover f s'.
Hypothesis cover_poll : forall f s r s', Inv s -> cover f s -> poll f s = Ret (r, s') ->
  R s s' /\ match r with inl _ => True | inr f' => cover f' s' end.
Hypothesis cover_spawn : forall f s, spawn f -> Inv s -> cover f s.

Definition all_covered (x : system) : Prop := Inv x.2 /\ Forall (fun f => cover f x.2) x.1.

Lemma all_covered_mono fs s s' : R s s' -> all_covered (fs, s) -> all_covered (fs, s').
Proof.
  intros HR [Hi Hx]. split; [by eapply Inv_stable|]. eapply Forall_impl; [exact Hx|].
  intros f. by apply cover_stable.
Qed.

Lemma sys_step_covered x x' :
  sys_step spawn act x x' -> all_covered x -> all_covered x' /\ R x.2 x'.2.
Proof.
  intros Hstep Hx. pose proof Hx as [Hi Hfs].
  destruct Hstep as [fs s f Hf|fs s i f f' s' Hl E|fs s i f s' Hl E|fs s m s' Hm E]; cbn in Hi, Hfs.
  - split; [|done]. split; [done|]. apply Forall_app. split; [done|]. constructor; [|done].
    by apply cover_spawn.
  - destruct (cover_poll f s _ s' Hi (Forall_lookup_1 _ _ _ _ Hfs Hl) E) as [HR Hf']. split; [|done].
    destruct (all_covered_mono _ _ _ HR Hx) as [Hi' Hfs']. split; [done|]. by apply Forall_insert.
  - destruct (cover_poll f s _ s' Hi (Forall_lookup_1 _ _ _ _ Hfs Hl) E) as [HR _]. split; [|done].
    destruct (all_covered_mono _ _ _ HR Hx) as [Hi' Hfs']. split; [done|]. by apply Forall_delete.
  - pose proof (act_does _ Hm _ _ _ E) as HR. split; [|done]. by eapply all_covered_mono.
Qed.

(** Whatever is interleaved, the state changes along [R], and futures stay covered. *)
Lemma steps_covered x x' :
  rtc (sys_step spawn act) x x' -> all_covered x -> R x.2 x'.2 /\ all_covered x'.
Proof.
  induction 1 as [x|x x1 x2 H01 _ IH]; intros Hx; [done|].
  destruct (sys_step_covered _ _ H01 Hx) as [Hx1 HR]. destruct (IH Hx1) as [HR' ?].
  split; [by etransitivity|done].
Qed.

Lemma reachable_covered s x :
  Inv s -> rtc (sys_step spawn act) ([], s) x -> R s x.2 /\ all_covered x.
Proof. intros Hi Hs. by apply (steps_covered ([], s)). Qed.
End cover.

(** Futures that are covered by their own assertions: between any two states of a run the state changes
    along [R]. *)
Lemma later_evolves (Inv : S -> Prop) :
  stable Inv -> (forall f, spawn f -> adoes Inv f any_result) ->
  forall s x x', Inv s -> rtc (sys_step spawn act) ([], s) x -> rtc (sys_step spawn act) x x' -> R x.2 x'.2.
Proof.
  intros HI Hspawn s x x' Hi Hx Hx'.
  assert (forall y y', rtc (sys_step spawn act) y y' -> all_covered Inv (covered any_result) y ->
    R y.2 y'.2 /\ all_covered Inv (covered any_result) y') as Hsteps.
  { intros y y'. apply steps_covered; try done.
    - intros f s1 s2 _. apply covered_stable.
    - intros f s1 r s2 _ (P & Hs & _ & Hf) E. destruct (poll_does _ _ _ _ _ _ Hf Hs E). split; [done|by destruct r].
    - intros f s1 Hf Hs. exists Inv. split; [done|]. split; [done|by apply Hspawn]. }
  apply (Hsteps x x' Hx'). by apply (Hsteps ([], s) x Hx).
Qed.

Lemma reachable_evolves (Inv : S -> Prop) :
  stable Inv -> (forall f, spawn f -> adoes Inv f any_result) ->
  forall s x, Inv s -> rtc (sys_step spawn act) ([], s) x -> R s x.2.
Proof. intros HI Hspawn s x Hi Hx. by apply (later_evolves Inv HI Hspawn s ([], s) x). Qed.
End logic.
