(* ===== verification/CoreSteps.v ===== *)
(** What the operations of the central state and the slot handler do to the component on top of them:
    nothing, apart from the callbacks they run.  Any relation that such changes are part of is
    kept by all of them; the interleavings of [VchiSystem] and [History] rest on this. *)

From stdpp Require Import relations.
From S2P Require Import Prelude Locks Memory Layout Types SlotMessage Event SlotZero Slot Service.
From S2P Require Import State SlotHandler Registry.

Section core.
Context {L : LockLib} {CB : Callbacks} {C : Type}.
Implicit Types w : World C.

(** ** Changes of the interface state only *)

Record core_frame (w w' : World C) : Prop := {
  core_client : w_client w' = w_client w;
  core_heap : length (w_heap w') = length (w_heap w);
}.
#[export] Instance core_frame_preorder : PreOrder core_frame.
Proof. split; [done|]. intros w1 w2 w3 [? ?] [? ?]. split; congruence. Qed.

Lemma frame_core w w' : io_frame w w' -> core_frame w w'.
Proof. intros [Hh _ _ Hc _]. split; [done|by rewrite Hh]. Qed.

Lemma upd_service_core l f : evolves core_frame (upd_service l f : M (World C) unit).
Proof. intros w u w' (s & _ & ->)%upd_service_inv. split; [done|]. apply length_insert. Qed.

Lemma frame_core_evolves {A} (m : M (World C) A) : evolves io_frame m -> evolves core_frame m.
Proof. apply evolves_mono, frame_core. Qed.
#[local] Hint Resolve upd_service_core frame_core_evolves get_service_frame upd_service_quota_frame : evolves.

Lemma queue_message_core fuel service id cx b :
  evolves core_frame (queue_message fuel service id cx b : M (World C) _).
Proof.
  intros w r w' [F|(w1 & t & _ & F & (l & s & _ & _ & Hs & F'))]%queue_message_frame; [by apply frame_core|].
  apply frame_core in F as [F1 F2]. apply frame_core in F' as [F3 F4]. split.
  - by rewrite F3.
  - rewrite F4. cbn. by rewrite length_insert.
Qed.

Lemma free_service_core l : evolves core_frame (free_service l : M (World C) _).
Proof. unfold free_service, up_remove_event. evolves_solve. Qed.

Lemma close_service_complete_core l st : evolves core_frame (close_service_complete l st : M (World C) _).
Proof. unfold close_service_complete. evolves_solve; apply free_service_core. Qed.

Lemma close_service_internal_core l : evolves core_frame (close_service_internal l : M (World C) _).
Proof.
  unfold close_service_internal, queue_close. evolves_solve;
    first [apply queue_message_core | apply free_service_core | apply close_service_complete_core].
Qed.

(** ** Relations with such steps *)

(** [T] holds of every change that leaves the client alone and keeps the registry. *)
Class CoreClosed (T : World C -> World C -> Prop) : Prop := {
  core_closed_preorder :: PreOrder T;
  core_closed w w' : reg_step w w' -> core_frame w w' -> T w w';
}.

Section closed.
Context (T : World C -> World C -> Prop) `{HT : !CoreClosed T}.
#[local] Instance closed_preorder : PreOrder T := core_closed_preorder.

Lemma core_evolves {A} (m : M (World C) A) : evolves reg_step m -> evolves core_frame m -> evolves T m.
Proof. intros H1 H2 w a w' E. apply core_closed; [by eapply H1|by eapply H2]. Qed.

Lemma frame_evolves {A} (m : M (World C) A) : evolves io_frame m -> evolves T m.
Proof. intros Hm. apply core_evolves; [by apply frame_step|by apply frame_core_evolves]. Qed.

Lemma close_start_evolves h : evolves T (close_start h : M (World C) _).
Proof.
  apply core_evolves; [apply close_start_step|]. unfold close_start.
  evolves_solve; first [apply close_service_internal_core | apply frame_core_evolves, service_from_handle_frame].
Qed.

Lemma try_down_remove_event_evolves l : evolves T (try_down_remove_event l : M (World C) bool).
Proof.
  apply core_evolves; [apply try_down_remove_event_step|]. unfold try_down_remove_event. evolves_solve.
Qed.
#[local] Hint Resolve close_start_evolves try_down_remove_event_evolves frame_evolves
  service_from_handle_frame service_by_port_frame unwrap_result_frame : evolves.

Lemma State_connect_evolves : aevolves T (State_connect : Async (World C) _).
Proof.
  split; [apply frame_evolves, connect_start_frame|]. intros [[]|e]; cbn; [|done..].
  split; [apply frame_evolves, poll_connect_frame|]. intros _.
  split; [apply frame_evolves, set_conn_state_frame|done].
Qed.

Lemma open_service_evolves `{R : OpenPayloadRepr} h : aevolves T (open_service h : Async (World C) _).
Proof.
  split.
  - apply frame_evolves. unfold open_start. evolves_solve;
      first [apply service_from_handle_frame | apply queue_message_None_frame].
  - intros [[]|e]; cbn; [|done]. split; [|done]. unfold poll_open. evolves_solve.
Qed.

Lemma close_service_evolves h : aevolves T (close_service h : Async (World C) _).
Proof.
  split; [apply close_start_evolves|]. intros [[]|e]; cbn; [|done]. split; [|done].
  unfold poll_close. evolves_solve.
Qed.

(** The VideoCore, or anybody, writes to the shared memory. *)
Lemma memory_evolves (g : mem -> mem) : evolves T (modify (fun w => w <| w_hw ::= fun hw => hw <| hw_mem ::= g |> |>)).
Proof. apply evolves_modify. intros w. apply core_closed; [by apply io_frame_step|done]. Qed.

(** ** The slot handler *)

Context {H : CallbackHost C} {HL : CallbackLaws C}.
Hypothesis invoke_evolves : forall cb message h,
  evolves T (invoke_callback cb MESSAGE_AVAILABLE (Some message) h).

Lemma handle_openack_evolves l rp message : evolves T (handle_openack l rp message : M (World C) unit).
Proof.
  apply core_evolves; [apply handle_openack_step|]. unfold handle_openack, up_remove_event. evolves_solve.
Qed.

Lemma handle_close_evolves l : evolves T (handle_close l : M (World C) unit).
Proof.
  apply core_evolves; [apply handle_close_step|]. unfold handle_close, up_remove_event, get_quota.
  evolves_solve; apply close_service_complete_core.
Qed.

Lemma handle_data_evolves l rp message : evolves T (handle_data l rp message : M (World C) unit).
Proof.
  unfold handle_data. evolves_solve; try apply invoke_evolves;
    (apply core_evolves; [apply upd_service_step; intros s; svc_step|apply upd_service_core]).
Qed.

Lemma handle_message_evolves tx : evolves T (handle_message tx : M (World C) unit).
Proof.
  unfold handle_message, get_slot, get_mem, dispatch, handle_connect.
  evolves_solve; first [ apply frame_evolves, current_rx_frame | apply frame_evolves, message_service_frame
    | apply handle_openack_evolves | apply handle_close_evolves | apply handle_data_evolves
    | apply frame_evolves; by apply upd_state_frame | apply frame_evolves; unfold advance_rx; auto with evolves ].
Qed.

Lemma slot_handler_evolves fuel locked : evolves T (slot_handler fuel locked : M (World C) unit).
Proof.
  unfold slot_handler, get_slot, get_mem. evolves_solve. generalize (tx_pos (remote (slot_zero a)) a0). intros tx.
  induction fuel as [|fuel IH]; cbn [handle_messages]; unfold get_slot; evolves_solve. apply handle_message_evolves.
Qed.
End closed.
End core.
