(* ===== verification/System.v ===== *)
(** The VCHIQ instance as a step relation: requests of clients, the slot handler and the VideoCore,
    interleaved in any order.  The registry invariant holds in every reachable state, and services
    only change along their life cycle. *)

From stdpp Require Import relations.
From S2P Require Import Prelude Locks Memory Layout Types SlotMessage Event SlotZero Slot Service.
From S2P Require Import State SlotHandler Completion Instance Registry Queues Concurrency.

Section system.
Context {L : LockLib} {X : Type} {R : OpenPayloadRepr}.
Notation W := (World (Client X)).

(** ** Requests *)

(** What clients of [Instance] call, as futures; the results go back to the clients. *)
Definition forget {A} (f : Async W A) : Async W unit := abind f (fun _ => Done tt).

Inductive request : Async W unit -> Prop :=
| req_connect : request (forget Instance_connect)
| req_create params open vchi : request (forget (create_service params open vchi))
| req_close h : request (forget (Instance_close_service h))
| req_queue fuel h data : request (forget (astep (Instance_queue_message fuel h data)))
| req_dequeue {T} (try_into : SlotMessage -> VchiqResult T) h :
    request (forget (dequeue_message try_into h))
| req_await count : request (forget (await_completion count)).

(** ** Steps *)

(** What happens by itself: the task of the slot handler runs, and the VideoCore writes whatever it
    likes to the shared memory. *)
Inductive action : M W unit -> Prop :=
| act_handler fuel locked : action (slot_handler fuel locked)
| act_videocore (m : mem) : action (modify (fun w => w <| w_hw ::= fun hw => hw <| hw_mem := m |> |>)).

Definition vchiq_step : system (S := W) -> system -> Prop := sys_step request action.

(** ** The registry invariant is kept *)

Lemma upd_client_step (f : Client X -> Client X) : evolves reg_step (upd_client f).
Proof. apply evolves_modify. intros w. apply client_frame_step. done. Qed.

Lemma get_user_frame ud : evolves io_frame (get_user ud : M W _).
Proof. unfold get_user, get_client. evolves_solve. Qed.

Lemma set_user_step ud u : evolves reg_step (set_user ud u : M W _).
Proof. apply upd_client_step. Qed.
#[local] Hint Resolve upd_client_step set_user_step : evolves.

Lemma Instance_queue_message_step fuel h data : evolves reg_step (Instance_queue_message fuel h data : M W _).
Proof.
  apply frame_step. unfold Instance_queue_message. evolves_step; [apply service_from_handle_frame|].
  evolves_step; [auto with evolves|]. apply queue_message_other_frame, make_msg_id_DATA_CLOSE.
Qed.

Lemma UserData_new_step b : evolves reg_step (UserData_new b : M W _).
Proof. unfold UserData_new, get_client. evolves_solve. Qed.

Lemma Instance_connect_step : aevolves reg_step (Instance_connect : Async W _).
Proof.
  apply aevolves_abind; [apply aevolves_astep; unfold get_client; auto with evolves typeclass_instances|].
  intros c. destruct (connected c); [done|]. apply aevolves_abind_try; [apply State_connect_step|].
  intros _. apply aevolves_abind; [|done]. apply aevolves_astep, upd_client_step.
Qed.

Lemma create_service_step params open vchi : aevolves reg_step (create_service params open vchi : Async W _).
Proof.
  apply aevolves_abind; [apply aevolves_astep; unfold get_client; auto with evolves typeclass_instances|].
  intros c. apply aevolves_abind_try; [done|]. intros st.
  apply aevolves_abind; [apply aevolves_astep, UserData_new_step|]. intros ud.
  apply aevolves_abind_try; [apply aevolves_astep, add_service_step|]. intros h.
  apply aevolves_abind_try; [|done]. destruct open; [apply open_service_step|done].
Qed.

Lemma poll_dequeue_step ud : evolves reg_step (poll_dequeue ud : M W _).
Proof.
  unfold poll_dequeue. evolves_step; [apply frame_step, get_user_frame|]. evolves_solve.
Qed.

Lemma dequeue_message_step {T} (try_into : SlotMessage -> VchiqResult T) h :
  aevolves reg_step (dequeue_message try_into h : Async W _).
Proof.
  apply aevolves_abind_try; [apply aevolves_astep, frame_step, service_from_handle_frame|]. intros l.
  apply aevolves_abind; [apply aevolves_astep, frame_step; evolves_solve|]. intros ud.
  apply aevolves_abind; [apply aevolves_astep, frame_step, get_user_frame|]. intros u.
  destruct (negb (is_vchi u)); [done|].
  apply aevolves_abind; [by split; [apply poll_dequeue_step|]|]. intros _. apply aevolves_astep.
  unfold take_message. evolves_step; [apply frame_step, get_user_frame|]. evolves_solve.
  apply frame_step, unwrap_result_frame.
Qed.

Lemma await_completion_step count : aevolves reg_step (await_completion count : Async W _).
Proof.
  apply aevolves_abind; [apply aevolves_astep; unfold get_client; auto with evolves typeclass_instances|].
  intros c. destruct (negb (connected c)); [done|].
  apply aevolves_abind; [split; [|done]; unfold poll_completion, get_client; evolves_solve|].
  intros _. apply aevolves_astep. unfold collect_completions, get_client. evolves_solve.
Qed.

Lemma request_step f : request f -> aevolves reg_step f.
Proof.
  intros []; apply aevolves_abind; try done.
  - apply Instance_connect_step.
  - apply create_service_step.
  - apply close_service_step.
  - apply aevolves_astep, Instance_queue_message_step.
  - apply dequeue_message_step.
  - apply await_completion_step.
Qed.

(** ** Reachable states *)

Lemma action_step m : action m -> evolves reg_step m.
Proof.
  intros [fuel locked|m']; [intros w [] w'; apply slot_handler_step|].
  apply evolves_modify. intros w. by apply io_frame_step.
Qed.

Lemma reachable_ok (w : W) s : reg_inv w -> rtc vchiq_step ([], w) s -> reg_ok w s.2.
Proof.
  intros Hi Hs. refine (reachable_evolves reg_step request action action_step anything _ _ w s I Hs Hi); [done|].
  intros f Hf. by apply adoes_evolves, request_step.
Qed.

(** C1: the registry and the life of services in the whole program.  Start with no requests in a
    state whose registry is in order, and let clients connect, create, open and close services,
    send and dequeue messages, let the slot handler run and the VideoCore write to the memory, in
    any order and any number of times.  Then the registry stays in order: service number [i] keeps
    port [i] and handle [4096 + i], and is in one of five states; and what happened to each service
    on the way is a path of its life cycle: from OPENING to OPEN, to CLOSEWAIT if it is refused, or at
    once to CLOSESENT; from OPEN to CLOSESENT; and from CLOSEWAIT or CLOSESENT to FREE, which it never
    leaves. *)
Theorem registry_always_ok (w : W) (s : system) :
  reg_inv w -> rtc vchiq_step ([], w) s ->
  reg_inv s.2 /\ heap_evolves (w_heap w) (w_heap s.2).
Proof. intros Hi Hs. by destruct (reachable_ok _ _ Hi Hs). Qed.

(** Services are not reused.  The entry of a service that was closed stays taken: once 4096
    services were created, [add_service] fails for good, also when all of them are free. *)
Lemma services_exhausted (w : W) (s : system) (params : ServiceParams) :
  reg_inv w -> Z.of_nat (length (w_heap w)) = VCHIQ_MAX_SERVICES -> rtc vchiq_step ([], w) s ->
  exists w', add_service params ServiceState.OPENING s.2 =
    Ret (Err (EVchiq UnableToAddService), w').
Proof.
  intros Hi Hn Hs. destruct (reachable_ok _ _ Hi Hs) as [Hi' Hh].
  eexists. apply add_service_full; [done|].
  pose proof (inv_count _ Hi'). pose proof (heap_evolves_length _ _ Hh). lia.
Qed.
End system.
