(* ===== verification/Stream.v ===== *)
(** Streams of messages: how the bytes between two positions of a slot are read as messages.  The
    transmit side appends to such a stream, the slot handler consumes one. *)

From S2P Require Import Prelude Memory Layout Types SlotMessage Event Slot.

(** The space a message takes. *)
Definition stride (msg : SlotMessage) : Z := calc_msg_stride (Z.of_nat (length (data msg))).

Definition stream_len (msgs : list SlotMessage) : Z := foldr (fun msg n => stride msg + n) 0 msgs.

(** Messages that fit in a slot. *)
Definition fits (msg : SlotMessage) : Prop :=
  message_wf msg /\ Z.of_nat (length (data msg)) <= VCHIQ_SLOT_SIZE - header_size.

(** [stream_at m a msgs]: the messages [msgs] follow one another in memory from address [a] on. *)
Fixpoint stream_at (m : mem) (a : Z) (msgs : list SlotMessage) : Prop :=
  match msgs with
  | [] => True
  | msg :: msgs => message_at m a msg /\ stream_at m (a + stride msg) msgs
  end.

Lemma stride_bounds msg :
  fits msg -> 8 + Z.of_nat (length (data msg)) <= stride msg <= 4096 /\ stride msg mod 8 = 0.
Proof.
  intros [_ Hl]. change VCHIQ_SLOT_SIZE with 4096 in Hl. change header_size with 8 in Hl.
  unfold stride. rewrite calc_msg_stride_val by lia. zdiv.
Qed.

Lemma stream_len_app msgs msgs' : stream_len (msgs ++ msgs') = stream_len msgs + stream_len msgs'.
Proof. induction msgs as [|msg msgs IH]; cbn; [done|]. fold (stream_len (msgs ++ msgs')). rewrite IH.
  fold (stream_len msgs). lia. Qed.

Lemma stream_len_nonneg msgs : Forall fits msgs -> 0 <= stream_len msgs.
Proof. induction 1 as [|msg msgs Hm _ IH]; cbn; [done|]. apply stride_bounds in Hm.
  fold (stream_len msgs). lia. Qed.

Lemma stream_len_aligned msgs : Forall fits msgs -> stream_len msgs mod 8 = 0.
Proof.
  induction 1 as [|msg msgs Hm _ IH]; cbn; [done|]. fold (stream_len msgs).
  apply stride_bounds in Hm as [_ Hm]. rewrite Z.add_mod, Hm, IH by lia. done.
Qed.

Lemma stream_at_app m a msgs msgs' :
  stream_at m a (msgs ++ msgs') <-> stream_at m a msgs /\ stream_at m (a + stream_len msgs) msgs'.
Proof.
  revert a. induction msgs as [|msg msgs IH]; intros a; cbn.
  - rewrite Z.add_0_r. tauto.
  - rewrite IH. fold (stream_len msgs). rewrite Z.add_assoc. tauto.
Qed.

Lemma stream_at_agree m m' a msgs :
  Forall fits msgs -> agree m' m a (stream_len msgs) -> stream_at m a msgs -> stream_at m' a msgs.
Proof.
  intros Hf. revert a. induction Hf as [|msg msgs Hm Hf IH]; intros a Ha; cbn; [done|].
  cbn in Ha. fold (stream_len msgs) in Ha. pose proof (stream_len_nonneg _ Hf).
  apply stride_bounds in Hm as [Hb _]. intros [H1 H2]. split.
  - eapply message_at_agree; [|done]. eapply agree_sub; [exact Ha|lia|lia].
  - apply IH; [|done]. eapply agree_sub; [exact Ha|lia|lia].
Qed.
