(* ===== verification/Transmit.v ===== *)
(** Transmitting: [reserve_space] refines an allocator on a linear range of positions, and
    [queue_message] appends to the stream of messages the VideoCore reads. *)

From S2P Require Import Prelude Locks Memory Layout Types SlotMessage Event SlotZero Slot Service.
From S2P Require Import State SlotHandler Registry Stream.

(** ** The abstract allocator *)

(** Where [stride] bytes are allocated when [tx] bytes are in use: messages do not cross the end of
    a slot. *)
Definition room (tx : Z) : Z := VCHIQ_SLOT_SIZE - tx mod VCHIQ_SLOT_SIZE.
Definition alloc_start (tx stride : Z) : Z := if room tx <? stride then tx + room tx else tx.

Lemma room_bounds tx : 0 <= tx -> 1 <= room tx <= 4096.
Proof. intros. unfold room. change VCHIQ_SLOT_SIZE with 4096. zdiv. Qed.

Lemma room_aligned tx : 0 <= tx -> tx mod 8 = 0 -> 8 <= room tx /\ room tx mod 8 = 0.
Proof. intros. unfold room. change VCHIQ_SLOT_SIZE with 4096. zdiv. Qed.

Lemma room_end tx : 0 <= tx -> (tx + room tx) mod 4096 = 0.
Proof. intros. unfold room. change VCHIQ_SLOT_SIZE with 4096. zdiv. Qed.

Lemma alloc_start_spec tx stride :
  0 <= tx -> tx mod 8 = 0 -> 0 < stride <= 4096 -> 
  let start := alloc_start tx stride in
  tx <= start <= tx + 4096 /\ start mod 8 = 0 /\ start / 4096 = (start + stride - 1) / 4096.
Proof.
  intros Htx Hal Hs. unfold alloc_start, room. change VCHIQ_SLOT_SIZE with 4096.
  destruct (Z.ltb_spec (4096 - tx mod 4096) stride); cbv zeta; zdiv.
Qed.

(** When the slots are full the allocation would start right behind them. *)
Lemma alloc_start_full tx stride n :
  0 <= tx <= n * 4096 -> stride <= 4096 -> n * 4096 <= alloc_start tx stride -> alloc_start tx stride = n * 4096.
Proof.
  intros Htx Hs. unfold alloc_start. pose proof (room_end tx ltac:(lia)). unfold room in *.
  change VCHIQ_SLOT_SIZE with 4096 in *. destruct (Z.ltb_spec (4096 - tx mod 4096) stride); zdiv.
Qed.

(** Requests [reserve_space] can serve, whatever it does with the slots: what is longer than a slot
    makes it write padding, for which there must be a message already. *)
Definition reservable (stride : Z) (st : option Z) : Prop :=
  0 < stride < 2 ^ 31 /\ (stride <= 4096 \/ is_Some st).

Lemma slot_reservable stride st : 0 < stride <= 4096 -> reservable stride st.
Proof. intros H. split; [lia|left; lia]. Qed.

Lemma alloc_start_bounds tx stride :
  0 <= tx -> tx mod 8 = 0 -> tx <= alloc_start tx stride <= tx + 4096 /\ alloc_start tx stride mod 8 = 0.
Proof.
  intros Htx Hal. unfold alloc_start, room. change VCHIQ_SLOT_SIZE with 4096.
  destruct (Z.ltb_spec (4096 - tx mod 4096) stride); zdiv.
Qed.

Section transmit.
Context {L : LockLib} {CB : Callbacks} {C : Type}.
Implicit Types w : World C.

(** ** The state of the transmit side *)

(** Where things are: the control block at [base], the slots of this side from slot [first] on, [n]
    of them, [len] slots altogether. *)
Record Area : Type := mkArea { area_base : Z; area_first : Z; area_count : Z; area_len : Z }.

Definition area_ok (a : Area) : Prop :=
  0 <= area_base a /\ 1 <= area_first a /\ 0 < area_count a <= 64 /\
  area_first a + area_count a <= area_len a < 2 ^ 31.

(** The address of a position of the linear range. *)
Definition area_addr (a : Area) (p : Z) : Z := area_base a + area_first a * 4096 + p.
Definition area_pos (a : Area) (p : Z) : SlotPosition := mkPosition (area_first a + p / 4096) (p mod 4096).

(** The slots of this side, in the queue of the control block; and the addresses the transmit side
    uses. *)
Record tx_area (a : Area) (w : World C) : Prop := {
  tx_slots : sa_inner (slot_data (slot_state (w_state w))) = area_base a;
  tx_len : sa_len (slot_data (slot_state (w_state w))) = area_len a;
  tx_local : ss_inner (local (slot_zero (slot_state (w_state w)))) = area_base a + 404;
  tx_trigger : ev_inner (trigger (remote (slot_zero (slot_state (w_state w))))) = area_base a + 48;
  tx_available : slot_queue_available (w_state w) = area_count a;
  tx_queue : forall k, 0 <= k < area_count a ->
    slot_queue (local (slot_zero (slot_state (w_state w)))) (hw_mem (w_hw w)) !! Z.to_nat k =
      Some (area_first a + k);
}.

(** [tx] bytes are in use; the last message starts at [st]. *)
Record tx_at (a : Area) (tx : Z) (st : option Z) (w : World C) : Prop := {
  at_pos : local_tx_pos (slot_state (w_state w)) = tx;
  at_range : 0 <= tx <= area_count a * 4096 /\ tx mod 8 = 0;
  at_data : tx_data (slot_state (w_state w)) = area_pos a <$> st;
  at_last : match st with
            | Some st => 0 <= st < tx /\ st / 4096 = (tx - 1) / 4096
            | None => tx = 0
            end;
}.

Lemma area_pos_ok a p : area_ok a -> 0 <= p < area_count a * 4096 ->
  0 < pos_index (area_pos a p) < area_len a.
Proof. intros (Hb & Hf & Hn & Hl) Hp. cbn. zdiv. Qed.

Lemma area_pos_ptr sa a p : sa_inner sa = area_base a -> message_ptr sa (area_pos a p) = area_addr a p.
Proof.
  intros H. rewrite message_ptr_val, H. unfold area_addr. cbn.
  rewrite Z.mod_mod by lia. pose proof (Z.div_mod p 4096). lia.
Qed.

(** ** [reserve_space] *)

(** The padding header the code writes, and the world after a reservation. *)
Definition padding (size : Z) : SlotMessage := mkMessage (mkHeader VCHIQ_MSGID_PADDING size) [].

Definition pad (a : Area) (tx stride : Z) (st : option Z) (m : mem) : mem :=
  match st with
  | Some st => if room tx <? stride then write_message m (area_addr a st) (padding (room tx - 8)) else m
  | None => m
  end.

Definition reserved (a : Area) (tx stride : Z) (st : option Z) (w : World C) : World C :=
  let start := alloc_start tx stride in
  w <| w_hw ::= fun hw => hw <| hw_mem ::= pad a tx stride st |> |>
    <| w_state ::= fun s => s <| slot_state ::= fun ss =>
         ss <| local_tx_pos := start + stride |> <| tx_data := Some (area_pos a start) |> |> |>.

(** [store] at a position, as one write. *)
Lemma store_Ret pos n f w q' msg :
  position_ok (slot_data (slot_state (w_state w))) pos = true ->
  (let p := message_ptr (slot_data (slot_state (w_state w))) pos in
   f (quota_state (w_state w))
     (mkMessage (read_header (hw_mem (w_hw w)) p) (read_bytes (hw_mem (w_hw w)) (p + header_size) n))
   = Ret (msg, q')) ->
  store pos n f w =
    Ret (tt, w <| w_state ::= fun s => s <| quota_state := q' |> |>
               <| w_hw ::= fun hw => hw <| hw_mem ::= fun m =>
                    write_message m (message_ptr (slot_data (slot_state (w_state w))) pos) msg |> |>).
Proof.
  intros Hp Hf. unfold store, get_slot, get_quota, get_mem. rewrite !bind_gets.
  erewrite bind_Ret; [|unfold lift, store_message; rewrite Hp; cbv zeta in Hf |- *; rewrite Hf; reflexivity].
  destruct w as [[]? [] ? ?]. reflexivity.
Qed.

Lemma store_inv pos n f w u w' :
  store pos n f w = Ret (u, w') ->
  exists msg q',
    (let p := message_ptr (slot_data (slot_state (w_state w))) pos in
     f (quota_state (w_state w))
       (mkMessage (read_header (hw_mem (w_hw w)) p) (read_bytes (hw_mem (w_hw w)) (p + header_size) n)))
    = Ret (msg, q') /\
    w' = w <| w_state ::= fun s => s <| quota_state := q' |> |>
           <| w_hw ::= fun hw => hw <| hw_mem ::= fun m =>
                write_message m (message_ptr (slot_data (slot_state (w_state w))) pos) msg |> |>.
Proof.
  intros E. destruct (position_ok (slot_data (slot_state (w_state w))) pos) eqn:Hp.
  - destruct (f _ _) as [[msg q']| | |] eqn:Ef; [|unfold store, get_slot, get_quota, get_mem in E;
      rewrite !bind_gets in E; unfold bind, lift, store_message in E; rewrite Hp in E; cbv zeta in E;
      by rewrite Ef in E..].
    exists msg, q'. split; [done|]. rewrite (store_Ret _ _ _ _ _ _ Hp Ef) in E. by injection E.
  - unfold store, get_slot, get_quota, get_mem in E. rewrite !bind_gets in E.
    unfold bind, lift, store_message in E. by rewrite Hp in E.
Qed.

Lemma position_ok_area w a p :
  tx_area a w -> area_ok a -> 0 <= p < area_count a * 4096 ->
  position_ok (slot_data (slot_state (w_state w))) (area_pos a p) = true.
Proof.
  intros Ha Hok Hp. destruct (area_pos_ok a p Hok Hp) as [H1 H2]. unfold position_ok.
  rewrite (tx_len _ _ Ha). apply andb_true_intro. by rewrite !Z.ltb_lt.
Qed.

Lemma store_padding w a st size :
  tx_area a w -> area_ok a -> 0 <= st < area_count a * 4096 -> is_u32 size ->
  store (area_pos a st) 0 (fun q message =>
    Ret (message <| header := mkHeader VCHIQ_MSGID_PADDING (u32 size) |>, q)) w =
  Ret (tt, w <| w_hw ::= fun hw => hw <| hw_mem ::= fun m =>
         write_message m (area_addr a st) (padding size) |> |>).
Proof.
  intros Ha Hok Hst Hsz. erewrite store_Ret; [|by apply position_ok_area|reflexivity].
  rewrite (area_pos_ptr _ a) by by apply tx_slots. rewrite u32_small by done.
  destruct w as [[]? [] ? ?]. reflexivity.
Qed.

(** A write to the slots of this side leaves the control block alone. *)
Definition tx_write (a : Area) (p : Z) (msg : SlotMessage) (w : World C) : World C :=
  w <| w_hw ::= fun hw => hw <| hw_mem ::= fun m => write_message m (area_addr a p) msg |> |>.

Lemma write_message_control a p msg m b n :
  area_ok a -> 0 <= p -> b + n <= area_base a + 4096 -> agree (write_message m (area_addr a p) msg) m b n.
Proof. intros (? & ? & ? & ?) Hp Hb. apply write_message_agree. unfold area_addr. lia. Qed.

Lemma tx_area_mem a w m :
  area_ok a -> tx_area a w -> agree m (hw_mem (w_hw w)) (area_base a + 476) 256 ->
  tx_area a (w <| w_hw ::= fun hw => hw <| hw_mem := m |> |>).
Proof.
  intros Hok [? ? Hl ? ? Hq] Hm. split; try done. intros k Hk. rewrite <- Hq by done.
  cbn -[slot_queue]. f_equal. apply slot_queue_agree. rewrite Hl.
  eapply agree_sub; [exact Hm|lia|lia].
Qed.

Lemma tx_area_write a p msg w : area_ok a -> 0 <= p -> tx_area a w -> tx_area a (tx_write a p msg w).
Proof.
  intros Hok Hp Ha. apply (tx_area_mem a w _ Hok Ha). apply write_message_control; [done..|lia].
Qed.

(** The second half of [reserve_space]: the slot of the position reserved. *)
Lemma slot_lookup a w p :
  area_ok a -> tx_area a w -> 0 <= p < area_count a * 4096 ->
  slot_queue (local (slot_zero (slot_state (w_state w)))) (hw_mem (w_hw w))
    !! Z.to_nat (Z.land (slot_queue_index_from_pos p) VCHIQ_SLOT_QUEUE_MASK) = Some (area_first a + p / 4096).
Proof.
  intros (_ & _ & Hn & _) Ha Hp. rewrite (land_mask _ 6) by done.
  unfold slot_queue_index_from_pos. change VCHIQ_SLOT_SIZE with 4096. change (2 ^ 6) with 64.
  rewrite Z.mod_small by zdiv. apply (tx_queue _ _ Ha). zdiv.
Qed.

(** Whether there is padding to write, and the state after it was. *)
Lemma reserve_space_start a tx st w stride b :
  area_ok a -> tx_area a w -> tx_at a tx st w -> reservable stride st ->
  exists w1, tx_area a w1 /\ w1 = w <| w_hw ::= fun hw => hw <| hw_mem ::= pad a tx stride st |> |> /\
  reserve_space stride b w =
    (let start := alloc_start tx stride in
     let* slot_position :=
       (if start mod 4096 =? 0 then
          let* s := gets w_state in
          assert (negb (start =? usize_mul (slot_queue_available s) VCHIQ_SLOT_SIZE)) ;;
          let slot_queue_index := Z.land (slot_queue_index_from_pos start) VCHIQ_SLOT_QUEUE_MASK in
          let* m := get_mem in
          let* slot_index :=
            index (slot_queue (local (slot_zero (slot_state (w_state w)))) m) slot_queue_index in
          ret (mkPosition slot_index 0)
        else
          let* tx_data := unwrap (area_pos a <$> st) in
          ret (mkPosition (pos_index tx_data) (start mod 4096))) in
     upd_slot (fun ss => ss <| local_tx_pos := usize_add start stride |>
                            <| tx_data := Some slot_position |>) ;;
     ret (Ok slot_position)) w1.
Proof.
  intros Hok Ha [Hp [Hr Hal] Hd Hl] Hs. pose proof (room_bounds tx ltac:(lia)) as Hroom.
  pose proof Hok as (_ & _ & Hn & _).
  exists (w <| w_hw ::= fun hw => hw <| hw_mem ::= pad a tx stride st |> |>).
  unfold reserve_space, get_slot. rewrite bind_gets, Hp, Hd. cbv zeta.
  rewrite !(land_mask _ 12) by done. change (2 ^ 12) with 4096.
  assert (usize_sub VCHIQ_SLOT_SIZE (tx mod 4096) = room tx) as ->.
  { apply usize_sub_small. fold (room tx). change VCHIQ_SLOT_SIZE with 4096. unfold room in Hroom.
    change VCHIQ_SLOT_SIZE with 4096 in Hroom. lia. }
  destruct (Z.ltb_spec (room tx) stride) as [Hlt|Hge].
  - (* only possible behind a message *)
    destruct st as [st|]; [|destruct Hs as [_ [Hs|[? ?]]]; [|done]; rewrite Hl in Hlt; change (room 0) with 4096 in Hlt; lia].
    pose proof (room_aligned tx ltac:(lia) Hal) as [Hr8 _]. cbn [fmap option_fmap option_map unwrap].
    unfold pad. rewrite (proj2 (Z.ltb_lt _ _)) by done. split; [apply tx_area_write; [done|lia|done]|]. split; [done|].
    unfold alloc_start. rewrite (proj2 (Z.ltb_lt _ _)) by done.
    rewrite bind_assoc, bind_ret_l. change header_size with 8.
    rewrite (usize_sub_small (room tx) 8), (usize_add_small tx) by lia. rewrite bind_assoc.
    erewrite bind_Ret by (eapply store_padding; [done..|lia|unfold is_u32; lia]). rewrite bind_ret_l.
    by rewrite (land_mask _ 12) by done.
  - unfold alloc_start. rewrite (proj2 (Z.ltb_ge _ _)) by done.
    assert (w <| w_hw ::= fun hw => hw <| hw_mem ::= pad a tx stride st |> |> = w) as ->.
    { unfold pad. rewrite (proj2 (Z.ltb_ge _ _)) by done. destruct w as [? ? [] ? ?], st; done. }
    split; [done|]. split; [done|]. rewrite bind_ret_l. by rewrite (land_mask _ 12) by done.
Qed.

Lemma reserve_space_Ok a tx st w stride b :
  area_ok a -> tx_area a w -> tx_at a tx st w -> reservable stride st ->
  alloc_start tx stride < area_count a * 4096 ->
  reserve_space stride b w = Ret (Ok (area_pos a (alloc_start tx stride)), reserved a tx stride st w).
Proof.
  intros Hok Ha Hat Hs Hfit. pose proof Hat as [Hp [Hr Hal] Hd Hl].
  destruct (reserve_space_start a tx st w stride b) as (w1 & Ha1 & Hw1 & ->); [done..|].
  pose proof (alloc_start_bounds tx stride ltac:(lia) Hal) as [Hst _]. pose proof Hs as [Hs0 _]. cbv zeta.
  set (start := alloc_start tx stride) in *. pose proof Hok as (_ & _ & Hn & _).
  erewrite bind_Ret with (a := area_pos a start) (s' := w1).
  { rewrite usize_add_small by lia. by subst w1. }
  destruct (Z.eqb_spec (start mod 4096) 0) as [Hz|Hnz].
  - rewrite bind_gets, (tx_available _ _ Ha1). change VCHIQ_SLOT_SIZE with 4096.
    rewrite usize_mul_small, (proj2 (Z.eqb_neq _ _)) by lia. cbn [negb assert]. rewrite bind_ret_l.
    unfold get_mem. rewrite bind_gets.
    replace (slot_zero (slot_state (w_state w))) with (slot_zero (slot_state (w_state w1))) by by rewrite Hw1.
    unfold index.
    rewrite (slot_lookup a) by (done || lia).
    rewrite decide_True, bind_ret_l by (apply Z.land_nonneg; right; done).
    unfold area_pos. by rewrite Hz.
  - assert (start = tx) as Hstx.
    { unfold start, alloc_start in *. destruct (room tx <? stride); [|done].
      rewrite room_end in Hnz by lia. done. }
    destruct st as [st|]; [|rewrite Hl in Hstx; rewrite Hstx in Hnz; done].
    cbn [fmap option_fmap option_map unwrap]. rewrite bind_ret_l. unfold area_pos. cbn [pos_index].
    replace (start / 4096) with (st / 4096); [done|]. destruct Hl as [Hl1 Hl2]. rewrite Hl2, <- Hstx.
    rewrite <- Hstx in Hl1. zdiv.
Qed.

(** Without a free slot the assertion of [reserve_space] fails. *)
Lemma reserve_space_full a tx st w stride b :
  area_ok a -> tx_area a w -> tx_at a tx st w -> reservable stride st ->
  alloc_start tx stride = area_count a * 4096 ->
  reserve_space stride b w = Panic PAssert.
Proof.
  intros Hok Ha Hat Hs Hfull. pose proof Hat as [Hp [Hr Hal] Hd Hl].
  destruct (reserve_space_start a tx st w stride b) as (w1 & Ha1 & Hw1 & ->); [done..|].
  pose proof Hok as (_ & _ & Hn & _). cbv zeta. rewrite Hfull, Z.mod_mul by lia. cbn [Z.eqb].
  unfold bind at 1. rewrite bind_gets, (tx_available _ _ Ha1). change VCHIQ_SLOT_SIZE with 4096.
  by rewrite usize_mul_small, Z.eqb_refl by lia.
Qed.

(** The state after a reservation. *)
Lemma reserved_area a tx st w stride :
  area_ok a -> tx_area a w -> tx_at a tx st w -> reservable stride st ->
  tx_area a (reserved a tx stride st w).
Proof.
  intros Hok Ha Hat Hs.
  destruct (reserve_space_start a tx st w stride true) as (w1 & Ha1 & Hw1 & _); [done..|].
  subst w1. destruct Ha1. split; done.
Qed.

Lemma reserved_at a tx st w stride :
  area_ok a -> tx_at a tx st w -> 0 < stride <= 4096 -> stride mod 8 = 0 ->
  alloc_start tx stride < area_count a * 4096 ->
  tx_at a (alloc_start tx stride + stride) (Some (alloc_start tx stride)) (reserved a tx stride st w).
Proof.
  intros Hok [Hp [Hr Hal] Hd Hl] Hs Hs8 Hfit.
  pose proof (alloc_start_spec tx stride ltac:(lia) Hal Hs) as (Hst & Hst8 & Hsl).
  cbv zeta in *. split; try done.
  - split; [|zdiv]. split; [lia|]. zdiv.
  - split; [lia|done].
Qed.

(** C21: [reserve_space] refines a bump allocator on the slots of this side.  Positions map linearly
    to the addresses of those slots; a request that does not fit in the rest of the current slot
    starts at the next one; what is returned is the position of the allocation, which lies behind
    everything allocated before and within one slot; and when no slot is left the call panics on its
    assertion - the slots are never recycled. *)
Theorem reserve_space_refines (a : Area) (tx : Z) (st : option Z) (w : World C) (stride : Z) (b : bool) :
  area_ok a -> tx_area a w -> tx_at a tx st w -> 0 < stride <= 4096 -> stride mod 8 = 0 ->
  let start := alloc_start tx stride in
  (start < area_count a * 4096 ->
   exists w', reserve_space stride b w = Ret (Ok (area_pos a start), w') /\
     tx_area a w' /\ tx_at a (start + stride) (Some start) w' /\
     message_ptr (slot_data (slot_state (w_state w'))) (area_pos a start) = area_addr a start /\
     tx <= start /\ start / 4096 = (start + stride - 1) / 4096) /\
  (area_count a * 4096 <= start -> reserve_space stride b w = Panic PAssert).
Proof.
  intros Hok Ha Hat Hs Hs8 start. pose proof Hat as [_ [Hr Hal] _ _].
  pose proof (alloc_start_spec tx stride ltac:(lia) Hal Hs) as (Hst & _ & Hsl).
  fold start in Hst, Hsl. pose proof (slot_reservable stride st Hs) as Hrs. split; intros Hfit.
  - exists (reserved a tx stride st w). split; [by apply reserve_space_Ok|].
    split; [by apply reserved_area|]. split; [by apply reserved_at|].
    split_and!; [by apply area_pos_ptr, (tx_slots _ _ Ha)|lia|done].
  - eapply reserve_space_full; try done. apply alloc_start_full; lia.
Qed.

(** ** [queue_message] *)

(** The message [queue_message] stores. *)
Definition sent_message (id : Z) (context : option (list Z)) : SlotMessage :=
  let d := match context with Some cx => cx | None => [] end in
  mkMessage (mkHeader id (Z.of_nat (length d))) d.

(** The effect on the hardware of publishing the position [tx] at the control block at [base]. *)
Record published (base tx : Z) (w w' : World C) : Prop := {
  pub_words : forall x, ~ base + 52 <= x < base + 56 -> ~ base + 432 <= x < base + 436 ->
    hw_mem (w_hw w') x = hw_mem (w_hw w) x;
  pub_tx_pos : tx_pos (local (slot_zero (slot_state (w_state w')))) (hw_mem (w_hw w')) = tx;
  pub_fired : fired (trigger (remote (slot_zero (slot_state (w_state w'))))) (hw_mem (w_hw w')) = 1;
  pub_bell : hw_mmio (w_hw w') =
    if armed (trigger (remote (slot_zero (slot_state (w_state w'))))) (hw_mem (w_hw w)) =? 0
    then hw_mmio (w_hw w) else (BELL2, 0) :: hw_mmio (w_hw w);
  pub_state : w_state w' = w_state w;
  pub_client : w_client w' = w_client w;
}.

Lemma pub_agree base tx w w' :
  published base tx w w' -> forall b n, base + 4096 <= b -> agree (hw_mem (w_hw w')) (hw_mem (w_hw w)) b n.
Proof. intros Hp b n Hb x Hx. apply (pub_words _ _ _ _ Hp); lia. Qed.

Lemma pub_queue base tx w w' :
  published base tx w w' -> agree (hw_mem (w_hw w')) (hw_mem (w_hw w)) (base + 476) 256.
Proof. intros Hp x Hx. apply (pub_words _ _ _ _ Hp); lia. Qed.

(** Publishing keeps the slots of this side where they are. *)
Lemma published_area a tx w w' : published (area_base a) tx w w' -> tx_area a w -> tx_area a w'.
Proof.
  intros Hp [? ? Hl ? ? Hq]. pose proof (pub_state _ _ _ _ Hp) as Hs.
  split; rewrite ?Hs; try done. intros k Hk. rewrite <- Hq by done. f_equal.
  apply slot_queue_agree. rewrite Hl. eapply agree_sub; [apply (pub_queue _ _ _ _ Hp)|lia|lia].
Qed.

(** The heap after the message of type [t] was sent for [service]. *)
Definition sent_heap (service : option nat) (t : MessageType) (h : list Service) : list Service :=
  match service with
  | Some l => if decide (t = CLOSE) then alter (set_state ServiceState.CLOSESENT) l h else h
  | None => h
  end.

Lemma publish_Ret a w service t :
  tx_area a w -> area_ok a -> 0 <= local_tx_pos (slot_state (w_state w)) < 2 ^ 32 ->
  (forall l, service = Some l -> t = CLOSE -> is_Some (w_heap w !! l)) ->
  exists w', publish service t w = Ret (tt, w') /\
    published (area_base a) (local_tx_pos (slot_state (w_state w))) w w' /\
    w_heap w' = sent_heap service t (w_heap w).
Proof.
  intros Ha Hok Htx Hsrv. unfold publish, get_slot. rewrite bind_gets.
  set (sz := slot_zero (slot_state (w_state w))). rewrite u32_small by done.
  set (tx := local_tx_pos (slot_state (w_state w))) in *.
  set (w1 := w <| w_hw ::= fun hw => hw <| hw_mem ::= set_tx_pos (local sz) tx |> |>).
  set (h := sent_heap service t (w_heap w)).
  erewrite bind_Ret with (s' := w1) by reflexivity.
  erewrite bind_Ret with (a := tt) (s' := w1 <| w_heap := h |>).
  2: { unfold h, sent_heap. destruct service as [l|]; [destruct (decide (t = CLOSE)) as [Et|]|].
       - destruct (Hsrv l eq_refl Et) as [s Hs].
         rewrite (upd_service_Ret l _ w1 s Hs). unfold with_service. do 2 f_equal.
         unfold w1. destruct w. cbn in Hs |- *. f_equal. apply list_eq. intros i.
         destruct (decide (i = l)) as [->|].
         + by rewrite list_lookup_insert_eq, list_lookup_alter_eq, Hs by by eapply lookup_lt_Some.
         + by rewrite list_lookup_insert_ne, list_lookup_alter_ne.
       - unfold w1. by destruct w.
       - unfold w1. by destruct w. }
  pose proof (tx_local _ _ Ha) as Hl. pose proof (tx_trigger _ _ Ha) as Ht. fold sz in Hl, Ht.
  set (m := hw_mem (w_hw w)).
  assert (forall b n, b + n <= area_base a + 432 \/ area_base a + 436 <= b ->
    agree (set_tx_pos (local sz) tx m) m b n) as A1.
  { intros b n Hb. unfold set_tx_pos, volatile_setter_u32. layout_simpl. rewrite Hl.
    apply write_uint_agree. lia. }
  assert (forall m b n, b + n <= area_base a + 52 \/ area_base a + 56 <= b ->
    agree (set_fired (trigger (remote sz)) 1 m) m b n) as A2.
  { intros m' b n Hb. unfold set_fired, volatile_setter_u32. layout_simpl. rewrite Ht.
    apply write_uint_agree. lia. }
  pose proof Hok as (Hbase & _).
  set (hw' := signal_remote (trigger (remote sz)) (w_hw w1)).
  assert (hw_mem hw' = set_fired (trigger (remote sz)) 1 (set_tx_pos (local sz) tx m)) as Hm.
  { unfold hw', signal_remote, ring_if_armed. destruct (armed (trigger _) _ =? 0); reflexivity. }
  exists (w1 <| w_heap := h |> <| w_hw := hw' |>). split; [reflexivity|]. split; [|done].
  split; change (w_state (w1 <| w_heap := h |> <| w_hw := hw' |>)) with (w_state w);
    change (w_hw (w1 <| w_heap := h |> <| w_hw := hw' |>)) with hw'; rewrite ?Hm; fold m sz.
  - intros x Hx1 Hx2. transitivity (set_tx_pos (local sz) tx m x);
      [apply (A2 _ x 1)|apply (A1 x 1)]; lia.
  - unfold tx_pos, volatile_getter_u32. layout_simpl. rewrite Hl.
    etransitivity; [apply (read_uint_agree 4), A2; lia|].
    unfold set_tx_pos, volatile_setter_u32. layout_simpl. rewrite Hl. by apply read_write_u32.
  - apply fired_set_fired. unfold is_u32. lia.
  - set (m2 := set_fired (trigger (remote sz)) 1 (set_tx_pos (local sz) tx m)) in *.
    assert (armed (trigger (remote sz)) m2 = armed (trigger (remote sz)) m) as <-.
    { unfold m2. rewrite armed_set_fired. unfold armed, volatile_getter_u32. layout_simpl. rewrite Ht.
      apply (read_uint_agree 4), A1. lia. }
    unfold hw', signal_remote, ring_if_armed, fire.
    change (hw_mem ((w_hw w1) <| hw_mem ::= set_fired (trigger (remote sz)) 1 |>)) with m2.
    destruct (armed _ m2 =? 0); reflexivity.
  - done.
  - done.
Qed.

(** The bookkeeping of quotas: only DATA messages count. *)
Definition sent_quota (service : option nat) (t : MessageType) (tx_end : Z) (w : World C) : QuotaState :=
  match service with
  | Some l =>
      match w_heap w !! l with
      | Some s =>
          if decide (t = DATA) then account_data tx_end (Z.to_nat (localport s)) (quota_state (w_state w))
          else quota_state (w_state w)
      | None => quota_state (w_state w)
      end
  | None => quota_state (w_state w)
  end.

Definition with_quota (w : World C) (q : QuotaState) : World C :=
  w <| w_state ::= fun s => s <| quota_state := q |> |>.

Lemma with_same_quota w : with_quota w (quota_state (w_state w)) = w.
Proof. by destruct w as [[] ? ? ? ?]. Qed.

Lemma sent_quota_other service t tx_end w :
  t <> DATA -> sent_quota service t tx_end w = quota_state (w_state w).
Proof. intros Ht. unfold sent_quota. destruct service; [|done]. case_match; [|done]. by rewrite decide_False. Qed.

(** Whether a message may be sent: DATA messages need a service with a quota entry. *)
Definition may_send (fuel : nat) (service : option nat) (t : MessageType) (stride : Z) (w : World C) : Prop :=
  (if decide (t = DATA) then check_data_message fuel service stride else ret (Ok tt)) w = Ret (Ok tt, w) /\
  (t = DATA -> exists l s, service = Some l /\ w_heap w !! l = Some s /\
     is_Some (service_quotas (quota_state (w_state w)) !! Z.to_nat (localport s))) /\
  (forall l, service = Some l -> t = CLOSE -> is_Some (w_heap w !! l)).

Lemma fill_message_Ret service w t id cx tx_end fuel stride m :
  may_send fuel service t stride w -> is_u32 (Z.of_nat (length (data (sent_message id cx)))) -> (cx = None -> data m = []) ->
  fill_message service (w_heap w) t id cx (Z.of_nat (length (data (sent_message id cx)))) tx_end
    (quota_state (w_state w)) m = Ret (sent_message id cx, sent_quota service t tx_end w).
Proof.
  intros (_ & Hd & _) Hf Hm. unfold fill_message.
  assert ((match cx with Some cx => m <| data := cx |> | None => m end) <| header :=
    mkHeader id (u32 (Z.of_nat (length (data (sent_message id cx))))) |> = sent_message id cx) as ->.
  { rewrite u32_small by done. destruct cx as [cx|]; [done|].
    unfold sent_message. rewrite <- (Hm eq_refl). done. }
  destruct (decide (t = DATA)) as [->|Ht]; [|by rewrite sent_quota_other].
  destruct (Hd eq_refl) as (l & s & -> & Hs & [sq Hsq]). unfold sent_quota.
  by rewrite Hs, Hsq, decide_True.
Qed.

(** What [queue_message] does when it succeeds, in full; whether the message fits in a slot is not
    looked at. *)
Lemma queue_message_stored a tx st w fuel service id cx b t :
  area_ok a -> tx_area a w -> tx_at a tx st w ->
  msg_type_from_id id = Ret t ->
  let msg := sent_message id cx in
  let start := alloc_start tx (stride msg) in
  may_send fuel service t (stride msg) w ->
  is_u32 (Z.of_nat (length (data msg)) + 16) -> reservable (stride msg) st ->
  start < area_count a * 4096 ->
  exists w', queue_message fuel service id cx b w = Ret (Ok tt, w') /\
    tx_area a w' /\
    published (area_base a) (start + stride msg)
      (with_quota (tx_write a start msg (reserved a tx (stride msg) st w))
         (sent_quota service t ((start + stride msg - 1) / VCHIQ_SLOT_SIZE) w)) w' /\
    w_heap w' = sent_heap service t (w_heap w).
Proof.
  intros Hok Ha Hat Ht msg start Hsend Hsz Hs Hroom. pose proof Hs as [Hs0 _]. unfold is_u32 in Hsz.
  pose proof Hat as [_ [Hr Hal] _ _]. pose proof Hok as (_ & _ & Hn & _).
  pose proof (alloc_start_bounds tx (stride msg) ltac:(lia) Hal) as [Hst _]. fold start in Hst.
  set (w1 := reserved a tx (stride msg) st w).
  assert (tx_area a w1) as Ha1 by (apply reserved_area; done || lia).
  assert (local_tx_pos (slot_state (w_state w1)) = start + stride msg) as Hpos1 by done.
  set (q' := sent_quota service t _ w).
  set (w2 := with_quota (tx_write a start msg w1) q').
  assert (tx_area a w2) as Ha2.
  { assert (tx_area a (tx_write a start msg w1)) as [] by (apply tx_area_write; done || lia). by split. }
  assert (0 <= local_tx_pos (slot_state (w_state w2)) < 2 ^ 32) as Htx.
  { change (local_tx_pos (slot_state (w_state w2))) with (local_tx_pos (slot_state (w_state w1))).
    rewrite Hpos1. lia. }
  destruct (publish_Ret a w2 service t Ha2 Hok Htx (proj2 (proj2 Hsend))) as (w3 & E3 & Hp & Hh).
  change (local_tx_pos (slot_state (w_state w2))) with (start + stride msg) in Hp.
  exists w3. split; [|split; [|split]]; try done.
  - unfold queue_message. erewrite bind_Ret by (unfold lift; rewrite Ht; reflexivity). cbv zeta.
    assert (match cx with Some cx => Z.of_nat (length cx) | None => 0 end =
            Z.of_nat (length (data msg))) as -> by by destruct cx.
    change (calc_msg_stride (Z.of_nat (length (data msg)))) with (stride msg).
    erewrite bind_try_Ok by apply Hsend. unfold queue_message_rest. cbv zeta.
    assert (match cx with Some cx => Z.of_nat (length cx) | None => 0 end =
            Z.of_nat (length (data msg))) as -> by by destruct cx.
    change (calc_msg_stride (Z.of_nat (length (data msg)))) with (stride msg).
    erewrite bind_try_Ok by (eapply reserve_space_Ok; done || lia). fold start w1.
    unfold get_slot. rewrite !bind_gets.
    assert (isize (slot_queue_index_from_pos (usize_sub (local_tx_pos (slot_state (w_state w1))) 1))
            = (start + stride msg - 1) / VCHIQ_SLOT_SIZE) as ->.
    { rewrite Hpos1, usize_sub_small by lia. unfold slot_queue_index_from_pos.
      change VCHIQ_SLOT_SIZE with 4096. apply isize_small. zdiv. }
    erewrite bind_Ret.
    2: { eapply (store_Ret _ _ _ w1 q' msg).
         - apply position_ok_area; done || lia.
         - change (w_heap w1) with (w_heap w).
           change (quota_state (w_state w1)) with (quota_state (w_state w)).
           eapply fill_message_Ret; [exact Hsend|unfold is_u32; fold msg; lia|]. intros ->. done. }
    assert (message_ptr (slot_data (slot_state (w_state w1))) (area_pos a start) = area_addr a start) as ->
      by by apply area_pos_ptr, (tx_slots _ _ Ha1).
    erewrite bind_Ret by exact E3. done.
  - by eapply published_area.
Qed.

(** For messages that fit in a slot, the transmit side is again as it should be. *)
Lemma queue_message_Ret a tx st w fuel service id cx b t :
  area_ok a -> tx_area a w -> tx_at a tx st w ->
  msg_type_from_id id = Ret t ->
  let msg := sent_message id cx in
  let start := alloc_start tx (stride msg) in
  may_send fuel service t (stride msg) w ->
  fits msg -> start < area_count a * 4096 ->
  exists w', queue_message fuel service id cx b w = Ret (Ok tt, w') /\
    tx_area a w' /\ tx_at a (start + stride msg) (Some start) w' /\
    published (area_base a) (start + stride msg)
      (with_quota (tx_write a start msg (reserved a tx (stride msg) st w))
         (sent_quota service t ((start + stride msg - 1) / VCHIQ_SLOT_SIZE) w)) w' /\
    w_heap w' = sent_heap service t (w_heap w).
Proof.
  intros Hok Ha Hat Ht msg start Hsend Hfits Hroom. pose proof (stride_bounds _ Hfits) as [Hs Hs8].
  assert (0 < stride msg <= 4096) as Hb by lia.
  destruct (queue_message_stored a tx st w fuel service id cx b t) as (w' & E & Ha' & Hp & Hh);
    try done; [fold msg; unfold is_u32; lia|by apply slot_reservable|].
  exists w'. split_and!; try done.
  destruct (reserved_at a tx st w (stride msg)) as [? ? ? ?]; try done.
  pose proof (pub_state _ _ _ _ Hp) as Hs3. split; rewrite ?Hs3; done.
Qed.


(** ** The stream the VideoCore reads *)

Definition last_start (msgs : list SlotMessage) : option Z :=
  match msgs with
  | [] => None
  | _ => Some (stream_len (removelast msgs))
  end.

Lemma last_start_snoc msgs msg : last_start (msgs ++ [msg]) = Some (stream_len msgs).
Proof. unfold last_start. rewrite removelast_last. by destruct msgs. Qed.

(** The messages sent so far are in memory one after the other, from the first slot of this side
    on, and the state of the transmit side is at their end. *)
Record tx_stream (a : Area) (msgs : list SlotMessage) (w : World C) : Prop := {
  stream_ok : area_ok a;
  stream_area : tx_area a w;
  stream_pos : tx_at a (stream_len msgs) (last_start msgs) w;
  stream_fits : Forall fits msgs;
  stream_mem : stream_at (hw_mem (w_hw w)) (area_addr a 0) msgs;
}.

Lemma stream_len_snoc msgs msg : stream_len (msgs ++ [msg]) = stream_len msgs + stride msg.
Proof. rewrite stream_len_app. cbn. lia. Qed.

Lemma area_addr_add a p : area_addr a p = area_addr a 0 + p.
Proof. unfold area_addr. lia. Qed.

Lemma may_send_control fuel t n w : t <> DATA -> may_send fuel None t n w.
Proof. intros Ht. split; [by rewrite decide_False|]. split; [by intros ->|done]. Qed.

(** What the stream depends on. *)
Lemma tx_stream_frame a msgs w w' :
  slot_state (w_state w') = slot_state (w_state w) ->
  slot_queue_available (w_state w') = slot_queue_available (w_state w) -> w_hw w' = w_hw w ->
  tx_stream a msgs w -> tx_stream a msgs w'.
Proof.
  intros Es Ea Eh [Hok [H1 H2 H3 H4 H5 H6] [H7 H8 H9 H10] Hf Hm].
  split; [done|split|split|done|]; rewrite ?Es, ?Ea, ?Eh; try done.
Qed.
Lemma with_new_service_tx a msgs params w :
  tx_stream a msgs w -> tx_stream a msgs (with_new_service params w).
Proof. by apply tx_stream_frame. Qed.
Lemma with_service_tx a msgs l s w : tx_stream a msgs w -> tx_stream a msgs (with_service w l s).
Proof. by apply tx_stream_frame. Qed.
Lemma client_frame_tx a msgs w w' : client_frame w w' -> tx_stream a msgs w -> tx_stream a msgs w'.
Proof. intros [Hs _ Hh _]. apply tx_stream_frame; by rewrite ?Hs, ?Hh. Qed.

(** What concerns the connection, and the client. *)
Record same_conn (w w' : World C) : Prop := {
  same_client : w_client w' = w_client w;
  same_conn_state : conn_state (w_state w') = conn_state (w_state w);
  same_connect_sem : connect_sem (w_state w') = connect_sem (w_state w);
  same_initialized : State.initialized (w_state w') = State.initialized (w_state w);
}.

(** The message is appended to the stream; this is [queue_message_appends] below and more. *)
Lemma queue_message_stream (a : Area) (msgs : list SlotMessage) (w : World C) (fuel : nat)
    (service : option nat) (id : Z) (cx : option (list Z)) (b : bool) (t : MessageType) :
  tx_stream a msgs w ->
  msg_type_from_id id = Ret t ->
  let msg := sent_message id cx in
  may_send fuel service t (stride msg) w ->
  fits msg -> stride msg <= room (stream_len msgs) -> stream_len msgs < area_count a * 4096 ->
  exists w', queue_message fuel service id cx b w = Ret (Ok tt, w') /\
    tx_stream a (msgs ++ [msg]) w' /\
    tx_pos (local (slot_zero (slot_state (w_state w')))) (hw_mem (w_hw w')) = stream_len (msgs ++ [msg]) /\
    fired (trigger (remote (slot_zero (slot_state (w_state w'))))) (hw_mem (w_hw w')) = 1 /\
    hw_mmio (w_hw w') =
      (if armed (trigger (remote (slot_zero (slot_state (w_state w))))) (hw_mem (w_hw w)) =? 0
       then hw_mmio (w_hw w) else (BELL2, 0) :: hw_mmio (w_hw w)) /\
    w_heap w' = sent_heap service t (w_heap w) /\
    quota_state (w_state w') =
      sent_quota service t ((stream_len (msgs ++ [msg]) - 1) / VCHIQ_SLOT_SIZE) w /\
    same_conn w w'.
Proof.
  intros [Hok Ha Hat Hfs Hmem] Ht msg Hsend Hf Hroom Hlt.
  set (tx := stream_len msgs) in *.
  assert (alloc_start tx (stride msg) = tx) as Hstart
    by (unfold alloc_start; by rewrite (proj2 (Z.ltb_ge _ _)) by done).
  destruct (queue_message_Ret a tx (last_start msgs) w fuel service id cx b t) as (w' & E & Ha' & Hat' & Hp & Hh);
    try done; [by fold msg; rewrite Hstart|].
  fold msg in Hat', Hp. rewrite Hstart in Hat', Hp. set (q' := sent_quota _ _ _ _) in Hp.
  assert (pad a tx (stride msg) (last_start msgs) (hw_mem (w_hw w)) = hw_mem (w_hw w)) as Hpad.
  { unfold pad. rewrite (proj2 (Z.ltb_ge _ _)) by done. by destruct (last_start msgs). }
  assert (hw_mem (w_hw (with_quota (tx_write a tx msg (reserved a tx (stride msg) (last_start msgs) w)) q'))
          = write_message (hw_mem (w_hw w)) (area_addr a tx) msg) as Hm.
  { cbn -[write_message]. by rewrite Hpad. }
  pose proof (stride_bounds _ Hf) as [Hb _]. pose proof (stream_len_nonneg _ Hfs) as Hnn. fold tx in Hnn.
  pose proof Hok as (Hbase & Hfirst & _).
  pose proof (pub_agree _ _ _ _ Hp) as Hag. rewrite Hm in Hag.
  exists w'. split; [done|]. split_and!.
  - split; try done.
    + by rewrite stream_len_snoc, last_start_snoc.
    + apply Forall_app. by split; [|constructor].
    + apply stream_at_app. fold tx. rewrite <- area_addr_add. split; [|split; [|done]].
      * eapply stream_at_agree; [done| |exact Hmem].
        eapply agree_trans; [apply Hag; unfold area_addr; lia|].
        apply write_message_agree. rewrite (area_addr_add a tx). fold tx. lia.
      * eapply message_at_agree; [apply Hag; unfold area_addr; lia|]. apply write_message_at, Hf.
  - rewrite stream_len_snoc. apply (pub_tx_pos _ _ _ _ Hp).
  - apply (pub_fired _ _ _ _ Hp).
  - rewrite (pub_bell _ _ _ _ Hp), Hm, (pub_state _ _ _ _ Hp).
    change (trigger (remote (slot_zero (slot_state (w_state (with_quota (tx_write a tx msg _) q'))))))
      with (trigger (remote (slot_zero (slot_state (w_state w))))).
    set (e := trigger _). assert (armed e (write_message (hw_mem (w_hw w)) (area_addr a tx) msg)
      = armed e (hw_mem (w_hw w))) as ->; [|done].
    unfold armed, volatile_getter_u32. unfold e. rewrite (tx_trigger _ _ Ha). layout_simpl.
    apply (read_uint_agree 4), write_message_control; done || lia.
  - done.
  - rewrite (pub_state _ _ _ _ Hp), stream_len_snoc. done.
  - split; [by rewrite (pub_client _ _ _ _ Hp)|by rewrite (pub_state _ _ _ _ Hp)..].
Qed.

(** C4: [queue_message] appends to the stream of sent messages.  As long as the message fits in the
    rest of the current slot, the call succeeds; the memory then holds the earlier messages,
    unchanged, followed by a message with the given id and payload; the published position is the
    end of the stream; the trigger event is fired, and the doorbell is rung if the VideoCore armed
    it; a service whose CLOSE was sent is in CLOSESENT, and a DATA message is counted against the
    quotas of its service.  For DATA this needs the checks made before ([may_send]) to pass. *)
Theorem queue_message_appends (a : Area) (msgs : list SlotMessage) (w : World C) (fuel : nat)
    (service : option nat) (id : Z) (cx : option (list Z)) (b : bool) (t : MessageType) :
  tx_stream a msgs w ->
  msg_type_from_id id = Ret t ->
  let msg := sent_message id cx in
  may_send fuel service t (stride msg) w ->
  fits msg -> stride msg <= room (stream_len msgs) -> stream_len msgs < area_count a * 4096 ->
  exists w', queue_message fuel service id cx b w = Ret (Ok tt, w') /\
    tx_stream a (msgs ++ [msg]) w' /\
    tx_pos (local (slot_zero (slot_state (w_state w')))) (hw_mem (w_hw w')) = stream_len (msgs ++ [msg]) /\
    fired (trigger (remote (slot_zero (slot_state (w_state w'))))) (hw_mem (w_hw w')) = 1 /\
    hw_mmio (w_hw w') =
      (if armed (trigger (remote (slot_zero (slot_state (w_state w))))) (hw_mem (w_hw w)) =? 0
       then hw_mmio (w_hw w) else (BELL2, 0) :: hw_mmio (w_hw w)) /\
    w_heap w' = sent_heap service t (w_heap w) /\
    quota_state (w_state w') =
      sent_quota service t ((stream_len (msgs ++ [msg]) - 1) / VCHIQ_SLOT_SIZE) w.
Proof.
  intros Hs Ht msg Hsend Hf Hroom Hlt.
  destruct (queue_message_stream a msgs w fuel service id cx b t Hs Ht Hsend Hf Hroom Hlt)
    as (w' & ? & ? & ? & ? & ? & ? & ? & _).
  exists w'. split_and!; done.
Qed.

(** C30: when a message does not fit in the rest of the slot, the message sent before it is destroyed.
    Let something have been sent already, and let a message of any type - for a service or not, for
    DATA with quota left - not fit in the rest of the current slot, while another slot is left.  The
    code means to fill the rest with a padding message, but writes the padding header over the
    header of the last message sent; the place where the padding belongs keeps the bytes it had.
    The new message itself is stored at the start of the next slot, and the call succeeds. *)
Theorem padding_destroys_last_message (a : Area) (msgs : list SlotMessage) (last : SlotMessage)
    (w : World C) (fuel : nat) (service : option nat) (id : Z) (cx : option (list Z)) (b : bool) (t : MessageType) :
  tx_stream a (msgs ++ [last]) w ->
  msg_type_from_id id = Ret t ->
  let msg := sent_message id cx in
  let tx := stream_len (msgs ++ [last]) in
  may_send fuel service t (stride msg) w ->
  fits msg -> room tx < stride msg -> tx + room tx < area_count a * 4096 ->
  exists w', queue_message fuel service id cx b w = Ret (Ok tt, w') /\
    read_header (hw_mem (w_hw w')) (area_addr a (stream_len msgs)) =
      mkHeader VCHIQ_MSGID_PADDING (room tx - 8) /\
    (msgid (header last) <> VCHIQ_MSGID_PADDING ->
       ~ message_at (hw_mem (w_hw w')) (area_addr a (stream_len msgs)) last) /\
    agree (hw_mem (w_hw w')) (hw_mem (w_hw w)) (area_addr a tx) (room tx) /\
    message_at (hw_mem (w_hw w')) (area_addr a (tx + room tx)) msg.
Proof.
  intros [Hok Ha Hat Hfs Hmem] Ht msg tx Hsend Hf Hroom Hlt. rewrite last_start_snoc in Hat. fold tx in Hat.
  assert (alloc_start tx (stride msg) = tx + room tx) as Hstart
    by (unfold alloc_start; by rewrite (proj2 (Z.ltb_lt _ _)) by done).
  apply Forall_app in Hfs as [Hfs Hfl]. apply Forall_cons_1 in Hfl as [Hfl _].
  pose proof (stream_len_nonneg _ Hfs) as Hnn. pose proof (stride_bounds _ Hfl) as [Hbl _].
  assert (tx = stream_len msgs + stride last) as Etx by apply stream_len_snoc.
  set (st := stream_len msgs) in *.
  destruct (queue_message_Ret a tx (Some st) w fuel service id cx b t) as (w' & E & _ & _ & Hp & _);
    try done; [by fold msg; rewrite Hstart|].
  fold msg in Hp. rewrite Hstart in Hp. set (q' := sent_quota _ _ _ _) in Hp.
  pose proof (stride_bounds _ Hf) as [Hb _]. pose proof (room_aligned tx) as Hr8.
  pose proof (at_range _ _ _ _ Hat) as [_ Hal]. specialize (Hr8 ltac:(lia) Hal) as [Hr8 _].
  pose proof (room_bounds tx ltac:(lia)) as Hrb. pose proof Hok as (Hbase & Hfirst & _).
  assert (hw_mem (w_hw (with_quota (tx_write a (tx + room tx) msg (reserved a tx (stride msg) (Some st) w)) q'))
          = write_message (write_message (hw_mem (w_hw w)) (area_addr a st) (padding (room tx - 8)))
              (area_addr a (tx + room tx)) msg) as Hm.
  { cbn -[write_message]. by rewrite (proj2 (Z.ltb_lt _ _)) by done. }
  pose proof (pub_agree _ _ _ _ Hp) as Hag. rewrite Hm in Hag.
  set (pd := padding (room tx - 8)) in *. change VCHIQ_MSGID_PADDING with 0 in *.
  assert (read_header (hw_mem (w_hw w')) (area_addr a st) = mkHeader 0 (room tx - 8)) as Hh.
  { rewrite (read_header_agree _ _ _ (Hag (area_addr a st) 8 ltac:(unfold area_addr; lia))).
    rewrite read_header_agree with (m := write_message (hw_mem (w_hw w)) (area_addr a st) pd)
      by (apply write_message_agree; left; unfold area_addr; lia).
    apply read_header_write; unfold is_u32;
      [change (msgid (header pd)) with 0|change (msg_size (header pd)) with (room tx - 8)]; lia. }
  exists w'. split; [done|]. split_and!.
  - exact Hh.
  - intros Hid [H1 _]. rewrite Hh in H1. rewrite <- H1 in Hid. done.
  - eapply agree_trans; [apply Hag; unfold area_addr; lia|].
    eapply agree_trans; apply write_message_agree; unfold area_addr, pd; cbn [length data padding]; lia.
  - eapply message_at_agree; [apply Hag; unfold area_addr; lia|]. apply write_message_at, Hf.
Qed.

(** ** The checks of DATA messages *)

(** The slot in which a message of [stride] bytes would end. *)
Definition end_slot (w : World C) (stride : Z) : Z := tx_end_index (slot_state (w_state w)) stride.

(** The share of all data messages is used up, or that of one service. *)
Definition data_exhausted (w : World C) (stride : Z) : Prop :=
  end_slot w stride <> previous_data_index (quota_state (w_state w)) /\
  data_use_count (quota_state (w_state w)) = data_quota (quota_state (w_state w)).
Definition service_exhausted (w : World C) (sq : ServiceQuota) (stride : Z) : Prop :=
  message_use_count sq = message_quota sq \/
  (end_slot w stride <> previous_tx_index sq /\ slot_use_count sq = slot_quota sq).

#[export] Instance data_exhausted_dec w stride : Decision (data_exhausted w stride).
Proof. unfold data_exhausted. apply _. Defined.
#[export] Instance service_exhausted_dec w sq stride : Decision (service_exhausted w sq stride).
Proof. unfold service_exhausted. apply _. Defined.

Lemma data_exhausted_true w stride :
  data_exhausted w stride <->
  negb (end_slot w stride =? previous_data_index (quota_state (w_state w)))
    && (data_use_count (quota_state (w_state w)) =? data_quota (quota_state (w_state w))) = true.
Proof. unfold data_exhausted. rewrite andb_true_iff, negb_true_iff, Z.eqb_neq, Z.eqb_eq. done. Qed.

Lemma service_exhausted_true w sq stride :
  service_exhausted w sq stride <->
  (message_use_count sq =? message_quota sq)
    || (negb (end_slot w stride =? previous_tx_index sq) && (slot_use_count sq =? slot_quota sq)) = true.
Proof.
  unfold service_exhausted. rewrite orb_true_iff, andb_true_iff, negb_true_iff, Z.eqb_neq, !Z.eqb_eq. done.
Qed.

(** A service at a port with its quota. *)
Record sender (w : World C) (l : nat) (s : Service) (sq : ServiceQuota) : Prop := {
  sender_service : w_heap w !! l = Some s;
  sender_quota : service_quotas (quota_state (w_state w)) !! Z.to_nat (localport s) = Some sq;
}.

Lemma wait_data_quota_free fuel w stride :
  ~ data_exhausted w stride -> wait_data_quota fuel stride (end_slot w stride) w = Ret (end_slot w stride, w).
Proof.
  intros Hn. rewrite data_exhausted_true in Hn. apply not_true_is_false in Hn.
  destruct fuel; cbn [wait_data_quota]; unfold get_quota; rewrite bind_gets, Hn; done.
Qed.

Lemma wait_service_quota_free fuel w l s sq stride :
  sender w l s sq -> ~ service_exhausted w sq stride ->
  wait_service_quota fuel l stride (end_slot w stride) w = Ret (Ok tt, w).
Proof.
  intros [Hs Hq] Hn. rewrite service_exhausted_true in Hn. apply not_true_is_false in Hn.
  destruct fuel; cbn [wait_service_quota]; (erewrite bind_Ret by by apply get_service_Ret);
    unfold get_quota; rewrite bind_gets, Hq; cbn [unwrap]; rewrite bind_ret_l, Hn; done.
Qed.

Lemma check_data_message_sender fuel l s sq stride w :
  sender w l s sq -> closing s = false ->
  check_data_message fuel (Some l) stride w =
    bind (wait_data_quota fuel stride (end_slot w stride))
         (fun tx_end => wait_service_quota fuel l stride tx_end) w.
Proof.
  intros [Hs Hq] Hc. unfold check_data_message. erewrite bind_Ret by by apply get_service_Ret.
  rewrite Hc. unfold get_quota. rewrite bind_gets, Hq. cbn [unwrap]. rewrite bind_ret_l.
  unfold get_slot. by rewrite bind_gets.
Qed.

(** With quota left a DATA message may be sent at once. *)
Lemma may_send_data fuel l s sq stride w :
  sender w l s sq -> closing s = false -> ~ data_exhausted w stride -> ~ service_exhausted w sq stride ->
  may_send fuel (Some l) DATA stride w.
Proof.
  intros Hsd Hc Hd Hq. split; [|split].
  - rewrite decide_True by done. erewrite check_data_message_sender by done.
    erewrite bind_Ret by by apply wait_data_quota_free. by eapply wait_service_quota_free.
  - intros _. exists l, s. split; [done|]. split; [apply Hsd|]. exists sq. apply Hsd.
  - done.
Qed.

Context {LL : LockLaws L}.

(** Waiting for the share of all data messages never ends: the counts it waits for are those the
    waiting call itself keeps locked. *)
Lemma wait_data_quota_blocks stride : forall fuel w,
  data_exhausted w stride -> permits (data_quota_event (w_state w)) < Z.of_nat fuel ->
  wait_data_quota fuel stride (end_slot w stride) w = Blocked.
Proof.
  induction fuel as [|fuel IH]; intros w Hex Hf.
  { pose proof (permits_nonneg (data_quota_event (w_state w))). lia. }
  cbn [wait_data_quota]. unfold get_quota. rewrite bind_gets, (proj1 (data_exhausted_true _ _) Hex), bind_gets.
  unfold down. destruct (sem_try_down _) as [e|] eqn:E; [|done].
  apply try_down_is_Some in E as [Hpos He]. rewrite bind_ret_l.
  unfold upd_state. rewrite bind_modify.
  set (w1 := w <| w_state ::= fun s => s <| data_quota_event := e |> |>).
  unfold get_slot. rewrite bind_gets. change (tx_end_index _ stride) with (end_slot w1 stride).
  destruct Hex as [Hne Heq].
  assert (data_exhausted w1 stride) as Hex1 by by split.
  change (end_slot w1 stride) with (end_slot w stride).
  rewrite (proj2 (Z.eqb_neq _ _)), (proj2 (Z.ltb_ge _ _)) by (done || lia). cbn [orb].
  apply (IH w1 Hex1). cbn. lia.
Qed.

(** Waiting for the quota of a service ends only with an error, when the service is not open. *)
Lemma wait_service_quota_blocks stride l : forall fuel w s sq,
  sender w l s sq -> service_exhausted w sq stride -> permits (quota_event sq) < Z.of_nat fuel ->
  closing s = false ->
  wait_service_quota fuel l stride (end_slot w stride) w = Blocked \/
  exists w', wait_service_quota fuel l stride (end_slot w stride) w =
    Ret (Err (EVchiq (ServiceAlreadyClosed (handle s))), w') /\ srvstate s <> ServiceState.OPEN.
Proof.
  induction fuel as [|fuel IH]; intros w s sq [Hs Hq] Hex Hf Hc.
  { pose proof (permits_nonneg (quota_event sq)). lia. }
  cbn [wait_service_quota]. erewrite bind_Ret by by apply get_service_Ret.
  unfold get_quota. rewrite bind_gets, Hq. cbn [unwrap]. rewrite bind_ret_l.
  rewrite (proj1 (service_exhausted_true _ _ _) Hex). unfold down.
  destruct (sem_try_down _) as [e|] eqn:E; [|by left].
  apply try_down_is_Some in E as [Hpos He]. rewrite bind_ret_l.
  unfold upd_service_quota, upd_quota, upd_state. rewrite bind_modify. rewrite Hc.
  set (w1 := w <| w_state ::= _ |>).
  destruct (bool_decide (srvstate s = ServiceState.OPEN)) eqn:Ho; cbn [negb].
  - unfold get_slot. rewrite bind_gets. change (tx_end_index _ stride) with (end_slot w1 stride).
    apply IH with (sq := sq <| quota_event := e |>); try done.
    + split; [done|]. cbn -[alter list_alter]. by rewrite list_lookup_alter_eq, Hq.
    + cbn. lia.
  - right. exists w1. split; [done|]. by apply bool_decide_eq_false in Ho.
Qed.

(** The outcome of the checks decides that of [queue_message]. *)
Lemma queue_data_check fuel service id cx b w :
  msg_type_from_id id = Ret DATA ->
  queue_message fuel service id cx b w =
    bind_try (check_data_message fuel service (stride (sent_message id cx)))
      (fun _ => queue_message_rest service DATA id cx b) w.
Proof.
  intros Ht. unfold queue_message. erewrite bind_Ret by (unfold lift; rewrite Ht; reflexivity).
  cbv zeta. rewrite decide_True by done. by destruct cx.
Qed.

(** DATA messages are refused without a service, and for a service that is being closed; the
    caller gets the error, nothing is written and no position moves. *)
Lemma data_message_refused (w : World C) (fuel : nat) (id : Z) (cx : option (list Z)) (b : bool) :
  msg_type_from_id id = Ret DATA ->
  queue_message fuel None id cx b w = Ret (Err (EVchiq DataMessageWithoutService), w) /\
  (forall l s, w_heap w !! l = Some s -> closing s = true ->
     queue_message fuel (Some l) id cx b w = Ret (Err (EVchiq (ServiceAlreadyClosed (handle s))), w)).
Proof.
  intros Ht. split; [by rewrite queue_data_check|]. intros l s Hs Hc.
  rewrite queue_data_check by done. eapply bind_try_Err. unfold check_data_message.
  erewrite bind_Ret by by apply get_service_Ret. by rewrite Hc.
Qed.

(** C29: a sender that is over quota blocks for good.  When data messages have used up their share of
    the slots, or an open service has used up its own, [queue_message] for a DATA message never
    returns, whatever permits the events have: the loops wait for counts that nothing decreases and
    that cannot change while the caller holds them. *)
Theorem data_quota_blocks (w : World C) (fuel : nat) (l : nat) (s : Service) (sq : ServiceQuota)
    (id : Z) (cx : option (list Z)) (b : bool) :
  msg_type_from_id id = Ret DATA -> sender w l s sq ->
  closing s = false -> srvstate s = ServiceState.OPEN ->
  let n := stride (sent_message id cx) in
  data_exhausted w n \/ service_exhausted w sq n ->
  permits (data_quota_event (w_state w)) < Z.of_nat fuel -> permits (quota_event sq) < Z.of_nat fuel ->
  queue_message fuel (Some l) id cx b w = Blocked.
Proof.
  intros Ht Hsd Hc Ho n Hex Hf1 Hf2. rewrite queue_data_check by done.
  unfold bind_try, bind. erewrite check_data_message_sender by done. fold n.
  destruct (decide (data_exhausted w n)) as [Hd|Hd].
  - unfold bind. by rewrite (wait_data_quota_blocks n fuel w Hd Hf1).
  - unfold bind. rewrite wait_data_quota_free by done.
    destruct (wait_service_quota_blocks n l fuel w s sq) as [->|(w' & _ & ?)]; try done. tauto.
Qed.

(** A message for which there is no space ends in the panic of [reserve_space]. *)
Lemma queue_message_no_space w fuel service id cx b t p :
  msg_type_from_id id = Ret t -> may_send fuel service t (stride (sent_message id cx)) w ->
  reserve_space (stride (sent_message id cx)) b w = Panic p ->
  queue_message fuel service id cx b w = Panic p.
Proof.
  intros Ht [Hc _] Hr. unfold queue_message. erewrite bind_Ret by (unfold lift; rewrite Ht; reflexivity). cbv zeta.
  assert (calc_msg_stride (match cx with Some cx => Z.of_nat (length cx) | None => 0 end) = stride (sent_message id cx))
    as -> by by destruct cx.
  erewrite bind_try_Ok by apply Hc. unfold queue_message_rest. cbv zeta.
  assert (calc_msg_stride (match cx with Some cx => Z.of_nat (length cx) | None => 0 end) = stride (sent_message id cx))
    as -> by by destruct cx.
  unfold bind_try, bind at 1. by rewrite Hr.
Qed.

(** Padding needs a message to be written over. *)
Lemma reserve_space_first w stride b :
  local_tx_pos (slot_state (w_state w)) = 0 -> tx_data (slot_state (w_state w)) = None -> 4096 < stride ->
  reserve_space stride b w = Panic PUnwrap.
Proof.
  intros Hp Hd Hs. unfold reserve_space, get_slot. rewrite bind_gets, Hp, Hd. cbv zeta.
  change (usize_sub VCHIQ_SLOT_SIZE (Z.land 0 VCHIQ_SLOT_MASK)) with 4096. by rewrite (proj2 (Z.ltb_lt _ _)).
Qed.

(** A message that is too long for a slot, behind others and with a slot left. *)
Lemma oversized_message_stored a msgs w fuel service id d b t :
  tx_stream a msgs w -> msgs <> [] -> msg_type_from_id id = Ret t ->
  let msg := sent_message id (Some d) in
  let start := stream_len msgs + room (stream_len msgs) in
  may_send fuel service t (stride msg) w -> is_u32 id ->
  4088 < Z.of_nat (length d) < 2 ^ 31 - 16 -> start < area_count a * 4096 ->
  exists w', queue_message fuel service id (Some d) b w = Ret (Ok tt, w') /\
    start mod 4096 = 0 /\
    message_at (hw_mem (w_hw w')) (area_addr a start) msg /\
    read_bytes (hw_mem (w_hw w')) (area_addr a (start + 4096)) (length d - 4088) = drop 4088 d /\
    tx_pos (local (slot_zero (slot_state (w_state w')))) (hw_mem (w_hw w')) = start + stride msg.
Proof.
  intros [Hok Ha Hat Hfs Hmem] Hne Ht msg start Hsend Hid Hd Hlt.
  pose proof Hat as [_ [Hr Hal] _ _]. pose proof Hok as (Hbase & Hfirst & Hn & _).
  assert (stride msg = Z.of_nat (length d) + 15 - (Z.of_nat (length d) + 15) mod 8) as Hst
    by (unfold stride; cbn [msg sent_message data]; by rewrite calc_msg_stride_val by lia).
  assert (4096 < stride msg < 2 ^ 31) as Hsb by zdiv.
  pose proof (room_bounds (stream_len msgs) ltac:(lia)) as Hrb.
  assert (alloc_start (stream_len msgs) (stride msg) = start) as Hstart
    by (unfold alloc_start; by rewrite (proj2 (Z.ltb_lt _ _)) by lia).
  assert (is_Some (last_start msgs)) as Hls by (destruct msgs; [done|by eexists]).
  destruct (queue_message_stored a (stream_len msgs) (last_start msgs) w fuel service id (Some d) b t)
    as (w' & E & _ & Hp & _); try done.
  - unfold is_u32. cbn [sent_message data]. lia.
  - split; [fold msg; lia|by right].
  - by fold msg; rewrite Hstart.
  - fold msg in Hp. rewrite Hstart in Hp. set (q' := sent_quota _ _ _ _) in Hp.
    set (w1 := tx_write a start msg _) in Hp.
    assert (message_at (hw_mem (w_hw w')) (area_addr a start) msg) as Hm.
    { apply (message_at_agree (hw_mem (w_hw w1))).
      - apply (pub_agree _ _ _ _ Hp). unfold area_addr. lia.
      - apply write_message_at. split; [done|]. split; [|done]. unfold is_u32. cbn [msg sent_message header msg_size]. lia. }
    exists w'. split_and!; [done|apply room_end; lia|done| |exact (pub_tx_pos _ _ _ _ Hp)].
    destruct Hm as [_ Hdata]. cbn [msg sent_message data] in Hdata. rewrite <- Hdata at 2.
    rewrite drop_read_bytes by lia. f_equal. unfold area_addr. lia.
Qed.

(** C31: a message that is too long for a slot is stored across the end of its slot.  No size is checked.
    Let a payload of more than 4088 bytes be sent, of any type that may be sent now: for DATA this
    needs quota.  If something was sent before and a slot is left behind the current one,
    [queue_message] succeeds, and what does not fit in the slot it reserved lies at the start of the
    next slot - of this side or, behind the last one, of somebody else; the published position is
    behind all of it.  As the first message it panics instead, on the unwrap of the position that the
    padding would be written to; and when the current slot is the last one, on the assertion. *)
Theorem oversized_message_overruns (a : Area) (msgs : list SlotMessage) (w : World C) (fuel : nat)
    (service : option nat) (id : Z) (d : list Z) (b : bool) (t : MessageType) :
  tx_stream a msgs w -> msg_type_from_id id = Ret t ->
  let msg := sent_message id (Some d) in
  let start := stream_len msgs + room (stream_len msgs) in
  may_send fuel service t (stride msg) w -> is_u32 id ->
  4088 < Z.of_nat (length d) < 2 ^ 31 - 16 ->
  (msgs <> [] -> start < area_count a * 4096 ->
   exists w', queue_message fuel service id (Some d) b w = Ret (Ok tt, w') /\
     start mod 4096 = 0 /\
     message_at (hw_mem (w_hw w')) (area_addr a start) msg /\
     read_bytes (hw_mem (w_hw w')) (area_addr a (start + 4096)) (length d - 4088) = drop 4088 d /\
     tx_pos (local (slot_zero (slot_state (w_state w')))) (hw_mem (w_hw w')) = start + stride msg) /\
  (msgs = [] -> queue_message fuel service id (Some d) b w = Panic PUnwrap) /\
  (msgs <> [] -> start = area_count a * 4096 -> queue_message fuel service id (Some d) b w = Panic PAssert).
Proof.
  intros Hs Ht msg start Hsend Hid Hd. pose proof Hs as [Hok Ha Hat _ _].
  assert (4096 < stride msg < 2 ^ 31) as Hsb
    by (unfold stride; cbn [msg sent_message data]; rewrite calc_msg_stride_val by lia; zdiv).
  split_and!.
  - intros Hne. by apply (oversized_message_stored a msgs w fuel service id d b t).
  - intros ->. apply (queue_message_no_space _ _ _ _ _ _ t); [done..|].
    apply reserve_space_first; [apply (at_pos _ _ _ _ Hat)|apply (at_data _ _ _ _ Hat)|apply Hsb].
  - intros Hne Hfull. apply (queue_message_no_space _ _ _ _ _ _ t); [done..|].
    pose proof Hat as [_ [Hr _] _ _]. pose proof (room_bounds (stream_len msgs) ltac:(lia)).
    eapply reserve_space_full; [done..| |].
    + split; [fold msg; lia|right]. by destruct msgs; [|eexists].
    + unfold alloc_start. by rewrite (proj2 (Z.ltb_lt _ _)) by (fold msg; lia).
Qed.
End transmit.
