(* ===== verification/Capacity.v ===== *)
(** How much a service can send in its life.  Quotas are counted in slots and nothing ever lowers a
    count ([src/vchiq/state.rs], [queue_message]): here is what that comes to for a series of DATA
    messages of one service. *)

From S2P Require Import Prelude Locks Memory Layout Types SlotMessage Event SlotZero Slot Service.
From S2P Require Import State SlotHandler Registry Stream Transmit.

Section capacity.
Context {L : LockLib} {LL : LockLaws L} {CB : Callbacks} {C : Type}.
Implicit Types w : World C.

(** The DATA messages with id [id] and the payloads [ds], one [queue_message] after the other. *)
Fixpoint send_all (fuel l : nat) (id : Z) (ds : list (list Z)) : M (World C) (VchiqResult unit) :=
  match ds with
  | [] => ret (Ok tt)
  | d :: ds =>
      let? _ := queue_message fuel (Some l) id (Some d) false in
      send_all fuel l id ds
  end.

Definition sent_data (id : Z) (ds : list (list Z)) : list SlotMessage :=
  map (fun d => sent_message id (Some d)) ds.

(** From position [p] on each message lies in the rest of the slot it begins in. *)
Fixpoint placed (p : Z) (msgs : list SlotMessage) : Prop :=
  match msgs with
  | [] => True
  | msg :: msgs => fits msg /\ stride msg <= room p /\ placed (p + stride msg) msgs
  end.

(** The service at port [localport s] has been given [N] slots from slot [first] on, and the stream
    has got to position [p]: the slots it has begun are counted, the slot counted last is one that was
    begun, and the service may have all its slots as far as the quota of all services is concerned. *)
Record spending (fuel : nat) (s : Service) (first N p : Z) (w : World C) (sq : ServiceQuota) : Prop := {
  spend_range : 0 <= first <= p / 4096 /\ p <= (first + N) * 4096 /\ N < 2 ^ 31;
  spend_quota : service_quotas (quota_state (w_state w)) !! Z.to_nat (localport s) = Some sq;
  spend_slots : slot_quota sq = N;
  spend_messages : message_use_count sq <> message_quota sq;
  spend_permits : permits (quota_event sq) < Z.of_nat fuel;
  spend_count : slot_use_count sq = p / 4096 - first + (if previous_tx_index sq =? p / 4096 then 1 else 0);
  spend_begun : previous_tx_index sq = p / 4096 ->
    p mod 4096 <> 0 /\ previous_data_index (quota_state (w_state w)) = p / 4096;
  spend_data : 0 <= data_use_count (quota_state (w_state w)) /\
    data_use_count (quota_state (w_state w)) + (N - slot_use_count sq) < data_quota (quota_state (w_state w)) < 2 ^ 63;
}.

Lemma end_slot_fits a msgs w msg :
  tx_stream a msgs w -> fits msg -> stride msg <= room (stream_len msgs) ->
  end_slot w (stride msg) = stream_len msgs / 4096 /\
  (stream_len msgs + stride msg - 1) / 4096 = stream_len msgs / 4096 /\
  0 <= stream_len msgs < 2 ^ 31.
Proof.
  intros Htx Hf Hroom. pose proof (stride_bounds _ Hf) as [Hb _].
  pose proof (stream_pos _ _ _ Htx) as [Hp [Hr _] _ _]. pose proof (stream_ok _ _ _ Htx) as (_ & _ & Hn & _).
  unfold room in Hroom. change VCHIQ_SLOT_SIZE with 4096 in Hroom.
  assert ((stream_len msgs + stride msg - 1) / 4096 = stream_len msgs / 4096) as E by zdiv.
  split; [|split; [done|lia]]. unfold end_slot, tx_end_index, slot_queue_index_from_pos. rewrite Hp.
  rewrite usize_add_small, usize_sub_small by lia. change VCHIQ_SLOT_SIZE with 4096. rewrite E.
  apply isize_small. zdiv.
Qed.

(** The slot a message at [p] is in is counted if it has begun. *)
Lemma spending_free fuel s first N p w sq n :
  spending fuel s first N p w sq -> end_slot w n = p / 4096 -> p < (first + N) * 4096 ->
  ~ data_exhausted w n /\ ~ service_exhausted w sq n.
Proof.
  intros [Hr _ Hn Hm _ Hc Hb Hd] He Hp. unfold data_exhausted, service_exhausted. rewrite He.
  destruct (Z.eqb_spec (previous_tx_index sq) (p / 4096)) as [E|E].
  - destruct (Hb E) as [_ ->]. split; [tauto|]. rewrite E. tauto.
  - assert (p / 4096 < first + N) by zdiv. split; intros ?; [lia|]. rewrite Hn in *. lia.
Qed.

(** At the end of its slots the service has used up its quota. *)
Lemma spending_exhausted fuel s first N p w sq n :
  spending fuel s first N p w sq -> end_slot w n = p / 4096 -> p = (first + N) * 4096 ->
  ~ data_exhausted w n /\ service_exhausted w sq n.
Proof.
  intros [Hr _ Hn Hm _ Hc Hb Hd] He Hp.
  assert (p / 4096 = first + N) as Hk by (rewrite Hp; apply Z.div_mul; lia).
  assert (p mod 4096 = 0) as H0 by (rewrite Hp; apply Z.mod_mul; lia).
  destruct (Z.eqb_spec (previous_tx_index sq) (p / 4096)) as [E|E]; [by destruct (Hb E)|].
  unfold data_exhausted, service_exhausted. rewrite He. split; [lia|]. right. split; [by apply not_eq_sym|lia].
Qed.

(** What [account_data] does to the counts. *)
Lemma account_data_counts k port q sq :
  service_quotas q !! port = Some sq ->
  previous_data_index (account_data k port q) = k /\
  data_use_count (account_data k port q) =
    (if k =? previous_data_index q then data_use_count q else usize_add (data_use_count q) 1) /\
  data_quota (account_data k port q) = data_quota q /\
  service_quotas (account_data k port q) !! port =
    Some (if k =? previous_tx_index sq then sq
          else sq <| previous_tx_index := k |> <| slot_use_count ::= fun n => usize_add n 1 |>).
Proof.
  intros Hq. unfold account_data.
  destruct (Z.eqb_spec k (previous_data_index q)); split_and!; try done;
    cbn -[alter list_alter]; by rewrite list_lookup_alter_eq, Hq.
Qed.

(** Sending a message within its slot. *)
Lemma spending_account fuel s first N p n w w' sq :
  spending fuel s first N p w sq -> p < (first + N) * 4096 -> 0 < n -> n <= room p ->
  quota_state (w_state w') = account_data (p / 4096) (Z.to_nat (localport s)) (quota_state (w_state w)) ->
  exists sq', spending fuel s first N (p + n) w' sq'.
Proof.
  intros [Hr Hq Hn Hm Hpm Hc Hb Hd] Hp H0 Hroom Hq'.
  unfold room in Hroom. change VCHIQ_SLOT_SIZE with 4096 in Hroom.
  destruct (account_data_counts (p / 4096) _ _ _ Hq) as (A1 & A2 & A3 & A4). rewrite <- Hq' in A1, A2, A3, A4.
  assert (p / 4096 < first + N) as Hk by zdiv.
  assert ((p + n) / 4096 = p / 4096 /\ (p + n) mod 4096 <> 0 \/ (p + n) / 4096 = p / 4096 + 1) as Hend by zdiv.
  assert (p + n <= (first + N) * 4096) as Hle by zdiv.
  set (k := p / 4096) in *. destruct (Z.eqb_spec (previous_tx_index sq) k) as [E|E].
  - destruct (Hb E) as [Hnz Hpd]. rewrite Hpd, Z.eqb_refl in A2. rewrite <- E, Z.eqb_refl in A4.
    exists sq. split; rewrite ?A1, ?A2, ?A3; try done; [lia| |].
    + rewrite E, Hc. destruct (Z.eqb_spec k ((p + n) / 4096)); lia.
    + rewrite E. lia.
  - rewrite (proj2 (Z.eqb_neq k _)) in A4 by done. eexists. split; try exact A4; rewrite ?A1, ?A2, ?A3; cbn;
      try done; rewrite ?(usize_add_small (slot_use_count sq)) by lia.
    + lia.
    + destruct (Z.eqb_spec k ((p + n) / 4096)); lia.
    + lia.
    + destruct (Z.eqb_spec k (previous_data_index (quota_state (w_state w)))); rewrite ?usize_add_small by lia; lia.
Qed.

(** A series of DATA messages goes out. *)
Lemma sent_data_step a msgs w fuel l s sq first N d id :
  tx_stream a msgs w -> w_heap w !! l = Some s -> closing s = false -> msg_type_from_id id = Ret DATA ->
  let msg := sent_message id (Some d) in
  let p := stream_len msgs in
  spending fuel s first N p w sq -> first + N <= area_count a ->
  fits msg -> stride msg <= room p -> p < (first + N) * 4096 ->
  exists w' sq', queue_message fuel (Some l) id (Some d) false w = Ret (Ok tt, w') /\
    tx_stream a (msgs ++ [msg]) w' /\ w_heap w' = w_heap w /\
    spending fuel s first N (stream_len (msgs ++ [msg])) w' sq'.
Proof.
  intros Htx Hs Hc Ht msg p Hsp HN Hf Hroom Hp.
  destruct (end_slot_fits a msgs w msg Htx Hf Hroom) as (He & Hlast & Hpb).
  destruct (spending_free fuel s first N p w sq _ Hsp He Hp) as [Hd Hq].
  assert (sender w l s sq) as Hsd by (split; [done|apply (spend_quota _ _ _ _ _ _ _ Hsp)]).
  destruct (queue_message_stream a msgs w fuel (Some l) id (Some d) false DATA Htx Ht
    (may_send_data fuel l s sq _ w Hsd Hc Hd Hq) Hf Hroom ltac:(fold p; lia))
    as (w' & E & Htx' & _ & _ & _ & Hh & Hqs & _).
  fold msg in Htx', Hqs. rewrite stream_len_snoc in Hqs |- *. fold p in Hqs, Hlast |- *.
  change VCHIQ_SLOT_SIZE with 4096 in Hqs. rewrite Hlast in Hqs.
  unfold sent_quota in Hqs. rewrite Hs, decide_True in Hqs by done.
  pose proof (stride_bounds _ Hf) as [Hb _].
  destruct (spending_account fuel s first N p (stride msg) w w' sq Hsp Hp ltac:(lia) Hroom Hqs) as [sq' Hsp'].
  by exists w', sq'.
Qed.

Lemma sent_data_stops a msgs w fuel l s sq first N d id :
  tx_stream a msgs w -> w_heap w !! l = Some s -> closing s = false -> srvstate s = ServiceState.OPEN ->
  msg_type_from_id id = Ret DATA ->
  let msg := sent_message id (Some d) in
  let p := stream_len msgs in
  spending fuel s first N p w sq -> fits msg -> stride msg <= room p -> p = (first + N) * 4096 ->
  queue_message fuel (Some l) id (Some d) false w = Blocked.
Proof.
  intros Htx Hs Hc Ho Ht msg p Hsp Hf Hroom Hp.
  destruct (end_slot_fits a msgs w msg Htx Hf Hroom) as (He & _ & _).
  destruct (spending_exhausted fuel s first N p w sq _ Hsp He Hp) as [Hd Hq].
  assert (sender w l s sq) as Hsd by (split; [done|apply (spend_quota _ _ _ _ _ _ _ Hsp)]).
  rewrite queue_data_check by done. fold msg. unfold bind_try, bind.
  erewrite check_data_message_sender by done. unfold bind. rewrite wait_data_quota_free by done.
  destruct (wait_service_quota_blocks (stride msg) l fuel w s sq Hsd Hq (spend_permits _ _ _ _ _ _ _ Hsp) Hc)
    as [->|(w' & _ & ?)]; done.
Qed.

Lemma placed_fits p msgs : placed p msgs -> Forall fits msgs.
Proof.
  revert p. induction msgs as [|msg msgs IH]; intros p Hp; [constructor|].
  destruct Hp as (? & _ & ?). constructor; eauto.
Qed.

Lemma stream_len_sent_data msgs id d ds :
  stream_len (msgs ++ sent_data id (d :: ds)) =
  stream_len ((msgs ++ [sent_message id (Some d)]) ++ sent_data id ds).
Proof. by rewrite <- app_assoc. Qed.

(** C11: what an open service can send in its life.  A service with a quota of [N] slots, from slot
    [first] of the stream on, sends a series of DATA messages one after the other, each of which lies
    within one slot, while the quota of data messages of all services has room for its slots: as long as the stream ends within those [N] slots every call succeeds and the messages are in
    memory in the order of the calls; the first message behind them blocks its sender for ever -
    also when the VideoCore has long read all of them, since the counts are never lowered. *)
Theorem send_capacity (a : Area) (msgs : list SlotMessage) (w : World C) (fuel l : nat) (s : Service)
    (sq : ServiceQuota) (first N id : Z) (ds : list (list Z)) :
  tx_stream a msgs w -> w_heap w !! l = Some s -> closing s = false -> srvstate s = ServiceState.OPEN ->
  msg_type_from_id id = Ret DATA ->
  spending fuel s first N (stream_len msgs) w sq -> first + N <= area_count a ->
  placed (stream_len msgs) (sent_data id ds) ->
  let all := msgs ++ sent_data id ds in
  (stream_len all <= (first + N) * 4096 ->
   exists w', send_all fuel l id ds w = Ret (Ok tt, w') /\ tx_stream a all w') /\
  ((first + N) * 4096 < stream_len all -> send_all fuel l id ds w = Blocked).
Proof.
  intros Htx Hs Hc Ho Ht. revert msgs w sq Htx Hs.
  induction ds as [|d ds IH]; intros msgs w sq Htx Hs Hsp HN Hpl all.
  { unfold all. cbn. rewrite app_nil_r. pose proof (spend_range _ _ _ _ _ _ _ Hsp) as (_ & ? & _).
    split; [by eexists|lia]. }
  destruct Hpl as (Hf & Hroom & Hpl). fold (sent_data id ds) in Hpl. unfold all. clear all. cbn [send_all].
  rewrite stream_len_sent_data. change (sent_data id (d :: ds)) with ([sent_message id (Some d)] ++ sent_data id ds).
  rewrite (app_assoc msgs).
  pose proof (spend_range _ _ _ _ _ _ _ Hsp) as (_ & Hle & _). rewrite <- stream_len_snoc in Hpl.
  destruct (decide (stream_len msgs = (first + N) * 4096)) as [Hend|Hend].
  - pose proof (stride_bounds _ Hf) as [Hb _].
    assert (stream_len msgs < stream_len ((msgs ++ [sent_message id (Some d)]) ++ sent_data id ds)).
    { rewrite stream_len_app, stream_len_snoc. pose proof (stream_len_nonneg _ (placed_fits _ _ Hpl)). lia. }
    split; [lia|]. intros _. unfold bind_try, bind.
    by erewrite sent_data_stops.
  - destruct (sent_data_step a msgs w fuel l s sq first N d id) as (w' & sq' & E & Htx' & Hh & Hsp'); try done; [lia|].
    erewrite bind_try_Ok by exact E. apply (IH _ w' sq'); try done. by rewrite Hh.
Qed.

End capacity.
