(* ===== verification/Receive.v ===== *)
(** Receiving: the slot handler reads the stream of messages the VideoCore wrote and runs the
    handler of each exactly once, in order; the slot it reads from is right as long as the VideoCore
    has not moved on to another one. *)

From S2P Require Import Prelude Locks Memory Layout Types SlotMessage Event SlotZero Slot Service.
From S2P Require Import State SlotHandler Registry Stream.

Section receive.
Context {L : LockLib} {CB : Callbacks} {C : Type} {H : CallbackHost C} {HL : CallbackLaws C}.
Implicit Types w : World C.

(** ** What the handlers leave alone *)

(** Memory, devices and slot positions. *)
Record rx_frame (w w' : World C) : Prop := {
  rx_frame_slot : slot_state (w_state w') = slot_state (w_state w);
  rx_frame_hw : w_hw w' = w_hw w;
}.
#[export] Instance rx_frame_preorder : PreOrder rx_frame.
Proof. split; [done|]. intros w1 w2 w3 [? ?] [? ?]. split; congruence. Qed.

Lemma upd_state_rx f : (forall s, slot_state (f s) = slot_state s) -> evolves rx_frame (upd_state f : M (World C) unit).
Proof. intros Hf. apply evolves_modify. intros w. split; [apply Hf|done]. Qed.

Lemma upd_quota_rx f : evolves rx_frame (upd_quota f : M (World C) unit).
Proof. by apply upd_state_rx. Qed.

Lemma get_service_rx l : evolves rx_frame (get_service l : M (World C) _).
Proof. by intros w s w' [_ ->]%get_service_inv. Qed.

Lemma upd_service_rx l f : evolves rx_frame (upd_service l f : M (World C) unit).
Proof. by intros w u w' (s & _ & ->)%upd_service_inv. Qed.

Lemma client_frame_rx w w' : client_frame w w' -> rx_frame w w'.
Proof. intros [Hs _ Hh _]. split; [by rewrite Hs|done]. Qed.
#[local] Hint Resolve upd_quota_rx get_service_rx upd_service_rx : evolves.

Lemma close_service_complete_rx l st : evolves rx_frame (close_service_complete l st : M (World C) _).
Proof. unfold close_service_complete, free_service, up_remove_event. evolves_solve. Qed.
#[local] Hint Resolve close_service_complete_rx : evolves.

Lemma message_service_rx t lp rp : evolves rx_frame (message_service t lp rp : M (World C) _).
Proof. unfold message_service, service_by_port, get_srv. evolves_solve. Qed.

Lemma dispatch_rx t l rp message : evolves rx_frame (dispatch t l rp message : M (World C) unit).
Proof.
  unfold dispatch, handle_openack, handle_close, handle_data, handle_connect, up_remove_event,
    get_quota, upd_service_quota.
  evolves_solve; first [by apply upd_state_rx | eapply evolves_mono; [apply client_frame_rx|apply invoke_frame]].
Qed.

(** ** Delivering messages *)

(** What one message makes the handler do, and then a list of them. *)
Definition process (message : SlotMessage) : M (World C) unit :=
  let id := msgid (header message) in
  let* t := lift (msg_type_from_id id) in
  let* service := message_service t (dst_port_from_id id) (src_port_from_id id) in
  dispatch t service (src_port_from_id id) message.

(** Moving the read position past [n] bytes; at the end of a slot the slot is given up. *)
Definition move_rx (slot off n : Z) : M (World C) unit :=
  upd_slot (fun ss =>
    let p := rx_pos ss + n in
    ss <| rx_pos := p |>
       <| rx_data := if p mod VCHIQ_SLOT_SIZE =? 0 then None else Some (mkPosition slot (off + n)) |>).

Fixpoint deliver (slot off : Z) (msgs : list SlotMessage) : M (World C) unit :=
  match msgs with
  | [] => ret tt
  | message :: msgs =>
      process message ;;
      move_rx slot off (stride message) ;;
      deliver slot (off + stride message) msgs
  end.

Lemma process_rx message : evolves rx_frame (process message).
Proof.
  unfold process. evolves_solve; [apply message_service_rx|apply dispatch_rx].
Qed.

(** ** The handler reads what is there *)

(** The messages [msgs] wait at [pos], in one slot, and nothing else is there before [tx]. *)
Record rx_ready (pos : SlotPosition) (msgs : list SlotMessage) (w : World C) : Prop := {
  ready_ok : position_ok (slot_data (slot_state (w_state w))) pos = true;
  ready_offset : 0 <= pos_offset pos /\
    rx_pos (slot_state (w_state w)) mod 4096 = pos_offset pos mod 4096;
  ready_room : pos_offset pos + stream_len msgs <= 4096;
  ready_range : 0 <= rx_pos (slot_state (w_state w)) /\
    rx_pos (slot_state (w_state w)) + stream_len msgs < 2 ^ 32;
  ready_fits : Forall fits msgs;
  ready_mem : stream_at (hw_mem (w_hw w)) (message_ptr (slot_data (slot_state (w_state w))) pos) msgs;
}.

(** The position the handler reads at: the one it stored; or, at the start of a slot, the slot that
    its queue names for this position. *)
Definition rx_at (tx : Z) (pos : SlotPosition) (w : World C) : Prop :=
  match rx_data (slot_state (w_state w)) with
  | Some p => p = pos
  | None =>
      tx / 4096 = rx_pos (slot_state (w_state w)) / 4096 /\ pos_offset pos = 0 /\
      slot_queue (remote (slot_zero (slot_state (w_state w)))) (hw_mem (w_hw w))
        !! Z.to_nat (rx_pos (slot_state (w_state w)) / 4096 mod 64) = Some (pos_index pos)
  end.

Definition at_slot (pos : SlotPosition) (w : World C) : World C :=
  w <| w_state ::= fun s => s <| slot_state ::= fun ss => ss <| rx_data := Some pos |> |> |>.

Lemma current_rx_Ret tx pos w :
  rx_at tx pos w -> current_rx tx w = Ret (pos, at_slot pos w).
Proof.
  unfold rx_at, current_rx, get_slot. rewrite bind_gets. intros Hat.
  destruct (rx_data (slot_state (w_state w))) as [p|] eqn:E.
  - subst p. unfold ret, at_slot. do 2 f_equal.
    destruct w as [[? ? ? ? [] ? ? ? ? ? ? ? ? ? ? ?] ? ? ? ?]. cbn in E. by subst.
  - destruct Hat as (Htx & Hoff & Hq). cbv zeta. unfold get_mem. rewrite bind_gets.
    rewrite (land_mask _ 6) by done. unfold slot_queue_index_from_pos. change VCHIQ_SLOT_SIZE with 4096.
    rewrite Htx. unfold index. change (2 ^ 6) with 64. rewrite Hq.
    rewrite decide_True by (apply Z.mod_pos_bound; lia). rewrite bind_ret_l.
    unfold upd_slot, upd_state. rewrite bind_modify. unfold ret, at_slot.
    destruct pos as [i o]. cbn in Hoff |- *. by subst o.
Qed.

Lemma advance_rx_Ret pos message w :
  fits message -> 0 <= pos_offset pos <= 4096 ->
  0 <= rx_pos (slot_state (w_state w)) < 2 ^ 32 ->
  advance_rx pos (msg_size (header message)) w = move_rx (pos_index pos) (pos_offset pos) (stride message) w.
Proof.
  intros Hf Hoff Hr. pose proof (stride_bounds _ Hf) as [Hb _]. destruct Hf as [(_ & _ & Hsz) _].
  unfold advance_rx, move_rx. rewrite Hsz. fold (stride message).
  unfold upd_slot, upd_state, modify. cbv zeta. cbn [update].
  set (ss := slot_state (w_state w)) in *. do 4 f_equal. cbn [rx_pos]. ints.
  rewrite (land_mask _ 12) by done. change (2 ^ 12) with 4096. change VCHIQ_SLOT_SIZE with 4096.
  destruct (_ mod 4096 =? 0); done.
Qed.

(** One round of the loop, for the message at the position found. *)
Lemma handle_message_read tx pos message w :
  current_rx tx w = Ret (pos, at_slot pos w) ->
  position_ok (slot_data (slot_state (w_state w))) pos = true -> 0 <= pos_offset pos <= 4096 ->
  fits message -> message_at (hw_mem (w_hw w)) (message_ptr (slot_data (slot_state (w_state w))) pos) message ->
  0 <= rx_pos (slot_state (w_state w)) < 2 ^ 32 ->
  handle_message tx w =
    bind (process message)
      (fun _ => move_rx (pos_index pos) (pos_offset pos) (stride message)) (at_slot pos w).
Proof.
  intros E Hok Ho Hf Hmsg Hr. unfold handle_message. erewrite bind_Ret by exact E.
  unfold get_slot, get_mem. rewrite !bind_gets.
  change (slot_data (slot_state (w_state (at_slot pos w)))) with (slot_data (slot_state (w_state w))).
  change (hw_mem (w_hw (at_slot pos w))) with (hw_mem (w_hw w)).
  rewrite (read_message_at _ _ _ message Hok (proj1 Hf) Hmsg).
  erewrite bind_Ret by reflexivity. cbv zeta. unfold process. cbv zeta. rewrite !bind_assoc.
  unfold bind at 1. symmetry. unfold bind at 1. symmetry.
  destruct (lift _ _) as [[t w1]| | |] eqn:Et; [|done..].
  assert (w1 = at_slot pos w) as ->.
  { unfold lift in Et. destruct (msg_type_from_id _); by simplify_eq. }
  unfold bind. destruct (message_service _ _ _ _) as [[sv w2]| | |] eqn:Es; [|done..].
  destruct (dispatch _ _ _ _ _) as [[u w3]| | |] eqn:Ed; [|done..].
  apply message_service_rx in Es. apply dispatch_rx in Ed.
  apply advance_rx_Ret; [done|lia|].
  rewrite (rx_frame_slot _ _ Ed), (rx_frame_slot _ _ Es). cbn. lia.
Qed.

Lemma handle_message_Ret tx pos message msgs w :
  rx_ready pos (message :: msgs) w -> rx_at tx pos w ->
  handle_message tx w =
    bind (process message)
      (fun _ => move_rx (pos_index pos) (pos_offset pos) (stride message)) (at_slot pos w).
Proof.
  intros [Hok [Ho0 Hom] Hroom [Hr0 Hr] Hfits [Hmsg _]] Hat.
  apply Forall_cons_1 in Hfits as [Hf Hfits]. pose proof (stream_len_nonneg _ Hfits) as Hnn.
  cbn [stream_len foldr] in Hroom, Hr. fold (stream_len msgs) in Hroom, Hr.
  pose proof (stride_bounds _ Hf) as [Hb _].
  apply handle_message_read; try done; [by apply current_rx_Ret|lia|lia].
Qed.

(** After a message the rest waits at the next position. *)
Lemma rx_ready_next pos message msgs w w' :
  rx_ready pos (message :: msgs) w -> rx_frame (at_slot pos w) w' -> msgs <> [] ->
  let pos' := mkPosition (pos_index pos) (pos_offset pos + stride message) in
  let p := rx_pos (slot_state (w_state w)) + stride message in
  let w'' := w' <| w_state ::= fun s => s <| slot_state ::= fun ss =>
    ss <| rx_pos := p |>
       <| rx_data := if p mod VCHIQ_SLOT_SIZE =? 0 then None else Some pos' |> |> |> in
  rx_ready pos' msgs w'' /\ rx_data (slot_state (w_state w'')) = Some pos'.
Proof.
  intros [Hok [Ho0 Hom] Hroom [Hr0 Hr] Hfits [Hmsg Hmsgs]] [Hs Hh] Hne pos' p w''.
  apply Forall_cons_1 in Hfits as [Hf Hfits].
  assert (8 <= stream_len msgs) as Hlen.
  { destruct msgs as [|m2 msgs]; [done|]. apply Forall_cons_1 in Hfits as [Hf2 Hfits].
    pose proof (stride_bounds _ Hf2). pose proof (stream_len_nonneg _ Hfits).
    cbn [stream_len foldr]. fold (stream_len msgs). lia. }
  cbn [stream_len foldr] in Hroom, Hr. fold (stream_len msgs) in Hroom, Hr.
  pose proof (stride_bounds _ Hf) as [Hb _].
  assert (p mod 4096 = pos_offset pos + stride message) as Hp by (unfold p; zdiv).
  assert (slot_data (slot_state (w_state w'')) = slot_data (slot_state (w_state w))) as Hsd.
  { cbn. by rewrite Hs. }
  split.
  - split; rewrite ?Hsd.
    + exact Hok.
    + cbn. rewrite Hp. split; [lia|]. by rewrite Z.mod_small by lia.
    + cbn. lia.
    + cbn. unfold p. lia.
    + done.
    + cbn [w_hw w'' update]. rewrite Hh. cbn [w_hw at_slot update].
      replace (message_ptr (slot_data (slot_state (w_state w))) pos')
        with (message_ptr (slot_data (slot_state (w_state w))) pos + stride message); [done|].
      rewrite !message_ptr_small by (cbn; lia). cbn. lia.
  - cbn. change VCHIQ_SLOT_SIZE with 4096. rewrite Hp, (proj2 (Z.eqb_neq _ _)) by lia. done.
Qed.

Lemma rx_at_Some tx pos w : rx_data (slot_state (w_state w)) = Some pos -> rx_at tx pos w.
Proof. unfold rx_at. by intros ->. Qed.

Lemma handle_messages_deliver msgs : forall fuel pos w,
  rx_ready pos msgs w -> (length msgs <= fuel)%nat ->
  let tx := rx_pos (slot_state (w_state w)) + stream_len msgs in
  rx_at tx pos w -> (msgs <> [] \/ rx_data (slot_state (w_state w)) = Some pos) ->
  handle_messages fuel tx w = deliver (pos_index pos) (pos_offset pos) msgs
    (if decide (msgs = []) then w else at_slot pos w).
Proof.
  induction msgs as [|message msgs IH]; intros fuel pos w Hr Hf tx Hat Hor.
  - destruct fuel; cbn [handle_messages deliver]; unfold get_slot; rewrite bind_gets;
      unfold tx; cbn [stream_len foldr]; by rewrite Z.add_0_r, Z.eqb_refl.
  - destruct fuel as [|fuel]; [cbn in Hf; lia|]. cbn [handle_messages deliver].
    unfold get_slot. rewrite bind_gets. pose proof Hr as [_ _ _ [Hr0 Hr1] Hfits _].
    apply Forall_cons_1 in Hfits as [Hfit Hfits].
    pose proof (stride_bounds _ Hfit) as [Hb _]. pose proof (stream_len_nonneg _ Hfits) as Hnn.
    unfold tx in *. cbn [stream_len foldr] in *. fold (stream_len msgs) in *.
    rewrite (proj2 (Z.eqb_neq _ _)) by lia.
    rewrite decide_False by done. unfold bind at 1.
    rewrite (handle_message_Ret _ pos message msgs) by done.
    unfold bind at 1. symmetry. unfold bind at 1. symmetry.
    destruct (process message (at_slot pos w)) as [[u w1]| | |] eqn:Ep; [|done..].
    apply process_rx in Ep. unfold move_rx, upd_slot, upd_state. rewrite bind_modify.
    unfold modify at 1. cbv beta.
    match goal with |- handle_messages _ _ ?w2 = _ => set (w' := w2) end.
    assert (rx_pos (slot_state (w_state w')) = rx_pos (slot_state (w_state w)) + stride message) as Hp.
    { unfold w'. cbn. by rewrite (rx_frame_slot _ _ Ep). }
    rewrite Z.add_assoc, <- Hp.
    destruct (decide (msgs = [])) as [->|Hne].
    + cbn [stream_len foldr deliver]. rewrite Z.add_0_r.
      destruct fuel; cbn [handle_messages]; unfold get_slot; rewrite bind_gets; by rewrite Z.eqb_refl.
    + pose proof (rx_ready_next pos message msgs w w1 Hr Ep Hne) as [Hr' Hd']. cbv zeta in Hr', Hd'.
      set (pos' := mkPosition (pos_index pos) (pos_offset pos + stride message)) in *.
      match type of Hd' with rx_data (slot_state (w_state ?x)) = _ => assert (x = w') as E end.
      { unfold w'. cbn [update]. rewrite (rx_frame_slot _ _ Ep). reflexivity. }
      rewrite E in Hr', Hd'.
      rewrite (IH fuel pos' w' Hr'); [|cbn in Hf; lia|by apply rx_at_Some|by left].
      unfold at_slot. destruct w' as [[? ? ? ? [] ? ? ? ? ? ? ? ? ? ? ?] ? ? ? ?]. cbn in Hd'. by subst.
Qed.

Lemma deliver_Ret msgs : forall slot off w w',
  deliver slot off msgs w = Ret (tt, w') ->
  rx_pos (slot_state (w_state w')) = rx_pos (slot_state (w_state w)) + stream_len msgs /\ w_hw w' = w_hw w.
Proof.
  induction msgs as [|message msgs IH]; intros slot off w w'; cbn [deliver stream_len foldr].
  { intros [= <-]. by rewrite Z.add_0_r. }
  fold (stream_len msgs). intros (u & w1 & H1 & H2)%bind_Ret_inv. apply process_rx in H1 as [Hs Hh].
  unfold move_rx, upd_slot, upd_state in H2. rewrite bind_modify in H2.
  apply IH in H2 as [Hp Hw]. split; [|by rewrite Hw].
  rewrite Hp. cbn. rewrite Hs. lia.
Qed.

(** Where it leaves the slots. *)
Lemma deliver_slot msgs : forall slot off w w',
  msgs <> [] -> deliver slot off msgs w = Ret (tt, w') ->
  let R := rx_pos (slot_state (w_state w)) + stream_len msgs in
  slot_state (w_state w') = (slot_state (w_state w))
    <| rx_pos := R |>
    <| rx_data := if R mod VCHIQ_SLOT_SIZE =? 0 then None
                  else Some (mkPosition slot (off + stream_len msgs)) |>.
Proof.
  induction msgs as [|message msgs IH]; intros slot off w w' Hne; [done|]. cbn [deliver stream_len foldr].
  fold (stream_len msgs). intros (u & w1 & H1 & H2)%bind_Ret_inv. apply process_rx in H1 as [Hs _].
  unfold move_rx, upd_slot, upd_state in H2. rewrite bind_modify in H2.
  destruct (decide (msgs = [])) as [->|Hn].
  - injection H2 as <-. cbn [stream_len foldr]. rewrite !Z.add_0_r. cbn [w_state update]. by rewrite <- Hs.
  - apply IH in H2; [|done]. cbv zeta in H2 |- *. rewrite H2. cbn -[Z.modulo]. rewrite Hs, !Z.add_assoc. done.
Qed.

(** ** Whatever the memory holds *)

(** [k] rounds of the loop, without looking at the condition. *)
Fixpoint rounds (k : nat) (tx : Z) : M (World C) unit :=
  match k with
  | O => ret tt
  | S k => handle_message tx ;; rounds k tx
  end.

Lemma current_rx_rx tx w pos w' :
  current_rx tx w = Ret (pos, w') ->
  rx_pos (slot_state (w_state w')) = rx_pos (slot_state (w_state w)) /\ w_hw w' = w_hw w.
Proof.
  unfold current_rx, get_slot, get_mem, index. intros H0. inv_monad; [by split..|].
  unfold upd_slot, upd_state in *. inv_monad. by split.
Qed.

(** Every message moves the read position, by a multiple of 8 that its size determines. *)
Lemma handle_message_moves tx w u w' :
  mem_ok (hw_mem (w_hw w)) -> handle_message tx w = Ret (u, w') ->
  w_hw w' = w_hw w /\ exists n, 8 <= n < 2 ^ 33 /\
    rx_pos (slot_state (w_state w')) = usize_add (rx_pos (slot_state (w_state w))) n.
Proof.
  intros Hm. unfold handle_message. intros (pos & w1 & [E1 Hh1]%current_rx_rx & H0)%bind_Ret_inv.
  unfold get_slot, get_mem in H0. rewrite !bind_gets in H0.
  apply bind_Ret_inv in H0 as (message & w2 & H2 & H0).
  unfold lift, read_message in H2. destruct (position_ok _ _); [|done].
  match type of H2 with _ = Ret (message, w2) => injection H2 as Em <- end.
  apply bind_Ret_inv in H0 as (t & w2 & H2 & H0). unfold lift in H2.
  destruct (msg_type_from_id _); [|done..]. injection H2 as _ <-. cbv zeta in H0.
  apply bind_Ret_inv in H0 as (l & w2 & Hl%message_service_rx & H0).
  apply bind_Ret_inv in H0 as ([] & w3 & Hd%dispatch_rx & H0).
  pose proof (transitivity Hl Hd) as [Hs Hh].
  assert (is_u32 (msg_size (header message))) as Hsz.
  { rewrite <- Em. apply (read_uint_range 4). by rewrite Hh1. }
  unfold advance_rx, upd_slot, upd_state, modify in H0. cbv zeta in H0. injection H0 as _ <-.
  split; [cbn; by rewrite Hh|].
  exists (calc_msg_stride (msg_size (header message))). unfold is_u32 in Hsz. split.
  - rewrite calc_msg_stride_val by lia. zdiv.
  - cbn. rewrite Hs, E1. by case_match.
Qed.

Lemma handle_messages_end fuel tx w :
  rx_pos (slot_state (w_state w)) = tx -> handle_messages fuel tx w = Ret (tt, w).
Proof.
  intros E. destruct fuel; cbn [handle_messages]; unfold get_slot; rewrite bind_gets; by rewrite E, Z.eqb_refl.
Qed.

Lemma handle_messages_terminates tx : forall fuel w,
  mem_ok (hw_mem (w_hw w)) -> 0 <= rx_pos (slot_state (w_state w)) <= tx -> tx < 2 ^ 32 ->
  tx - rx_pos (slot_state (w_state w)) <= 8 * Z.of_nat fuel ->
  exists k, (k <= fuel)%nat /\
    (handle_messages fuel tx w = rounds k tx w \/
     exists w', rounds k tx w = Ret (tt, w') /\ tx < rx_pos (slot_state (w_state w'))).
Proof.
  induction fuel as [|fuel IH]; intros w Hm Hr Htx Hf.
  - exists 0%nat. split; [done|]. left. apply handle_messages_end. lia.
  - destruct (decide (rx_pos (slot_state (w_state w)) = tx)) as [E|E].
    { exists 0%nat. split; [lia|]. left. by apply handle_messages_end. }
    assert (handle_messages (S fuel) tx w = bind (handle_message tx) (fun _ => handle_messages fuel tx) w) as ->.
    { cbn [handle_messages]. unfold get_slot. by rewrite bind_gets, (proj2 (Z.eqb_neq _ _)) by done. }
    destruct (handle_message tx w) as [[[] w1]|p| |] eqn:Em.
    2-4: exists 1%nat; split; [lia|]; left; cbn [rounds]; unfold bind; by rewrite Em.
    destruct (handle_message_moves _ _ _ _ Hm Em) as (Hh & n & Hn & Hp).
    rewrite usize_add_small in Hp by lia.
    destruct (Z.lt_ge_cases tx (rx_pos (slot_state (w_state w1)))) as [Hlt|Hge].
    + exists 1%nat. split; [lia|]. right. exists w1. split; [|done]. cbn [rounds]. by erewrite bind_Ret by exact Em.
    + destruct (IH w1) as (k & Hk & Hor); [by rewrite Hh|lia..|].
      exists (S k). split; [lia|]. cbn [rounds]. unfold bind. by rewrite Em.
Qed.

Lemma handle_messages_past tx : forall fuel w w',
  mem_ok (hw_mem (w_hw w)) -> 0 <= tx < rx_pos (slot_state (w_state w)) ->
  rx_pos (slot_state (w_state w)) + Z.of_nat fuel * 2 ^ 33 < 2 ^ 64 ->
  handle_messages fuel tx w <> Ret (tt, w').
Proof.
  induction fuel as [|fuel IH]; intros w w' Hm Hr Hf E; cbn [handle_messages] in E; unfold get_slot in E;
    rewrite bind_gets, (proj2 (Z.eqb_neq _ _)) in E by lia; [done|].
  apply bind_Ret_inv in E as ([] & w1 & Em & E).
  destruct (handle_message_moves _ _ _ _ Hm Em) as (Hh & n & Hn & Hp).
  rewrite usize_add_small in Hp by lia.
  eapply (IH w1 w'); [by rewrite Hh|lia|lia|exact E].
Qed.

(** C5: the slot handler delivers what the VideoCore sent.  When messages lie one after the other
    between the read position and the position the VideoCore published, in the slot the handler is
    in (or at the start of the slot that contains both positions), then a round of the handler runs
    the handler of each message exactly once, in order, and nothing else; it terminates within as
    many steps as there are messages; and if none of them panics it ends with nothing left to read,
    the shared memory being as before. *)
Theorem slot_handler_delivers (w : World C) (pos : SlotPosition) (msgs : list SlotMessage) (fuel : nat) :
  let tx := rx_pos (slot_state (w_state w)) + stream_len msgs in
  tx_pos (remote (slot_zero (slot_state (w_state w)))) (hw_mem (w_hw w)) = tx ->
  rx_ready pos msgs w -> rx_at tx pos w -> msgs <> [] -> (length msgs <= fuel)%nat ->
  slot_handler fuel true w = deliver (pos_index pos) (pos_offset pos) msgs (at_slot pos w) /\
  forall w', slot_handler fuel true w = Ret (tt, w') ->
    rx_pos (slot_state (w_state w')) = tx /\ w_hw w' = w_hw w.
Proof.
  intros tx Htx Hr Hat Hne Hf.
  assert (slot_handler fuel true w = deliver (pos_index pos) (pos_offset pos) msgs (at_slot pos w)) as E.
  { unfold slot_handler, get_slot, get_mem. rewrite !bind_gets, Htx. unfold tx.
    rewrite (handle_messages_deliver msgs fuel pos w Hr Hf Hat) by by left. by rewrite decide_False. }
  split; [done|]. intros w' Hw. rewrite E in Hw. by apply deliver_Ret in Hw.
Qed.

(** With nothing to read, or while somebody else holds the lock of the slots, the handler does
    nothing. *)
Lemma slot_handler_idle (w : World C) (fuel : nat) :
  (tx_pos (remote (slot_zero (slot_state (w_state w)))) (hw_mem (w_hw w)) =
     rx_pos (slot_state (w_state w)) -> slot_handler fuel true w = Ret (tt, w)) /\
  slot_handler fuel false w = Ret (tt, w).
Proof.
  split; [|done]. intros E. unfold slot_handler, get_slot, get_mem. rewrite !bind_gets, E.
  by apply handle_messages_end.
Qed.

(** C32: the slot is looked up with the wrong position.  When the handler starts a new slot, it takes
    the slot of the position up to which the VideoCore has written, not of the position it has read
    up to.  If the VideoCore is already in a later slot, the first message handled is the one at the
    start of that slot [j] and the handler goes on behind it in slot [j]: what lies before is not handled. *)
Theorem rx_slot_from_tx_pos (w : World C) (tx j : Z) (other : SlotMessage) (fuel : nat) :
  rx_data (slot_state (w_state w)) = None ->
  0 <= rx_pos (slot_state (w_state w)) < 2 ^ 32 -> 0 <= tx -> tx <> rx_pos (slot_state (w_state w)) ->
  let queue := slot_queue (remote (slot_zero (slot_state (w_state w)))) (hw_mem (w_hw w)) in
  queue !! Z.to_nat (tx / 4096 mod 64) = Some j ->
  let sa := slot_data (slot_state (w_state w)) in
  position_ok sa (mkPosition j 0) = true ->
  fits other -> message_at (hw_mem (w_hw w)) (message_ptr sa (mkPosition j 0)) other ->
  handle_messages (S fuel) tx w =
    bind (process other) (fun _ => move_rx j 0 (stride other) ;; handle_messages fuel tx)
      (at_slot (mkPosition j 0) w).
Proof.
  intros Hn Hr Htx Hne queue Hj sa Hok Hf Hmsg. cbn [handle_messages]. unfold get_slot.
  rewrite bind_gets, (proj2 (Z.eqb_neq _ _)) by done.
  assert (current_rx tx w = Ret (mkPosition j 0, at_slot (mkPosition j 0) w)) as E.
  { unfold current_rx, get_slot. rewrite bind_gets, Hn. cbv zeta. unfold get_mem. rewrite bind_gets.
    rewrite (land_mask _ 6) by done. unfold slot_queue_index_from_pos, index. change VCHIQ_SLOT_SIZE with 4096.
    change (2 ^ 6) with 64. unfold queue in Hj. rewrite Hj.
    by rewrite decide_True by (apply Z.mod_pos_bound; lia). }
  unfold bind at 1. rewrite (handle_message_read tx (mkPosition j 0) other); try done; try (cbn; lia).
  unfold bind. destruct (process other _) as [[u w1]| | |]; [|done..].
  by destruct (move_rx _ _ _ _) as [[? ?]| | |].
Qed.
(** C20: a round of the slot handler ends, whatever the memory holds.  Let the VideoCore have written
    any bytes and have published a position at or after the read position.  Then the loop takes at
    most one round for each 8 bytes in between: either it does what some number of
    rounds do and then ends - at the published position, or where one of the rounds panics - or it reads a message whose size leads past the published
    position.  In that case the loop, which compares the positions with [!=], never returns: not
    within 2^30 rounds, each of which reads whatever lies further on. *)
Theorem slot_handler_terminates (w : World C) (tx : Z) (fuel : nat) :
  mem_ok (hw_mem (w_hw w)) ->
  (0 <= rx_pos (slot_state (w_state w)) <= tx -> tx < 2 ^ 32 ->
   tx - rx_pos (slot_state (w_state w)) <= 8 * Z.of_nat fuel ->
   exists k, (k <= fuel)%nat /\
     (handle_messages fuel tx w = rounds k tx w \/
      exists w', rounds k tx w = Ret (tt, w') /\ tx < rx_pos (slot_state (w_state w')))) /\
  (0 <= tx < rx_pos (slot_state (w_state w)) -> rx_pos (slot_state (w_state w)) < 2 ^ 63 ->
   Z.of_nat fuel < 2 ^ 30 -> forall w', handle_messages fuel tx w <> Ret (tt, w')).
Proof.
  intros Hm. split.
  - intros Hr Htx Hf. by apply handle_messages_terminates.
  - intros Hr Hb Hf w'. apply handle_messages_past; [done|done|lia].
Qed.
End receive.
