(* ===== verification/Boot.v ===== *)
(** Start-up: [State::new], [State::initialize] and [Instance::new] establish the states the other
    files start from - an empty registry, an empty transmit stream, a slot handler at the start -
    on a platform with 4 KiB pages. *)

From S2P Require Import Prelude Locks Memory Layout Types SlotMessage Event SlotZero Slot Service.
From S2P Require Import State SlotHandler Completion Instance Registry Queues Stream Transmit.

(** Memory ends where the registers of the peripherals begin, at [0x3F000000]. *)
Definition memory_end : Z := 1056964608.

(** The platform the theorems are about: pages of 4 KiB, which depends on how the MMU was set up; an
    allocation of up to 1 MiB succeeds, which [State::new] takes for granted, is aligned as asked for
    and lies in memory; and mapping such memory keeps pages whole and does not wrap. *)
Class PlatformLaws (P : Platform) : Prop := {
  page_size_law : page_size = 4096;
  page_align_law x : 0 <= x < 2 ^ 32 -> page_align x = round_up x page_size;
  alloc_range l : 0 < layout_size l <= 2 ^ 20 -> 0 < alloc l /\ alloc l + layout_size l <= memory_end;
  alloc_aligned l : layout_align l = page_size -> (layout_align l | alloc l);
  map_range p n f : 0 < p /\ 0 < n /\ p + n <= memory_end ->
    0 < map_memory p n f /\ map_memory p n f + n + 4096 < 2 ^ 64;
  map_aligned p n f : (page_size | p) -> (page_size | map_memory p n f);
}.

Section boot.
Context {L : LockLib} {CB : Callbacks} {P : Platform} {PL : PlatformLaws P}.

(** ** The shared memory *)

Definition shared_size : Z := 266240. (* 65 slots *)
Definition shared_layout : AllocLayout := mkAllocLayout shared_size 4096.
Definition shared_base : Z :=
  map_memory (alloc shared_layout) shared_size (Z.lor (Z.lor (Z.shiftl 1 10) (Z.shiftl 2 8)) (Z.shiftl 3 2)).

Lemma shared_size_law : page_align (TOTAL_SLOTS * VCHIQ_SLOT_SIZE) = shared_size.
Proof.
  rewrite page_align_law by (vm_compute; split; [discriminate|reflexivity]).
  by rewrite page_size_law.
Qed.

Lemma shared_base_range : 0 < shared_base /\ shared_base + shared_size + 4096 < 2 ^ 64.
Proof.
  apply map_range. split; [|split; [done|]]; apply (alloc_range shared_layout); by vm_compute.
Qed.

Lemma shared_base_aligned : shared_base mod 4096 = 0.
Proof.
  apply Z.mod_divide; [done|]. rewrite <- page_size_law at 1. apply map_aligned.
  rewrite page_size_law. apply (alloc_aligned shared_layout). by rewrite page_size_law.
Qed.

(** ** The fragments *)

(** Linking fragments writes the first word of each, and nothing else. *)
Lemma link_fragments_agree addr n : forall first m b k,
  b + k <= addr + Z.of_nat first * 64 \/ addr + Z.of_nat (first + n) * 64 <= b ->
  agree (link_fragments addr first n m) m b k.
Proof.
  induction n as [|n IH]; intros first m b k Hb; cbn [link_fragments]; [done|].
  change (size_of Fragment_t) with 64. eapply agree_trans; [apply IH; lia|].
  apply write_uint_agree. lia.
Qed.

Lemma link_fragments_read addr n : forall first m i,
  (first <= i < first + n)%nat ->
  read_u32 (link_fragments addr first n m) (addr + Z.of_nat i * 64) = u32 (addr + Z.of_nat i * 64 + 64).
Proof.
  induction n as [|n IH]; intros first m i Hi; cbn [link_fragments]; [lia|].
  change (size_of Fragment_t) with 64. destruct (decide (i = first)) as [->|]; [|apply IH; lia].
  etransitivity; [apply (read_uint_agree 4), link_fragments_agree; lia|].
  apply read_write_u32, u32_range.
Qed.

(** ** [State::new] *)

(** What [State::new] makes of the memory [m]. *)
Record booted (m : mem) (s : State) (m' : mem) : Prop := {
  boot_partition : partitioned (SlotZeroAccessor_new shared_base shared_size) 64 m';
  boot_queue : forall i, 0 <= i < 31 ->
    slot_queue (local (slot_zero (slot_state s))) m' !! Z.to_nat i = Some (34 + i);
  boot_addresses : sz_inner (slot_zero (slot_state s)) = shared_base /\
    ss_inner (local (slot_zero (slot_state s))) = shared_base + 404 /\
    remote (slot_zero (slot_state s)) = remote (SlotZeroAccessor_new shared_base shared_size);
  boot_data : slot_data (slot_state s) = mkSlotAccessor shared_base 65;
  boot_tx : tx_data (slot_state s) = None /\ local_tx_pos (slot_state s) = 0;
  boot_rx : rx_data (slot_state s) = None /\ rx_pos (slot_state s) = 0;
  boot_conn : conn_state s = DISCONNECTED /\ State.initialized s = false;
  boot_available : slot_queue_available s = 31;
  boot_quota : quota_state s =
    mkQuotaState (-1) 0 30 (replicate (Z.to_nat VCHIQ_MAX_SERVICES) ServiceQuota_default);
  boot_defaults : default_slot_quota s = 15 /\ default_message_quota s = 3840;
  boot_srv : srv_state s = mkSrvState (replicate (Z.to_nat VCHIQ_MAX_SERVICES) None) 0;
  boot_layout : shm_ptr s = shared_base /\ shm_ptr_layout s = shared_layout;
  boot_fragments : forall i, (i < 63)%nat ->
    read_u32 m' (shared_base + shared_size + Z.of_nat i * 64) =
      u32 (shared_base + shared_size + Z.of_nat i * 64 + 64);
  boot_frame : forall b n,
    b + n <= shared_base \/ (shared_base + 1288 <= b /\ b + n <= shared_base + shared_size) \/
    shared_base + shared_size + 63 * 64 <= b ->
    agree m' m b n;
}.

Lemma State_new_Ret (m : mem) : exists s m', State_new m = Ret (Ok s, m') /\ booted m s m'.
Proof.
  pose proof shared_base_range as [Hb0 Hb1]. pose proof shared_base_aligned as Hal.
  unfold shared_size in Hb1.
  unfold State_new. rewrite shared_size_law, page_size_law.
  change (Layout_from_size_align shared_size 4096) with (Some shared_layout). cbv beta iota zeta.
  change (layout_size shared_layout) with shared_size. fold shared_base.
  assert (Z.land (usize_sub VCHIQ_SLOT_SIZE shared_base) VCHIQ_SLOT_MASK = 0) as ->.
  { rewrite (land_mask _ 12) by done. change VCHIQ_SLOT_SIZE with 4096. unfold usize_sub, usize.
    change (2 ^ 64) with (2 ^ 12 * 2 ^ 52). rewrite Z.rem_mul_r by lia. change (2 ^ 12) with 4096. zdiv. }
  rewrite Z.add_0_r. change VCHIQ_SLOT_SIZE with 4096. rewrite Hal. cbn [Z.eqb negb].
  change (usize_sub shared_size 0) with shared_size.
  destruct (initialize_spec shared_base shared_size m) as (a' & m1 & -> & [Hp Hq Hi [Ha1 [Ha2 Ha3]] Hf]);
    [unfold shared_size; vm_compute; split; discriminate|].
  change (shared_size / 4096 - 1) with 64 in *.
  set (phys := Z.lor _ 3221225472).
  set (m2 := set_platform_data a' _ m1).
  rewrite (usize_add_small shared_base) by (unfold shared_size; lia).
  change (Z.to_nat (MAX_FRAGMENTS - 1)) with 63%nat.
  change (Z.to_nat MAX_FRAGMENTS / 63)%nat with 1%nat. cbn [init_fragments].
  change (0 * 63)%nat with 0%nat. set (m3 := link_fragments _ 0 63 m2).
  assert (forall b n, b + n <= shared_base + 24 \/ shared_base + 32 <= b -> agree m2 m1 b n) as A2.
  { intros b n Hb. unfold m2, set_platform_data, volatile_setter_u32s. layout_simpl. rewrite Ha1.
    apply write_u32s_agree. cbn. lia. }
  assert (forall b n, b + n <= shared_base + shared_size \/ shared_base + shared_size + 63 * 64 <= b ->
    agree m3 m2 b n) as A3.
  { intros b n Hb. apply link_fragments_agree. lia. }
  assert (partitioned (SlotZeroAccessor_new shared_base shared_size) 64 m3) as Hp3.
  { apply (partitioned_agree _ _ _ m1); [..|done];
      (eapply agree_trans; [apply A3|apply A2]; unfold shared_size; lia). }
  assert (slot_last (local a') m3 = 64) as ->.
  { unfold slot_last. rewrite Ha2. exact (part_local_last _ _ _ Hp3). }
  assert (slot_first (local a') m3 = 34) as ->.
  { unfold slot_first. rewrite Ha2. exact (part_local_first _ _ _ Hp3). }
  eexists _, m3. split; [reflexivity|]. split; try done.
  - intros i Hi'. cbn [slot_state slot_zero].
    transitivity (slot_queue (local a') m1 !! Z.to_nat i); [f_equal|by apply Hq].
    apply slot_queue_agree. rewrite Ha2.
    eapply agree_trans; [apply A3|apply A2]; unfold shared_size; lia.
  - intros i Hi'. unfold m3. apply link_fragments_read. lia.
  - intros b n Hb. unfold shared_size in *.
    eapply agree_trans; [apply A3|eapply agree_trans; [apply A2|apply Hf]]; lia.
Qed.

(** Every successful call does. *)
Lemma State_new_booted m s m' : State_new m = Ret (Ok s, m') -> booted m s m'.
Proof. intros E. destruct (State_new_Ret m) as (? & ? & E' & Hb). rewrite E in E'. by injection E' as -> ->. Qed.

(** C22: [State::new] sets the interface up.  On a platform with pages of 4 KiB where the allocation
    succeeds - the code leaves the first to the MMU set-up and does not check the second - [State::new]
    succeeds; the memory is divided into 64 slots, slots 1
    and 33 for synchronous messages, 2 to 32 for the VideoCore and 34 to 64 for this side, and the
    queue of this side names its 31 slots in order; nothing was sent or received; the quotas are half
    of the slots for a service and all but one for all data; there are no services. *)
Theorem State_new_spec (m : mem) : exists s m', State_new m = Ret (Ok s, m') /\ booted m s m'.
Proof. apply State_new_Ret. Qed.

(** [State::new] writes outside the memory it allocated.  The allocation ends with the last slot;
    the list of fragments is built behind it: 63 words, each the address of the next fragment, are
    written at addresses past the end of the layout given to [alloc] and [dealloc]. *)
Lemma fragments_outside_allocation (m : mem) (i : nat) :
  (i < 63)%nat ->
  exists s m', State_new m = Ret (Ok s, m') /\
    let a := shm_ptr s + layout_size (shm_ptr_layout s) + Z.of_nat i * size_of Fragment_t in
    shm_ptr s + layout_size (shm_ptr_layout s) <= a /\
    read_u32 m' a = u32 (a + size_of Fragment_t).
Proof.
  intros Hi. destruct (State_new_Ret m) as (s & m' & E & Hb). exists s, m'. split; [done|].
  destruct (boot_layout _ _ _ Hb) as [-> ->]. change (size_of Fragment_t) with 64. split.
  - cbn [layout_size shared_layout]. lia.
  - by apply (boot_fragments _ _ _ Hb).
Qed.
End boot.

(** ** [Instance::new] *)

Section instance.
Context {L : LockLib} {P : Platform} {PL : PlatformLaws P} {X : Type}.
Notation W := (World (Client X)).
Implicit Types w : W.

Definition boot_area : Area := mkArea shared_base 34 31 65.

(** A fresh instance: initialized, not connected, with no services and nothing sent, received or
    waiting. *)
Record fresh (w : W) : Prop := {
  fresh_reg : reg_inv w;
  fresh_heap : w_heap w = [];
  fresh_tx : tx_stream boot_area [] w;
  fresh_rx : rx_data (slot_state (w_state w)) = None /\ rx_pos (slot_state (w_state w)) = 0;
  fresh_conn : conn_state (w_state w) = DISCONNECTED /\ State.initialized (w_state w) = true;
  fresh_client : connected (w_client w) = false /\ comp_repr (completion (w_client w)) [];
}.

(** The world [Instance::new] builds around the state. *)
Definition boot_world (x : X) (hw : Hw) (s : State) (m : mem) : W :=
  mkWorld s [] (hw <| hw_mem := m |>) VCHIQ_MAX_SERVICES (mkClient false Completion_default [] x).

(** The header written to the sync slot, in slot 33. *)
Definition sync_written (m : mem) : mem :=
  let p := shared_base + 33 * 4096 in
  write_message m p (mkMessage ((read_header m p) <| msgid := VCHIQ_MSGID_PADDING |>) []).

Lemma State_initialize_Ret x hw m s m' :
  booted m s m' ->
  State_initialize (boot_world x hw s m') =
    bind_try (ret (set_vchiq_slot_base (u32 (shm_ptr_phys s)))) (fun status =>
      if negb (status =? 0) then ret (Err (EGeneric "unable to set VCHIQ base address"))
      else upd_state (fun s => s <| State.initialized := true |>) ;; ret (Ok tt))
    (boot_world x hw s (sync_written m')).
Proof.
  intros Hb. unfold State_initialize, get_slot, get_mem. rewrite !bind_gets.
  cbn [boot_world w_state w_hw hw_mem update].
  assert (slot_sync (local (slot_zero (slot_state s))) m' = 33) as ->.
  { unfold slot_sync. rewrite (proj1 (proj2 (boot_addresses _ _ _ Hb))).
    exact (part_local_sync _ _ _ (boot_partition _ _ _ Hb)). }
  erewrite bind_Ret.
  2: { eapply store_Ret; [|reflexivity]. cbn. by rewrite (boot_data _ _ _ Hb). }
  unfold boot_world. cbn [w_state w_hw hw_mem update]. rewrite (boot_data _ _ _ Hb).
  rewrite bind_gets, !message_ptr_small by (cbn; lia). cbn [sa_inner pos_index pos_offset].
  rewrite Z.add_0_r. unfold sync_written. destruct s, hw. reflexivity.
Qed.

Lemma booted_fresh x hw m s m' :
  booted m s m' ->
  fresh (boot_world x hw (s <| State.initialized := true |>) (sync_written m')).
Proof.
  intros Hb. pose proof shared_base_range as [Hb0 Hb1].
  assert (forall b n, b + n <= shared_base + 4096 -> agree (sync_written m') m' b n) as Hag.
  { intros b n Hbn. apply write_message_agree. lia. }
  split.
  - split; cbn [boot_world w_state w_heap w_next_handle update srv_state quota_state];
      rewrite ?(boot_srv _ _ _ Hb), ?(boot_quota _ _ _ Hb).
    + done.
    + cbn [services length seq map app]. by rewrite Nat.sub_0_r.
    + done.
    + by intros l s' Hl.
    + done.
    + cbn [service_quotas]. apply length_replicate.
  - done.
  - split.
    + unfold area_ok, boot_area, shared_size in *. cbn. lia.
    + split; cbn [boot_world w_state w_hw hw_mem slot_state update slot_data slot_zero slot_queue_available].
      * by rewrite (boot_data _ _ _ Hb).
      * by rewrite (boot_data _ _ _ Hb).
      * apply (boot_addresses _ _ _ Hb).
      * rewrite (proj2 (proj2 (boot_addresses _ _ _ Hb))).
        cbn [remote SlotZeroAccessor_new SharedStateAccessor_new trigger EventAccessor_new ev_inner
             area_base boot_area]. layout_simpl. lia.
      * apply (boot_available _ _ _ Hb).
      * intros k Hk. rewrite <- (boot_queue _ _ _ Hb) by done. f_equal.
        apply slot_queue_agree. rewrite (proj1 (proj2 (boot_addresses _ _ _ Hb))). apply Hag. lia.
    + destruct (boot_tx _ _ _ Hb) as [Ht Hp]. split; [exact Hp| |exact Ht|done].
      split; [|done]. change (stream_len []) with 0. unfold boot_area. cbn [area_count]. lia.
    + done.
    + done.
  - apply (boot_rx _ _ _ Hb).
  - split; [apply (boot_conn _ _ _ Hb)|done].
  - split; [done|]. apply ring_repr_empty.
Qed.

(** A new instance is one that was booted, with the component on top as it was given. *)
Lemma Instance_new_world x hw w :
  Instance_new x VCHIQ_MAX_SERVICES hw = Ret (Ok w) ->
  fresh w /\ w_client w = mkClient false Completion_default [] x.
Proof.
  unfold Instance_new. destruct (State_new_Ret (hw_mem hw)) as (s & m' & E & Hb). rewrite E.
  fold (boot_world x hw s m'). rewrite (State_initialize_Ret x hw _ _ _ Hb).
  destruct (set_vchiq_slot_base _) as [status|e]; [|done]. unfold bind_try, bind, ret.
  destruct (status =? 0); cbn; [|done]. intros [= <-]. split; [by apply (booted_fresh x hw _ _ _ Hb)|done].
Qed.

(** C23: [Instance::new] starts a fresh instance when the VideoCore accepts the address of the shared
    memory, and reports the failure otherwise. *)
Theorem Instance_new_spec (x : X) (hw : Hw) :
  ((forall a, set_vchiq_slot_base a = Ok 0) ->
     exists w, Instance_new x VCHIQ_MAX_SERVICES hw = Ret (Ok w) /\ fresh w) /\
  (forall status, status <> 0 -> (forall a, set_vchiq_slot_base a = Ok status) ->
     Instance_new x VCHIQ_MAX_SERVICES hw = Ret (Err (EGeneric "unable to set VCHIQ base address"))) /\
  (forall e, (forall a, set_vchiq_slot_base a = Err e) ->
     Instance_new x VCHIQ_MAX_SERVICES hw = Ret (Err e)).
Proof.
  destruct (State_new_Ret (hw_mem hw)) as (s & m' & E & Hb). unfold Instance_new. rewrite E.
  fold (boot_world x hw s m'). rewrite (State_initialize_Ret x hw _ _ _ Hb). split_and!.
  - intros Hs. rewrite Hs. eexists. split; [reflexivity|]. by eapply (booted_fresh x hw).
  - intros status Hne Hs. rewrite Hs. unfold bind_try, bind, ret.
    by rewrite (proj2 (Z.eqb_neq _ _)).
  - intros e Hs. by rewrite Hs.
Qed.
End instance.
