(* ===== verification/Connection.v ===== *)
(** The handshakes with the VideoCore: connecting, opening and closing a service, from the call of
    the client through the messages sent to the handling of the answer. *)

From S2P Require Import Prelude Locks Memory Layout Types SlotMessage Event SlotZero Slot Service.
From S2P Require Import State SlotHandler Registry Stream Transmit Receive.

Section connection.
Context {L : LockLib} {LL : LockLaws L} {CB : Callbacks} {C : Type} {H : CallbackHost C}.
Implicit Types w : World C.

(** ** Messages without payload *)

Definition control_message (t : MessageType) (src dst : Z) : SlotMessage :=
  sent_message (make_msg_id t src dst) None.

Lemma make_msg_id_u32 t src dst : 0 <= src < 4096 -> 0 <= dst < 4096 -> is_u32 (make_msg_id t src dst).
Proof.
  intros Hs Hd. rewrite make_msg_id_val by done. pose proof (MessageType_val_range t).
  unfold is_u32. lia.
Qed.

Lemma make_msg_id_fields t src dst :
  0 <= src < 4096 -> 0 <= dst < 4096 ->
  msg_type_from_id (make_msg_id t src dst) = Ret t /\ src_port_from_id (make_msg_id t src dst) = src /\
  dst_port_from_id (make_msg_id t src dst) = dst.
Proof.
  intros Hs Hd. pose proof (MessageType_val_range t).
  rewrite src_port_from_id_val, dst_port_from_id_val, make_msg_id_val by (rewrite ?make_msg_id_val; lia).
  unfold msg_type_from_id. rewrite Z.shiftr_div_pow2 by lia. split_and!; try zdiv.
  rewrite <- (MessageType_from_val t). f_equal. zdiv.
Qed.

Lemma control_fits t src dst : 0 <= src < 4096 -> 0 <= dst < 4096 -> fits (control_message t src dst).
Proof.
  intros Hs Hd. split; [|by vm_compute]. split; [by apply make_msg_id_u32|]. split; [|done]. by vm_compute.
Qed.

Lemma control_stride t src dst : stride (control_message t src dst) = 8.
Proof. reflexivity. Qed.

(** There is room for a message of 8 bytes whenever there is a slot left. *)
Lemma room_8 a msgs w : tx_stream a msgs w -> 8 <= room (stream_len msgs).
Proof.
  intros Hs. destruct (at_range _ _ _ _ (stream_pos _ _ _ Hs)) as [Hr Hal].
  destruct (room_aligned (stream_len msgs)); [lia|done|done].
Qed.

(** Sending one for no service. *)
Lemma queue_control a msgs w fuel b t src dst :
  tx_stream a msgs w -> stream_len msgs < area_count a * 4096 -> t <> DATA ->
  0 <= src < 4096 -> 0 <= dst < 4096 ->
  exists w', queue_message fuel None (make_msg_id t src dst) None b w = Ret (Ok tt, w') /\
    tx_stream a (msgs ++ [control_message t src dst]) w' /\ io_frame w w' /\ same_conn w w'.
Proof.
  intros Hs Hlt Ht Hsrc Hdst.
  destruct (queue_message_stream a msgs w fuel None (make_msg_id t src dst) None b t)
    as (w' & E & Hs' & _ & _ & _ & _ & _ & Hc); try done.
  - by apply make_msg_id_fields.
  - by apply may_send_control.
  - by apply control_fits.
  - by apply (room_8 _ _ _ Hs).
  - exists w'. split_and!; try done. by eapply queue_message_None_frame.
Qed.

(** ** Connecting *)

(** What the client does until it waits. *)
Lemma connect_start_Ret a msgs w :
  tx_stream a msgs w -> stream_len msgs < area_count a * 4096 ->
  State.initialized (w_state w) = true -> conn_state (w_state w) = DISCONNECTED ->
  exists w', connect_start w = Ret (Ok true, w') /\
    tx_stream a (msgs ++ [control_message CONNECT 0 0]) w' /\
    conn_state (w_state w') = CONNECTING /\ connect_sem (w_state w') = connect_sem (w_state w).
Proof.
  intros Hs Hlt Hi Hc. unfold connect_start. rewrite bind_gets, Hi, Hc. cbn [negb].
  rewrite decide_True by done.
  destruct (queue_control a msgs w 0 true CONNECT 0 0) as (w1 & E & [Hok Ha Hat Hf Hm] & _ & Hsc); try done.
  exists (w1 <| w_state ::= fun s => s <| conn_state := CONNECTING |> |>). split_and!; try done.
  - etransitivity; [eapply bind_try_Ok; by erewrite bind_try_Ok by exact E|]. reflexivity.
  - split; try done; [by destruct Ha|by destruct Hat].
  - apply (same_connect_sem _ _ Hsc).
Qed.

(** While there is no permit the client keeps waiting. *)
Lemma connect_waits w k env :
  apermits (connect_sem (w_state w)) = 0 ->
  run_with (replicate k (ret tt) ++ env)
    (Await poll_connect (fun _ => Step (set_conn_state CONNECTED) (fun _ => Done (Ok tt)))
       : Async (World C) (VchiqResult unit)) w =
  run_with env (Await poll_connect (fun _ => Step (set_conn_state CONNECTED) (fun _ => Done (Ok tt)))) w.
Proof.
  intros Hp. induction k as [|k IH]; [done|]. cbn [replicate app].
  etransitivity; [|exact IH]. eapply run_with_pending; [|reflexivity].
  apply poll_Await_pending. unfold poll_connect. by rewrite bind_gets, poll_down_none.
Qed.

(** C18: connecting.  On an initialized, disconnected state [State::connect] sends CONNECT and then
    waits, however often it is polled, until the slot handler has handled the CONNECT message of the
    VideoCore; then it returns [Ok], connected.  On a state that is not initialized it fails at once. *)
Theorem connect_handshake (a : Area) (msgs : list SlotMessage) (w : World C) (k : nat) :
  (State.initialized (w_state w) = false ->
     run_with [] State_connect w = Ret (Some (Err (EVchiq StateNotInitialized)), w)) /\
  (tx_stream a msgs w -> stream_len msgs < area_count a * 4096 ->
   State.initialized (w_state w) = true -> conn_state (w_state w) = DISCONNECTED ->
   apermits (connect_sem (w_state w)) = 0 ->
   exists w1 w2,
     run_with (replicate k (ret tt)) State_connect w = Ret (None, w1) /\
     conn_state (w_state w1) = CONNECTING /\ tx_stream a (msgs ++ [control_message CONNECT 0 0]) w1 /\
     run_with (replicate k (ret tt) ++ [process (control_message CONNECT 0 0)]) State_connect w =
       Ret (Some (Ok tt), w2) /\
     conn_state (w_state w2) = CONNECTED).
Proof.
  split.
  - intros Hi. apply run_with_ready. unfold State_connect, abind_try, astep. cbn [abind poll].
    unfold connect_start. erewrite bind_Ret; [|rewrite bind_gets, Hi; reflexivity]. reflexivity.
  - intros Hs Hlt Hi Hc Hp.
    destruct (connect_start_Ret a msgs w Hs Hlt Hi Hc) as (w1 & E & Hs1 & Hc1 & Hsem).
    set (rest := Await poll_connect (fun _ => Step (set_conn_state CONNECTED) (fun _ => Done (Ok tt)))
                   : Async (World C) (VchiqResult unit)).
    assert (forall env, run_with env State_connect w = run_with env rest w1) as Hrun.
    { intros env. unfold State_connect, abind_try, astep. destruct env; cbn [abind run_with poll];
        unfold bind at 1; (erewrite bind_Ret by exact E); reflexivity. }
    assert (apermits (connect_sem (w_state w1)) = 0) as Hp1 by by rewrite Hsem.
    assert (poll rest w1 = Ret (inr rest, w1)) as Hpend.
    { apply poll_Await_pending. unfold poll_connect. by rewrite bind_gets, poll_down_none. }
    destruct (poll_down_up (connect_sem (w_state w1))) as (c & Ec & _).
    exists w1. eexists. rewrite !Hrun. split_and!.
    + rewrite <- (app_nil_r (replicate k _)). unfold rest. rewrite connect_waits by done.
      fold rest. cbn [run_with]. by erewrite bind_Ret by exact Hpend.
    + done.
    + done.
    + unfold rest. rewrite connect_waits by done. fold rest.
      etransitivity; [eapply run_with_pending; [exact Hpend|reflexivity]|].
      apply run_with_ready. cbn [poll rest]. unfold poll_connect. rewrite !bind_assoc, bind_gets.
      cbn [w_state update connect_sem]. rewrite Ec. reflexivity.
    + done.
Qed.

(** ** Messages for a service *)

(** A message with payload [d] from port [src] of the VideoCore for port [dst] of this side. *)
Definition vc_message (t : MessageType) (src dst : Z) (d : list Z) : SlotMessage :=
  mkMessage (mkHeader (make_msg_id t src dst) (Z.of_nat (length d))) d.

(** Service number [l] is in use. *)
Record in_use (w : World C) (l : nat) (s : Service) : Prop := {
  use_inv : reg_inv w;
  use_service : w_heap w !! l = Some s;
  use_state : srvstate s <> ServiceState.FREE;
}.

Lemma in_use_port w l s : in_use w l s -> localport s = Z.of_nat l /\ 0 <= localport s < 4096.
Proof.
  intros [Hi Hs _]. destruct (inv_heap _ Hi _ _ Hs) as (-> & _). apply lookup_lt_Some in Hs as Hl.
  pose proof (inv_count _ Hi). change VCHIQ_MAX_SERVICES with 4096 in *. lia.
Qed.

Lemma in_use_by_port w l s : in_use w l s -> service_by_port (localport s) w = Ret (Some l, w).
Proof.
  intros Hu. destruct (in_use_port _ _ _ Hu) as [Hp Hr]. destruct Hu as [Hi Hs Hst].
  rewrite service_by_port_Ret by done. unfold port_index. rewrite Hp, Nat2Z.id, Hs.
  by rewrite decide_False.
Qed.

Lemma in_use_by_handle w l s : in_use w l s -> service_from_handle (handle s) w = Ret (Ok l, w).
Proof.
  intros [Hi Hs Hst]. rewrite service_from_handle_Ret by done. unfold handle_index.
  destruct (inv_heap _ Hi _ _ Hs) as (_ & -> & _). apply lookup_lt_Some in Hs as Hl.
  rewrite decide_True by lia. do 3 f_equal. lia.
Qed.

(** The service a message of the VideoCore is handled for. *)
Lemma process_service t src d w l s :
  in_use w l s -> 0 <= src < 4096 -> 
  t = OPENACK \/ t = DATA \/ (t = CLOSE /\ (remoteport s = src \/ remoteport s = VCHIQ_PORT_FREE)) ->
  process (vc_message t src (localport s) d) w =
    dispatch t (Some l) src (vc_message t src (localport s) d) w.
Proof.
  intros Hu Hsrc Ht. destruct (in_use_port _ _ _ Hu) as [_ Hr].
  destruct (make_msg_id_fields t src (localport s) Hsrc Hr) as (Et & Es & Ed).
  unfold process. cbn [vc_message header msgid]. rewrite Et, Es, Ed.
  erewrite bind_Ret by reflexivity.
  assert (message_service t (localport s) src w = Ret (Some l, w)) as Em.
  { destruct Ht as [->|[->|[-> Hrem]]]; cbn [message_service];
      erewrite bind_Ret by (by apply in_use_by_port); [done|done|].
    cbv beta iota. erewrite bind_Ret by (apply get_service_Ret, Hu).
    destruct Hrem as [->| ->]; by rewrite Z.eqb_refl, ?andb_false_r. }
  by erewrite bind_Ret by exact Em.
Qed.

(** The slot handler on a CLOSE of the VideoCore for the service. *)
Lemma process_close_Ret w l s src :
  in_use w l s -> 0 <= src < 4096 -> remoteport s = src \/ remoteport s = VCHIQ_PORT_FREE ->
  process (vc_message CLOSE src (localport s) []) w =
    Ret (tt, with_service (quota_raised w (Z.to_nat (localport s))) l (close_received s)).
Proof.
  intros Hu Hsrc Hrem. destruct (in_use_port _ _ _ Hu) as [_ Hport].
  rewrite (process_service CLOSE src [] w l s) by tauto.
  cbn [dispatch unwrap]. rewrite bind_ret_l. apply handle_close_Ret; [apply Hu|].
  rewrite (inv_quotas _ (use_inv _ _ _ Hu)). change (Z.of_nat (Z.to_nat VCHIQ_MAX_SERVICES)) with 4096. lia.
Qed.

(** ** Opening a service *)

Definition open_message {R : OpenPayloadRepr} (s : Service) : SlotMessage :=
  sent_message (make_msg_id OPEN (localport s) 0)
    (Some (open_payload_image (mkOpenPayload (fourcc (base s)) 0 (version s) (version_min s)))).

Lemma open_message_fits {R : OpenPayloadRepr} w l s : in_use w l s -> fits (open_message s).
Proof.
  intros Hu. destruct (in_use_port _ _ _ Hu) as [_ Hr]. unfold open_message, sent_message.
  split; [split; [|split]|]; cbn [header data msgid msg_size]; rewrite ?open_payload_size.
  - by apply make_msg_id_u32.
  - by vm_compute.
  - done.
  - by vm_compute.
Qed.

Lemma open_message_stride {R : OpenPayloadRepr} s : stride (open_message s) = 24.
Proof. unfold stride, open_message, sent_message. cbn [data]. by rewrite open_payload_size. Qed.

(** What the client does until it waits: OPEN is sent, the service is as before. *)
Lemma open_start_Ret {R : OpenPayloadRepr} a msgs w l s :
  tx_stream a msgs w -> 24 <= room (stream_len msgs) -> stream_len msgs < area_count a * 4096 ->
  in_use w l s ->
  exists w', open_start (handle s) w = Ret (Ok tt, w') /\ tx_stream a (msgs ++ [open_message s]) w' /\
    in_use w' l s /\ w_client w' = w_client w /\ w_heap w' = w_heap w /\
    quota_state (w_state w') = quota_state (w_state w).
Proof.
  intros Hs Hroom Hlt Hu. destruct (in_use_port _ _ _ Hu) as [_ Hr].
  destruct (queue_message_stream a msgs w 0 None (make_msg_id OPEN (localport s) 0)
    (Some (open_payload_image (mkOpenPayload (fourcc (base s)) 0 (version s) (version_min s)))) true OPEN)
    as (w' & E & Hs' & _ & _ & _ & _ & Hq & _); try done.
  - by apply make_msg_id_fields.
  - by eapply open_message_fits.
  - fold (open_message s). by rewrite open_message_stride.
  - exists w'. split_and!.
    + unfold open_start. erewrite bind_Ret by by apply in_use_by_handle. cbn [unwrap_result].
      rewrite bind_ret_l. by erewrite bind_Ret by (apply get_service_Ret, Hu).
    + exact Hs'.
    + apply queue_message_None_frame in E. destruct Hu as [Hi Hh Hst].
      split; [by apply (io_frame_step _ _ E)| |done]. by rewrite (frame_heap _ _ E).
    + by apply queue_message_None_frame, frame_client in E.
    + by apply queue_message_None_frame, frame_heap in E.
    + exact Hq.
Qed.

(** A poll for the answer: pending until the event of the service was raised. *)
Lemma poll_open_pending w l s :
  in_use w l s -> permits (remove_event s) = 0 -> poll_open (handle s) w = Ret (None, w).
Proof.
  intros Hu Hp. unfold poll_open. erewrite bind_Ret by by apply in_use_by_handle. cbn [unwrap_result].
  rewrite bind_ret_l. pose proof (get_service_Ret _ _ _ (use_service _ _ _ Hu)) as Hg.
  erewrite bind_Ret.
  2: { unfold try_down_remove_event. erewrite bind_Ret by exact Hg. by rewrite try_down_none. }
  by erewrite bind_Ret by exact Hg.
Qed.

Lemma poll_open_ready w l s :
  in_use w l s -> 0 < permits (remove_event s) ->
  exists e, poll_open (handle s) w = Ret (Some (srvstate s), with_service w l (s <| remove_event := e |>)) /\
    permits e = permits (remove_event s) - 1.
Proof.
  intros Hu Hp. destruct (try_down_some _ Hp) as (e & E & Hpe). exists e. split; [|exact Hpe].
  unfold poll_open. erewrite bind_Ret by by apply in_use_by_handle. cbn [unwrap_result].
  rewrite bind_ret_l. pose proof (use_service _ _ _ Hu) as Hs.
  erewrite bind_Ret.
  2: { unfold try_down_remove_event. erewrite bind_Ret by by apply get_service_Ret. rewrite E.
       by erewrite upd_service_bind. }
  by erewrite bind_Ret by (apply get_service_Ret; by eapply with_service_lookup).
Qed.

(** The rest of [open_service] once OPEN was sent. *)
Lemma run_open {R : OpenPayloadRepr} w1 w l s env :
  open_start (handle s) w = Ret (Ok tt, w1) -> in_use w1 l s -> permits (remove_event s) = 0 ->
  run_with env (open_service (handle s)) w =
    match env with
    | [] => Ret (None, w1)
    | e :: env => bind e (fun _ => run_with env (Await (poll_open (handle s))
                                       (fun st => Done (open_result (handle s) st)))) w1
    end.
Proof.
  intros E Hu Hp.
  assert (poll (open_service (handle s)) w =
    Ret (inr (Await (poll_open (handle s)) (fun st => Done (open_result (handle s) st))), w1)) as Hpoll.
  { unfold open_service, abind_try, astep. cbn [abind poll]. erewrite bind_Ret by exact E.
    cbn [abind poll]. by erewrite bind_Ret by by eapply poll_open_pending. }
  destruct env; cbn [run_with]; by erewrite bind_Ret by exact Hpoll.
Qed.

Lemma in_use_with_service w l s s' :
  in_use w l s -> svc_evolves s s' -> srvstate s' <> ServiceState.FREE -> in_use (with_service w l s') l s'.
Proof.
  intros [Hi Hs _] He Hst. split; [|by eapply with_service_lookup|done].
  by apply (with_service_step w l s s' Hs He Hi).
Qed.

(** The answer of the VideoCore, and what the client makes of it. *)
Lemma run_open_answer {R : OpenPayloadRepr} w1 w l s s2 w2 answer :
  open_start (handle s) w = Ret (Ok tt, w1) -> in_use w1 l s -> permits (remove_event s) = 0 ->
  process answer w1 = Ret (tt, w2) -> in_use w2 l s2 -> handle s2 = handle s ->
  0 < permits (remove_event s2) ->
  exists e, run_with [process answer] (open_service (handle s)) w =
    Ret (Some (open_result (handle s) (srvstate s2)), with_service w2 l (s2 <| remove_event := e |>)) /\
    permits e = permits (remove_event s2) - 1.
Proof.
  intros E Hu Hp Ea Hu2 Hh Hp2. destruct (poll_open_ready w2 l s2 Hu2 Hp2) as (e & Er & Hpe). exists e. split; [|exact Hpe].
  erewrite run_open by done. cbn [run_with]. erewrite bind_Ret by exact Ea. cbn [poll].
  rewrite <- Hh. erewrite bind_Ret; [|erewrite bind_Ret by exact Er; reflexivity]. reflexivity.
Qed.

(** Opening, up to the answer and after it. *)
Lemma open_answered {R : OpenPayloadRepr} (a : Area) (msgs : list SlotMessage) (w : World C)
    (l : nat) (s : Service) (rp : Z) (d : list Z) :
  tx_stream a msgs w -> 24 <= room (stream_len msgs) -> stream_len msgs < area_count a * 4096 ->
  in_use w l s -> srvstate s = ServiceState.OPENING -> permits (remove_event s) = 0 ->
  0 <= rp < 4096 ->
  exists w1 e,
    let s2 := (openacked rp (vc_message OPENACK rp (localport s) d) s) <| remove_event := e |> in
    let w2 := with_service w1 l s2 in
    run_with [] (open_service (handle s)) w = Ret (None, w1) /\
    tx_stream a (msgs ++ [open_message s]) w1 /\ w_heap w1 = w_heap w /\ w_client w1 = w_client w /\
    quota_state (w_state w1) = quota_state (w_state w) /\
    run_with [process (vc_message OPENACK rp (localport s) d)] (open_service (handle s)) w =
      Ret (Some (Ok tt), w2) /\
    in_use w2 l s2 /\ srvstate s2 = ServiceState.OPEN /\ remoteport s2 = rp /\ permits e = permits (remove_event s) /\
    (2 <= Z.of_nat (length d) -> peer_version s2 = le_val (take 2 d)).
Proof.
  intros Hs Hroom Hlt Hu Hst Hp Hrp.
  destruct (open_start_Ret a msgs w l s Hs Hroom Hlt Hu) as (w1 & E & Hs1 & Hu1 & Hc1 & Hh1 & Hq1).
  set (msg := vc_message OPENACK rp (localport s) d). set (s2 := openacked rp msg s).
  pose proof (openacked_evolves rp msg s) as He. fold s2 in He.
  assert (srvstate s2 = ServiceState.OPEN /\ remoteport s2 = rp /\
    permits (remove_event s2) = permits (remove_event s) + 1 /\
    (2 <= Z.of_nat (length d) -> peer_version s2 = le_val (take 2 d))) as (H1 & H2 & H3 & H4).
  { unfold s2, openacked, OpenAckPayload_try_from, msg. cbn [vc_message header msg_size data].
    destruct (Z.ltb_spec (Z.of_nat (length d)) 2) as [Hlt2|Hge]; cbv zeta;
      rewrite decide_True by done; cbn; rewrite ?permits_up; split_and!; done || lia. }
  assert (process msg w1 = Ret (tt, with_service w1 l s2)) as Ea.
  { unfold msg. rewrite (process_service OPENACK rp d w1 l s) by tauto.
    cbn [dispatch unwrap]. rewrite bind_ret_l. apply handle_openack_Ret, Hu1. }
  assert (in_use (with_service w1 l s2) l s2) as Hu2.
  { eapply in_use_with_service; [done..|]. by rewrite H1. }
  destruct (run_open_answer w1 w l s s2 _ msg E Hu1 Hp Ea Hu2) as (e & Er & Hpe);
    [apply He|lia|].
  rewrite with_service_twice in Er. rewrite H1 in Er. exists w1, e. cbv zeta. split_and!; try done.
  - by erewrite run_open by done.
  - rewrite <- (with_service_twice w1 l s2). eapply in_use_with_service; [done|by split|].
    change (srvstate s2 <> ServiceState.FREE). by rewrite H1.
  - lia.
Qed.

(** C16: opening a service.  [open_service] sends OPEN with the port of the service and waits.  When
    the slot handler has handled an OPENACK for that port, the service is OPEN, connected to the
    port of the VideoCore, with the version it reported, and [open_service] returns [Ok]. *)
Theorem open_handshake {R : OpenPayloadRepr} (a : Area) (msgs : list SlotMessage) (w : World C)
    (l : nat) (s : Service) (rp : Z) (d : list Z) :
  tx_stream a msgs w -> 24 <= room (stream_len msgs) -> stream_len msgs < area_count a * 4096 ->
  in_use w l s -> srvstate s = ServiceState.OPENING -> permits (remove_event s) = 0 ->
  0 <= rp < 4096 ->
  exists w1 w2 s2,
    run_with [] (open_service (handle s)) w = Ret (None, w1) /\
    tx_stream a (msgs ++ [open_message s]) w1 /\ w_heap w1 !! l = Some s /\
    run_with [process (vc_message OPENACK rp (localport s) d)] (open_service (handle s)) w =
      Ret (Some (Ok tt), w2) /\
    w_heap w2 !! l = Some s2 /\ srvstate s2 = ServiceState.OPEN /\ remoteport s2 = rp /\
    (2 <= Z.of_nat (length d) -> peer_version s2 = le_val (take 2 d)).
Proof.
  intros Hs Hroom Hlt Hu Hst Hp Hrp.
  destruct (open_answered a msgs w l s rp d Hs Hroom Hlt Hu Hst Hp Hrp)
    as (w1 & e & E1 & Hs1 & Hh & _ & _ & E2 & [_ Hh2 _] & Ho & Hr & _ & Hv).
  exists w1. eexists _, _. split_and!; try done. rewrite Hh. apply Hu.
Qed.

(** C34: a refused service counts as opened.  When the VideoCore answers OPEN with CLOSE instead, the
    service goes to CLOSEWAIT, and [open_service] returns [Ok] all the same. *)
Theorem open_refused_returns_ok {R : OpenPayloadRepr} (a : Area) (msgs : list SlotMessage) (w : World C)
    (l : nat) (s : Service) (rp : Z) :
  tx_stream a msgs w -> 24 <= room (stream_len msgs) -> stream_len msgs < area_count a * 4096 ->
  in_use w l s -> srvstate s = ServiceState.OPENING -> remoteport s = VCHIQ_PORT_FREE ->
  permits (remove_event s) = 0 -> 0 <= rp < 4096 ->
  exists w2 s2,
    run_with [process (vc_message CLOSE rp (localport s) [])] (open_service (handle s)) w =
      Ret (Some (Ok tt), w2) /\
    w_heap w2 !! l = Some s2 /\ srvstate s2 = ServiceState.CLOSEWAIT /\ closing s2 = true.
Proof.
  intros Hs Hroom Hlt Hu Hst Hrem Hp Hrp.
  destruct (open_start_Ret a msgs w l s Hs Hroom Hlt Hu) as (w1 & E & Hs1 & Hu1 & _).
  set (msg := vc_message CLOSE rp (localport s) []). set (s2 := close_received s).
  pose proof (close_received_evolves s) as He. fold s2 in He.
  assert (srvstate s2 = ServiceState.CLOSEWAIT /\ closing s2 = true /\
    permits (remove_event s2) = permits (remove_event s) + 1) as (H1 & H2 & H3).
  { unfold s2, close_received. cbv zeta. change (srvstate (s <| closing := true |>)) with (srvstate s).
    rewrite Hst. cbn. by rewrite permits_up. }
  destruct (in_use_port _ _ _ Hu1) as [Hport Hr].
  set (w1' := quota_raised w1 (Z.to_nat (localport s))).
  assert (in_use w1' l s) as Hu1'.
  { destruct Hu1 as [Hi Hh ?]. split; [|done|done]. by apply (io_frame_step _ _ (quota_raised_frame w1 _) Hi). }
  assert (process msg w1 = Ret (tt, with_service w1' l s2)) as Ea.
  { apply (process_close_Ret w1 l s rp Hu1); [lia|tauto]. }
  assert (in_use (with_service w1' l s2) l s2) as Hu2.
  { eapply in_use_with_service; [done..|]. by rewrite H1. }
  destruct (run_open_answer w1 w l s s2 _ msg E Hu1 Hp Ea Hu2) as (e & Er & _); [apply He|lia|].
  rewrite H1 in Er. eexists _, (s2 <| remove_event := e |>). split; [exact Er|].
  split; [|done]. eapply with_service_lookup, Hu2.
Qed.

(** ** Closing a service *)

Lemma by_handle w l s :
  reg_inv w -> w_heap w !! l = Some s -> service_from_handle (handle s) w = Ret (Ok l, w).
Proof.
  intros Hi Hs. rewrite service_from_handle_Ret by done. unfold handle_index.
  destruct (inv_heap _ Hi _ _ Hs) as (_ & -> & _). apply lookup_lt_Some in Hs as Hl.
  rewrite decide_True by lia. do 3 f_equal. lia.
Qed.

Lemma poll_close_pending w l s :
  reg_inv w -> w_heap w !! l = Some s -> permits (remove_event s) = 0 ->
  poll_close (handle s) w = Ret (None, w).
Proof.
  intros Hi Hs Hp. unfold poll_close. erewrite bind_Ret by by eapply by_handle. cbn [unwrap_result].
  rewrite bind_ret_l. pose proof (get_service_Ret _ _ _ Hs) as Hg.
  erewrite bind_Ret.
  2: { unfold try_down_remove_event. erewrite bind_Ret by exact Hg. by rewrite try_down_none. }
  by erewrite bind_Ret by exact Hg.
Qed.

Lemma poll_close_freed w l s :
  reg_inv w -> w_heap w !! l = Some s -> 0 < permits (remove_event s) -> srvstate s = ServiceState.FREE ->
  exists e, poll_close (handle s) w = Ret (Some (Ok tt), with_service w l (s <| remove_event := e |>)).
Proof.
  intros Hi Hs Hp Hst. destruct (try_down_some _ Hp) as (e & E & _). exists e.
  unfold poll_close. erewrite bind_Ret by by eapply by_handle. cbn [unwrap_result].
  rewrite bind_ret_l. erewrite bind_Ret.
  2: { unfold try_down_remove_event. erewrite bind_Ret by by apply get_service_Ret. rewrite E.
       by erewrite upd_service_bind. }
  erewrite bind_Ret by (apply get_service_Ret; by eapply with_service_lookup).
  cbn [srvstate update]. by rewrite Hst.
Qed.

(** The service after its CLOSE was sent. *)
Definition closing_sent (s : Service) : Service :=
  set_state ServiceState.CLOSESENT (s <| closing := true |>).

(** What the client does until it waits. *)
Lemma close_start_Ret a msgs w l s :
  tx_stream a msgs w -> stream_len msgs < area_count a * 4096 ->
  in_use w l s -> srvstate s = ServiceState.OPEN -> 0 <= remoteport s < 4096 ->
  exists w', close_start (handle s) w = Ret (Ok tt, w') /\
    tx_stream a (msgs ++ [control_message CLOSE (localport s) (remoteport s)]) w' /\
    reg_inv w' /\ w_heap w' !! l = Some (closing_sent s) /\ w_client w' = w_client w.
Proof.
  intros Hs Hlt Hu Hst Hrem. pose proof Hu as [Hi Hh _]. destruct (in_use_port _ _ _ Hu) as [_ Hport].
  set (s1 := s <| closing := true |>). set (w1 := with_service w l s1).
  assert (w_heap w1 !! l = Some s1) as Hh1 by by eapply with_service_lookup.
  assert (tx_stream a msgs w1) as Hs1.
  { destruct Hs as [? Ha Hat ? ?]. split; try done; [by destruct Ha|by destruct Hat]. }
  set (id := make_msg_id CLOSE (localport s) (remoteport s)).
  assert (msg_type_from_id id = Ret CLOSE) as Et by by apply make_msg_id_fields.
  assert (may_send 0 (Some l) CLOSE (stride (sent_message id None)) w1) as Hms.
  { split; [done|]. split; [done|]. intros l' [= <-] _. by exists s1. }
  destruct (queue_message_stream a msgs w1 0 (Some l) id None false CLOSE)
    as (w2 & E & Hs2 & _ & _ & _ & Hheap & _ & Hcl); try done.
  { by apply control_fits. }
  { by apply (room_8 _ _ _ Hs). }
  assert (w_heap w2 !! l = Some (closing_sent s)) as Hh2.
  { rewrite Hheap. unfold sent_heap. rewrite decide_True by done.
    by rewrite list_lookup_alter_eq, Hh1. }
  assert (close_start (handle s) w = Ret (Ok tt, w2)) as Ec.
  { unfold close_start. erewrite bind_try_Ok by by apply in_use_by_handle.
    erewrite bind_Ret by by apply get_service_Ret. rewrite Hst.
    erewrite upd_service_bind by done. fold s1 w1.
    unfold close_service_internal. erewrite bind_Ret by by apply get_service_Ret.
    change (srvstate s1) with (srvstate s). rewrite Hst.
    assert (queue_close l w1 = Ret (Ok tt, w2)) as Eq.
    { unfold queue_close. erewrite bind_Ret by by apply get_service_Ret.
      rewrite (land_mask _ 12) by done. change (remoteport s1) with (remoteport s).
      change (2 ^ 12) with 4096. rewrite Z.mod_small by done. exact E. }
    erewrite bind_Ret by exact Eq. cbv beta iota.
    erewrite bind_Ret by by apply upd_service_Ret. unfold ret. do 2 f_equal.
    by apply with_service_self. }
  exists w2. split_and!; try done; [by apply (close_start_step _ _ _ _ Ec Hi)|].
  by rewrite (same_client _ _ Hcl).
Qed.

(** Closing, up to the answer and after it. *)
Lemma close_answered (a : Area) (msgs : list SlotMessage) (w : World C) (l : nat) (s : Service) :
  tx_stream a msgs w -> stream_len msgs < area_count a * 4096 ->
  in_use w l s -> srvstate s = ServiceState.OPEN -> 0 <= remoteport s < 4096 ->
  permits (remove_event s) = 0 ->
  exists w1 w2 s2,
    run_with [] (close_service (handle s)) w = Ret (None, w1) /\
    tx_stream a (msgs ++ [control_message CLOSE (localport s) (remoteport s)]) w1 /\
    w_heap w1 !! l = Some (closing_sent s) /\
    run_with [process (vc_message CLOSE (remoteport s) (localport s) [])] (close_service (handle s)) w =
      Ret (Some (Ok tt), w2) /\
    w_heap w2 !! l = Some s2 /\ srvstate s2 = ServiceState.FREE /\ remoteport s2 = VCHIQ_PORT_FREE /\
    w_client w2 = w_client w.
Proof.
  intros Hs Hlt Hu Hst Hrem Hp.
  destruct (close_start_Ret a msgs w l s Hs Hlt Hu Hst Hrem) as (w1 & E & Hs1 & Hi1 & Hh1 & Hc1).
  set (s1 := closing_sent s) in *. set (rest := Await (poll_close (handle s)) Done : Async (World C) _).
  assert (poll (close_service (handle s)) w = Ret (inr rest, w1)) as Hpoll.
  { unfold close_service, abind_try, astep. cbn [abind poll]. erewrite bind_Ret by exact E.
    apply poll_Await_pending. by apply (poll_close_pending w1 l s1). }
  assert (in_use w1 l s1) as Hu1 by by split.
  set (msg := vc_message CLOSE (remoteport s) (localport s) []).
  set (w1' := quota_raised w1 (Z.to_nat (localport s))). set (s2 := close_received s1).
  assert (process msg w1 = Ret (tt, with_service w1' l s2)) as Ea
    by exact (process_close_Ret w1 l s1 (remoteport s) Hu1 Hrem (or_introl eq_refl)).
  assert (w_heap (with_service w1' l s2) !! l = Some s2) as Hh2 by by eapply with_service_lookup.
  assert (reg_inv (with_service w1' l s2)) as Hi2.
  { assert (reg_inv w1') as Hi1' by by apply (io_frame_step _ _ (quota_raised_frame w1 _) Hi1).
    by apply (with_service_step w1' l s1 s2 Hh1 (close_received_evolves s1) Hi1'). }
  destruct (poll_close_freed _ l s2 Hi2 Hh2) as (e & Er).
  { unfold s2, s1. cbn. rewrite permits_up, Hp. lia. }
  { done. }
  exists w1, (with_service (with_service w1' l s2) l (s2 <| remove_event := e |>)), (s2 <| remove_event := e |>).
  split_and!; try done.
  - cbn [run_with]. by erewrite bind_Ret by exact Hpoll.
  - etransitivity; [eapply run_with_pending; [exact Hpoll|exact Ea]|].
    apply run_with_ready. cbn [poll rest]. change (handle s) with (handle s2).
    by erewrite bind_Ret by exact Er.
  - by eapply with_service_lookup.
Qed.

(** C17: closing a service.  [close_service] on an open service sends CLOSE with the ports of both
    sides and waits, the service being in CLOSESENT.  When the slot handler has handled the CLOSE of
    the VideoCore, the service is FREE, has no remote port, and [close_service] returns [Ok]. *)
Theorem close_handshake (a : Area) (msgs : list SlotMessage) (w : World C) (l : nat) (s : Service) :
  tx_stream a msgs w -> stream_len msgs < area_count a * 4096 ->
  in_use w l s -> srvstate s = ServiceState.OPEN -> 0 <= remoteport s < 4096 ->
  permits (remove_event s) = 0 ->
  exists w1 w2 s2,
    run_with [] (close_service (handle s)) w = Ret (None, w1) /\
    tx_stream a (msgs ++ [control_message CLOSE (localport s) (remoteport s)]) w1 /\
    w_heap w1 !! l = Some (closing_sent s) /\
    run_with [process (vc_message CLOSE (remoteport s) (localport s) [])] (close_service (handle s)) w =
      Ret (Some (Ok tt), w2) /\
    w_heap w2 !! l = Some s2 /\ srvstate s2 = ServiceState.FREE /\ remoteport s2 = VCHIQ_PORT_FREE.
Proof.
  intros Hs Hlt Hu Hst Hrem Hp.
  destruct (close_answered a msgs w l s Hs Hlt Hu Hst Hrem Hp)
    as (w1 & w2 & s2 & E1 & Hs1 & Hh1 & E2 & Hh2 & Hst2 & Hr2 & _).
  exists w1, w2, s2. by split_and!.
Qed.

(** C35: the other cases of [close_service].  An unknown handle and a service that is free are
    reported; a refused service is freed at once, without a message; and closing a service that is
    already being closed panics on a [todo!()]. *)
Theorem close_service_cases (w : World C) (h : ServiceHandle) (l : nat) (s : Service) :
  reg_inv w ->
  (handle_index w h = None ->
     run_with [] (close_service h) w = Ret (Some (Err (EVchiq (ServiceNotFound h))), w)) /\
  (w_heap w !! l = Some s ->
   (srvstate s = ServiceState.FREE ->
      run_with [] (close_service (handle s)) w =
        Ret (Some (Err (EVchiq (UnableToCloseService (handle s)))), w)) /\
   (srvstate s = ServiceState.CLOSEWAIT -> permits (remove_event s) = 0 ->
      exists w' s', run_with [] (close_service (handle s)) w = Ret (Some (Ok tt), w') /\
        w_heap w' !! l = Some s' /\ srvstate s' = ServiceState.FREE /\ w_hw w' = w_hw w) /\
   (srvstate s = ServiceState.CLOSESENT ->
      run_with [] (close_service (handle s)) w = Panic PTodo)).
Proof.
  intros Hi. split.
  { intros Hn. apply run_with_ready. unfold close_service, abind_try, astep. cbn [abind poll].
    assert (close_start h w = Ret (Err (EVchiq (ServiceNotFound h)), w)) as E.
    { unfold close_start. apply bind_try_Err. rewrite service_from_handle_Ret by done. by rewrite Hn. }
    by erewrite bind_Ret by exact E. }
  intros Hs. pose proof (by_handle _ _ _ Hi Hs) as Hl. pose proof (get_service_Ret _ _ _ Hs) as Hg.
  assert (forall st, srvstate s = st ->
    match st with ServiceState.FREE | ServiceState.LISTENING | ServiceState.HIDDEN => False | _ => True end ->
    close_start (handle s) w = close_service_internal l (with_service w l (s <| closing := true |>))) as Hstart.
  { intros st E Hst. unfold close_start. erewrite bind_try_Ok by exact Hl. erewrite bind_Ret by exact Hg.
    rewrite E. destruct st; try done; by erewrite upd_service_bind. }
  split_and!.
  - intros E. apply run_with_ready. unfold close_service, abind_try, astep. cbn [abind poll].
    assert (close_start (handle s) w = Ret (Err (EVchiq (UnableToCloseService (handle s))), w)) as Ec.
    { unfold close_start. erewrite bind_try_Ok by exact Hl. erewrite bind_Ret by exact Hg. by rewrite E. }
    by erewrite bind_Ret by exact Ec.
  - intros E Hp. set (s1 := s <| closing := true |>). set (w1 := with_service w l s1).
    assert (w_heap w1 !! l = Some s1) as Hh1 by by eapply with_service_lookup.
    set (s2 := freed s1).
    assert (srvstate s2 = ServiceState.FREE /\ permits (remove_event s2) = 1) as [E2 Hp2].
    { unfold s2, freed. change (srvstate s1) with (srvstate s). rewrite E. cbn. rewrite permits_up, Hp. done. }
    assert (close_start (handle s) w = Ret (Ok tt, with_service w1 l s2)) as Ec.
    { rewrite (Hstart _ E I). unfold close_service_internal.
      erewrite bind_Ret by by apply get_service_Ret. change (srvstate s1) with (srvstate s). rewrite E.
      by erewrite bind_Ret by by apply free_service_Ret. }
    assert (w_heap (with_service w1 l s2) !! l = Some s2) as Hh2 by by eapply with_service_lookup.
    pose proof (close_start_step _ _ _ _ Ec Hi) as [Hi2 _].
    destruct (poll_close_freed _ l s2 Hi2 Hh2) as (e & Er); [lia|done|].
    assert (handle s2 = handle s) as Hhd by (unfold s2, freed; by destruct (srvstate s1)).
    eexists _, (s2 <| remove_event := e |>). split; [|split; [by eapply with_service_lookup|done]].
    apply run_with_ready. unfold close_service, abind_try, astep. cbn [abind poll].
    erewrite bind_Ret by exact Ec. cbn [poll]. rewrite <- Hhd. by erewrite bind_Ret by exact Er.
  - intros E. cbn [run_with]. unfold close_service, abind_try, astep. cbn [abind poll]. unfold bind at 1 2.
    rewrite (Hstart _ E I). unfold close_service_internal.
    erewrite bind_Ret by (apply get_service_Ret; by eapply with_service_lookup).
    change (srvstate (s <| closing := true |>)) with (srvstate s). by rewrite E.
Qed.
End connection.
