(* ===== verification/Readers.v ===== *)
(** Readers and the slot handler, in any interleaving: which messages the clients of the VCHIQ
    instance get ([service_callback], [dequeue_message] of [src/vchiq/instance/mod.rs]).  A history
    records what the callback of a service was given and what [dequeue_message] returned.  The code
    does not see it: it lives in the component on top of the instance, of which [Instance] knows
    nothing. *)

From stdpp Require Import relations.
From S2P Require Import Prelude Locks Memory Layout Types SlotMessage Event SlotZero Slot Service.
From S2P Require Import State SlotHandler Completion Instance Registry CoreSteps Queues Concurrency System.
From S2P Require Import Stream Transmit Receive Boot Connection.

(** ** Histories *)

(** The callback of the service with handle [h] was given a message, and [announced] it in the completion
    queue; a client took a message; a client took completions. *)
Inductive event : Type :=
| Received (h : ServiceHandle) (message : SlotMessage) (announced : list ServiceCompletion)
| Taken (h : ServiceHandle) (d : list Z)
| Completed (cs : list ServiceCompletion).

(** What the service with handle [h] was given, and what was taken from it, in order. *)
Definition received (h : ServiceHandle) (es : list event) : list SlotMessage :=
  omap (fun e => match e with Received h' m _ => if decide (h' = h) then Some m else None | _ => None end) es.
Definition taken (h : ServiceHandle) (es : list event) : list (list Z) :=
  omap (fun e => match e with Taken h' d => if decide (h' = h) then Some d else None | _ => None end) es.

(** What was announced, and what was taken from the completion queue. *)
Definition announced (es : list event) : list ServiceCompletion :=
  es ≫= fun e => match e with Received _ _ cs => cs | _ => [] end.
Definition completed (es : list event) : list ServiceCompletion :=
  es ≫= fun e => match e with Completed cs => cs | _ => [] end.

(** At no time more than 128 messages of the service waited, and its positions did not wrap. *)
Definition roomy (h : ServiceHandle) (es : list event) : Prop :=
  Z.of_nat (length (received h es)) < 2 ^ 64 /\
  forall k, (length (received h (take k es)) <= length (taken h (take k es)) + 128)%nat.

(** At no time more than 128 completions waited. *)
Definition comp_roomy (es : list event) : Prop :=
  forall k, (length (announced (take k es)) <= length (completed (take k es)) + 128)%nat.

Lemma received_snoc h es e :
  received h (es ++ [e]) =
    received h es ++ match e with Received h' m _ => if decide (h' = h) then [m] else [] | _ => [] end.
Proof. unfold received. rewrite omap_app. f_equal. destruct e; cbn; by try case_decide. Qed.

Lemma taken_snoc h es e :
  taken h (es ++ [e]) =
    taken h es ++ match e with Taken h' d => if decide (h' = h) then [d] else [] | _ => [] end.
Proof. unfold taken. rewrite omap_app. f_equal. destruct e; cbn; by try case_decide. Qed.

Lemma announced_snoc es e :
  announced (es ++ [e]) = announced es ++ match e with Received _ _ cs => cs | _ => [] end.
Proof. unfold announced. rewrite bind_app. f_equal. apply app_nil_r. Qed.

Lemma completed_snoc es e :
  completed (es ++ [e]) = completed es ++ match e with Completed cs => cs | _ => [] end.
Proof. unfold completed. rewrite bind_app. f_equal. apply app_nil_r. Qed.

(** Bounds on the prefixes of a history hold of shorter histories, and at the end. *)
Lemma prefixes_snoc (P : list event -> Prop) es e :
  (forall k, P (take k (es ++ [e]))) -> forall k, P (take k es).
Proof.
  intros Hk k. destruct (decide (k <= length es)%nat).
  - specialize (Hk k). by rewrite take_app_le in Hk.
  - specialize (Hk (length es)). rewrite take_app_length in Hk. by rewrite take_ge by lia.
Qed.

Lemma prefixes_now (P : list event -> Prop) es : (forall k, P (take k es)) -> P es.
Proof. intros Hk. specialize (Hk (length es)). by rewrite take_ge in Hk by lia. Qed.

Lemma roomy_snoc h es e : roomy h (es ++ [e]) -> roomy h es.
Proof.
  intros [Hl Hk]. split; [rewrite received_snoc, length_app in Hl; lia|].
  exact (prefixes_snoc (fun es => (length (received h es) <= length (taken h es) + 128)%nat) es e Hk).
Qed.

Lemma roomy_now h es : roomy h es -> (length (received h es) <= length (taken h es) + 128)%nat.
Proof. intros [_ Hk]. exact (prefixes_now (fun es => (length (received h es) <= length (taken h es) + 128)%nat) es Hk). Qed.

Lemma comp_roomy_snoc es e : comp_roomy (es ++ [e]) -> comp_roomy es.
Proof. exact (prefixes_snoc (fun es => (length (announced es) <= length (completed es) + 128)%nat) es e). Qed.

Lemma comp_roomy_now es : comp_roomy es -> (length (announced es) <= length (completed es) + 128)%nat.
Proof. exact (prefixes_now (fun es => (length (announced es) <= length (completed es) + 128)%nat) es). Qed.

(** ** The recorded program *)

Section readers.
Context {L : LockLib} {R : OpenPayloadRepr}.
Notation W := (World (Client (list event))).
Implicit Types (w : W) (u : ServiceUser).

Definition events (w : W) : list event := upper (w_client w).
Definition record (e : event) : M W unit := upd_client (fun c => c <| upper ::= fun es => es ++ [e] |>).

(** The callback of the instance; then what it was given is recorded, and what it put in the completion
    queue. *)
#[local] Instance recording_host : CallbackHost (Client (list event)) :=
  fun cb reason message h =>
    let* before := get_client in
    instance_host cb reason message h ;;
    let* after := get_client in
    match message with
    | Some m => record (Received h m (entries_between (completion before) (completion after)))
    | None => ret tt
    end.

(** A client that takes one message. *)
Definition record_taken (h : ServiceHandle) (r : VchiqResult (list Z)) : M W unit :=
  match r with Ok d => record (Taken h d) | Err _ => ret tt end.
Definition read (h : ServiceHandle) : Async W unit :=
  await* r := dequeue_message Vec_try_from h in astep (record_taken h r).

(** A client that takes up to [count] completions. *)
Definition record_completed (r : VchiqResult (list ServiceCompletion)) : M W unit :=
  match r with Ok cs => record (Completed cs) | Err _ => ret tt end.
Definition complete (count : nat) : Async W unit :=
  await* r := await_completion count in astep (record_completed r).

Inductive reader_request : Async W unit -> Prop :=
| reads_read h : reader_request (read h)
| reads_connect : reader_request (forget Instance_connect)
| reads_create params open vchi : reader_request (forget (create_service params open vchi))
| reads_close h : reader_request (forget (Instance_close_service h))
| reads_queue fuel h data : reader_request (forget (astep (Instance_queue_message fuel h data)))
| reads_await count : reader_request (complete count).

Inductive reader_action : M W unit -> Prop :=
| reads_handler fuel locked : reader_action (slot_handler (H := recording_host) fuel locked)
| reads_videocore (m : mem) : reader_action (modify (fun w => w <| w_hw ::= fun hw => hw <| hw_mem := m |> |>)).

Definition reader_step : system (S := W) -> system -> Prop := sys_step reader_request reader_action.

(** ** What the history says of the queues *)

Definition user_at (w : W) (ud : nat) (u : ServiceUser) : Prop :=
  user_data (w_client w) !! ud = Some (AnyServiceUser u).

(** The messages taken are those received first, and the others are in the ring. *)
Definition in_step (h : ServiceHandle) (es : list event) (u : ServiceUser) : Prop :=
  exists past waiting, received h es = past ++ waiting /\ taken h es = map data past /\
    user_repr 0 u waiting /\ msg_remove u = Z.of_nat (length past).

Record reads_ok (h : ServiceHandle) (es : list event) (u : ServiceUser) : Prop := {
  reads_plain : is_vchi u = false -> taken h es = [];
  reads_queue_ok : is_vchi u = true -> roomy h es -> in_step h es u;
}.

(** The completions taken are those announced first, and the others are in the completion queue. *)
Record comps_ok (es : list event) (c : Completion) : Prop := {
  comps_ring : length (completions c) = 128%nat;
  comps_queue : comp_roomy es -> exists waiting, announced es = completed es ++ waiting /\ comp_repr c waiting;
}.

Record log_ok (w : W) : Prop := {
  log_reg : reg_inv w;
  log_comps : comps_ok (events w) (completion (w_client w));
  log_boxes : forall l s, w_heap w !! l = Some s -> exists ud u,
    userdata (base s) = Some ud /\ user_at w ud u /\ reads_ok (handle s) (events w) u;
  log_own : forall l l' s s', w_heap w !! l = Some s -> w_heap w !! l' = Some s' ->
    userdata (base s) = userdata (base s') -> l = l';
  log_new : forall h, (forall l s, w_heap w !! l = Some s -> handle s <> h) ->
    received h (events w) = [] /\ taken h (events w) = [];
}.

(** Records of services stay, and stay for VCHI or not. *)
Definition users_kept (w w' : W) : Prop :=
  forall ud u, user_at w ud u -> exists u', user_at w' ud u' /\ is_vchi u' = is_vchi u.

Record log_evolves (w w' : W) : Prop := {
  evolves_log : log_ok w';
  evolves_events : exists es, events w' = events w ++ es;
  evolves_services : heap_evolves (w_heap w) (w_heap w');
  evolves_users : users_kept w w';
}.
Definition log_step (w w' : W) : Prop := log_ok w -> log_evolves w w'.

Lemma users_kept_trans w1 w2 w3 : users_kept w1 w2 -> users_kept w2 w3 -> users_kept w1 w3.
Proof.
  intros H12 H23 ud u Hu. destruct (H12 ud u Hu) as (u2 & Hu2 & E2).
  destruct (H23 ud u2 Hu2) as (u3 & Hu3 & E3). exists u3. split; [done|congruence].
Qed.

Lemma log_evolves_trans w1 w2 w3 : log_evolves w1 w2 -> log_evolves w2 w3 -> log_evolves w1 w3.
Proof.
  intros [_ [es1 E1] Hh1 Hu1] [Hw [es2 E2] Hh2 Hu2].
  split; [done| |by etransitivity|by eapply users_kept_trans].
  exists (es1 ++ es2). by rewrite E2, E1, app_assoc.
Qed.

#[local] Instance log_step_preorder : PreOrder log_step.
Proof.
  split.
  - intros w Hw. split; [done|exists []; by rewrite app_nil_r|done|]. intros ud u Hu. by exists u.
  - intros w1 w2 w3 H1 H2 Hw. pose proof (H1 Hw) as Hev. eapply log_evolves_trans; [exact Hev|].
    apply H2, Hev.
Qed.

Lemma stable_log : stable log_step log_ok.
Proof. intros w w' Hs Hw. apply Hs, Hw. Qed.

(** ** Steps that leave the history and the queues alone *)

(** What [in_step] depends on. *)
Record same_queue (u u' : ServiceUser) : Prop := {
  same_vchi : is_vchi u' = is_vchi u;
  same_msgs : msg_queue u' = msg_queue u;
  same_insert : msg_insert u' = msg_insert u;
  same_remove : msg_remove u' = msg_remove u;
}.

Lemma same_queue_refl u : same_queue u u.
Proof. done. Qed.

Lemma reads_ok_same h es u u' : same_queue u u' -> reads_ok h es u -> reads_ok h es u'.
Proof.
  intros [E1 E2 E3 E4] [Hp Hq]. split; rewrite E1; [done|].
  intros Hv Hr. destruct (Hq Hv Hr) as (past & q & H1 & H2 & (H3 & H4 & H5) & H6).
  exists past, q. split; [done|]. split; [done|]. unfold user_repr. by rewrite E1, E2, E3, E4.
Qed.

Record same_ring (c c' : Completion) : Prop := {
  same_completions : completions c' = completions c;
  same_comp_insert : completion_insert c' = completion_insert c;
  same_comp_remove : completion_remove c' = completion_remove c;
}.

Lemma comps_ok_same es c c' : same_ring c c' -> comps_ok es c -> comps_ok es c'.
Proof.
  intros [E1 E2 E3] [Hl Hq]. split; [by rewrite E1|]. intros Hr. destruct (Hq Hr) as (q & Ha & Hc).
  exists q. split; [done|]. unfold comp_repr in *. by rewrite E1, E2, E3.
Qed.

Lemma log_kept w w' :
  reg_inv w' -> heap_evolves (w_heap w) (w_heap w') -> length (w_heap w') = length (w_heap w) ->
  events w' = events w ->
  same_ring (completion (w_client w)) (completion (w_client w')) ->
  (forall ud u, user_at w ud u -> exists u', user_at w' ud u' /\ same_queue u u') ->
  log_ok w -> log_evolves w w'.
Proof.
  intros Hr Hh Hl He Hc Hu [_ Hcomps Hb Ho Hn].
  assert (forall l s', w_heap w' !! l = Some s' -> exists s, w_heap w !! l = Some s /\
    handle s' = handle s /\ userdata (base s') = userdata (base s)) as Hback.
  { intros l s' Hs'. destruct (lookup_lt_is_Some_2 (w_heap w) l) as [s Hs].
    { rewrite <- Hl. by eapply lookup_lt_Some. }
    destruct (Hh l s Hs) as (s2 & Hs2 & Hev). rewrite Hs' in Hs2. injection Hs2 as <-.
    exists s. split; [done|]. split; apply Hev. }
  split.
  - split.
    + done.
    + rewrite He. by eapply comps_ok_same.
    + intros l s' Hs'. destruct (Hback l s' Hs') as (s & Hs & -> & ->). rewrite He.
      destruct (Hb l s Hs) as (ud & u & Hud & Hat & Hok). destruct (Hu ud u Hat) as (u' & Hat' & Hsame).
      exists ud, u'. split; [done|]. split; [done|by apply (reads_ok_same _ _ u)].
    + intros l1 l2 s1 s2 (s1' & Hs1 & _ & ->)%Hback (s2' & Hs2 & _ & ->)%Hback. by apply Ho.
    + intros h Hh'. rewrite He. apply Hn. intros l s Hs Eh. destruct (Hh l s Hs) as (s' & Hs' & Hev).
      apply (Hh' l s' Hs'). rewrite (evolves_handle _ _ Hev). done.
  - exists []. by rewrite app_nil_r.
  - done.
  - intros ud u Hat. destruct (Hu ud u Hat) as (u' & Hat' & Hsame). exists u'. split; [done|apply Hsame].
Qed.

Lemma core_log_step w w' : reg_step w w' -> core_frame w w' -> log_step w w'.
Proof.
  intros Hr [Hc Hl] Hw. destruct (Hr (log_reg _ Hw)) as [Hi Hh].
  apply log_kept; unfold events, user_at; rewrite ?Hc; try done. intros ud u Hu. by exists u.
Qed.

#[local] Instance log_core_closed : CoreClosed log_step.
Proof. split; [apply _|apply core_log_step]. Qed.

Lemma client_log_step w w' :
  client_frame w w' -> events w' = events w ->
  same_ring (completion (w_client w)) (completion (w_client w')) ->
  (forall ud u, user_at w ud u -> exists u', user_at w' ud u' /\ same_queue u u') -> log_step w w'.
Proof.
  intros Hf He Hc Hu Hw. destruct (client_frame_step w w' Hf (log_reg _ Hw)) as [Hi Hh].
  apply log_kept; try done. by rewrite (client_frame_heap _ _ Hf).
Qed.

(** A record with the same queue. *)
Lemma with_user_at w ud ud' u u' :
  user_at w ud u -> user_at (with_user w ud u') ud' =
    (if decide (ud' = ud) then fun v => Some (AnyServiceUser u') = Some (AnyServiceUser v) else user_at w ud').
Proof.
  intros Hu. unfold user_at. cbn. case_decide as E; [subst ud'|by rewrite list_lookup_insert_ne].
  by rewrite list_lookup_insert_eq by by eapply lookup_lt_Some.
Qed.

Lemma with_user_log_step w ud u u' : user_at w ud u -> same_queue u u' -> log_step w (with_user w ud u').
Proof.
  intros Hu Hsame. apply client_log_step; [done..|]. intros ud' v Hv. rewrite (with_user_at w ud ud' u u' Hu).
  destruct (decide (ud' = ud)) as [->|]; [|by exists v]. exists u'.
  unfold user_at in Hu, Hv. rewrite Hu in Hv. by injection Hv as <-.
Qed.

(** ** Recording *)

(** The service an event is of. *)
Definition event_handle (e : event) : option ServiceHandle :=
  match e with Received h _ _ | Taken h _ => Some h | Completed _ => None end.

Lemma received_other h es e : event_handle e <> Some h -> received h (es ++ [e]) = received h es.
Proof. intros He. rewrite received_snoc. destruct e; cbn in He; rewrite ?decide_False by congruence; apply app_nil_r. Qed.
Lemma taken_other h es e : event_handle e <> Some h -> taken h (es ++ [e]) = taken h es.
Proof. intros He. rewrite taken_snoc. destruct e; cbn in He; rewrite ?decide_False by congruence; apply app_nil_r. Qed.

Lemma reads_ok_other h es e u : event_handle e <> Some h -> reads_ok h es u -> reads_ok h (es ++ [e]) u.
Proof.
  intros He [Hp Hq]. unfold in_step in *. split; [by rewrite taken_other|].
  intros Hv Hr%roomy_snoc. unfold in_step. rewrite received_other, taken_other by done. by apply Hq.
Qed.

(** Two records of services, the box of the one being written. *)
Lemma log_recorded w w' l s ud u u' e :
  log_ok w -> w_heap w !! l = Some s -> userdata (base s) = Some ud -> user_at w ud u ->
  event_handle e = Some (handle s) ->
  client_frame w w' -> events w' = events w ++ [e] ->
  comps_ok (events w') (completion (w_client w')) ->
  user_data (w_client w') = <[ud := AnyServiceUser u']> (user_data (w_client w)) ->
  is_vchi u' = is_vchi u -> reads_ok (handle s) (events w') u' ->
  log_evolves w w'.
Proof.
  intros Hw Hs Hud Hu Heh Hf He Hc Hb Hv Hok. pose proof (client_frame_heap _ _ Hf) as Hh.
  assert (forall i v, user_at w i v -> user_at w' i (if decide (i = ud) then u' else v)) as Hat.
  { intros i v Hi. unfold user_at. rewrite Hb. case_decide as E; [subst i|by rewrite list_lookup_insert_ne].
    apply list_lookup_insert_eq. by eapply lookup_lt_Some. }
  split; [split| |by rewrite Hh|].
  - apply (client_frame_step w w' Hf), Hw.
  - done.
  - intros l' s' Hs'. rewrite Hh in Hs'. destruct (log_boxes _ Hw l' s' Hs') as (ud' & v & Hud' & Hv' & Hok').
    exists ud', (if decide (ud' = ud) then u' else v). split; [done|]. split; [by apply Hat|].
    case_decide as E.
    + subst ud'. assert (l' = l) as -> by (apply (log_own _ Hw _ _ _ _ Hs' Hs); congruence).
      rewrite Hs in Hs'. by injection Hs' as <-.
    + rewrite He. apply reads_ok_other; [|done]. rewrite Heh. intros [= Eh].
      assert (l' = l) as ->; [|rewrite Hs in Hs'; injection Hs' as <-; rewrite Hud in Hud'; by injection Hud' as <-].
      destruct (inv_heap _ (log_reg _ Hw) _ _ Hs) as (_ & E1 & _), (inv_heap _ (log_reg _ Hw) _ _ Hs') as (_ & E2 & _).
      lia.
  - rewrite Hh. apply Hw.
  - rewrite Hh. intros h Hh'. assert (event_handle e <> Some h) by (rewrite Heh; intros [=]; by eapply Hh').
    rewrite He, received_other, taken_other by done. by apply Hw.
  - exists [e]. done.
  - intros i v Hi. eexists. split; [by apply Hat|]. case_decide as E; [|done]. subst i.
    unfold user_at in Hi, Hu. rewrite Hu in Hi. by injection Hi as <-.
Qed.

(** *** Receiving *)

Lemma comps_ok_receive h m es c cs c' :
  comps_ok es c -> added c cs c' -> comps_ok (es ++ [Received h m cs]) c'.
Proof.
  intros [Hl Hq] Ha. split; [apply Ha|]. intros Hr. destruct (Hq (comp_roomy_snoc _ _ Hr)) as (q & E & Hc).
  apply comp_roomy_now in Hr. rewrite announced_snoc, completed_snoc, E in *. exists (q ++ cs).
  rewrite app_nil_r, app_assoc in *. split; [done|]. rewrite !length_app in Hr. apply (added_queue _ _ _ Ha); [done|lia].
Qed.

Lemma comps_ok_taken h d es c : comps_ok es c -> comps_ok (es ++ [Taken h d]) c.
Proof.
  intros [Hl Hq]. split; [done|]. intros Hr. rewrite announced_snoc, completed_snoc, !app_nil_r.
  by apply Hq, (comp_roomy_snoc _ _ Hr).
Qed.

Lemma reads_ok_receive h es c u m cs c' u' :
  reads_ok h es u -> length (completions c) = 128%nat ->
  queue_received MESSAGE_AVAILABLE (Some m) c u = Ret (c', u') -> same_owner u u' ->
  reads_ok h (es ++ [Received h m cs]) u'.
Proof.
  intros [Hp Hq] Hc E [_ Hv Hrm]. split; rewrite Hv; [by rewrite taken_snoc, app_nil_r|].
  intros Hvchi Hroom. destruct (Hq Hvchi (roomy_snoc _ _ _ Hroom)) as (past & q & E1 & E2 & (H1 & H2 & H3) & H4).
  pose proof (roomy_now _ _ Hroom) as Hnow. destruct Hroom as [Hmax _].
  assert (received h (es ++ [Received h m cs]) = past ++ q ++ [m]) as E3
    by (rewrite received_snoc, decide_True, E1, <- app_assoc by done; done).
  rewrite E3 in Hmax, Hnow. rewrite taken_snoc, app_nil_r, E2, length_map in Hnow.
  rewrite !length_app in Hmax, Hnow. cbn [length] in Hmax, Hnow.
  destruct (queue_received_Ret MESSAGE_AVAILABLE m c u q 0 Hc) as (c2 & u2 & E4 & _ & Hr); [|lia|].
  { split; [done|]. split; [done|]. rewrite H4. lia. }
  rewrite E in E4. injection E4 as <- <-. exists past, (q ++ [m]). rewrite taken_snoc, app_nil_r.
  split; [done|]. split; [done|]. split; [done|congruence].
Qed.

Lemma record_Ret e w :
  record e w = Ret (tt, with_client w ((w_client w) <| upper ::= fun es => es ++ [e] |>)).
Proof. reflexivity. Qed.

Lemma invoke_log cb m h : evolves log_step (recording_host cb MESSAGE_AVAILABLE (Some m) h).
Proof.
  intros w [] w'' E Hw. unfold recording_host, get_client in E. rewrite bind_gets in E.
  apply bind_Ret_inv in E as (u0 & w' & E & Er). destruct u0, cb.
  rewrite bind_gets, record_Ret in Er. injection Er as <-.
  unfold instance_host in E. apply bind_Ret_inv in E as (r & w1 & E1 & E).
  rewrite service_from_handle_Ret in E1 by apply Hw. injection E1 as <- <-.
  destruct (handle_index w h) as [l|] eqn:Hl; [|discriminate E]. cbn [unwrap_result] in E. rewrite bind_ret_l in E.
  apply bind_Ret_inv in E as (r & w1 & E & Ew). injection Ew as <-.
  unfold service_callback in E. apply bind_Ret_inv in E as (s & w2 & [Hs ->]%get_service_inv & E).
  destruct (log_boxes _ Hw l s Hs) as (ud & u & Hud & Hu & Hok). rewrite Hud in E. cbn [unwrap] in E.
  rewrite bind_ret_l in E. erewrite bind_Ret in E by by apply get_user_Ret.
  unfold get_client in E. rewrite bind_gets in E. apply bind_Ret_inv in E as ([c' u'] & w2 & E1 & E).
  unfold lift in E1. destruct (queue_received _ _ _ _) as [[c1 u1]| | |] eqn:Eq; try done.
  injection E1 as -> -> <-. unfold upd_client, set_user in E. rewrite bind_modify in E.
  unfold upd_client in E. rewrite bind_modify in E. injection E as _ <-.
  destruct (queue_received_adds _ _ _ _ _ _ (comps_ring _ _ (log_comps _ Hw)) Eq) as (cs & Ha & Ho).
  assert (handle s = h) as Hh.
  { destruct (inv_heap _ (log_reg _ Hw) _ _ Hs) as (_ & -> & _). unfold handle_index in Hl.
    case_decide; [|done]. injection Hl as <-. lia. }
  eapply (log_recorded w _ l s ud u u' (Received h m cs)); try done.
  - by cbn; rewrite Hh.
  - unfold events. cbn -[entries_between]. by rewrite (added_between _ _ _ Ha).
  - unfold events. cbn -[entries_between]. rewrite (added_between _ _ _ Ha).
    eapply comps_ok_receive; [apply (log_comps _ Hw)|done].
  - apply Ho.
  - unfold events. cbn -[entries_between]. rewrite (added_between _ _ _ Ha), Hh.
    rewrite Hh in Hok. eapply reads_ok_receive; [exact Hok|apply (log_comps _ Hw)|exact Eq|exact Ho].
Qed.

#[local] Instance recording_laws : CallbackLaws (Client (list event)).
Proof.
  intros cb r m h. unfold invoke_callback, recording_host, get_client.
  evolves_solve; [apply (invoke_frame (H := instance_host) cb)|by apply evolves_modify].
Qed.

(** *** Taking *)

(** The service with handle [h] keeps its record in the box [ud]. *)
Definition reading (w : W) (h : ServiceHandle) (ud : nat) : Prop :=
  (exists l s, w_heap w !! l = Some s /\ handle s = h /\ userdata (base s) = Some ud) /\
  exists u, user_at w ud u /\ is_vchi u = true.

Lemma reading_evolves w w' h ud : log_evolves w w' -> reading w h ud -> reading w' h ud.
Proof.
  intros [_ _ Hh Hk] [(l & s & Hs & <- & Hud) (u & Hu & Hv)]. split.
  - destruct (Hh l s Hs) as (s' & Hs' & [E1 _ _ E2 _]). exists l, s'. split; [done|]. split; congruence.
  - destruct (Hk ud u Hu) as (u' & Hu' & E). exists u'. split; [done|congruence].
Qed.

(** A client that has found the service, and waits. *)
Definition read_rest (h : ServiceHandle) (ud : nat) : Async W unit :=
  Await (poll_dequeue ud) (fun _ =>
    abind (astep (take_message Vec_try_from ud)) (fun r => astep (record_taken h r))).

Lemma poll_dequeue_log ud o w w1 u :
  user_at w ud u -> poll_dequeue ud w = Ret (o, w1) ->
  exists u1, user_at w1 ud u1 /\ same_queue u u1 /\ (w1 = w \/ w1 = with_user w ud u1) /\
    (o = Some tt -> msg_remove u1 <> msg_insert u1).
Proof.
  intros Hu E. unfold poll_dequeue in E. erewrite bind_Ret in E by by apply get_user_Ret. cbv zeta in E.
  assert (forall u1, user_at (with_user w ud u1) ud u1) as Hat
    by (intros u1; rewrite (with_user_at _ _ _ u) by done; by rewrite decide_True).
  destruct (Z.eqb_spec (msg_remove u) (msg_insert u)) as [Eq|Ne].
  - unfold set_user, upd_client in E. destruct (sem_try_down _) as [e|]; rewrite bind_modify in E; injection E as <- <-; eexists;
      (split; [apply Hat|]); (split; [done|]); (split; [by right|]); cbn -[Z.eqb]; rewrite ?Eq, ?Z.eqb_refl; done.
  - injection E as <- <-. exists u. split; [done|]. split; [apply same_queue_refl|]. split; [by left|done].
Qed.

Lemma take_message_log ud r w w1 u :
  user_at w ud u -> take_message Vec_try_from ud w = Ret (r, w1) ->
  (exists e, r = Err e /\ w1 = w) \/
  exists m u1, msg_queue u !! ring_index RING (msg_remove u) = Some (Some m) /\ r = Ok (data m) /\
    w1 = with_user w ud u1 /\ is_vchi u1 = is_vchi u /\ msg_insert u1 = msg_insert u /\
    msg_remove u1 = usize_add (msg_remove u) 1 /\
    msg_queue u1 = <[ring_index RING (msg_remove u) := None]> (msg_queue u).
Proof.
  intros Hu E. unfold take_message in E. erewrite bind_Ret in E by by apply get_user_Ret. cbv zeta in E.
  destruct (msg_insert u <? msg_remove u); [injection E as <- <-; left; by eexists|]. right.
  change MSG_QUEUE_SIZE with RING in E.
  destruct (msg_queue u !! _) as [[m|]|] eqn:Em; try discriminate E. cbn [unwrap] in E. rewrite bind_ret_l in E.
  cbn [unwrap] in E. rewrite bind_ret_l in E. cbn [unwrap_result Vec_try_from] in E. rewrite bind_ret_l in E.
  unfold set_user, upd_client in E.
  rewrite bind_modify in E. injection E as <- <-. eexists m, _. split; [done|]. split; [done|]. by split.
Qed.

Lemma reads_ok_take h es u u1 m :
  reads_ok h es u -> is_vchi u = true -> msg_remove u <> msg_insert u ->
  msg_queue u !! ring_index RING (msg_remove u) = Some (Some m) ->
  is_vchi u1 = is_vchi u -> msg_insert u1 = msg_insert u -> msg_remove u1 = usize_add (msg_remove u) 1 ->
  msg_queue u1 = <[ring_index RING (msg_remove u) := None]> (msg_queue u) ->
  reads_ok h (es ++ [Taken h (data m)]) u1.
Proof.
  intros [_ Hq] Hv Hne Hm E1 E2 E3 E4. split; rewrite E1; [by rewrite Hv|].
  intros _ Hr%roomy_snoc. destruct (Hq Hv Hr) as (past & [|m' q] & H1 & H2 & (H3 & H4 & H5) & H6).
  { by apply ring_empty in H3. }
  destruct (ring_pop _ _ _ _ _ H3) as (Hm' & _ & Hring). rewrite Hm in Hm'. injection Hm' as <-.
  cbn [length] in H5. exists (past ++ [m]), q. split; [|split; [|split]].
  - by rewrite received_snoc, app_nil_r, <- app_assoc.
  - by rewrite taken_snoc, decide_True, H2, map_app by done.
  - unfold user_repr. rewrite E1, E2, E3, E4. split; [done|]. split; [done|]. rewrite usize_add_small by lia. lia.
  - rewrite E3, length_app, H6. cbn [length]. rewrite usize_add_small by lia. lia.
Qed.

(** One poll of a waiting client. *)
Lemma read_rest_poll h ud w r w' :
  log_ok w -> reading w h ud -> poll (read_rest h ud) w = Ret (r, w') ->
  log_evolves w w' /\ match r with inl _ => True | inr f => f = read_rest h ud end.
Proof.
  intros Hw Hrd E. pose proof Hrd as [(l & s & Hs & Hh & Hud) (u & Hu & Hv)].
  unfold read_rest in E. cbn [poll] in E. apply bind_Ret_inv in E as (o & w1 & E1 & E).
  destruct (poll_dequeue_log _ _ _ _ _ Hu E1) as (u1 & Hu1 & Hsame & Hw1 & Ho).
  assert (log_evolves w w1) as Hev.
  { destruct Hw1 as [->| ->]; [by apply (reflexivity w : log_step w w)|].
    by apply (with_user_log_step w ud u u1). }
  destruct o as [[]|]; [|injection E as <- <-; split; done]. specialize (Ho eq_refl).
  pose proof (evolves_log _ _ Hev) as Hok1. destruct (reading_evolves _ _ _ _ Hev Hrd) as [(l1 & s1 & Hs1 & Hh1 & Hud1) _].
  destruct (log_boxes _ Hok1 l1 s1 Hs1) as (ud2 & u2 & Hud2 & Hu2 & Hrok).
  rewrite Hud1 in Hud2. injection Hud2 as <-. unfold user_at in Hu1, Hu2. rewrite Hu1 in Hu2. injection Hu2 as <-.
  cbn [astep abind poll] in E. apply bind_Ret_inv in E as (t & w2 & E2 & E).
  apply bind_Ret_inv in E as (x & w3 & E3 & E). injection E as <- <-. split; [|done].
  destruct (take_message_log _ _ _ _ _ Hu1 E2) as [(e & -> & ->)|(m & u3 & Hm & -> & -> & H1 & H2 & H3 & H4)].
  { injection E3 as <- <-. done. }
  cbn [record_taken] in E3. rewrite record_Ret in E3. injection E3 as <- <-.
  eapply log_evolves_trans; [exact Hev|].
  apply (log_recorded w1 _ l1 s1 ud u1 u3 (Taken h (data m))); try done; rewrite Hh1 in *; [done| |].
  { apply comps_ok_taken, Hok1. }
  apply (reads_ok_take h (events w1) u1 u3 m); try done. by rewrite (same_vchi _ _ Hsame).
Qed.

(** The first poll finds the service, unless there is none, or it is not for VCHI. *)
Lemma read_finds h ud w : log_ok w -> reading w h ud -> poll (read h) w = poll (read_rest h ud) w.
Proof.
  intros Hw [(l & s & Hs & <- & Hud) (u & Hu & Hv)]. unfold read, dequeue_message, abind_try.
  cbn [astep abind poll]. erewrite bind_Ret by (apply by_handle; [apply Hw|done]). cbn [abind poll].
  erewrite bind_Ret.
  2: { erewrite bind_Ret by by apply get_service_Ret. rewrite Hud. reflexivity. }
  cbn [abind poll]. erewrite bind_Ret by by apply get_user_Ret. by rewrite Hv.
Qed.

Lemma read_start h w :
  log_ok w -> poll (read h) w = Ret (inl tt, w) \/ exists ud, reading w h ud.
Proof.
  intros Hw. destruct (handle_index w h) as [l|] eqn:Hl.
  2: { left. unfold read, dequeue_message, abind_try. cbn [astep abind poll].
       erewrite bind_Ret by apply service_from_handle_Ret, Hw. by rewrite Hl. }
  unfold handle_index in Hl. case_decide as Hr; [|done]. injection Hl as Hl.
  destruct (lookup_lt_is_Some_2 (w_heap w) l) as [s Hs]; [lia|].
  assert (handle s = h) as Hh by (destruct (inv_heap _ (log_reg _ Hw) _ _ Hs) as (_ & -> & _); lia).
  destruct (log_boxes _ Hw l s Hs) as (ud & u & Hud & Hu & _).
  destruct (is_vchi u) eqn:Hv; [right; exists ud; split; [by exists l, s|by exists u]|left].
  rewrite <- Hh. unfold read, dequeue_message, abind_try.
  cbn [astep abind poll]. erewrite bind_Ret by (apply by_handle; [apply Hw|done]). cbn [abind poll].
  erewrite bind_Ret.
  2: { erewrite bind_Ret by by apply get_service_Ret. rewrite Hud. reflexivity. }
  cbn [abind poll]. erewrite bind_Ret by by apply get_user_Ret. by rewrite Hv.
Qed.

(** A client that finds a message in the queue takes it. *)
Lemma read_rest_served h ud w m :
  log_ok w -> reading w h ud -> roomy h (events w) ->
  received h (events w) !! length (taken h (events w)) = Some m ->
  exists w', poll (read_rest h ud) w = Ret (inl tt, w') /\ events w' = events w ++ [Taken h (data m)].
Proof.
  intros Hw [(l & s & Hs & Hh & Hud) (u & Hu & Hv)] Hroom Hm.
  destruct (log_boxes _ Hw l s Hs) as (ud' & u' & Hud' & Hu' & Hok).
  rewrite Hud in Hud'. injection Hud' as <-. unfold user_at in Hu, Hu'. rewrite Hu in Hu'. injection Hu' as <-.
  rewrite Hh in Hok. destruct (reads_queue_ok _ _ _ Hok Hv Hroom) as (past & [|m' q] & E1 & E2 & Hrepr & _);
    rewrite E1, E2, length_map in Hm.
  { rewrite app_nil_r in Hm. by apply lookup_lt_Some, Nat.lt_irrefl in Hm. }
  rewrite list_lookup_middle in Hm by done. injection Hm as ->.
  destruct (dequeue_rest_Ret 0 w h ud q m) as (w' & E & _ & Hf).
  { split; [|by exists u|apply (log_comps _ Hw)]. exists l, s. split; [|done].
    pose proof (by_handle _ _ _ (log_reg _ Hw) Hs) as E. rewrite Hh in E.
    unfold service_from_handle, get_srv in E. rewrite !bind_gets in E.
    destruct (find_handle _ _ _); [by injection E as ->|done]. }
  change (read_rest h ud) with (abind (dequeue_rest ud) (fun r => astep (record_taken h r))).
  eexists. split.
  - rewrite poll_abind. erewrite bind_Ret by exact E. reflexivity.
  - unfold events. cbn. by rewrite (queue_upper _ _ _ Hf).
Qed.

(** *** The other requests *)

Lemma upd_client_log (f : Client (list event) -> Client (list event)) :
  (forall c, upper (f c) = upper c /\ user_data (f c) = user_data c /\
     same_ring (completion c) (completion (f c))) ->
  evolves log_step (upd_client f : M W unit).
Proof.
  intros Hf w u w' E. unfold upd_client, modify in E. injection E as _ <-.
  destruct (Hf (w_client w)) as (H1 & H2 & H3). apply client_log_step; [done| | |].
  - exact H1.
  - exact H3.
  - intros ud v Hv. exists v. split; [|done]. unfold user_at. cbn. by rewrite H2.
Qed.

Lemma Instance_connect_log : aevolves log_step (Instance_connect : Async W _).
Proof.
  apply aevolves_abind; [apply aevolves_astep; unfold get_client; auto with evolves typeclass_instances|].
  intros c. destruct (connected c); [done|]. apply aevolves_abind_try; [apply (State_connect_evolves log_step)|].
  intros _. apply aevolves_abind; [|done]. by apply aevolves_astep, upd_client_log.
Qed.

Lemma Instance_queue_message_log fuel h data : evolves log_step (Instance_queue_message fuel h data : M W _).
Proof.
  apply (frame_evolves log_step). unfold Instance_queue_message. evolves_step; [apply service_from_handle_frame|].
  evolves_step; [auto with evolves|]. apply queue_message_other_frame, make_msg_id_DATA_CLOSE.
Qed.

Lemma take_completions_length count : forall (c : Completion) cs c',
  take_completions count c = Ret (cs, c') -> length (completions c') = length (completions c).
Proof.
  induction count as [|count IH]; intros c cs c'; cbn [take_completions]; [by intros [= <- <-]|].
  destruct (_ =? _); [by intros [= <- <-]|]. cbv zeta. destruct (completions c !! _) as [[y|]|]; try done.
  destruct (take_completions count _) as [[cs1 c1]| | |] eqn:E1; try done. intros [= <- <-].
  rewrite (IH _ _ _ E1). apply length_insert.
Qed.

(** *** Taking completions *)

(** A client that is connected, and waits for completions. *)
Definition complete_rest (count : nat) : Async W unit :=
  Await poll_completion (fun _ =>
    abind (astep (collect_completions count)) (fun r => astep (record_completed r))).

Lemma complete_start count w :
  poll (complete count) w = Ret (inl tt, w) \/ poll (complete count) w = poll (complete_rest count) w.
Proof.
  unfold complete, await_completion. cbn [astep abind poll]. unfold get_client. rewrite !bind_gets.
  destruct (connected (w_client w)); [right|left]; reflexivity.
Qed.

Lemma poll_completion_log : evolves log_step (poll_completion : M W _).
Proof. unfold poll_completion, get_client. evolves_solve. by apply upd_client_log. Qed.

(** The history after completions were taken, all at once. *)
Lemma log_completed w c' cs count :
  log_ok w -> take_completions count (completion (w_client w)) = Ret (cs, c') ->
  log_evolves w (with_client w ((w_client w) <| completion := c' |> <| upper ::= fun es => es ++ [Completed cs] |>)).
Proof.
  intros Hw E. pose proof (take_completions_length _ _ _ _ E) as Hl.
  set (w' := with_client w _). assert (events w' = events w ++ [Completed cs]) as He by done.
  destruct Hw as [Hr [Hring Hq] Hb Ho Hn].
  split; [split| |done|].
  - by apply (client_frame_step w w').
  - split; [by rewrite <- Hring|]. rewrite He. intros Hroom. destruct (Hq (comp_roomy_snoc _ _ Hroom)) as (q & Ea & Hc).
    destruct (take_completions_repr count _ q Hc) as (c2 & E2 & Hc2 & _). rewrite E in E2. injection E2 as -> <-.
    exists (drop count q). rewrite announced_snoc, completed_snoc, Ea, app_nil_r, <- app_assoc, take_drop. done.
  - intros l s Hs. destruct (Hb l s Hs) as (ud & u & Hud & Hu & Hok). exists ud, u. split; [done|]. split; [done|].
    rewrite He. by apply reads_ok_other.
  - exact Ho.
  - intros h Hh. rewrite He, received_other, taken_other by done. by apply Hn.
  - by exists [Completed cs].
  - intros ud u Hu. by exists u.
Qed.

Lemma complete_rest_poll count w r w' :
  log_ok w -> poll (complete_rest count) w = Ret (r, w') ->
  log_evolves w w' /\ match r with inl _ => True | inr f => f = complete_rest count end.
Proof.
  intros Hw E. unfold complete_rest in E. cbn [poll] in E. apply bind_Ret_inv in E as (o & w1 & E1 & E).
  pose proof (poll_completion_log _ _ _ E1 Hw) as Hev.
  destruct o as [[]|]; [|injection E as <- <-; split; done]. cbn [astep abind poll] in E.
  apply bind_Ret_inv in E as (t & w2 & E2 & E). apply bind_Ret_inv in E as (x & w3 & E3 & E). injection E as <- <-.
  split; [|done]. unfold collect_completions, get_client in E2. rewrite bind_gets in E2.
  apply bind_Ret_inv in E2 as ([cs c'] & w4 & E4 & E2). unfold lift in E4.
  destruct (take_completions _ _) as [[cs1 c1]| | |] eqn:Et; try done. injection E4 as -> -> <-.
  unfold upd_client in E2. rewrite bind_modify in E2. injection E2 as <- <-.
  cbn [record_completed] in E3. rewrite record_Ret in E3. injection E3 as _ <-.
  eapply log_evolves_trans; [exact Hev|]. exact (log_completed w1 c' cs count (evolves_log _ _ Hev) Et).
Qed.

(** *** A new service *)

(** The box [i] has a new record, and no service has it yet. *)
Definition new_box (i : nat) (w : W) : Prop :=
  log_ok w /\ (exists ud v, user_at w i (ServiceUser_new ud v)) /\
  forall l s, w_heap w !! l = Some s -> userdata (base s) <> Some i.

Lemma UserData_new_log ud v :
  does log_step log_ok (UserData_new (AnyServiceUser (ServiceUser_new ud v)) : M W nat) new_box.
Proof.
  intros w i w' Hw E. rewrite UserData_new_Ret in E. injection E as <- <-. set (w' := with_client w _).
  assert (forall j u, user_at w j u -> user_at w' j u) as Hat by (intros j u; apply lookup_app_l_Some).
  assert (log_step w w') as Hs by (apply client_log_step; [done..|]; intros j u Hj; exists u; auto using same_queue_refl).
  split; [done|]. split; [by apply Hs|]. split.
  - exists ud, v. unfold user_at. cbn. by rewrite lookup_app_r, Nat.sub_diag.
  - intros l s Hl Hud. destruct (log_boxes _ Hw l s Hl) as (i & u & Hi & Hu & _). rewrite Hud in Hi.
    injection Hi as <-. apply lookup_lt_Some in Hu. lia.
Qed.

Lemma new_user_ok h es ud v :
  received h es = [] -> taken h es = [] -> reads_ok h es (ServiceUser_new ud v).
Proof.
  intros E1 E2. split; [done|]. intros Hv _. exists [], []. split; [done|]. split; [done|]. split; [|done].
  split; [apply ring_repr_empty|]. split; [exact Hv|done].
Qed.

Lemma with_new_service_log params w i :
  Z.of_nat (length (w_heap w)) < VCHIQ_MAX_SERVICES -> sp_userdata params = Some i -> new_box i w ->
  log_evolves w (with_new_service params w).
Proof.
  intros Hlt Hud (Hw & (ud & v & Hu) & Hown). pose proof (log_reg _ Hw) as Hr.
  destruct (with_new_service_ok params w Hr Hlt) as [Hr' Hh]. set (s := new_service params w).
  assert (w_heap (with_new_service params w) = w_heap w ++ [s]) as Hheap by done.
  assert (handle s = VCHIQ_MAX_SERVICES + Z.of_nat (length (w_heap w))) as Hhs by by apply (inv_handle _ Hr).
  assert (userdata (base s) = Some i) as Hus by done.
  assert (forall l s', w_heap w !! l = Some s' -> handle s' <> handle s) as Hne.
  { intros l s' Hs' Eh. destruct (inv_heap _ Hr _ _ Hs') as (_ & E & _). apply lookup_lt_Some in Hs'. lia. }
  destruct (log_new _ Hw (handle s) Hne) as [N1 N2].
  split; [split| |done|].
  - done.
  - apply Hw.
  - rewrite Hheap. intros l s' [Hl|[_ Hl]]%lookup_app_Some; [by apply (log_boxes _ Hw l)|].
    apply list_lookup_singleton_Some in Hl as [_ <-]. exists i, (ServiceUser_new ud v).
    split; [done|]. split; [exact Hu|]. by apply new_user_ok.
  - rewrite Hheap. intros l1 l2 s1 s2 [H1|[H1 H1']]%lookup_app_Some [H2|[H2 H2']]%lookup_app_Some E.
    + by apply (log_own _ Hw l1 l2 s1 s2).
    + apply list_lookup_singleton_Some in H2' as [_ <-]. rewrite Hus in E. by destruct (Hown l1 s1 H1).
    + apply list_lookup_singleton_Some in H1' as [_ <-]. rewrite Hus in E. by destruct (Hown l2 s2 H2).
    + apply list_lookup_singleton_Some in H1' as [H1' _], H2' as [H2' _]. lia.
  - rewrite Hheap. intros h Hh'. apply (log_new _ Hw). intros l s' Hl. apply (Hh' l). by apply lookup_app_l_Some.
  - exists []. by rewrite app_nil_r.
  - intros ud' u Hu'. by exists u.
Qed.

Lemma add_service_log params st i :
  sp_userdata params = Some i -> does log_step (new_box i) (add_service params st : M W _) any_result.
Proof.
  intros Hud w r w' Hw E. split; [|done]. intros Hok. pose proof (add_service_opening _ _ _ _ _ E) as ->.
  pose proof (log_reg _ Hok) as Hr. pose proof (inv_count _ Hr).
  destruct (decide (Z.of_nat (length (w_heap w)) = VCHIQ_MAX_SERVICES)) as [Hf|Hf].
  - pose proof (add_service_step _ _ _ _ _ E) as Hs. rewrite add_service_full in E by done. injection E as <- <-.
    by apply core_log_step.
  - rewrite add_service_Ok in E by (done || lia). injection E as <- <-. apply (with_new_service_log _ _ i); [lia|done..].
Qed.

Lemma create_service_log params open vchi :
  adoes log_step log_ok (create_service params open vchi : Async W _) any_result.
Proof.
  unfold create_service. eapply (adoes_abind _ _ _ _ (fun _ => log_ok)).
  { apply adoes_astep, does_keeps; [unfold get_client; auto with evolves typeclass_instances|apply stable_log]. }
  intros c. eapply (adoes_abind_try _ _ _ _ (fun _ => log_ok)).
  { intros w Hw. by destruct open, (connected c). }
  intros st. eapply (adoes_abind _ _ _ _ new_box).
  { apply adoes_astep, UserData_new_log. }
  intros i. cbv zeta. eapply (adoes_abind_try _ _ _ _ any_result).
  { apply adoes_astep. eapply does_conseq; [| |by apply (add_service_log _ _ i)]; [done|]. by intros [h|e]. }
  intros h. apply adoes_evolves, aevolves_abind_try; [|done].
  destruct open; [apply (open_service_evolves log_step)|done].
Qed.

(** ** Every reachable state *)

(** What is known of the futures: those that have found their service read it; the others need nothing. *)
Definition covers (f : Async W unit) (w : W) : Prop :=
  (exists h, f = read h) \/ (exists h ud, f = read_rest h ud /\ reading w h ud) \/
  (exists count, f = complete count \/ f = complete_rest count) \/ covered log_step any_result f w.

Lemma covers_poll f w r w' :
  log_ok w -> covers f w -> poll f w = Ret (r, w') ->
  log_step w w' /\ match r with inl _ => True | inr f' => covers f' w' end.
Proof.
  intros Hw Hc E.
  assert (forall h ud, reading w h ud -> poll (read_rest h ud) w = Ret (r, w') ->
    log_step w w' /\ match r with inl _ => True | inr f' => covers f' w' end) as Hrest.
  { intros h ud Hrd E1. destruct (read_rest_poll h ud w r w' Hw Hrd E1) as [Hev Hf]. split; [by intros _|].
    destruct r as [[]|f']; [done|]. subst f'. right; left. exists h, ud. split; [done|by eapply reading_evolves]. }
  assert (forall count, poll (complete_rest count) w = Ret (r, w') ->
    log_step w w' /\ match r with inl _ => True | inr f' => covers f' w' end) as Hcrest.
  { intros count E1. destruct (complete_rest_poll count w r w' Hw E1) as [Hev Hf]. split; [by intros _|].
    destruct r as [[]|f']; [done|]. subst f'. right; right; left. exists count. by right. }
  destruct Hc as [[h ->]|[(h & ud & -> & Hrd)|[[count [-> | ->]]|(P & Hs & HP & Hf)]]].
  - destruct (read_start h w Hw) as [E1|(ud & Hrd)].
    + rewrite E1 in E. injection E as <- <-. by split.
    + rewrite (read_finds _ _ _ Hw Hrd) in E. by eapply Hrest.
  - by eapply Hrest.
  - destruct (complete_start count w) as [E1|E1]; rewrite E1 in E; [|by eapply Hcrest].
    injection E as <- <-. by split.
  - by eapply Hcrest.
  - destruct (poll_does _ _ _ _ _ _ _ Hf Hs E) as [HR Hf']. split; [done|]. destruct r; [done|]. by do 3 right.
Qed.

Lemma reader_request_covers f w : reader_request f -> log_ok w -> covers f w.
Proof.
  intros Hf Hw. assert (adoes log_step log_ok f any_result -> covers f w) as Hdoes.
  { intros Ha. do 3 right. exists log_ok. split; [done|]. split; [apply stable_log|done]. }
  assert (forall {A} (g : Async W A), aevolves log_step g -> adoes log_step log_ok (forget g) any_result) as Hev.
  { intros A g Hg. by apply adoes_evolves, aevolves_abind. }
  destruct Hf as [h| |params open vchi|h|fuel h data|count].
  - left. by exists h.
  - apply Hdoes, Hev, Instance_connect_log.
  - apply Hdoes. eapply adoes_abind; [apply create_service_log|]. done.
  - apply Hdoes, Hev, (close_service_evolves log_step).
  - apply Hdoes, Hev, aevolves_astep, Instance_queue_message_log.
  - right; right; left. exists count. by left.
Qed.

Lemma reader_action_log m : reader_action m -> evolves log_step m.
Proof.
  intros [fuel locked|m'].
  - apply (slot_handler_evolves log_step (H := recording_host)). intros cb message h. apply invoke_log.
  - apply (memory_evolves log_step (fun _ => _)).
Qed.

Definition readers_covered : system -> Prop := all_covered log_ok covers.

Lemma readers_steps x x' :
  rtc reader_step x x' -> readers_covered x -> log_step x.2 x'.2 /\ readers_covered x'.
Proof.
  apply (steps_covered log_step reader_request reader_action reader_action_log).
  - apply stable_log.
  - intros f w1 w2 Hw1 Hst [Hf|[(h & ud & -> & Hrd)|[Hf|Hf]]]; [by left| |by right; right; left|do 3 right].
    + right; left. exists h, ud. split; [done|]. eapply reading_evolves; [by apply Hst|done].
    + by eapply covered_stable.
  - apply covers_poll.
  - apply reader_request_covers.
Qed.

Lemma readers_reachable w s : log_ok w -> rtc reader_step ([], w) s -> readers_covered s.
Proof. intros Hw Hs. by apply (readers_steps ([], w) s Hs). Qed.

Lemma Instance_new_log {P : Platform} {PL : PlatformLaws P} hw w :
  Instance_new [] VCHIQ_MAX_SERVICES hw = Ret (Ok w) -> log_ok w.
Proof.
  intros [Hf Hc]%Instance_new_world. pose proof (fresh_heap _ Hf) as Hh.
  split; unfold events; rewrite ?Hc, ?Hh; try done; [apply Hf|].
  split; [done|]. intros _. exists []. split; [done|]. apply ring_repr_empty.
Qed.

(** ** What readers get *)

(** C8: the messages of a service reach its readers in order, whoever they are and whenever they run.
    From [Instance::new] on, let any number of clients connect, create and close services, send,
    take completions and take messages, while the slot handler runs and the VideoCore writes, in any
    interleaving.  As long as no more than 128 messages of a service waited, what [dequeue_message]
    returned for it - to whichever client - are the payloads the callback of the service was given,
    in the order it was given them, none lost, none twice; and the rest waits in its queue.  Nothing
    can be taken from a service that was not created for VCHI. *)
Theorem readers_in_order {P : Platform} {PL : PlatformLaws P} (hw : Hw) (w : W) (s : system)
    (l : nat) (sv : Service) :
  Instance_new [] VCHIQ_MAX_SERVICES hw = Ret (Ok w) -> rtc reader_step ([], w) s ->
  w_heap s.2 !! l = Some sv ->
  let h := handle sv in
  let es := events s.2 in
  roomy h es ->
  exists ud u, userdata (base sv) = Some ud /\ user_at s.2 ud u /\
    if is_vchi u
    then exists waiting, map data (received h es) = taken h es ++ map data waiting /\
           client_repr 0 s.2 h ud waiting
    else taken h es = [].
Proof.
  intros Hnew Hs Hl h es Hr. apply Instance_new_log in Hnew. destruct (readers_reachable w s Hnew Hs) as [Hw _].
  destruct (log_boxes _ Hw l sv Hl) as (ud & u & Hud & Hu & [Hp Hq]). exists ud, u. split; [done|]. split; [done|].
  destruct (is_vchi u) eqn:Hv; [|by apply Hp]. destruct (Hq eq_refl Hr) as (past & waiting & E1 & E2 & H3 & _).
  exists waiting. split; [by unfold h, es; rewrite E1, E2, map_app|]. split; [|by exists u|apply (log_comps _ Hw)].
  exists l, sv. split; [|done]. pose proof (by_handle _ _ _ (log_reg _ Hw) Hl) as E.
  unfold service_from_handle, get_srv in E. rewrite !bind_gets in E.
  destruct (find_handle _ _ _); [by injection E as ->|done].
Qed.

(** C10: completions are taken in the order in which they were announced, in any interleaving: as long as
    no more than 128 of them waited, what [await_completion] returned, to whichever client and in
    portions of whatever size, are the completions the callbacks of the services announced, in that
    order, each of them once; and the others are in the completion queue. *)
Theorem completions_in_order {P : Platform} {PL : PlatformLaws P} (hw : Hw) (w : W) (s : system) :
  Instance_new [] VCHIQ_MAX_SERVICES hw = Ret (Ok w) -> rtc reader_step ([], w) s ->
  comp_roomy (events s.2) ->
  exists waiting, announced (events s.2) = completed (events s.2) ++ waiting /\
    comp_repr (completion (w_client s.2)) waiting.
Proof.
  intros Hnew Hs Hr. apply Instance_new_log in Hnew. destruct (readers_reachable w s Hnew Hs) as [Hw _].
  by apply (log_comps _ Hw).
Qed.

(** C9: a reader that waits is served.  A client calls [dequeue_message] for a service, finds its queue
    empty and waits.  Whatever happens then, and however many others read: while it is not served its
    future stays the same; and whenever the callback has been given a message nobody has taken yet,
    whichever reader is polled next - this one, or one that has just called - returns with the oldest
    such message.  No wake-up is needed that could be lost. *)
Theorem waiting_reader_served {P : Platform} {PL : PlatformLaws P} (hw : Hw) (w : W) (s s' : system)
    (i : nat) (h : ServiceHandle) (f : Async W unit) (w1 : W) :
  Instance_new [] VCHIQ_MAX_SERVICES hw = Ret (Ok w) -> rtc reader_step ([], w) s ->
  s.1 !! i = Some (read h) -> poll (read h) s.2 = Ret (inr f, w1) ->
  rtc reader_step (<[i := f]> s.1, w1) s' ->
  let es := events s'.2 in
  (forall w2 f', poll f s'.2 = Ret (inr f', w2) -> f' = f) /\
  (forall m, roomy h es -> received h es !! length (taken h es) = Some m ->
   forall g, g = f \/ g = read h ->
   exists w2, poll g s'.2 = Ret (inl tt, w2) /\ events w2 = es ++ [Taken h (data m)]).
Proof.
  intros Hnew Hs Hi E Hs' es. apply Instance_new_log in Hnew.
  pose proof (readers_reachable w s Hnew Hs) as [Hw Hc].
  assert (exists ud, f = read_rest h ud /\ reading w1 h ud) as (ud & -> & Hrd).
  { destruct (read_start h s.2 Hw) as [E1|(ud & Hrd)]; [by rewrite E1 in E|].
    rewrite (read_finds _ _ _ Hw Hrd) in E. destruct (read_rest_poll _ _ _ _ _ Hw Hrd E) as [Hev ->].
    exists ud. split; [done|by eapply reading_evolves]. }
  assert (readers_covered (<[i := read_rest h ud]> s.1, w1)) as Hc1.
  { apply (readers_steps s); [|by split]. apply rtc_once. destruct s as [fs w0]. by eapply step_pending. }
  destruct (readers_steps _ _ Hs' Hc1) as [Hst [Hw' _]].
  assert (reading s'.2 h ud) as Hrd' by (eapply reading_evolves; [apply Hst, Hc1|done]).
  split.
  - intros w2 f' E'. by destruct (read_rest_poll _ _ _ _ _ Hw' Hrd' E').
  - intros m Hr Hm g Hg. destruct (read_rest_served h ud s'.2 m Hw' Hrd' Hr Hm) as (w2 & E2 & He).
    exists w2. split; [|done]. destruct Hg as [->| ->]; [done|]. by rewrite (read_finds _ _ _ Hw' Hrd').
Qed.
End readers.
