(* ===== verification/Delivery.v ===== *)
(** Receiving data, from the shared memory to the client: the slot handler passes the DATA messages
    of the VideoCore through the callback of the service into its message queue. *)

From S2P Require Import Prelude Locks Memory Layout Types SlotMessage Event SlotZero Slot Service.
From S2P Require Import State SlotHandler Completion Instance Registry Queues Stream Transmit Receive Connection.

Section delivery.
Context {L : LockLib} {X : Type}.
Notation W := (World (Client X)).
Implicit Types w : W.

(** An open service of the client: it belongs to the port [src] of the VideoCore, its callback is
    the one [create_service] registers, and [q] waits to be dequeued, with room for [k] messages. *)
Record serving (k : nat) (w : W) (l : nat) (s : Service) (src : Z) (ud : nat) (q : list SlotMessage) : Prop := {
  serving_use : in_use w l s;
  serving_open : srvstate s = ServiceState.OPEN;
  serving_remote : remoteport s = src /\ 0 <= src < 4096;
  serving_callback : callback (base s) = Some service_callback_closure;
  serving_queue_repr : client_repr k w (handle s) ud q;
}.

(** The record of the service while its callback runs. *)
Definition callback_taken (s : Service) : Service := s <| base ::= fun b => b <| callback := None |> |>.

Lemma callback_taken_back s :
  callback (base s) = Some service_callback_closure ->
  (callback_taken s) <| base ::= fun b => b <| callback := Some service_callback_closure |> |> = s.
Proof. intros Hc. unfold callback_taken. destruct s as [b]. destruct b. cbn in *. by rewrite Hc. Qed.

Lemma callback_taken_evolves s : svc_evolves s (callback_taken s).
Proof. by split. Qed.

(** Replacing the record of a service by one with the same handle and box. *)
Lemma client_repr_with_service k w l s s' ud q :
  reg_inv w -> w_heap w !! l = Some s -> svc_evolves s s' -> userdata (base s') = userdata (base s) ->
  client_repr k w (handle s) ud q -> client_repr k (with_service w l s') (handle s) ud q.
Proof.
  intros Hi Hs He Hu [(l0 & s0 & Hf & Hl0 & Hud) Huser Hc]. split; [|done|done].
  assert (reg_inv (with_service w l s')) as Hi' by by apply (with_service_step w l s s' Hs He Hi).
  assert (w_heap (with_service w l s') !! l = Some s') as Hs' by by eapply with_service_lookup.
  pose proof (by_handle _ _ _ Hi Hs) as E. rewrite (service_from_handle_Ok _ _ _ Hf) in E.
  injection E as ->. simplify_eq.
  pose proof (by_handle _ _ _ Hi' Hs') as E'. rewrite (evolves_handle _ _ He) in E'.
  exists l, s'. split; [|split; [done|by rewrite Hu]].
  unfold service_from_handle, get_srv in E'. rewrite !bind_gets in E'.
  destruct (find_handle (w_heap (with_service w l s')) _ _); [by injection E' as ->|done].
Qed.

(** The messages of the VideoCore for the service. *)
Definition data_messages (src dst : Z) (ds : list (list Z)) : list SlotMessage :=
  map (vc_message DATA src dst) ds.

(** A DATA message: the callback runs, and the record of the service is as before. *)
Lemma process_data_invokes k w l s src ud q d w2 :
  serving k w l s src ud q ->
  let m := vc_message DATA src (localport s) d in
  let w1 := with_service w l (callback_taken s) in
  invoke_callback service_callback_closure MESSAGE_AVAILABLE (Some m) (handle s) w1 = Ret (tt, w2) ->
  client_frame w1 w2 ->
  process m w = Ret (tt, with_service w2 l s) /\ in_use (with_service w2 l s) l s /\
  forall k' q', client_repr k' w2 (handle s) ud q' -> client_repr k' (with_service w2 l s) (handle s) ud q'.
Proof.
  intros [Hu Ho [Hr Hsrc] Hcb Hq] m w1 E2 Hf2. pose proof Hu as [Hi Hs Hst].
  set (s1 := callback_taken s) in *.
  assert (reg_inv w2) as Hi2.
  { apply (client_frame_step _ _ Hf2).
    by apply (with_service_step w l s s1 Hs (callback_taken_evolves s) Hi). }
  assert (w_heap w2 !! l = Some s1) as Hs2.
  { rewrite (client_frame_heap _ _ Hf2). by eapply with_service_lookup. }
  assert (svc_evolves s1 s) as Hev by by split.
  split; [|split].
  - unfold m. rewrite (process_service DATA src d w l s) by tauto. cbn [dispatch unwrap].
    rewrite bind_ret_l. unfold handle_data. erewrite bind_Ret by by apply get_service_Ret.
    rewrite Hr, Z.eqb_refl, Ho. cbv zeta. rewrite bool_decide_eq_true_2 by done. cbn [andb].
    erewrite upd_service_bind by done. rewrite Hcb.
    erewrite bind_Ret by exact E2. erewrite upd_service_Ret by exact Hs2.
    unfold s1. by rewrite callback_taken_back.
  - split; [|by eapply with_service_lookup|by rewrite Ho].
    by apply (with_service_step w2 l s1 s Hs2 Hev Hi2).
  - intros k' q' Hq'. change (handle s) with (handle s1) at 1.
    eapply client_repr_with_service; [done|exact Hs2|done|done|exact Hq'].
Qed.

Lemma serving_taken k w l s src ud q :
  serving k w l s src ud q -> client_repr k (with_service w l (callback_taken s)) (handle s) ud q.
Proof.
  intros [[Hi Hs _] _ _ _ Hq].
  eapply client_repr_with_service; [done|done|apply callback_taken_evolves|done|done].
Qed.

Lemma taken_back_frame ud w l s w2 :
  w_heap w !! l = Some s -> queue_frame ud (with_service w l (callback_taken s)) w2 ->
  queue_frame ud w (with_service w2 l s).
Proof.
  intros Hl [[Hst Hh Hhw Hn] Hup Hb Hr]. split; [|exact Hup|exact Hb|exact Hr]. split; try done.
  cbn in Hh |- *. rewrite Hh, list_insert_insert_eq. by apply list_insert_id.
Qed.

(** One message: it is queued, and nothing else happens to the service. *)
Lemma process_data_Ret k w l s src ud q d :
  serving (S k) w l s src ud q -> (length q < 128)%nat ->
  exists w', process (vc_message DATA src (localport s) d) w = Ret (tt, w') /\
    serving k w' l s src ud (q ++ [vc_message DATA src (localport s) d]) /\
    queue_frame ud w w'.
Proof.
  intros Hsv Hlen. set (m := vc_message DATA src (localport s) d).
  destruct (receive_Ret k _ (handle s) ud q m (serving_taken _ _ _ _ _ _ _ Hsv) Hlen)
    as (w2 & E2 & Hq2 & Hfr). pose proof (queue_client _ _ _ Hfr) as Hf2.
  destruct (process_data_invokes _ w l s src ud q d w2 Hsv E2 Hf2) as (E & Hu & Hq).
  destruct Hsv as [[_ Hl _] Ho Hr Hcb _].
  exists (with_service w2 l s). split; [exact E|]. split; [split; try done; by apply Hq|].
  by apply (taken_back_frame ud w l s).
Qed.

Lemma serving_upd_slot k w l s src ud q f :
  serving k w l s src ud q ->
  serving k (w <| w_state ::= fun st => st <| slot_state ::= f |> |>) l s src ud q.
Proof.
  intros [[[? ? ? ? ? ?] ? ?] ? ? ? [? ? ?]]. split; [|done|done|done|by split]. split; [|done|done]. by split.
Qed.

Lemma deliver_data l s src ud : forall ds k w q slot off,
  serving (length ds + k) w l s src ud q -> (length q + length ds <= 128)%nat ->
  exists w', deliver slot off (data_messages src (localport s) ds) w = Ret (tt, w') /\
    serving k w' l s src ud (q ++ data_messages src (localport s) ds) /\
    upper (w_client w') = upper (w_client w).
Proof.
  induction ds as [|d ds IH]; intros k w q slot off Hs Hlen; cbn [data_messages map deliver].
  { exists w. by rewrite app_nil_r. }
  cbn [length] in *.
  destruct (process_data_Ret _ _ _ _ _ _ _ d Hs) as (w1 & E1 & Hs1 & Hup1%queue_upper); [lia|].
  erewrite bind_Ret by exact E1. unfold move_rx, upd_slot, upd_state. rewrite bind_modify.
  edestruct (IH k) as (w2 & E2 & Hs2 & Hup2); [by apply serving_upd_slot, Hs1|rewrite length_app; cbn; lia|].
  exists w2. split; [exact E2|]. rewrite <- app_assoc in Hs2. split; [exact Hs2|by rewrite Hup2].
Qed.

(** A round of the handler over DATA messages of one service. *)
Lemma data_received w l s src ud k q ds pos fuel :
  let msgs := data_messages src (localport s) ds in
  let tx := rx_pos (slot_state (w_state w)) + stream_len msgs in
  serving (length ds + k) w l s src ud q -> (length q + length ds <= 128)%nat ->
  tx_pos (remote (slot_zero (slot_state (w_state w)))) (hw_mem (w_hw w)) = tx ->
  rx_ready pos msgs w -> rx_at tx pos w -> ds <> [] -> (length ds <= fuel)%nat ->
  exists w', slot_handler fuel true w = Ret (tt, w') /\ serving k w' l s src ud (q ++ msgs) /\
    rx_pos (slot_state (w_state w')) = tx /\ w_hw w' = w_hw w /\ upper (w_client w') = upper (w_client w).
Proof.
  intros msgs tx Hs Hlen Htx Hr Hat Hne Hf.
  assert (slot_handler fuel true w = deliver (pos_index pos) (pos_offset pos) msgs (at_slot pos w)) as E.
  { unfold slot_handler, get_slot, get_mem. rewrite !bind_gets, Htx. unfold tx.
    rewrite (handle_messages_deliver msgs fuel pos w Hr) ; [|by unfold msgs, data_messages; rewrite length_map|exact Hat|].
    - rewrite decide_False; [done|]. unfold msgs, data_messages. by destruct ds.
    - left. unfold msgs, data_messages. by destruct ds. }
  edestruct (deliver_data l s src ud ds k (at_slot pos w) q) as (w' & Ed & Hs' & Hup); [|done|].
  { by apply serving_upd_slot. }
  exists w'. split; [by rewrite E|]. split; [done|]. apply deliver_Ret in Ed as [? ?]. by split_and!.
Qed.

(** Data of the VideoCore reaches the client.  When DATA messages from the port a service is
    connected to lie between the read position and the position the VideoCore published, a round of
    the slot handler returns, having appended all of them, in order, to the message queue of the
    service - from where [dequeue_message] takes them - and having read everything there was; the
    service stays as it was. *)
Lemma data_reaches_client (w : W) (l : nat) (s : Service) (src : Z) (ud k : nat) (q : list SlotMessage)
    (ds : list (list Z)) (pos : SlotPosition) (fuel : nat) :
  let msgs := data_messages src (localport s) ds in
  let tx := rx_pos (slot_state (w_state w)) + stream_len msgs in
  serving (length ds + k) w l s src ud q -> (length q + length ds <= 128)%nat ->
  tx_pos (remote (slot_zero (slot_state (w_state w)))) (hw_mem (w_hw w)) = tx ->
  rx_ready pos msgs w -> rx_at tx pos w -> ds <> [] -> (length ds <= fuel)%nat ->
  exists w', slot_handler fuel true w = Ret (tt, w') /\
    serving k w' l s src ud (q ++ msgs) /\
    rx_pos (slot_state (w_state w')) = tx /\ w_hw w' = w_hw w.
Proof.
  intros msgs tx Hs Hlen Htx Hr Hat Hne Hf.
  destruct (data_received w l s src ud k q ds pos fuel Hs Hlen Htx Hr Hat Hne Hf) as (w' & ? & ? & ? & ? & _).
  exists w'. by split_and!.
Qed.

(** Data nobody may receive is dropped.  A DATA message for a service that is not open, or from
    another port than the service is connected to, changes nothing at all. *)
Lemma data_dropped (w : W) (l : nat) (s : Service) (src : Z) (d : list Z) :
  in_use w l s -> 0 <= src < 4096 ->
  remoteport s <> src \/ srvstate s <> ServiceState.OPEN ->
  process (vc_message DATA src (localport s) d) w = Ret (tt, w).
Proof.
  intros Hu Hsrc Hn. rewrite (process_service DATA src d w l s) by tauto. cbn [dispatch unwrap].
  rewrite bind_ret_l. unfold handle_data. erewrite bind_Ret by (apply get_service_Ret, Hu).
  destruct Hn as [Hn|Hn].
  - by rewrite (proj2 (Z.eqb_neq _ _)) by done.
  - by rewrite bool_decide_eq_false_2, andb_false_r by done.
Qed.
End delivery.
