(* ===== verification/Vchi.v ===== *)
(** The VCHI layer: [src/vchi/instance.rs], [service.rs] and [completion.rs].  It keeps a map of the
    services it opened through the VCHIQ instance, behind a lock, and a task that passes completions
    on to the callbacks of the application. *)

From stdpp Require Import gmap.
From S2P Require Import Prelude Locks Memory Layout Types SlotMessage Event SlotZero Slot Service.
From S2P Require Import State SlotHandler Completion Instance.

(** What the callbacks of the application do.  A [VchiCallback] gets a [UserData] and a reason, so it
    works on the boxes of user data. *)
Class AppCallbacks (L : LockLib) (VchiCallback : Type) : Type :=
  app_callback : VchiCallback -> option (@UserData instance_callbacks) -> Reason -> list AnyBox -> outcome (list AnyBox).

Section vchi.
Context {L : LockLib} {RW : RwLib} {VchiCallback : Type} {App : AppCallbacks L VchiCallback}.

(** [ServiceCreation]; the sizes and the wishes are never looked at. *)
Record ServiceCreation : Type := mkServiceCreation {
  sc_version : Z;
  sc_version_min : Z;
  sc_service_id : FourCC;
  sc_rx_fifo_size : Z;
  sc_tx_fifo_size : Z;
  sc_callback : option VchiCallback;
  sc_callback_param : option UserData;
  sc_want_unaligned_bulk_rx : bool;
  sc_want_unaligned_bulk_tx : bool;
  sc_want_crc : bool;
}.

(** [vchi::service::Service]; its base is a record of the same three fields as on the VCHIQ side. *)
Record VchiService : Type := mkVchiService {
  vs_base : ServiceBase;
  vchi_callback : option VchiCallback;
  vs_handle : ServiceHandle;
  peek_buf : option (list Z);
  vs_client_id : Z;
  is_client : bool;
}.
#[export] Instance eta_VchiService : Eta VchiService := fun r =>
  mkVchiService (vs_base r) (vchi_callback r) (vs_handle r) (peek_buf r) (vs_client_id r) (is_client r).

(** A call of an application's callback. *)
Record VchiCall : Type := mkVchiCall {
  call_callback : VchiCallback;
  call_userdata : option UserData;
  call_reason : Reason;
}.

(** [vchi::Instance] apart from [vchiq_instance]; [service_handle] is the static counter
    [SERVICE_HANDLE].  [handlers] counts the completion handlers given to the executor, and [called]
    records the calls of the application's callbacks, oldest first. *)
Record Vchi : Type := mkVchi {
  vchi_initialized : bool;
  vchi_connected : bool;
  use_close_delivered : bool;
  used_services : Z;
  services_lock : rw;
  vchi_services : gmap Z VchiService;
  service_handle : Z;
  handlers : nat;
  called : list VchiCall;
}.
#[export] Instance eta_Vchi : Eta Vchi := fun r =>
  mkVchi (vchi_initialized r) (vchi_connected r) (use_close_delivered r) (used_services r)
    (services_lock r) (vchi_services r) (service_handle r) (handlers r) (called r).

(** The fields [Instance::new] sets, given the counter. *)
Definition Vchi_new (next : Z) : Vchi := mkVchi false false false 0 rw_new ∅ next 0 [].

Notation W := (World (Client Vchi)).

(** [Instance::new]: the VCHIQ instance, of which a failure is a panic, and the layer on top. *)
Definition Vchi_Instance_new {P : Platform} (next next_handle : Z) (hw : Hw) : outcome W :=
  match Instance_new (Vchi_new next) next_handle hw with
  | Ret (Ok w) => Ret w
  | Ret (Err _) => Panic PUnwrap
  | Panic p => Panic p
  | Blocked => Blocked
  | OutOfFuel => OutOfFuel
  end.

Definition get_vchi : M W Vchi := gets (fun w => upper (w_client w)).
Definition upd_vchi (f : Vchi -> Vchi) : M W unit :=
  modify (fun w => w <| w_client ::= fun c => c <| upper ::= f |> |>).

(** ** The lock of the services *)

(** [services.read()], and dropping the guard. *)
Definition services_read : M W unit :=
  let* v := get_vchi in
  match rw_read (services_lock v) with
  | Some r => upd_vchi (fun v => v <| services_lock := r |>)
  | None => block
  end.
Definition services_read_done : M W unit := upd_vchi (fun v => v <| services_lock ::= rw_read_done |>).

(** [services.lock()], and dropping the guard. *)
Definition services_write : M W unit :=
  let* v := get_vchi in
  match rw_lock (services_lock v) with
  | Some r => upd_vchi (fun v => v <| services_lock := r |>)
  | None => block
  end.
Definition services_write_done : M W unit := upd_vchi (fun v => v <| services_lock ::= rw_lock_done |>).

(** [services.get(&handle).ok_or(VchiError::ServiceNotFound(handle))]. *)
Definition find_service (h : ServiceHandle) : M W (VchiqResult VchiService) :=
  let* v := get_vchi in
  ret (match vchi_services v !! h with
       | Some s => Ok s
       | None => Err (EVchi (VchiServiceNotFound h))
       end).

(** ** Operations *)

Definition Vchi_initialize : M W unit :=
  let* v := get_vchi in
  if negb (vchi_initialized v) then
    upd_vchi (fun v => v <| use_close_delivered := true |> <| vchi_initialized := true |>)
  else ret tt.

Definition Vchi_connect : Async W (VchiqResult unit) :=
  await* v := astep get_vchi in
  if negb (vchi_connected v) then
    await? _ := Instance_connect in
    await* _ := astep (upd_vchi (fun v => v <| vchi_connected := true |> <| handlers ::= S |>)) in
    Done (Ok tt)
  else Done (Ok tt).

Definition Vchi_create_service {R : OpenPayloadRepr} (params : ServiceParams)
    (callback : option VchiCallback) (open : bool) : Async W (VchiqResult ServiceHandle) :=
  await* v := astep get_vchi in
  if negb (vchi_initialized v) then Done (Err (EVchi VchiNotInitialized)) else
  let handle := service_handle v in
  await* _ := astep (upd_vchi (fun v => v <| service_handle := usize_add handle 1 |>)) in
  let userdata := sp_userdata params in
  await* ud := astep (UserData_new (AnyServiceHandle handle)) in
  let vchiq_params := {| sp_fourcc := sp_fourcc params;
                         sp_callback := sp_callback params;
                         sp_userdata := Some ud;
                         sp_version := sp_version params;
                         sp_version_min := sp_version_min params |} in
  await? vchiq_handle :=
    create_service vchiq_params open (bool_decide (sp_callback vchiq_params = None)) in
  let service := {| vs_base := mkServiceBase (sp_fourcc vchiq_params) (sp_callback vchiq_params) userdata;
                    vchi_callback := callback;
                    peek_buf := None;
                    is_client := open;
                    vs_client_id := 0;
                    vs_handle := vchiq_handle |} in
  await* _ := astep (
    services_write ;;
    upd_vchi (fun v => v <| vchi_services ::= <[handle := service]> |>) ;;
    services_write_done) in
  Done (Ok handle).

Definition service_open {R : OpenPayloadRepr} (setup : ServiceCreation)
  : Async W (VchiqResult ServiceHandle) :=
  let params := {| sp_fourcc := sc_service_id setup;
                   sp_userdata := sc_callback_param setup;
                   sp_version := sc_version setup;
                   sp_version_min := sc_version_min setup;
                   sp_callback := None |} in
  Vchi_create_service params (sc_callback setup) true.

(** The guard is dropped with the block, also when one of the [?] returns. *)
Definition service_close (handle : ServiceHandle) : Async W (VchiqResult unit) :=
  await* _ := astep services_read in
  await* r :=
    (await? service := astep (find_service handle) in
     Instance_close_service (vs_handle service)) in
  await* _ := astep services_read_done in
  await? _ := Done r in
  await* _ := astep (
    services_write ;;
    upd_vchi (fun v => v <| vchi_services ::= delete handle |>) ;;
    services_write_done) in
  Done (Ok tt).

(** [remove_service] is a [todo!()]. *)
Definition remove_service (handle : ServiceHandle) : Async W (VchiqResult unit) := astep (raise PTodo).

Definition Vchi_queue_message (fuel : nat) (handle : ServiceHandle) (data : list Z)
  : M W (VchiqResult unit) :=
  services_read ;;
  let* r := (let? service := find_service handle in
             Instance_queue_message fuel (vs_handle service) data) in
  services_read_done ;;
  ret r.

(** The lock is held for writing until the message is there. *)
Definition Vchi_dequeue_message (handle : ServiceHandle) (max_data_to_read : Z)
  : Async W (VchiqResult (list Z)) :=
  await* _ := astep services_write in
  await* r :=
    (await? service := astep (find_service handle) in
     match peek_buf service with
     | Some buf =>
         await* _ := astep (upd_vchi (fun v =>
           v <| vchi_services ::= <[handle := service <| peek_buf := None |>]> |>)) in
         Done (Ok buf)
     | None => dequeue_message Vec_try_from (vs_handle service)
     end) in
  await* _ := astep services_write_done in
  Done r.

(** ** The completion handler *)

(** Calling the callback of the application. *)
Definition invoke_vchi_callback (call : VchiCall) : M W unit :=
  upd_vchi (fun v => v <| called ::= fun l => l ++ [call] |>) ;;
  let* cl := get_client in
  let* boxes := lift (app_callback (call_callback call) (call_userdata call) (call_reason call) (user_data cl)) in
  upd_client (fun cl => cl <| user_data := boxes |>).

(** What is done with one completion.  Nothing is done for [SERVICE_CLOSED]. *)
Definition handle_completion (c : ServiceCompletion) : M W unit :=
  let* ud := unwrap (service_userdata c) in
  let* cl := get_client in
  match user_data cl !! (ud : nat) with
  | Some (AnyServiceHandle h) =>
      services_read ;;
      let* v := get_vchi in
      let* service := unwrap (vchi_services v !! h) in
      match callback (vs_base service) with
      | Some cb => invoke_callback cb (reason c) (msg c) (vs_handle service)
      | None =>
          match vchi_callback service with
          | Some cb => invoke_vchi_callback (mkVchiCall cb (userdata (vs_base service)) (reason c))
          | None => ret tt
          end
      end ;;
      services_read_done
  | _ => raise PUnwrap
  end.

Fixpoint handle_completions (cs : list ServiceCompletion) : M W unit :=
  match cs with
  | [] => ret tt
  | c :: cs => handle_completion c ;; handle_completions cs
  end.

(** One poll of the handler; [true]: it is done for good.  The future of [await_completion] is made
    anew and polled once. *)
Definition completion_handler : M W bool :=
  let* r := poll (await_completion 8) in
  match r with
  | inr _ => ret false
  | inl (Err e) => ret true
  | inl (Ok completions) => handle_completions completions ;; ret false
  end.
End vchi.
Arguments ServiceCreation : clear implicits.
Arguments VchiService : clear implicits.
Arguments VchiCall : clear implicits.
Arguments Vchi {RW} VchiCallback.
#[export] Existing Instances eta_VchiService eta_Vchi.
