(* ===== verification/VchiOk.v ===== *)
(** What the VCHI layer does with the layers below: opening, sending, receiving and closing through
    [vchi::Instance], and the completion handler. *)

From stdpp Require Import gmap.
From S2P Require Import Prelude Locks Memory Layout Types SlotMessage Event SlotZero Slot Service.
From S2P Require Import State SlotHandler Completion Instance Registry Queues Stream Transmit Receive.
From S2P Require Import Connection Delivery Vchi.

Section vchi.
Context {L : LockLib} {LL : LockLaws L} {RW : RwLib} {RWL : RwLaws RW} {VC : Type} {App : AppCallbacks L VC}.
Notation W := (World (Client (Vchi VC))).
Implicit Types w : W.

(** ** The state of the layer *)

Definition vchi_of (w : W) : Vchi VC := upper (w_client w).
Definition with_vchi (w : W) (v : Vchi VC) : W := w <| w_client ::= fun c => c <| upper := v |> |>.

Lemma upd_vchi_Ret f w : upd_vchi f w = Ret (tt, with_vchi w (f (vchi_of w))).
Proof. reflexivity. Qed.

Lemma with_vchi_twice w v v' : with_vchi (with_vchi w v) v' = with_vchi w v'.
Proof. done. Qed.

Lemma with_vchi_frame w v : client_frame w (with_vchi w v).
Proof. done. Qed.

Lemma in_use_client w w' l s : client_frame w w' -> in_use w l s -> in_use w' l s.
Proof.
  intros Hf [Hi Hs Hst]. split; [by apply (client_frame_step _ _ Hf)| |done].
  by rewrite (client_frame_heap _ _ Hf).
Qed.

Lemma serving_with_vchi k w l s src ud q v :
  serving k w l s src ud q -> serving k (with_vchi w v) l s src ud q.
Proof.
  intros [Hu Ho Hr Hc [? ? ?]]. split; [|done|done|done|by split].
  by apply (in_use_client w).
Qed.

(** *** The lock *)

Definition lock_free (w : W) : Prop := rw_holders (services_lock (vchi_of w)) = Some 0%nat.
Definition lock_held (w : W) : Prop := rw_holders (services_lock (vchi_of w)) = None.
Definition locked_as (r : rw) (w : W) : W := with_vchi w ((vchi_of w) <| services_lock := r |>).

Lemma services_read_Ret w n :
  rw_holders (services_lock (vchi_of w)) = Some n ->
  exists r, services_read w = Ret (tt, locked_as r w) /\ rw_holders r = Some (S n).
Proof.
  intros Hn. pose proof (rw_read_law (services_lock (vchi_of w))) as Hl. rewrite Hn in Hl.
  destruct Hl as (r & E & Hr). exists r. split; [|done].
  unfold services_read, get_vchi. rewrite bind_gets. unfold vchi_of in E. by rewrite E.
Qed.

Lemma services_write_Ret w :
  lock_free w -> exists r, services_write w = Ret (tt, locked_as r w) /\ rw_holders r = None.
Proof.
  intros Hn. pose proof (rw_lock_law (services_lock (vchi_of w))) as Hl. rewrite Hn in Hl.
  destruct Hl as (r & E & Hr). exists r. split; [|done].
  unfold services_write, get_vchi. rewrite bind_gets. unfold vchi_of in E. by rewrite E.
Qed.

Lemma services_read_blocked w : lock_held w -> services_read w = Blocked.
Proof.
  intros Hn. pose proof (rw_read_law (services_lock (vchi_of w))) as Hl. rewrite Hn in Hl.
  unfold services_read, get_vchi. rewrite bind_gets. unfold vchi_of in Hl. by rewrite Hl.
Qed.

Lemma find_service_Ret h w :
  find_service h w = Ret (match vchi_services (vchi_of w) !! h with
                          | Some s => Ok s
                          | None => Err (EVchi (VchiServiceNotFound h))
                          end, w).
Proof. reflexivity. Qed.

(** ** Opening *)

(** An open service as the application sees it: its handle [h] names an entry of the map, for a
    service [s] that is open on both sides; the messages [q] wait in its queue. *)
Record opened (k : nat) (w : W) (h : ServiceHandle) (vs : VchiService VC) (l : nat) (s : Service)
    (src : Z) (ud : nat) (q : list SlotMessage) : Prop := {
  opened_free : lock_free w;
  opened_entry : vchi_services (vchi_of w) !! h = Some vs;
  opened_handle : vs_handle vs = handle s;
  opened_peek : peek_buf vs = None;
  opened_serving : serving k w l s src ud q;
}.

(** A client on which services can be opened. *)
Record can_open (a : Area) (msgs : list SlotMessage) (w : W) : Prop := {
  can_initialized : vchi_initialized (vchi_of w) = true;
  can_connected : connected (w_client w) = true;
  can_lock : lock_free w;
  can_reg : reg_inv w;
  can_add : Z.of_nat (length (w_heap w)) < VCHIQ_MAX_SERVICES;
  can_tx : tx_stream a msgs w;
  can_room : 24 <= room (stream_len msgs) /\ stream_len msgs < area_count a * 4096;
  can_completions : length (completions (completion (w_client w))) = 128%nat;
}.

(** The entry [create_service] makes. *)
Definition opened_entry_of (setup : ServiceCreation VC) (handle : ServiceHandle) : VchiService VC :=
  {| vs_base := mkServiceBase (sc_service_id setup) None (sc_callback_param setup);
     vchi_callback := sc_callback setup; vs_handle := handle; peek_buf := None;
     vs_client_id := 0; is_client := true |}.

Lemma fresh_user_repr k ud : Z.of_nat k < 2 ^ 64 -> user_repr k (ServiceUser_new ud true) [].
Proof. intros Hk. split; [apply ring_repr_empty|]. split; [done|]. cbn. lia. Qed.

(** The parameters the VCHIQ instance passes on: its own callback, and its record of the service. *)
Definition own_params (params : ServiceParams) (ud : nat) : ServiceParams :=
  mkServiceParams (sp_fourcc params) (Some service_callback_closure) (Some ud)
    (sp_version params) (sp_version_min params).

Definition setup_params (setup : ServiceCreation VC) (ud : nat) : ServiceParams :=
  mkServiceParams (sc_service_id setup) None (Some ud) (sc_version setup) (sc_version_min setup).

Lemma openacked_same rp m s :
  let s2 := openacked rp m s in
  base s2 = base s /\ handle s2 = handle s /\ localport s2 = localport s /\ version s2 = version s /\
  version_min s2 = version_min s /\ closing s2 = closing s.
Proof. unfold openacked. by destruct (OpenAckPayload_try_from m), (decide _). Qed.

(** The quotas with those of the new service. *)
Definition opened_quotas (w : W) : QuotaState :=
  (quota_state (w_state w)) <| service_quotas ::= alter (opened_quota w) (length (w_heap w)) |>.

(** [create_service] of the VCHIQ instance, answered. *)
Lemma create_service_opens {R : OpenPayloadRepr} (k : nat) a msgs w params rp d :
  connected (w_client w) = true -> reg_inv w -> Z.of_nat (length (w_heap w)) < VCHIQ_MAX_SERVICES ->
  tx_stream a msgs w -> 24 <= room (stream_len msgs) -> stream_len msgs < area_count a * 4096 ->
  length (completions (completion (w_client w))) = 128%nat -> Z.of_nat k < 2 ^ 64 -> 0 <= rp < 4096 ->
  let n := length (w_heap w) in
  let ud := length (user_data (w_client w)) in
  exists w' s, run_with [process (vc_message OPENACK rp (Z.of_nat n) d)] (create_service params true true) w =
      Ret (Some (Ok (VCHIQ_MAX_SERVICES + Z.of_nat n)), w') /\
    serving k w' n s rp ud [] /\ handle s = VCHIQ_MAX_SERVICES + Z.of_nat n /\
    fourcc (base s) = sp_fourcc params /\ permits (Service.remove_event s) = 0 /\ closing s = false /\
    tx_stream a (msgs ++ [open_message s]) w' /\
    w_client w' = (w_client w) <| user_data ::= fun l =>
      l ++ [AnyServiceUser (ServiceUser_new (sp_userdata params) true)] |> /\
    quota_state (w_state w') = opened_quotas w /\
    exists w0, run_with [] (create_service params true true) w = Ret (None, w0).
Proof.
  intros Hc Hi Hn Hs Hroom Hlt Hl Hk Hrp n ud.
  set (cl := (w_client w) <| user_data ::= fun l =>
    l ++ [AnyServiceUser (ServiceUser_new (sp_userdata params) true)] |>).
  set (w1 := with_client w cl).
  set (params' := own_params params ud).
  assert (client_frame w w1) as Hf1 by done.
  assert (reg_inv w1) as Hi1 by by apply (client_frame_step _ _ Hf1).
  set (w2 := with_new_service params' w1). set (s0 := new_service params' w1).
  destruct (with_new_service_ok params' w1 Hi1 Hn) as [Hi2 _].
  assert (handle s0 = VCHIQ_MAX_SERVICES + Z.of_nat n) as Hh by by apply (inv_handle _ Hi1).
  assert (w_heap w2 !! n = Some s0) as Hs0.
  { change (w_heap w2) with (w_heap w ++ [s0]). by rewrite lookup_app_r, Nat.sub_diag. }
  assert (in_use w2 n s0) as Hu by by split.
  assert (permits (Service.remove_event s0) = 0) as Hp0 by (apply permits_new; lia).
  destruct (open_answered a msgs w2 n s0 rp d) as (w3 & e & E0 & Hs3 & Hh3 & Hc3 & Hq3 & E & Hu3 & Ho & Hr & Hpe & _);
    try done.
  { by apply with_new_service_tx, (client_frame_tx _ _ w). }
  pose proof (openacked_same rp (vc_message OPENACK rp (localport s0) d) s0) as (Hb & Hh2 & Hl2 & Hv & Hvm & Hcls).
  set (s2 := _ <| Service.remove_event := e |>) in *. set (w4 := with_service w3 n s2) in *.
  change (base s2 = base s0) in Hb. change (handle s2 = handle s0) in Hh2.
  change (localport s2 = localport s0) in Hl2. change (version s2 = version s0) in Hv.
  change (version_min s2 = version_min s0) in Hvm. change (closing s2 = closing s0) in Hcls.
  assert (Service.remove_event s2 = e) as Hse by done. clearbody s2.
  assert (forall env, run_with env (create_service params true true) w =
    run_with env (await? _ := open_service (handle s0) in Done (Ok (handle s0))) w2) as Hrun.
  { intros env. unfold create_service. erewrite run_with_step by reflexivity. rewrite Hc. cbn [negb].
    unfold abind_try. cbn [abind]. erewrite run_with_step by apply UserData_new_Ret.
    fold ud. cbv zeta. fold params'. change (with_client w _) with w1.
    by erewrite run_with_step by by apply add_service_Ok. }
  exists w4, s2. split; [|split_and!].
  - rewrite Hrun. eapply run_with_abind_ready; [exact E|]. by rewrite Hh.
  - split; [exact Hu3|exact Ho|by split|by rewrite Hb|].
    split.
    + exists n, s2. split; [|split; [apply Hu3|]].
      * pose proof (in_use_by_handle _ _ _ Hu3) as Eh. unfold service_from_handle, get_srv in Eh.
        rewrite !bind_gets in Eh. destruct (find_handle (w_heap w4) _ _); [by injection Eh as ->|done].
      * by rewrite Hb.
    + exists (ServiceUser_new (sp_userdata params) true). split; [|by apply fresh_user_repr].
      change (w_client w4) with (w_client w3). rewrite Hc3. cbn. by rewrite lookup_app_r, Nat.sub_diag.
    + change (w_client w4) with (w_client w3). by rewrite Hc3.
  - by rewrite Hh2.
  - by rewrite Hb.
  - by rewrite Hse, Hpe.
  - by rewrite Hcls.
  - apply with_service_tx. replace (open_message s2) with (open_message s0); [exact Hs3|].
    unfold open_message. by rewrite Hb, Hl2, Hv, Hvm.
  - change (w_client w4) with (w_client w3). by rewrite Hc3.
  - exact Hq3.
  - exists w3. rewrite Hrun. by apply run_with_abind_pending.
Qed.

Lemma lock_and_update f w :
  lock_free w -> (forall v, services_lock (f v) = services_lock v) ->
  exists r, (services_write ;; upd_vchi f ;; services_write_done) w =
      Ret (tt, with_vchi w ((f ((vchi_of w) <| services_lock := r |>)) <| services_lock ::= rw_lock_done |>)) /\
    rw_holders r = None.
Proof.
  intros Hf Hs. destruct (services_write_Ret w Hf) as (r & E & Hr). exists r. split; [|done].
  by erewrite bind_Ret by exact E.
Qed.

(** What [service_open] leaves behind: service number [n], open on both sides, under the handle [h]. *)
Record open_done {R : OpenPayloadRepr} (k : nat) (a : Area) (msgs : list SlotMessage) (setup : ServiceCreation VC) (rp : Z)
    (w w' : W) (s : Service) : Prop := {
  done_opened : opened k w' (service_handle (vchi_of w)) (opened_entry_of setup (handle s))
    (length (w_heap w)) s rp (S (length (user_data (w_client w)))) [];
  done_fourcc : fourcc (base s) = sc_service_id setup;
  done_event : permits (Service.remove_event s) = 0;
  done_closing : closing s = false;
  done_services : vchi_services (vchi_of w') =
    <[service_handle (vchi_of w) := opened_entry_of setup (handle s)]> (vchi_services (vchi_of w));
  done_counter : service_handle (vchi_of w') = usize_add (service_handle (vchi_of w)) 1;
  done_called : called (vchi_of w') = called (vchi_of w);
  done_boxes : user_data (w_client w') = user_data (w_client w) ++
    [AnyServiceHandle (service_handle (vchi_of w));
     AnyServiceUser (ServiceUser_new (Some (length (user_data (w_client w)))) true)];
  done_completion : completion (w_client w') = completion (w_client w);
  done_connected : connected (w_client w') = connected (w_client w);
  done_quotas : quota_state (w_state w') = opened_quotas w;
  done_tx : tx_stream a (msgs ++ [open_message s]) w';
}.

Lemma service_open_Ret {R : OpenPayloadRepr} (k : nat) a msgs w (setup : ServiceCreation VC) rp d :
  can_open a msgs w -> 0 <= rp < 4096 -> Z.of_nat k < 2 ^ 64 ->
  exists w0 w' s,
    run_with [] (service_open setup) w = Ret (None, w0) /\
    run_with [process (vc_message OPENACK rp (Z.of_nat (length (w_heap w))) d)] (service_open setup) w =
      Ret (Some (Ok (service_handle (vchi_of w))), w') /\
    open_done k a msgs setup rp w w' s.
Proof.
  intros [Hi Hc Hl Hreg Hn Hs [Hroom Hlt] Hcl] Hrp Hk. set (h := service_handle (vchi_of w)).
  set (v1 := (vchi_of w) <| service_handle := usize_add h 1 |>).
  set (w1 := with_vchi w v1). set (ud1 := length (user_data (w_client w))).
  set (w2 := with_client w1 ((w_client w1) <| user_data ::= fun l => l ++ [AnyServiceHandle h] |>)).
  assert (client_frame w w2) as Hf by done.
  set (params := setup_params setup ud1).
  destruct (create_service_opens k a msgs w2 params rp d)
    as (w3 & s & E & Hsv & Hh & Hfc & Hp & Hcls & Hs3 & Hc3 & Hq3 & (w0 & E0)); try done.
  { by apply (client_frame_step _ _ Hf). }
  { by apply (client_frame_tx _ _ _ _ Hf). }
  replace (length (user_data (w_client w2))) with (S ud1) in Hsv by (cbn; rewrite length_app; cbn; lia).
  assert (vchi_of w3 = v1) as Hv3 by (unfold vchi_of; by rewrite Hc3).
  set (ins := fun v : Vchi VC => v <| vchi_services ::= <[h := opened_entry_of setup (handle s)]> |>).
  destruct (lock_and_update ins w3) as (r & Ew & Hr).
  { unfold lock_free. by rewrite Hv3. }
  { done. }
  rewrite Hv3 in Ew. set (w4 := with_vchi w3 _) in Ew.
  assert (forall env, run_with env (service_open setup) w =
    run_with env (await? vchiq_handle := create_service params true true in
      await* _ := astep (services_write ;;
        upd_vchi (fun v => v <| vchi_services ::= <[h := opened_entry_of setup vchiq_handle]> |>) ;;
        services_write_done) in
      Done (Ok h)) w2) as Hrun.
  { intros env. unfold service_open, Vchi_create_service. erewrite run_with_step by reflexivity.
    change (upper (w_client w)) with (vchi_of w). rewrite Hi. cbn [negb]. fold h.
    erewrite run_with_step by apply upd_vchi_Ret. fold v1 w1.
    by erewrite run_with_step by apply UserData_new_Ret. }
  exists w0, w4, s. split; [|split].
  - rewrite Hrun. by apply run_with_abind_pending.
  - rewrite Hrun. eapply run_with_abind_ready; [exact E|].
    cbn [abind poll astep]. rewrite <- Hh. by erewrite bind_Ret by exact Ew.
  - split; try done.
    + split; try done.
      * unfold lock_free, w4, vchi_of. cbn. by apply rw_lock_done_law.
      * unfold w4, vchi_of. cbn. apply lookup_insert_eq.
      * by apply serving_with_vchi.
    + change (user_data (w_client w4)) with (user_data (w_client w3)). rewrite Hc3. cbn.
      by rewrite <- app_assoc.
    + change (completion (w_client w4)) with (completion (w_client w3)). by rewrite Hc3.
    + change (connected (w_client w4)) with (connected (w_client w3)). by rewrite Hc3.
    + by apply (client_frame_tx _ _ w3).
Qed.

(** C13: opening a service through VCHI.  Before [initialize], [service_open] reports NotInitialized.
    On a connected client it sends OPEN and waits; when the slot handler has handled the OPENACK of
    the VideoCore it returns the next handle, and that handle names a service that is open on both
    sides, with the callback and the parameter of the application and an empty queue; all other
    entries of the map are as before, and the lock of the map is free again. *)
Theorem service_open_works {R : OpenPayloadRepr} (k : nat) (a : Area) (msgs : list SlotMessage) (w : W)
    (setup : ServiceCreation VC) (rp : Z) (d : list Z) :
  (vchi_initialized (vchi_of w) = false ->
     run_with [] (service_open setup) w = Ret (Some (Err (EVchi VchiNotInitialized)), w)) /\
  (can_open a msgs w -> 0 <= rp < 4096 -> Z.of_nat k < 2 ^ 64 ->
   exists w0 w' s,
     run_with [] (service_open setup) w = Ret (None, w0) /\
     run_with [process (vc_message OPENACK rp (Z.of_nat (length (w_heap w))) d)] (service_open setup) w =
       Ret (Some (Ok (service_handle (vchi_of w))), w') /\
     open_done k a msgs setup rp w w' s).
Proof.
  split.
  { intros Hi. unfold service_open, Vchi_create_service. erewrite run_with_step by reflexivity.
    change (upper (w_client w)) with (vchi_of w). by rewrite Hi. }
  by apply service_open_Ret.
Qed.

(** ** Receiving *)

Lemma serving_with_queue k k' w w' l s src ud q q' :
  serving k w l s src ud q -> client_frame w w' -> client_repr k' w' (handle s) ud q' ->
  serving k' w' l s src ud q'.
Proof. intros [Hu Ho Hr Hc _] Hf Hq. split; try done. by apply (in_use_client w). Qed.

(** Taking the lock, and giving it back. *)
Lemma opened_locked k w h vs l s src ud q r :
  opened k w h vs l s src ud q -> rw_holders r = None ->
  lock_held (locked_as r w) /\ serving k (locked_as r w) l s src ud q /\
  find_service h (locked_as r w) = Ret (Ok vs, locked_as r w).
Proof.
  intros [Hl He Hh Hp Hs] Hr. split; [done|]. split; [by apply serving_with_vchi|].
  rewrite find_service_Ret. change (vchi_services (vchi_of (locked_as r w))) with (vchi_services (vchi_of w)).
  by rewrite He.
Qed.

Lemma opened_unlocked k k' w w1 h vs l s src ud q q' r :
  opened k w h vs l s src ud q -> rw_holders r = None -> vchi_of w1 = vchi_of (locked_as r w) ->
  serving k' w1 l s src ud q' ->
  exists w2, services_write_done w1 = Ret (tt, w2) /\ opened k' w2 h vs l s src ud q'.
Proof.
  intros [Hl He Hh Hp _] Hr Hv Hs. eexists. split; [apply upd_vchi_Ret|]. rewrite Hv. split; try done.
  - unfold lock_free, vchi_of, with_vchi. cbn. by apply rw_lock_done_law.
  - by apply serving_with_vchi.
Qed.

(** What dequeueing from the queue in box [ud] leaves alone: all but that box and the lock. *)
Record dequeue_frame (ud : nat) (w w' : W) : Prop := {
  dequeue_client : client_frame w w';
  dequeue_services : vchi_services (vchi_of w') = vchi_services (vchi_of w);
  dequeue_boxes : forall ud', ud' <> ud -> user_data (w_client w') !! ud' = user_data (w_client w) !! ud';
  dequeue_ring : length (completions (completion (w_client w'))) = length (completions (completion (w_client w)));
}.
#[export] Instance dequeue_frame_preorder ud : PreOrder (dequeue_frame ud).
Proof.
  split; [by split|]. intros w1 w2 w3 [? ? Hb1 ?] [? ? Hb2 ?].
  split; [by transitivity w2|congruence| |congruence]. intros ud' Hne. by rewrite Hb2, Hb1.
Qed.

(** Another open service does not notice. *)
Lemma serving_other k ud w w' l s src ud' q :
  dequeue_frame ud w w' -> ud' <> ud -> serving k w l s src ud' q -> serving k w' l s src ud' q.
Proof.
  intros [Hf Hsv Hb Hr] Hne [Hu Ho Hrem Hc [(l0 & s0 & Hfd & Hl0 & Hud) (u & Huser & Hq) Hcl]].
  split; [by eapply in_use_client|done..|]. split.
  - exists l0, s0. rewrite (client_frame_state _ _ Hf), (client_frame_heap _ _ Hf). by split_and!.
  - exists u. by rewrite Hb.
  - by rewrite Hr.
Qed.

Lemma queue_dequeue_frame ud w w' : queue_frame ud w w' -> dequeue_frame ud w w'.
Proof. intros [Hf Hup Hb Hr]. split; try done. unfold vchi_of. by rewrite Hup. Qed.

Lemma locked_frame ud w v :
  vchi_services v = vchi_services (vchi_of w) -> dequeue_frame ud w (with_vchi w v).
Proof. by split. Qed.

(** Taking a message that is there. *)
Lemma vchi_dequeue_Ret k w h n vs l s src ud m q :
  opened k w h vs l s src ud (m :: q) ->
  exists w', run_with [] (Vchi_dequeue_message h n) w = Ret (Some (Ok (data m)), w') /\
    opened k w' h vs l s src ud q /\ dequeue_frame ud w w'.
Proof.
  intros Ho. pose proof Ho as [Hl _ Hh Hp _].
  destruct (services_write_Ret w Hl) as (r & E & Hr).
  destruct (opened_locked _ _ _ _ _ _ _ _ _ r Ho Hr) as (_ & Hs & Ef).
  destruct (dequeue_message_Ret _ _ _ _ _ _ (serving_queue_repr _ _ _ _ _ _ _ Hs)) as (w1 & E1 & Hq1 & Hfr). pose proof Hfr as [Hf1 Hup _ _].
  destruct (opened_unlocked k k w w1 h vs l s src ud (m :: q) q r Ho Hr) as (w2 & E2 & Ho2).
  { exact Hup. }
  { by apply (serving_with_queue _ _ _ _ _ _ _ _ _ _ Hs Hf1). }
  exists w2. split; [|split; [exact Ho2|]].
  2: { injection E2 as <-. transitivity (locked_as r w); [by apply locked_frame|].
       transitivity w1; [by apply queue_dequeue_frame|by apply locked_frame]. }
  unfold Vchi_dequeue_message. erewrite run_with_step by exact E.
  eapply run_with_abind_ready; [|cbn [abind poll astep]; by erewrite bind_Ret by exact E2].
  unfold abind_try. erewrite run_with_step by exact Ef. cbv beta iota. rewrite Hp, Hh. by apply run_with_ready.
Qed.

(** What is left of [dequeue_message] while it waits for a message. *)
Definition vchi_rest (ud : nat) : Async W (VchiqResult (list Z)) :=
  abind (dequeue_rest ud) (fun r => abind (astep (services_write_done (VchiCallback := VC))) (fun _ => Done r)).

(** There is none: it waits, with the lock. *)
Lemma vchi_dequeue_waits k w h n vs l s src ud :
  opened k w h vs l s src ud [] ->
  exists w', poll (Vchi_dequeue_message h n) w = Ret (inr (vchi_rest ud), w') /\
    lock_held w' /\ serving k w' l s src ud [] /\ dequeue_frame ud w w'.
Proof.
  intros Ho. pose proof Ho as [Hl _ Hh Hp _].
  destruct (services_write_Ret w Hl) as (r & E & Hr).
  destruct (opened_locked _ _ _ _ _ _ _ _ _ r Ho Hr) as (Hlk & Hs & Ef).
  destruct (dequeue_message_waits _ _ _ _ (serving_queue_repr _ _ _ _ _ _ _ Hs)) as (w1 & E1 & Hq1 & Hfr).
  pose proof Hfr as [Hf1 Hup1 _ _]. exists w1. split; [|split; [|split]].
  - unfold Vchi_dequeue_message. rewrite poll_abind. cbn [poll astep].
    erewrite bind_Ret by (by erewrite bind_Ret by exact E). cbv beta iota. rewrite poll_abind.
    erewrite bind_Ret with (a := inr (dequeue_rest ud)) (s' := w1); [reflexivity|].
    unfold abind_try. rewrite poll_abind. cbn [poll astep].
    erewrite bind_Ret by (by erewrite bind_Ret by exact Ef). cbv beta iota. rewrite Hp, Hh. exact E1.
  - unfold lock_held, vchi_of in *. by rewrite Hup1.
  - by apply (serving_with_queue _ _ _ _ _ _ _ _ _ _ Hs Hf1 Hq1).
  - transitivity (locked_as r w); [by apply locked_frame|by apply queue_dequeue_frame].
Qed.

(** Polled again: it goes on waiting, or takes the message and gives the lock back. *)
Lemma vchi_rest_waits k w l s src ud :
  lock_held w -> serving k w l s src ud [] ->
  exists w', poll (vchi_rest ud) w = Ret (inr (vchi_rest ud), w') /\
    lock_held w' /\ serving k w' l s src ud [] /\ dequeue_frame ud w w'.
Proof.
  intros Hl Hs. destruct (poll_dequeue_empty _ _ _ _ (serving_queue_repr _ _ _ _ _ _ _ Hs)) as (w1 & E1 & Hq1 & Hfr).
  exists w1. split; [|split; [|split]].
  - unfold vchi_rest, dequeue_rest. cbn [abind poll]. by erewrite bind_Ret by exact E1.
  - unfold lock_held, vchi_of in *. by rewrite (queue_upper _ _ _ Hfr).
  - by apply (serving_with_queue _ _ _ _ _ _ _ _ _ _ Hs (queue_client _ _ _ Hfr) Hq1).
  - by apply queue_dequeue_frame.
Qed.

Lemma vchi_rest_Ret k w l s src ud m q :
  lock_held w -> serving k w l s src ud (m :: q) ->
  exists w', poll (vchi_rest ud) w = Ret (inl (Ok (data m)), w') /\
    lock_free w' /\ serving k w' l s src ud q /\ dequeue_frame ud w w'.
Proof.
  intros Hl Hs. destruct (dequeue_rest_Ret _ _ _ _ _ _ (serving_queue_repr _ _ _ _ _ _ _ Hs)) as (w1 & E1 & Hq1 & Hfr).
  pose proof Hfr as [Hf1 Hup1 _ _].
  exists (with_vchi w1 ((vchi_of w1) <| services_lock ::= rw_lock_done |>)). split; [|split; [|split]].
  - unfold vchi_rest. rewrite poll_abind. erewrite bind_Ret by exact E1.
    cbn [abind poll astep]. erewrite bind_Ret by apply upd_vchi_Ret. reflexivity.
  - unfold lock_free, lock_held, vchi_of, with_vchi in *. cbn. rewrite Hup1. by apply rw_lock_done_law.
  - by apply serving_with_vchi, (serving_with_queue _ _ _ _ _ _ _ _ _ _ Hs Hf1 Hq1).
  - transitivity w1; [by apply queue_dequeue_frame|by apply locked_frame].
Qed.

(** An entry of the map stays. *)
Lemma opened_again k w w' h vs l s src ud q l' s' src' ud' k' q' :
  opened k w h vs l s src ud q -> lock_free w' -> dequeue_frame ud w w' ->
  serving k' w' l' s' src' ud' q' -> handle s' = handle s -> opened k' w' h vs l' s' src' ud' q'.
Proof.
  intros [_ He Hh Hp _] Hl [_ Hsv _ _] Hs Hhs. split; try done; [by rewrite Hsv|by rewrite Hhs].
Qed.

(** C14: receiving through VCHI.  On an open service [dequeue_message] takes the oldest message, if
    there is one.  If there is none it waits - holding the lock of the map of services - and returns
    the payload of the DATA message the slot handler handles next; an unknown handle is reported.
    The lock is free again afterwards. *)
Theorem vchi_dequeue_works (k : nat) (w : W) (h : ServiceHandle) (max_data_to_read : Z) :
  (lock_free w -> vchi_services (vchi_of w) !! h = None ->
   exists w', run_with [] (Vchi_dequeue_message h max_data_to_read) w =
       Ret (Some (Err (EVchi (VchiServiceNotFound h))), w') /\ lock_free w' /\ w_hw w' = w_hw w) /\
  (forall vs l s src ud m q, opened k w h vs l s src ud (m :: q) ->
   exists w', run_with [] (Vchi_dequeue_message h max_data_to_read) w = Ret (Some (Ok (data m)), w') /\
     opened k w' h vs l s src ud q) /\
  (forall vs l s src ud d, opened (S k) w h vs l s src ud [] ->
   exists w1 w2, run_with [] (Vchi_dequeue_message h max_data_to_read) w = Ret (None, w1) /\ lock_held w1 /\
     run_with [process (vc_message DATA src (localport s) d)] (Vchi_dequeue_message h max_data_to_read) w =
       Ret (Some (Ok d), w2) /\
     opened k w2 h vs l s src ud []).
Proof.
  split_and!.
  - intros Hl Hn. destruct (services_write_Ret w Hl) as (r & E & Hr).
    eexists. unfold Vchi_dequeue_message. erewrite run_with_step by exact E. split; [|split].
    + apply run_with_ready. unfold abind_try, astep. cbn [abind poll].
      erewrite bind_Ret by apply find_service_Ret. change (vchi_services (vchi_of (locked_as r w))) with (vchi_services (vchi_of w)).
      rewrite Hn. cbn [abind poll]. by erewrite bind_Ret by apply upd_vchi_Ret.
    + unfold lock_free, vchi_of, with_vchi. cbn. by apply rw_lock_done_law.
    + done.
  - intros vs l s src ud m q Ho.
    destruct (vchi_dequeue_Ret _ _ _ max_data_to_read _ _ _ _ _ _ _ Ho) as (w' & ? & ? & _). by exists w'.
  - intros vs l s src ud d Ho.
    destruct (vchi_dequeue_waits _ _ _ max_data_to_read _ _ _ _ _ Ho) as (w1 & E1 & Hl1 & Hs1 & Hf1).
    destruct (process_data_Ret k w1 l s src ud [] d Hs1) as (w2 & E2 & Hs2 & Hfr); [cbn; lia|].
    assert (lock_held w2) as Hl2 by (unfold lock_held, vchi_of; by rewrite (queue_upper _ _ _ Hfr)).
    destruct (vchi_rest_Ret _ _ _ _ _ _ _ _ Hl2 Hs2) as (w3 & E3 & Hl3 & Hs3 & Hf3).
    exists w1, w3. split; [cbn [run_with]; by erewrite bind_Ret by exact E1|]. split; [done|]. split.
    + etransitivity; [eapply run_with_pending; [exact E1|exact E2]|]. by apply run_with_ready.
    + eapply opened_again; [exact Ho|done| |done|done]. transitivity w1; [done|].
      transitivity w2; [by apply queue_dequeue_frame|done].
Qed.

(** [dequeue_message] as often as given; what an application does to empty the queue. *)
Fixpoint dequeue_all (n : nat) (h : ServiceHandle) : Async W (VchiqResult (list (list Z))) :=
  match n with
  | O => Done (Ok [])
  | S n =>
      await? d := Vchi_dequeue_message h 0 in
      await? ds := dequeue_all n h in
      Done (Ok (d :: ds))
  end.

Lemma dequeue_all_Ret q : forall k w h vs l s src ud q',
  opened k w h vs l s src ud (q ++ q') ->
  exists w', run_with [] (dequeue_all (length q) h) w = Ret (Some (Ok (map data q)), w') /\
    opened k w' h vs l s src ud q' /\ dequeue_frame ud w w'.
Proof.
  induction q as [|m q IH]; intros k w h vs l s src ud q' Ho; cbn [length dequeue_all map].
  { exists w. by split; [apply run_with_ready|]. }
  destruct (vchi_dequeue_Ret _ _ _ 0 _ _ _ _ _ _ _ Ho) as (w1 & E1 & Ho1 & Hf1).
  destruct (IH _ _ _ _ _ _ _ _ _ Ho1) as (w2 & E2 & Ho2 & Hf2). exists w2.
  split; [|split; [done|by transitivity w1]].
  unfold abind_try. erewrite run_with_abind_now by exact E1. cbv beta iota.
  by erewrite run_with_abind_now by exact E2.
Qed.

(** Data arrives in order.  Let some messages wait in the queue of an open service, and let the
    VideoCore have sent it any number of DATA messages, as long as the queue holds them all.  After
    one round of the slot handler the application gets, by dequeueing, exactly the payloads: first
    those that waited, then the new ones, in the order in which they were sent; and the service is
    as it was, with an empty queue. *)
Lemma data_in_order (k : nat) (w : W) (h : ServiceHandle) (vs : VchiService VC) (l : nat) (s : Service)
    (src : Z) (ud : nat) (q : list SlotMessage) (ds : list (list Z)) (pos : SlotPosition) (fuel : nat) :
  let msgs := data_messages src (localport s) ds in
  let tx := rx_pos (slot_state (w_state w)) + stream_len msgs in
  opened (length ds + k) w h vs l s src ud q -> (length q + length ds <= 128)%nat ->
  tx_pos (remote (slot_zero (slot_state (w_state w)))) (hw_mem (w_hw w)) = tx ->
  rx_ready pos msgs w -> rx_at tx pos w -> ds <> [] -> (length ds <= fuel)%nat ->
  exists w1 w2, slot_handler fuel true w = Ret (tt, w1) /\
    run_with [] (dequeue_all (length q + length ds) h) w1 = Ret (Some (Ok (map data q ++ ds)), w2) /\
    opened k w2 h vs l s src ud [].
Proof.
  intros msgs tx [Hl He Hh Hp Hs] Hlen Htx Hr Hat Hne Hf.
  destruct (data_received w l s src ud k q ds pos fuel Hs Hlen Htx Hr Hat Hne Hf) as (w1 & E & Hs1 & _ & _ & Hup).
  assert (opened k w1 h vs l s src ud (q ++ msgs)) as Ho1
    by (split; try done; unfold lock_free, vchi_of; by rewrite Hup).
  rewrite <- (app_nil_r (q ++ msgs)) in Ho1.
  destruct (dequeue_all_Ret _ _ _ _ _ _ _ _ _ _ Ho1) as (w2 & E2 & Ho2 & _). exists w1, w2. split; [done|]. split; [|done].
  assert (length msgs = length ds) as Hm by by apply length_map.
  assert (map data msgs = ds) as Hd.
  { unfold msgs, data_messages. rewrite map_map. cbn. by rewrite map_id. }
  by rewrite length_app, map_app, Hm, Hd in E2.
Qed.

(** ** Sending *)

Lemma serving_io k w w' l s src ud q :
  io_frame w w' -> serving k w l s src ud q -> serving k w' l s src ud q.
Proof.
  intros Hf [[Hi Hs Hst] Ho Hr Hc [Hfd Hu Hl]]. pose proof Hf as [Hh Hsrv _ Hcl _].
  split; [|done|done|done|].
  - split; [by apply (io_frame_step _ _ Hf)|by rewrite Hh|done].
  - split; rewrite ?Hh, ?Hsrv, ?Hcl; done.
Qed.

(** The DATA message for the payload [d]. *)
Definition data_sent (s : Service) (d : list Z) : SlotMessage :=
  sent_message (make_msg_id DATA (localport s) (remoteport s)) (Some d).

(** What sending and receiving leave alone. *)
Record client_kept (w w' : W) : Prop := {
  kept_boxes : user_data (w_client w') = user_data (w_client w);
  kept_completion : completion (w_client w') = completion (w_client w);
  kept_connected : connected (w_client w') = connected (w_client w);
  kept_called : called (vchi_of w') = called (vchi_of w);
  kept_services : vchi_services (vchi_of w') = vchi_services (vchi_of w);
}.

Lemma vchi_queue_Ret k fuel a msgs w h d vs l s sq src ud q :
  opened k w h vs l s src ud q -> tx_stream a msgs w ->
  let n := stride (data_sent s d) in
  sender w l s sq -> closing s = false -> ~ data_exhausted w n -> ~ service_exhausted w sq n ->
  Z.of_nat (length d) <= 4088 -> n <= room (stream_len msgs) -> stream_len msgs < area_count a * 4096 ->
  exists w', Vchi_queue_message fuel h d w = Ret (Ok tt, w') /\
    tx_stream a (msgs ++ [data_sent s d]) w' /\ opened k w' h vs l s src ud q /\ client_kept w w'.
Proof.
  intros [Hl He Hh Hp Hs] Htx n Hsd Hcl Hnd Hns Hd Hroom Hlt.
  destruct (services_read_Ret w 0 Hl) as (r & E & Hr). set (w1 := locked_as r w) in *.
  assert (serving k w1 l s src ud q) as Hs1 by by apply serving_with_vchi.
  pose proof Hs1 as [Hu Ho [Hrem Hsrc] _ _]. destruct (in_use_port _ _ _ Hu) as [_ Hport].
  set (id := make_msg_id DATA (localport s) (remoteport s)).
  assert (0 <= remoteport s < 4096) as Hrem' by by rewrite Hrem.
  destruct (queue_message_stream a msgs w1 fuel (Some l) id (Some d) false DATA)
    as (w2 & E2 & Hs2 & _ & _ & _ & _ & _ & Hc2); try done.
  { by apply (client_frame_tx _ _ w). }
  { by apply make_msg_id_fields. }
  { destruct Hsd. apply (may_send_data fuel l s sq); [by split|done|exact Hnd|exact Hns]. }
  { split; [|exact Hd]. split; [by apply make_msg_id_u32|]. split; [unfold is_u32; cbn; lia|done]. }
  assert (io_frame w1 w2) as Hio.
  { eapply (queue_message_other_frame fuel (Some l) id (Some d) false); [|exact E2].
    unfold id. by rewrite (proj1 (make_msg_id_fields DATA _ _ Hport Hrem')). }
  assert (vchi_of w2 = vchi_of w1) as Hv by (unfold vchi_of; by rewrite (same_client _ _ Hc2)).
  set (v := (vchi_of w2) <| services_lock ::= rw_read_done |>).
  exists (with_vchi w2 v). split; [|split; [|split]].
  + unfold Vchi_queue_message. erewrite bind_Ret by exact E. erewrite bind_Ret.
    2: { erewrite bind_try_Ok by (rewrite find_service_Ret;
           change (vchi_services (vchi_of w1)) with (vchi_services (vchi_of w)); by rewrite He).
         unfold Instance_queue_message. rewrite Hh. erewrite bind_try_Ok by by apply in_use_by_handle.
         erewrite bind_Ret by (apply get_service_Ret, Hu). exact E2. }
    by erewrite bind_Ret by apply upd_vchi_Ret.
  + by apply (client_frame_tx _ _ w2).
  + split; try done.
    * unfold lock_free. change (vchi_of (with_vchi w2 v)) with v. unfold v. rewrite Hv.
      by apply (rw_read_done_law r 0).
    * change (vchi_of (with_vchi w2 v)) with v. unfold v. rewrite Hv. exact He.
    * apply serving_with_vchi. by apply (serving_io k w1).
  + assert (w_client w2 = w_client w1) as Hcw by by rewrite (same_client _ _ Hc2).
    split; unfold vchi_of, with_vchi, v, vchi_of; cbn; by rewrite Hcw.
Qed.

(** Sending through VCHI.  [queue_message] on an open service appends one DATA message from the
    port of the service to the port of the VideoCore, with the bytes given, to the stream of sent
    messages, when it fits and the quotas allow it; the service stays open and its queue as it was;
    an unknown handle is reported and nothing is sent. *)
Lemma vchi_queue_appends (k fuel : nat) (a : Area) (msgs : list SlotMessage) (w : W) (h : ServiceHandle)
    (d : list Z) :
  (lock_free w -> vchi_services (vchi_of w) !! h = None ->
   exists w', Vchi_queue_message fuel h d w = Ret (Err (EVchi (VchiServiceNotFound h)), w') /\
     lock_free w' /\ w_hw w' = w_hw w) /\
  (forall vs l s sq src ud q, opened k w h vs l s src ud q -> tx_stream a msgs w ->
   let n := stride (data_sent s d) in
   sender w l s sq -> closing s = false -> ~ data_exhausted w n -> ~ service_exhausted w sq n ->
   Z.of_nat (length d) <= 4088 -> n <= room (stream_len msgs) -> stream_len msgs < area_count a * 4096 ->
   exists w', Vchi_queue_message fuel h d w = Ret (Ok tt, w') /\
     tx_stream a (msgs ++ [data_sent s d]) w' /\ opened k w' h vs l s src ud q).
Proof.
  split.
  - intros Hl Hn. destruct (services_read_Ret w 0 Hl) as (r & E & Hr). eexists.
    unfold Vchi_queue_message. erewrite bind_Ret by exact E. erewrite bind_Ret.
    2: { eapply bind_try_Err. rewrite find_service_Ret.
         change (vchi_services (vchi_of (locked_as r w))) with (vchi_services (vchi_of w)). by rewrite Hn. }
    split; [by erewrite bind_Ret by apply upd_vchi_Ret|]. split; [|done].
    by apply (rw_read_done_law r 0).
  - intros vs l s sq src ud q Ho Htx n Hsd Hcl Hnd Hns Hd Hroom Hlt.
    destruct (vchi_queue_Ret k fuel a msgs w h d vs l s sq src ud q Ho Htx Hsd Hcl Hnd Hns Hd Hroom Hlt)
      as (w' & E & Hs & Ho' & _).
    by exists w'.
Qed.

(** ** Closing *)

Lemma service_close_Ret k a msgs w h vs l s src ud q :
  opened k w h vs l s src ud q -> tx_stream a msgs w ->
  stream_len msgs < area_count a * 4096 -> permits (Service.remove_event s) = 0 ->
  exists w1 w2 s2, run_with [] (service_close h) w = Ret (None, w1) /\
    tx_stream a (msgs ++ [control_message CLOSE (localport s) src]) w1 /\
    run_with [process (vc_message CLOSE src (localport s) [])] (service_close h) w =
      Ret (Some (Ok tt), w2) /\
    lock_free w2 /\ vchi_services (vchi_of w2) = delete h (vchi_services (vchi_of w)) /\
    w_heap w2 !! l = Some s2 /\ srvstate s2 = ServiceState.FREE /\
    called (vchi_of w2) = called (vchi_of w).
Proof.
  intros [Hl He Hh Hp Hs] Htx Hlt Hpe.
  destruct (services_read_Ret w 0 Hl) as (r & E & Hr). set (w1 := locked_as r w) in *.
  assert (serving k w1 l s src ud q) as [Hu Ho [Hrem Hsrc] _ _] by by apply serving_with_vchi.
  destruct (close_answered a msgs w1 l s) as (wa & wb & s2 & Ea & Hsa & _ & Eb & Hh2 & Hst2 & _ & Hcb);
    [by apply (client_frame_tx _ _ w)|done|done|done|by rewrite Hrem|done|].
  rewrite Hrem in Hsa, Eb.
  assert (vchi_of wb = vchi_of w1) as Hv by (unfold vchi_of; by rewrite Hcb).
  set (v := (vchi_of wb) <| services_lock ::= rw_read_done |>). set (wc := with_vchi wb v).
  assert (lock_free wc) as Hlc.
  { unfold lock_free. change (vchi_of wc) with v. unfold v. rewrite Hv. by apply (rw_read_done_law r 0). }
  destruct (lock_and_update (fun v => v <| vchi_services ::= delete h |>) wc Hlc) as (r2 & Ed & Hr2); [done|].
  set (wd := with_vchi wc _) in Ed.
  assert (forall env o w', run_with env (close_service (handle s)) w1 = Ret (o, w') ->
    run_with env (await? service := astep (find_service h) in Instance_close_service (vs_handle service)) w1
      = Ret (o, w')) as Hfind.
  { intros env o w' Er. unfold abind_try. erewrite run_with_step by apply find_service_Ret.
    change (vchi_services (vchi_of w1)) with (vchi_services (vchi_of w)). rewrite He.
    cbv beta iota. by rewrite Hh. }
  exists wa, wd, s2. split; [|split; [exact Hsa|split; [|split_and!]]].
  + unfold service_close. erewrite run_with_step by exact E.
    by apply run_with_abind_pending, Hfind.
  + unfold service_close. erewrite run_with_step by exact E.
    eapply run_with_abind_ready; [by apply Hfind|]. unfold abind_try. cbn [abind poll astep].
    erewrite bind_Ret by apply upd_vchi_Ret. fold v wc. by erewrite bind_Ret by exact Ed.
  + unfold lock_free, wd, vchi_of, with_vchi. cbn. by apply rw_lock_done_law.
  + change (vchi_services (vchi_of wd)) with (delete h (vchi_services (vchi_of wb))). by rewrite Hv.
  + exact Hh2.
  + exact Hst2.
  + change (called (vchi_of wd)) with (called (vchi_of wb)). by rewrite Hv.
Qed.

(** C15: closing through VCHI.  [service_close] sends CLOSE and waits; when the slot handler has
    handled the CLOSE of the VideoCore it returns, the service is FREE, its handle is gone from the
    map and the lock is free; an unknown handle is reported. *)
Theorem service_close_works (k : nat) (a : Area) (msgs : list SlotMessage) (w : W) (h : ServiceHandle) :
  (lock_free w -> vchi_services (vchi_of w) !! h = None ->
   exists w', run_with [] (service_close h) w = Ret (Some (Err (EVchi (VchiServiceNotFound h))), w') /\
     lock_free w' /\ w_hw w' = w_hw w) /\
  (forall vs l s src ud q, opened k w h vs l s src ud q -> tx_stream a msgs w ->
   stream_len msgs < area_count a * 4096 -> permits (Service.remove_event s) = 0 ->
   exists w1 w2 s2, run_with [] (service_close h) w = Ret (None, w1) /\
     tx_stream a (msgs ++ [control_message CLOSE (localport s) src]) w1 /\
     run_with [process (vc_message CLOSE src (localport s) [])] (service_close h) w =
       Ret (Some (Ok tt), w2) /\
     lock_free w2 /\ vchi_services (vchi_of w2) = delete h (vchi_services (vchi_of w)) /\
     w_heap w2 !! l = Some s2 /\ srvstate s2 = ServiceState.FREE).
Proof.
  split.
  - intros Hl Hn. destruct (services_read_Ret w 0 Hl) as (r & E & Hr). eexists.
    unfold service_close. erewrite run_with_step by exact E. split.
    { apply run_with_ready. unfold abind_try, astep. cbn [abind poll].
      erewrite bind_Ret by apply find_service_Ret.
      change (vchi_services (vchi_of (locked_as r w))) with (vchi_services (vchi_of w)).
      rewrite Hn. cbn [abind poll]. by erewrite bind_Ret by apply upd_vchi_Ret. }
    split; [|done]. by apply (rw_read_done_law r 0).
  - intros vs l s src ud q Ho Hs Hlt Hp.
    destruct (service_close_Ret k a msgs w h vs l s src ud q Ho Hs Hlt Hp)
      as (w1 & w2 & s2 & E1 & Hs1 & E2 & Hl & Hd & Hh & Hst & _).
    by exists w1, w2, s2.
Qed.

(** ** The completion handler *)

(** The call a completion leads to: its handle is in the map, and the service has a callback. *)
Definition call_of (w : W) (c : ServiceCompletion) : option (VchiCall VC) :=
  ud ← service_userdata c;
  b ← user_data (w_client w) !! (ud : nat);
  match b with
  | AnyServiceHandle h =>
      vs ← vchi_services (vchi_of w) !! h;
      cb ← vchi_callback vs;
      if callback (vs_base vs) then None else Some (mkVchiCall cb (userdata (vs_base vs)) (reason c))
  | _ => None
  end.

(** The callbacks of the calls, run one after the other on the boxes. *)
Fixpoint run_calls (calls : list (VchiCall VC)) (boxes : list AnyBox) : outcome (list AnyBox) :=
  match calls with
  | [] => Ret boxes
  | c :: calls =>
      match app_callback (call_callback c) (call_userdata c) (call_reason c) boxes with
      | Ret boxes => run_calls calls boxes
      | o => o
      end
  end.

(** What the layer relies on: a callback of the application leaves the boxes of the interface alone. *)
Definition own_box (b b' : AnyBox) : Prop :=
  match b with
  | AnyServiceUser _ | AnyServiceHandle _ => b' = b
  | AnyCallbackData _ => match b' with AnyCallbackData _ => True | _ => False end
  end.

Lemma own_boxes_refl bs : Forall2 own_box bs bs.
Proof. apply Forall_Forall2_diag, Forall_forall. by intros []. Qed.

Class AppLaws : Prop := {
  app_keeps cb ud r boxes boxes' :
    app_callback cb ud r boxes = Ret boxes' -> Forall2 own_box boxes boxes';
}.
Context {AL : AppLaws}.

Lemma call_of_kept w w' c call :
  vchi_services (vchi_of w') = vchi_services (vchi_of w) ->
  Forall2 own_box (user_data (w_client w)) (user_data (w_client w')) ->
  call_of w c = Some call -> call_of w' c = Some call.
Proof.
  intros Hs Hb Hc. unfold call_of in *. apply bind_Some in Hc as (ud & Eu & Hc). rewrite Eu. cbn.
  apply bind_Some in Hc as (b & Eb & Hc). destruct b as [|h|]; [done| |done].
  destruct (Forall2_lookup_l _ _ _ _ _ Hb Eb) as (b' & Eb' & Hown). cbn in Hown. subst b'.
  rewrite Eb'. cbn. by rewrite Hs.
Qed.

Definition with_completion (w : W) (c : Completion) : W := with_client w ((w_client w) <| completion := c |>).

(** What handling completions changes. *)
Record called_frame (calls : list (VchiCall VC)) (w w' : W) : Prop := {
  calls_client : client_frame w w';
  calls_called : called (vchi_of w') = called (vchi_of w) ++ calls;
  calls_services : vchi_services (vchi_of w') = vchi_services (vchi_of w);
  calls_lock : lock_free w';
  calls_completion : completion (w_client w') = completion (w_client w);
  calls_boxes : run_calls calls (user_data (w_client w)) = Ret (user_data (w_client w'));
}.

Lemma await_take w q :
  connected (w_client w) = true -> comp_repr (completion (w_client w)) q -> q <> [] ->
  exists c', poll (await_completion 8) w = Ret (inl (Ok (take 8 q)), with_completion w c') /\
    comp_repr c' (drop 8 q).
Proof.
  intros Hc Hq Hne. destruct (take_completions_repr 8 _ _ Hq) as (c' & E & Hq' & _). exists c'. split; [|done].
  assert (completion_remove (completion (w_client w)) <> completion_insert (completion (w_client w))) as Hr.
  { destruct q as [|x q]; [done|]. by apply ring_pop in Hq as (_ & ? & _). }
  unfold await_completion. cbn [abind poll astep]. unfold get_client at 1. rewrite bind_gets, Hc.
  cbn [negb abind poll astep].
  assert (poll_completion w = Ret (Some tt, w)) as Ep.
  { unfold poll_completion, get_client. rewrite bind_gets. cbv zeta. by rewrite (proj2 (Z.eqb_neq _ _)) by done. }
  erewrite bind_Ret by exact Ep. cbn [abind poll].
  erewrite bind_Ret; [reflexivity|]. unfold collect_completions, get_client. rewrite bind_gets.
  erewrite bind_Ret by (unfold lift; by rewrite E). reflexivity.
Qed.

Lemma await_empty w :
  connected (w_client w) = true -> comp_repr (completion (w_client w)) [] ->
  exists f w', poll (await_completion 8) w = Ret (inr f, w') /\
    comp_repr (completion (w_client w')) [] /\ upper (w_client w') = upper (w_client w) /\
    user_data (w_client w') = user_data (w_client w) /\ client_frame w w'.
Proof.
  intros Hc Hq.
  assert (completion_remove (completion (w_client w)) = completion_insert (completion (w_client w))) as Hr
    by (by apply ring_empty in Hq).
  assert (exists w', poll_completion w = Ret (None, w') /\ comp_repr (completion (w_client w')) [] /\
    upper (w_client w') = upper (w_client w) /\ user_data (w_client w') = user_data (w_client w) /\
    client_frame w w') as (w' & Ep & Hw').
  { unfold poll_completion, get_client. rewrite bind_gets. cbv zeta.
    rewrite (proj2 (Z.eqb_eq _ _)) by done. destruct (sem_try_down _) as [e|].
    - eexists. unfold upd_client. rewrite bind_modify. split; [reflexivity|]. by split_and!.
    - exists w. by split_and!. }
  eexists _, w'. split; [|exact Hw'].
  unfold await_completion. cbn [abind poll astep]. unfold get_client at 1. rewrite bind_gets, Hc.
  cbn [negb abind poll astep]. by erewrite bind_Ret by exact Ep.
Qed.

Lemma handle_completion_calls c call w boxes :
  lock_free w -> call_of w c = Some call -> run_calls [call] (user_data (w_client w)) = Ret boxes ->
  exists w', handle_completion c w = Ret (tt, w') /\ called_frame [call] w w' /\ user_data (w_client w') = boxes.
Proof.
  intros Hl Hcall Hrun. unfold call_of in Hcall. apply bind_Some in Hcall as (ud & Eu & Hcall).
  apply bind_Some in Hcall as (b & Eb & Hcall). destruct b as [|h|]; [done| |done].
  apply bind_Some in Hcall as (vs & Evs & Hcall). apply bind_Some in Hcall as (cb & Ecb & Hcall).
  destruct (callback (vs_base vs)) as [|] eqn:Eb2; [done|]. injection Hcall as <-.
  destruct (services_read_Ret w 0 Hl) as (r & E & Hr).
  assert (app_callback cb (userdata (vs_base vs)) (reason c) (user_data (w_client w)) = Ret boxes) as Ha.
  { cbn in Hrun. by destruct (app_callback _ _ _ _). }
  eexists. unfold handle_completion. rewrite Eu. cbn [unwrap]. rewrite bind_ret_l. unfold get_client.
  rewrite bind_gets, Eb. erewrite bind_Ret by exact E. unfold get_vchi. rewrite bind_gets.
  change (vchi_services (upper (w_client (locked_as r w)))) with (vchi_services (vchi_of w)).
  rewrite Evs. cbn [unwrap]. rewrite bind_ret_l, Eb2, Ecb.
  erewrite bind_Ret.
  2: { unfold invoke_vchi_callback. erewrite bind_Ret by apply upd_vchi_Ret. unfold get_client. rewrite bind_gets.
       erewrite bind_Ret by (unfold lift; match goal with |- context [app_callback ?x1 ?x2 ?x3 ?x4] =>
         change (app_callback x1 x2 x3 x4) with
           (app_callback cb (userdata (vs_base vs)) (reason c) (user_data (w_client w))) end; by rewrite Ha).
       reflexivity. }
  split; [apply upd_vchi_Ret|]. split; [|done].
  split; try done. by apply (rw_read_done_law r 0).
Qed.

Lemma handle_completions_calls cs : forall calls w boxes,
  lock_free w -> Forall2 (fun c call => call_of w c = Some call) cs calls ->
  run_calls calls (user_data (w_client w)) = Ret boxes ->
  exists w', handle_completions cs w = Ret (tt, w') /\ called_frame calls w w' /\ user_data (w_client w') = boxes.
Proof.
  induction cs as [|c cs IH]; intros calls w boxes Hl Hm Hrun; cbn [handle_completions].
  - apply Forall2_nil_inv_l in Hm as ->. injection Hrun as <-.
    exists w. split; [done|]. split; [|done]. split; try done. by rewrite app_nil_r.
  - apply Forall2_cons_inv_l in Hm as (call & calls' & Hc & Hm & ->). cbn [run_calls] in Hrun.
    destruct (app_callback _ _ _ _) as [boxes1| | |] eqn:Ea; try done.
    destruct (handle_completion_calls c call w boxes1 Hl Hc) as (w1 & E1 & [Hf1 Hc1 Hs1 Hl1 Hcp1 _] & Hb1).
    { cbn. by rewrite Ea. }
    rewrite <- Hb1 in Hrun. destruct (IH calls' w1 boxes Hl1) as (w2 & E2 & [Hf2 Hc2 Hs2 Hl2 Hcp2 Hr2] & Hb2).
    { eapply Forall2_impl; [exact Hm|]. intros c' call' Hc'. apply (call_of_kept w w1); [exact Hs1| |exact Hc'].
      rewrite Hb1. by eapply app_keeps. }
    { exact Hrun. }
    exists w2. split; [by erewrite bind_Ret by exact E1|]. split; [|exact Hb2].
    split; try congruence; [by etransitivity|by rewrite Hc2, Hc1, <- app_assoc|].
    cbn [run_calls]. rewrite Ea, <- Hb1. exact Hr2.
Qed.

Lemma completion_handler_Ret w q calls boxes :
  connected (w_client w) = true -> lock_free w -> comp_repr (completion (w_client w)) q ->
  Forall2 (fun c call => call_of w c = Some call) (take 8 q) calls ->
  run_calls calls (user_data (w_client w)) = Ret boxes ->
  exists w', completion_handler w = Ret (false, w') /\
    comp_repr (completion (w_client w')) (drop 8 q) /\ user_data (w_client w') = boxes /\
    called (vchi_of w') = called (vchi_of w) ++ calls /\
    vchi_services (vchi_of w') = vchi_services (vchi_of w) /\ lock_free w' /\ client_frame w w'.
Proof.
  intros Hc Hl Hq Hm Hrun. destruct q as [|c q].
  - apply Forall2_nil_inv_l in Hm as ->. injection Hrun as <-.
    destruct (await_empty w Hc Hq) as (r & w1 & E & Hq1 & Hu1 & Hb1 & Hf1).
    exists w1. unfold completion_handler. erewrite bind_Ret by exact E. cbn [drop]. rewrite app_nil_r.
    unfold lock_free, vchi_of in *. rewrite Hu1. done.
  - destruct (await_take w (c :: q) Hc Hq) as (c' & E & Hq1); [done|].
    set (w1 := with_completion w c') in *.
    destruct (handle_completions_calls (take 8 (c :: q)) calls w1 boxes) as (w2 & E2 & [Hf Hcl Hs Hl2 Hcp _] & Hbx);
      [done|exact Hm|exact Hrun|].
    exists w2. unfold completion_handler. erewrite bind_Ret by exact E. cbv beta iota. erewrite bind_Ret by exact E2.
    split; [done|]. rewrite Hcp.
    split; [exact Hq1|]. split; [exact Hbx|]. split; [exact Hcl|]. split; [exact Hs|]. split; [exact Hl2|].
    by transitivity w1.
Qed.

(** C26: the completion handler calls the application back.  It takes up to eight completions, oldest
    first, and for each of them runs the callback of the service it is for, with the parameter given
    when the service was opened and the reason, once and in order; it goes on running.  With no
    completion it does nothing but lower the event of the queue. *)
Theorem completion_handler_calls (w : W) (q : list ServiceCompletion) (calls : list (VchiCall VC))
    (boxes : list AnyBox) :
  connected (w_client w) = true -> lock_free w -> comp_repr (completion (w_client w)) q ->
  Forall2 (fun c call => call_of w c = Some call) (take 8 q) calls ->
  run_calls calls (user_data (w_client w)) = Ret boxes ->
  exists w', completion_handler w = Ret (false, w') /\
    comp_repr (completion (w_client w')) (drop 8 q) /\ user_data (w_client w') = boxes /\
    called (vchi_of w') = called (vchi_of w) ++ calls /\
    vchi_services (vchi_of w') = vchi_services (vchi_of w) /\ lock_free w' /\ client_frame w w'.
Proof.
  intros Hc Hl Hq Hm Hrun. by apply completion_handler_Ret.
Qed.

(** C33: the completion handler can fail on what the layer itself did.  It blocks on the first
    completion while a client waits in [dequeue_message], which holds the lock for writing; and it
    panics on a completion of a service that was closed - and so removed from the map - before the
    handler got to it. *)
Theorem completion_handler_fails (w : W) (c : ServiceCompletion) (q : list ServiceCompletion)
    (ud : nat) (h : ServiceHandle) :
  connected (w_client w) = true -> comp_repr (completion (w_client w)) (c :: q) ->
  service_userdata c = Some ud -> user_data (w_client w) !! ud = Some (AnyServiceHandle h) ->
  (lock_held w -> completion_handler w = Blocked) /\
  (lock_free w -> vchi_services (vchi_of w) !! h = None -> completion_handler w = Panic PUnwrap).
Proof.
  intros Hc Hq Hu Hb. destruct (await_take w (c :: q) Hc Hq) as (c' & E & _); [done|].
  assert (completion_handler w =
    bind (handle_completion c) (fun _ => handle_completions (take 7 q) ;; ret false) (with_completion w c')) as ->.
  { unfold completion_handler. erewrite bind_Ret by exact E. cbv beta iota. cbn [take handle_completions]. by rewrite bind_assoc. }
  set (w1 := with_completion w c').
  assert (handle_completion c w1 = bind services_read (fun _ =>
    let* v := get_vchi in
    let* service := unwrap (vchi_services v !! h) in
    match callback (vs_base service) with
    | Some cb => invoke_callback cb (reason c) (msg c) (vs_handle service)
    | None =>
        match vchi_callback service with
        | Some cb => invoke_vchi_callback (mkVchiCall cb (userdata (vs_base service)) (reason c))
        | None => ret tt
        end
    end ;;
    services_read_done) w1) as Eh.
  { unfold handle_completion. rewrite Hu. cbn [unwrap]. rewrite bind_ret_l. unfold get_client.
    rewrite bind_gets. assert (user_data (w_client w1) !! ud = Some (AnyServiceHandle h)) as -> by exact Hb.
    done. }
  split; intros Hl.
  - unfold bind at 1. rewrite Eh. unfold bind at 1. by rewrite services_read_blocked by done.
  - intros Hn. destruct (services_read_Ret w1 0 Hl) as (r & Er & _).
    unfold bind at 1. rewrite Eh. erewrite bind_Ret by exact Er. unfold get_vchi. rewrite bind_gets.
    change (vchi_services (upper (w_client (locked_as r w1)))) with (vchi_services (vchi_of w)).
    by rewrite Hn.
Qed.
End vchi.
