(* ===== verification/Conversation.v ===== *)
(** Receiving over many rounds: the VideoCore fills one slot after the other with messages for several
    services, the slot handler runs now and then, the application dequeues when it likes.  From the
    shared memory to [vchi::Instance::dequeue_message] all of it is one first-in first-out queue of
    payloads for each service. *)

From stdpp Require Import gmap.
From S2P Require Import Prelude Locks Memory Layout Types SlotMessage Event SlotZero Slot Service.
From S2P Require Import State SlotHandler Completion Instance Registry Queues Stream Transmit Receive.
From S2P Require Import Connection Delivery Vchi VchiOk.

Lemma map_lookup {A B} (f : A -> B) l i : map f l !! i = f <$> l !! i.
Proof. apply list_lookup_fmap. Qed.

Lemma map_insert {A B} (f : A -> B) l i x : map f (<[i := x]> l) = <[i := f x]> (map f l).
Proof. apply list_fmap_insert. Qed.

Section conversation.
Context {L : LockLib} {LL : LockLaws L} {RW : RwLib} {RWL : RwLaws RW} {VC : Type} {App : AppCallbacks L VC}.
Notation W := (World (Client (Vchi VC))).
Implicit Types w : W.

(** ** The open services *)

(** An open service: its handle for the application and its entry there; where its record is in the
    heap, and the record; its port on the VideoCore, and the box of its queue. *)
Record channel : Type := mkChannel {
  ch_handle : ServiceHandle;
  ch_entry : VchiService VC;
  ch_loc : nat;
  ch_service : Service;
  ch_src : Z;
  ch_box : nat;
}.

(** The services [cs] are open, each with a queue of its own, and the queues hold [qs]. *)
Record all_serving (k : nat) (w : W) (cs : list channel) (qs : list (list SlotMessage)) : Prop := {
  all_boxes : NoDup (map ch_box cs);
  all_entries : Forall (fun c => vchi_services (vchi_of w) !! ch_handle c = Some (ch_entry c) /\
    vs_handle (ch_entry c) = handle (ch_service c) /\ peek_buf (ch_entry c) = None) cs;
  all_channels : Forall2 (fun c q => serving k w (ch_loc c) (ch_service c) (ch_src c) (ch_box c) q) cs qs;
}.
Definition all_open (k : nat) (w : W) (cs : list channel) (qs : list (list SlotMessage)) : Prop :=
  lock_free w /\ all_serving k w cs qs.

Lemma serving_less k k' w l s src ud q : serving k w l s src ud q -> (k' <= k)%nat -> serving k' w l s src ud q.
Proof. intros [Hu Ho Hr Hc Hq] Hk. split; try done. by eapply client_repr_less. Qed.

Lemma all_serving_channel k w cs qs i c q :
  all_serving k w cs qs -> cs !! i = Some c -> qs !! i = Some q ->
  serving k w (ch_loc c) (ch_service c) (ch_src c) (ch_box c) q.
Proof. intros [_ _ Hall] Hc Hq. exact (Forall2_lookup_lr _ _ _ _ _ _ Hall Hc Hq). Qed.

Lemma all_open_channel k w cs qs i c q :
  all_open k w cs qs -> cs !! i = Some c -> qs !! i = Some q ->
  opened k w (ch_handle c) (ch_entry c) (ch_loc c) (ch_service c) (ch_src c) (ch_box c) q.
Proof.
  intros [Hl Hs] Hc Hq. destruct (Forall_lookup_1 _ _ _ _ (all_entries _ _ _ _ Hs) Hc) as (? & ? & ?).
  split; try done. by eapply all_serving_channel.
Qed.

(** Something happens to one of them. *)
Lemma all_serving_insert k k' w w' cs qs i c q' :
  all_serving k w cs qs -> (k' <= k)%nat -> cs !! i = Some c ->
  serving k' w' (ch_loc c) (ch_service c) (ch_src c) (ch_box c) q' -> dequeue_frame (ch_box c) w w' ->
  all_serving k' w' cs (<[i := q']> qs).
Proof.
  intros [Hb He Hall] Hk Hi Hq' Hf. split; [done|by rewrite (dequeue_services _ _ _ Hf)|].
  apply Forall2_same_length_lookup.
  pose proof (Forall2_length _ _ _ Hall) as Hlen. split; [by rewrite length_insert|].
  intros j c2 q2 Hc2 Hq2. destruct (decide (i = j)) as [<-|Hne].
  - rewrite list_lookup_insert_eq in Hq2 by (rewrite <- Hlen; by eapply lookup_lt_Some). by simplify_eq.
  - rewrite list_lookup_insert_ne in Hq2 by done.
    apply (serving_less k); [|done]. apply (serving_other _ (ch_box c) w); [done| |].
    + intros E. apply Hne. apply (NoDup_lookup (map ch_box cs) i j (ch_box c)); [exact Hb|..];
        rewrite map_lookup; [by rewrite Hi|by rewrite Hc2, <- E].
    + exact (Forall2_lookup_lr _ _ _ _ _ _ Hall Hc2 Hq2).
Qed.

(** What leaves the application alone leaves its map and lock alone. *)
Lemma all_serving_mono k k' w w' cs qs :
  upper (w_client w') = upper (w_client w) ->
  (forall l s src ud q, serving k w l s src ud q -> serving k' w' l s src ud q) ->
  all_serving k w cs qs -> all_serving k' w' cs qs.
Proof.
  intros Hup H [Hb He Hall]. split; [done| |].
  - eapply Forall_impl; [exact He|]. cbn. intros c. unfold vchi_of. by rewrite Hup.
  - eapply Forall2_impl; [exact Hall|]. intros c q. apply H.
Qed.

(** ** What the VideoCore sends *)

(** A message for service number [i], or padding. *)
Inductive vc_item : Type := Payload (i : nat) (d : list Z) | Pad (n : nat).

Definition item_message (cs : list channel) (item : vc_item) : list SlotMessage :=
  match item with
  | Payload i d =>
      match cs !! i with
      | Some c => [vc_message DATA (ch_src c) (localport (ch_service c)) d]
      | None => []
      end
  | Pad n => [vc_message PADDING 0 0 (replicate n 0)]
  end.
Definition item_messages (cs : list channel) (items : list vc_item) : list SlotMessage :=
  flat_map (item_message cs) items.

(** What it means: payloads join the queues, of which each holds at most 128. *)
Fixpoint arrive (items : list vc_item) (qs : list (list (list Z))) : option (list (list (list Z))) :=
  match items with
  | [] => Some qs
  | Pad _ :: items => arrive items qs
  | Payload i d :: items =>
      match qs !! i with
      | Some q => if decide (length q < 128)%nat then arrive items (<[i := q ++ [d]]> qs) else None
      | None => None
      end
  end.

Lemma process_padding d w : process (vc_message PADDING 0 0 d) w = Ret (tt, w).
Proof. reflexivity. Qed.

(** The payloads in the queues. *)
Notation contents := (map (map data)).

(** A message for one of the services. *)
Lemma process_payload k w cs qs i d q c :
  all_serving (S k) w cs qs -> contents qs !! i = Some q -> (length q < 128)%nat -> cs !! i = Some c ->
  exists w' qs', process (vc_message DATA (ch_src c) (localport (ch_service c)) d) w = Ret (tt, w') /\
    all_serving k w' cs qs' /\ contents qs' = <[i := q ++ [d]]> (contents qs) /\
    upper (w_client w') = upper (w_client w).
Proof.
  intros Ho Hq Hlen Hc. rewrite map_lookup in Hq.
  destruct (qs !! i) as [q0|] eqn:Hq0; [|done]. injection Hq as <-. rewrite length_map in Hlen.
  pose proof (all_serving_channel _ _ _ _ _ _ _ Ho Hc Hq0) as Hs.
  destruct (process_data_Ret _ _ _ _ _ _ _ d Hs) as (w' & E & Hs' & Hfr); [done|].
  exists w', (<[i := q0 ++ [vc_message DATA (ch_src c) (localport (ch_service c)) d]]> qs).
  split; [done|]. split; [|split; [|apply Hfr]].
  - apply (all_serving_insert (S k) k w w' cs qs i c); [done|lia|done|done|by apply queue_dequeue_frame].
  - by rewrite map_insert, map_app.
Qed.

Lemma all_serving_upd_slot k w cs qs f :
  all_serving k w cs qs ->
  all_serving k (w <| w_state ::= fun st => st <| slot_state ::= f |> |>) cs qs.
Proof. apply all_serving_mono; [done|]. intros. by apply serving_upd_slot. Qed.

Lemma deliver_items cs items : forall k w qs pqs slot off,
  all_serving (length items + k) w cs qs -> arrive items (contents qs) = Some pqs ->
  exists w' qs', deliver slot off (item_messages cs items) w = Ret (tt, w') /\
    all_serving k w' cs qs' /\ contents qs' = pqs /\ upper (w_client w') = upper (w_client w).
Proof.
  induction items as [|[i d|n] items IH]; intros k w qs pqs slot off Ho Ha;
    cbn [item_messages flat_map item_message arrive length Nat.add] in *.
  - injection Ha as <-. by exists w, qs.
  - destruct (contents qs !! i) as [q|] eqn:Hq; [|done]. destruct (decide _) as [Hlen|]; [|done].
    assert (is_Some (cs !! i)) as [c Hc].
    { apply lookup_lt_is_Some. rewrite (Forall2_length _ _ _ (all_channels _ _ _ _ Ho)).
      rewrite <- (length_map (map data) qs). by eapply lookup_lt_Some. }
    rewrite Hc. destruct (process_payload _ _ _ _ _ d _ _ Ho Hq Hlen Hc) as (w1 & qs1 & E & Ho1 & Hqs1 & Hup1).
    cbn [app deliver]. erewrite bind_Ret by exact E. unfold move_rx, upd_slot, upd_state. rewrite bind_modify.
    rewrite <- Hqs1 in Ha. edestruct IH as (w2 & qs2 & E2 & Ho2 & Hqs2 & Hup2); [by apply all_serving_upd_slot|done|].
    exists w2, qs2. split; [exact E2|]. split_and!; [done|done|by rewrite Hup2].
  - cbn [app deliver]. erewrite bind_Ret by apply process_padding.
    unfold move_rx, upd_slot, upd_state. rewrite bind_modify.
    edestruct IH as (w2 & qs2 & E2 & Ho2 & Hqs2 & Hup2); [|done|].
    { apply all_serving_upd_slot. eapply (all_serving_mono _ (length items + k)); [done| |exact Ho].
      intros l s src ud q Hs. eapply serving_less; [exact Hs|lia]. }
    exists w2, qs2. split; [exact E2|]. by split_and!.
Qed.

(** ** Where the handler reads *)

(** The slot the queue [Q] of the VideoCore names for position [R]. *)
Definition queue_slot (Q : list Z) (R : Z) : option Z := Q !! Z.to_nat (R / 4096 mod 64).

(** The handler has read up to [R]; [ss] has the accessors of the shared memory, which never
    change. *)
Record reading (ss : SlotState) (Q : list Z) (R : Z) (w : W) : Prop := {
  reading_zero : slot_zero (slot_state (w_state w)) = slot_zero ss;
  reading_slots : slot_data (slot_state (w_state w)) = slot_data ss;
  reading_pos : rx_pos (slot_state (w_state w)) = R;
  reading_data : rx_data (slot_state (w_state w)) =
    if R mod 4096 =? 0 then None else (fun i => mkPosition i (R mod 4096)) <$> queue_slot Q R;
}.

(** The VideoCore has left the memory [m] with [msgs] behind position [R], all in one slot, and its
    own position behind them.  At the start of a slot it has not filled all of the slot. *)
Record vc_wrote (ss : SlotState) (Q : list Z) (R : Z) (msgs : list SlotMessage) (m : mem) : Prop := {
  wrote_tx : tx_pos (remote (slot_zero ss)) m = R + stream_len msgs;
  wrote_range : R + stream_len msgs < 2 ^ 32;
  wrote_fits : Forall fits msgs;
  wrote_room : R mod 4096 + stream_len msgs <= 4096;
  wrote_start : R mod 4096 = 0 -> stream_len msgs < 4096;
  wrote_queue : slot_queue (remote (slot_zero ss)) m = Q;
  wrote_at : exists i, queue_slot Q R = Some i /\
    position_ok (slot_data ss) (mkPosition i (R mod 4096)) = true /\
    stream_at m (message_ptr (slot_data ss) (mkPosition i (R mod 4096))) msgs;
}.

Definition vc_writes (m : mem) : M W unit :=
  modify (fun w => w <| w_hw ::= fun hw => hw <| hw_mem := m |> |>).

Lemma reading_vc_writes ss Q R m w :
  reading ss Q R w -> reading ss Q R (w <| w_hw ::= fun hw => hw <| hw_mem := m |> |>).
Proof. by intros [? ? ? ?]. Qed.

Lemma reading_client ss Q R w w' : reading ss Q R w -> client_frame w w' -> reading ss Q R w'.
Proof. intros [? ? ? ?] Hf. split; by rewrite (client_frame_state _ _ Hf). Qed.

(** What the hypotheses of [slot_handler_delivers] ask for. *)
Lemma reading_ready ss Q R msgs m w :
  0 <= R -> reading ss Q R w -> vc_wrote ss Q R msgs m -> hw_mem (w_hw w) = m ->
  exists i, queue_slot Q R = Some i /\
    let pos := mkPosition i (R mod 4096) in
    rx_ready pos msgs w /\ rx_at (R + stream_len msgs) pos w.
Proof.
  intros HR [Hz Hd Hp Hrd] [Htx Hrange Hfits Hroom Hstart Hq (i & Hi & Hok & Hat)] Hm.
  exists i. split; [done|]. pose proof (stream_len_nonneg _ Hfits).
  assert (0 <= R mod 4096 < 4096) by (apply Z.mod_pos_bound; lia). split.
  - split; rewrite ?Hd, ?Hp, ?Hm; try done; cbn [pos_offset].
    split; [lia|]. by rewrite Z.mod_mod by lia.
  - unfold rx_at. rewrite Hrd. destruct (Z.eqb_spec (R mod 4096) 0) as [E|E].
    + rewrite Hp, Hz, Hm, Hq. split_and!; [|done|exact Hi]. specialize (Hstart E). zdiv.
    + by rewrite Hi.
Qed.

(** After the messages of a batch the handler is where the next one will be. *)
Lemma round_reading ss Q R i msgs m w w' :
  0 <= R -> reading ss Q R w -> vc_wrote ss Q R msgs m -> queue_slot Q R = Some i -> msgs <> [] ->
  deliver i (R mod 4096) msgs (at_slot (mkPosition i (R mod 4096)) w) = Ret (tt, w') ->
  reading ss Q (R + stream_len msgs) w'.
Proof.
  intros HR [Hz Hd Hpos Hrx] Hwr Hi Hmsgs E. pose proof (deliver_slot _ _ _ _ _ Hmsgs E) as Hslot. cbv zeta in Hslot.
  pose proof (wrote_room _ _ _ _ _ Hwr) as Hroom. pose proof (wrote_fits _ _ _ _ _ Hwr) as Hfits.
  assert (0 < stream_len msgs) as Hlen.
  { destruct msgs as [|m1 msgs1]; [done|]. apply Forall_cons_1 in Hfits as [Hf1 Hf2].
    apply stride_bounds in Hf1. pose proof (stream_len_nonneg _ Hf2).
    cbn [stream_len foldr]. fold (stream_len msgs1). lia. }
  split; rewrite Hslot; [exact Hz|exact Hd|cbn; by rewrite <- Hpos|]. cbn -[Z.modulo Z.div].
  replace (rx_pos (slot_state (w_state w))) with R.
  change VCHIQ_SLOT_SIZE with 4096. destruct (Z.eqb_spec ((R + stream_len msgs) mod 4096) 0) as [E0|E0]; [done|].
  assert ((R + stream_len msgs) / 4096 = R / 4096 /\ (R + stream_len msgs) mod 4096 = R mod 4096 + stream_len msgs)
    as [Ediv Emod] by (split; zdiv).
  unfold queue_slot in *. by rewrite Ediv, Hi, Emod.
Qed.

(** A round of the handler; whether the application holds its lock does not matter. *)
Definition round (fuel : nat) (m : mem) : M W unit := vc_writes m ;; slot_handler fuel true.

Lemma round_Ret k ss Q R w cs qs pqs items m fuel :
  let msgs := item_messages cs items in
  0 <= R -> all_serving (length items + k) w cs qs -> arrive items (contents qs) = Some pqs ->
  reading ss Q R w -> vc_wrote ss Q R msgs m -> (length msgs <= fuel)%nat ->
  exists w' qs', round fuel m w = Ret (tt, w') /\
    all_serving k w' cs qs' /\ contents qs' = pqs /\ reading ss Q (R + stream_len msgs) w' /\
    upper (w_client w') = upper (w_client w).
Proof.
  intros msgs HR Ho Ha Hrd Hwr Hfuel. unfold round, vc_writes. rewrite bind_modify.
  set (w0 := w <| w_hw ::= _ |>).
  assert (reading ss Q R w0) as Hrd0 by by apply reading_vc_writes.
  assert (all_serving (length items + k) w0 cs qs) as Ho0.
  { apply (all_serving_mono (length items + k) _ w); [done| |exact Ho].
    intros l s src ud q [[[? ? ? ? ? ?] Hsv Hst] Ho1 Hr1 Hc1 [Hf Hu Hcl]].
    split; [|done|done|done|by split]. split; [|done|done]. by split. }
  destruct (reading_ready _ _ _ _ _ w0 HR Hrd0 Hwr eq_refl) as (i & Hi & Hready & Hat).
  set (pos := mkPosition i (R mod 4096)) in *.
  assert (slot_handler fuel true w0 = handle_messages fuel (R + stream_len msgs) w0) as ->.
  { unfold slot_handler, get_slot, get_mem. rewrite !bind_gets. rewrite (reading_zero _ _ _ _ Hrd0).
    by rewrite <- (wrote_tx _ _ _ _ _ Hwr). }
  destruct (decide (msgs = [])) as [Em|Hne].
  { destruct (deliver_items cs items k w0 qs pqs 0 0 Ho0 Ha) as (w' & qs' & E & Ho' & Hqs' & Hup).
    fold msgs in E. rewrite Em in E |- *. injection E as <-. exists w0, qs'.
    cbn [stream_len foldr]. rewrite Z.add_0_r, handle_messages_end by apply Hrd0. by split_and!. }
  pose proof (handle_messages_deliver msgs fuel pos w0 Hready Hfuel) as Hdel. cbv zeta in Hdel.
  rewrite (reading_pos _ _ _ _ Hrd0) in Hdel. rewrite Hdel; [|exact Hat|by left]. clear Hdel.
  rewrite decide_False by done.
  destruct (deliver_items cs items k (at_slot pos w0) qs pqs (pos_index pos) (pos_offset pos))
    as (w' & qs' & E & Ho' & Hqs' & Hup); [by apply all_serving_upd_slot|done|].
  exists w', qs'. split; [exact E|]. split; [done|]. split; [done|]. split; [|exact Hup].
  by apply (round_reading ss Q R i msgs m w0 w').
Qed.

(** ** The conversation *)

(** The VideoCore has written - the memory is now [m] - and the handler runs; or the application
    takes [n] messages of service number [i]. *)
Inductive event : Type := Round (m : mem) (items : list vc_item) | Take (i n : nat).

Fixpoint conversation (fuel : nat) (cs : list channel) (evs : list event)
  : M W (list (option (VchiqResult (list (list Z))))) :=
  match evs with
  | [] => ret []
  | Round m items :: evs => round fuel m ;; conversation fuel cs evs
  | Take i n :: evs =>
      let* r := match cs !! i with
                | Some c => run_with [] (dequeue_all n (ch_handle c))
                | None => ret None
                end in
      let* out := conversation fuel cs evs in
      ret (r :: out)
  end.

(** The specification: a queue of payloads for each service.  [None]: more than 128 wait, or fewer
    than taken. *)
Fixpoint pipe (evs : list event) (qs : list (list (list Z)))
  : option (list (list (list Z)) * list (list (list Z))) :=
  match evs with
  | [] => Some ([], qs)
  | Round _ items :: evs =>
      match arrive items qs with
      | Some qs => pipe evs qs
      | None => None
      end
  | Take i n :: evs =>
      match qs !! i with
      | Some q =>
          if decide (n <= length q)%nat then
            match pipe evs (<[i := drop n q]> qs) with
            | Some (out, qs') => Some (take n q :: out, qs')
            | None => None
            end
          else None
      | None => None
      end
  end.

(** The VideoCore writes each batch behind the one before, and the handler has fuel for it. *)
Fixpoint writes_on (fuel : nat) (ss : SlotState) (Q : list Z) (cs : list channel) (R : Z) (evs : list event) : Prop :=
  match evs with
  | [] => True
  | Round m items :: evs =>
      vc_wrote ss Q R (item_messages cs items) m /\ (length (item_messages cs items) <= fuel)%nat /\
      writes_on fuel ss Q cs (R + stream_len (item_messages cs items)) evs
  | Take _ _ :: evs => writes_on fuel ss Q cs R evs
  end.

Fixpoint arriving (evs : list event) : nat :=
  match evs with
  | [] => 0
  | Round _ items :: evs => length items + arriving evs
  | Take _ _ :: evs => arriving evs
  end.

(** C6: data arrives in order, however much there is.  The VideoCore sends batch after batch - DATA
    messages for any of the open services, and padding, from slot to slot and round its queue of
    slots -, after each the slot handler runs, and in between the application dequeues messages of the
    services as it likes.  Then shared memory, handler, callbacks, message queues and VCHI together
    are one queue for each service: the application gets the payloads sent to a service in the order
    in which they were sent, none lost, doubled or taken by another service, as long as no more than
    128 wait for one and it does not take more than there are.  A batch lies in one slot, and one that
    starts a slot does not fill it (see [rx_slot_from_tx_pos]). *)
Theorem conversation_in_order (ss : SlotState) (Q : list Z) (cs : list channel) (fuel k : nat) (evs : list event) :
  forall (w : W) (R : Z) (qs : list (list SlotMessage)) (out rest : list (list (list Z))),
  all_open (arriving evs + k) w cs qs -> reading ss Q R w -> 0 <= R ->
  writes_on fuel ss Q cs R evs ->
  pipe evs (contents qs) = Some (out, rest) ->
  exists w' qs', conversation fuel cs evs w = Ret (map (fun ds => Some (Ok ds)) out, w') /\
    all_open k w' cs qs' /\ contents qs' = rest.
Proof.
  induction evs as [|[m items|i n] evs IH]; intros w R qs out rest Ho Hrd HR Hwr Hp;
    cbn [arriving writes_on pipe conversation] in *.
  - injection Hp as <- <-. by exists w, qs.
  - destruct Hwr as (Hwr & Hfuel & Hrest). destruct (arrive _ _) as [pqs|] eqn:Ha; [|done].
    destruct Ho as [Hl Ho]. rewrite <- Nat.add_assoc in Ho.
    destruct (round_Ret _ _ _ _ _ _ _ _ _ _ _ HR Ho Ha Hrd Hwr Hfuel) as (w1 & qs1 & E & Ho1 & Hqs1 & Hrd1 & Hup1).
    pose proof (stream_len_nonneg _ (wrote_fits _ _ _ _ _ Hwr)).
    assert (lock_free w1) as Hl1 by (unfold lock_free, vchi_of; by rewrite Hup1).
    destruct (IH w1 _ qs1 out rest (conj Hl1 Ho1) Hrd1) as (w2 & qs2 & E2 & ? & ?); [lia|done|by rewrite Hqs1|].
    exists w2, qs2. split; [|done]. by erewrite bind_Ret by exact E.
  - rewrite map_lookup in Hp. destruct (qs !! i) as [q|] eqn:Hq; [|done]. cbn [fmap option_fmap option_map] in Hp.
    destruct (decide _) as [Hn|]; [|done]. rewrite length_map in Hn.
    destruct (pipe evs _) as [[out1 qs1]|] eqn:Ep; [|done]. injection Hp as <- <-.
    destruct (Forall2_lookup_r _ _ _ _ _ (all_channels _ _ _ _ (proj2 Ho)) Hq) as (c & Hc & _).
    pose proof (all_open_channel _ _ _ _ _ _ _ Ho Hc Hq) as Hoc. rewrite <- (take_drop n q) in Hoc.
    destruct (dequeue_all_Ret _ _ _ _ _ _ _ _ _ _ Hoc) as (w1 & E & [Hl1 _ _ _ Hs1] & Hf1).
    rewrite length_take_le in E by done.
    pose proof (all_serving_insert _ _ w w1 cs qs i c (drop n q) (proj2 Ho) ltac:(done) Hc Hs1 Hf1) as Hall.
    destruct (IH w1 R _ out1 qs1 (conj Hl1 Hall)) as (w2 & qs2 & E2 & ? & ?).
    { by eapply reading_client, dequeue_client. }
    { done. }
    { done. }
    { by rewrite map_insert, <- skipn_map. }
    exists w2, qs2. split; [|done]. rewrite Hc. erewrite bind_Ret by exact E. erewrite bind_Ret by exact E2.
    cbn [map]. by rewrite firstn_map.
Qed.

(** ** A reader that waits *)

(** The payloads for service number [i]. *)
Fixpoint sent_to (i : nat) (items : list vc_item) : list (list Z) :=
  match items with
  | [] => []
  | Payload j d :: items => if decide (j = i) then d :: sent_to i items else sent_to i items
  | Pad _ :: items => sent_to i items
  end.

Lemma arrive_sent i items : forall qs qs' q,
  arrive items qs = Some qs' -> qs !! i = Some q -> qs' !! i = Some (q ++ sent_to i items).
Proof.
  induction items as [|[j d|n] items IH]; intros qs qs' q Ha Hq; cbn [arrive sent_to] in *.
  - injection Ha as <-. by rewrite app_nil_r.
  - destruct (qs !! j) as [qj|] eqn:Hj; [|done]. destruct (decide (length qj < 128)%nat); [|done].
    destruct (decide (j = i)) as [->|Hne].
    + rewrite Hq in Hj. injection Hj as <-. rewrite (IH _ _ (q ++ [d]) Ha).
      * by rewrite <- app_assoc.
      * apply list_lookup_insert_eq. by eapply lookup_lt_Some.
    + apply (IH _ _ _ Ha). by rewrite list_lookup_insert_ne.
  - by apply (IH qs).
Qed.

(** Rounds of the handler, each with the memory the VideoCore left and what it sent. *)
Notation rounds := (list (mem * list vc_item)).
Definition events (rs : rounds) : list event := map (fun r => Round r.1 r.2) rs.
Definition acts (fuel : nat) (rs : rounds) : list (M W unit) := map (fun r => round fuel r.1) rs.
Definition all_sent (i : nat) (rs : rounds) : list (list Z) := flat_map (fun r => sent_to i r.2) rs.

(** A reader of [n] messages of service [i] takes what there is, waits for the next round, and so on;
    the rounds bring enough, and no queue gets more than 128. *)
Fixpoint keeps_up (i n : nat) (rs : rounds) (qs : list (list (list Z))) : Prop :=
  match qs !! i with
  | None => False
  | Some q =>
      if decide (n <= length q)%nat then True else
      match rs with
      | [] => False
      | r :: rs =>
          match arrive r.2 (<[i := []]> qs) with
          | Some qs' => keeps_up i (n - length q) rs qs'
          | None => False
          end
      end
  end.

Lemma keeps_up_pop i n rs qs d q :
  qs !! i = Some (d :: q) -> keeps_up i (S n) rs qs -> keeps_up i n rs (<[i := q]> qs).
Proof.
  intros Hq. assert (<[i := q]> qs !! i = Some q) as Hq' by (apply list_lookup_insert_eq; by eapply lookup_lt_Some).
  destruct rs as [|r rs]; cbn [keeps_up]; rewrite Hq, Hq'; cbn [length];
    destruct (decide (S n <= S (length q))%nat), (decide (n <= length q)%nat); try done; try lia.
  by rewrite list_insert_insert_eq, Nat.sub_succ.
Qed.

(** The rest of [dequeue_all (S n)] behind a first [dequeue_message] that waits. *)
Definition reader_rest (n : nat) (h : ServiceHandle) (ud : nat) : Async W (VchiqResult (list (list Z))) :=
  abind_try (vchi_rest ud) (fun d => await? ds := dequeue_all n h in Done (Ok (d :: ds))).

Section reader.
Context (ss : SlotState) (Q : list Z) (cs : list channel) (fuel k i : nat) (c : channel) (Hc : cs !! i = Some c).

(** The reader is done, with the first [n] payloads of [ds]. *)
Definition reads (rs : rounds) (f : Async W (VchiqResult (list (list Z)))) (w : W) (n : nat) (ds : list (list Z)) : Prop :=
  exists w', run_with (acts fuel rs) f w = Ret (Some (Ok (take n ds)), w') /\ lock_free w'.

Lemma reads_more rs n w d ds :
  reads rs (dequeue_all n (ch_handle c)) w n ds ->
  reads rs (await? ds := dequeue_all n (ch_handle c) in Done (Ok (d :: ds))) w (S n) (d :: ds).
Proof.
  intros (w' & E & Hl). exists w'. split; [|done]. unfold abind_try.
  by erewrite run_with_abind_ready; [|exact E|cbn; reflexivity].
Qed.

(** The two states of the reader: at a call, or waiting in one. *)
Definition ready_at (rs : rounds) (R : Z) : Prop := forall n w qs q,
  all_open (arriving (events rs) + k) w cs qs -> reading ss Q R w -> qs !! i = Some q ->
  keeps_up i n rs (contents qs) ->
  reads rs (dequeue_all n (ch_handle c)) w n (map data q ++ all_sent i rs).
Definition waiting_at (rs : rounds) (R : Z) : Prop := forall n w qs q,
  lock_held w -> all_serving (arriving (events rs) + k) w cs qs -> reading ss Q R w -> qs !! i = Some q ->
  keeps_up i (S n) rs (contents qs) ->
  reads rs (reader_rest n (ch_handle c) (ch_box c)) w (S n) (map data q ++ all_sent i rs).

(** A poll left it waiting: the next round comes. *)
Lemma reader_pending r rs R f n w w1 qs :
  waiting_at rs (R + stream_len (item_messages cs r.2)) -> 0 <= R ->
  writes_on fuel ss Q cs R (events (r :: rs)) ->
  poll f w = Ret (inr (reader_rest n (ch_handle c) (ch_box c)), w1) ->
  lock_held w1 -> all_serving (arriving (events (r :: rs)) + k) w1 cs qs -> reading ss Q R w1 ->
  qs !! i = Some [] -> keeps_up i (S n) (r :: rs) (contents qs) ->
  reads (r :: rs) f w (S n) (all_sent i (r :: rs)).
Proof.
  intros HB HR (Hwr & Hfuel & _) Ef Hl Hs Hrd Hq Hk. cbn [events map arriving] in Hs. rewrite <- Nat.add_assoc in Hs.
  assert (contents qs !! i = Some []) as Hpq by by rewrite map_lookup, Hq.
  cbn [keeps_up] in Hk. rewrite Hpq in Hk. destruct (decide _); [cbn in *; lia|].
  rewrite list_insert_id in Hk by done. destruct (arrive r.2 _) as [pqs|] eqn:Ha; [|done].
  destruct (round_Ret _ _ _ _ _ _ _ _ _ _ _ HR Hs Ha Hrd Hwr Hfuel) as (w2 & qs2 & E & Hs2 & Hqs2 & Hrd2 & Hup).
  pose proof (arrive_sent i _ _ _ _ Ha Hpq) as Hsent. rewrite <- Hqs2, map_lookup in Hsent.
  destruct (qs2 !! i) as [q2|] eqn:Hq2; [|done]. injection Hsent as Hsent. cbn [app] in Hsent.
  assert (lock_held w2) as Hl2 by (unfold lock_held, vchi_of; by rewrite Hup).
  destruct (HB n w2 qs2 q2 Hl2 Hs2 Hrd2 Hq2) as (w3 & E3 & Hl3); [by rewrite Hqs2|].
  exists w3. split; [|done].
  change (all_sent i (r :: rs)) with (sent_to i r.2 ++ all_sent i rs).
  change (acts fuel (r :: rs)) with (round fuel r.1 :: acts fuel rs). rewrite <- Hsent, <- E3.
  by apply (run_with_pending _ _ _ _ _ _ _ _ Ef E).
Qed.

Lemma reader_ready rs R :
  0 <= R -> writes_on fuel ss Q cs R (events rs) ->
  (forall r rs', rs = r :: rs' -> waiting_at rs' (R + stream_len (item_messages cs r.2))) ->
  ready_at rs R.
Proof.
  intros HR Hwr HB n w qs q. revert n w qs. induction q as [|m q IH]; intros [|n] w qs Ho Hrd Hq Hk.
  1, 3: exists w; split; [by apply run_with_ready|apply Ho].
  - pose proof (all_open_channel _ _ _ _ _ _ _ Ho Hc Hq) as Hoc.
    destruct (vchi_dequeue_waits _ _ _ 0 _ _ _ _ _ Hoc) as (w1 & E & Hl1 & Hs1 & Hf1).
    pose proof (all_serving_insert _ _ w w1 cs qs i c [] (proj2 Ho) ltac:(done) Hc Hs1 Hf1) as Hall.
    rewrite list_insert_id in Hall by done. cbn [map app].
    destruct rs as [|r rs].
    { exfalso. cbn [keeps_up] in Hk. rewrite map_lookup, Hq in Hk. cbn in Hk. destruct (decide _); [lia|done]. }
    apply (reader_pending r rs R _ n w w1 qs); try done; [by apply HB| |by eapply reading_client, dequeue_client].
    cbn [dequeue_all]. unfold abind_try at 1. rewrite poll_abind. by erewrite bind_Ret by exact E.
  - pose proof (all_open_channel _ _ _ _ _ _ _ Ho Hc Hq) as Hoc.
    destruct (vchi_dequeue_Ret _ _ _ 0 _ _ _ _ _ _ _ Hoc) as (w1 & E & [Hl1 _ _ _ Hs1] & Hf1).
    pose proof (all_serving_insert _ _ w w1 cs qs i c q (proj2 Ho) ltac:(done) Hc Hs1 Hf1) as Hall.
    assert (reads rs (dequeue_all n (ch_handle c)) w1 n (map data q ++ all_sent i rs)) as Hr.
    { apply (IH n w1 (<[i := q]> qs)); [by split|by eapply reading_client, dequeue_client| |].
      - apply list_lookup_insert_eq. by eapply lookup_lt_Some.
      - rewrite map_insert. eapply keeps_up_pop; [|exact Hk]. by rewrite map_lookup, Hq. }
    apply (reads_more _ _ _ (data m)) in Hr as (w2 & E2 & Hl2). exists w2. split; [|done].
    cbn [dequeue_all map app]. unfold abind_try at 1. by erewrite run_with_abind_now by exact E.
Qed.

Lemma reader_waiting rs R :
  0 <= R -> writes_on fuel ss Q cs R (events rs) ->
  (forall r rs', rs = r :: rs' -> waiting_at rs' (R + stream_len (item_messages cs r.2))) ->
  waiting_at rs R.
Proof.
  intros HR Hwr HB n w qs q Hl Hs Hrd Hq Hk.
  pose proof (all_serving_channel _ _ _ _ _ _ _ Hs Hc Hq) as Hsc. destruct q as [|m q].
  - destruct (vchi_rest_waits _ _ _ _ _ _ Hl Hsc) as (w1 & E & Hl1 & Hs1 & Hf1).
    pose proof (all_serving_insert _ _ w w1 cs qs i c [] Hs ltac:(done) Hc Hs1 Hf1) as Hall.
    rewrite list_insert_id in Hall by done. cbn [map app].
    destruct rs as [|r rs].
    { exfalso. cbn [keeps_up] in Hk. rewrite map_lookup, Hq in Hk. cbn in Hk. destruct (decide _); [lia|done]. }
    apply (reader_pending r rs R _ n w w1 qs); try done; [by apply HB| |by eapply reading_client, dequeue_client].
    unfold reader_rest, abind_try. rewrite poll_abind. by erewrite bind_Ret by exact E.
  - destruct (vchi_rest_Ret _ _ _ _ _ _ _ _ Hl Hsc) as (w1 & E & Hl1 & Hs1 & Hf1).
    pose proof (all_serving_insert _ _ w w1 cs qs i c q Hs ltac:(done) Hc Hs1 Hf1) as Hall.
    assert (reads rs (dequeue_all n (ch_handle c)) w1 n (map data q ++ all_sent i rs)) as Hr.
    { apply (reader_ready rs R HR Hwr HB n w1 (<[i := q]> qs)); [by split|by eapply reading_client, dequeue_client| |].
      - apply list_lookup_insert_eq. by eapply lookup_lt_Some.
      - rewrite map_insert. eapply keeps_up_pop; [|exact Hk]. by rewrite map_lookup, Hq. }
    apply (reads_more _ _ _ (data m)) in Hr as (w2 & E2 & Hl2). exists w2. split; [|done].
    unfold reader_rest, abind_try at 1. erewrite run_with_abind_now by (apply run_with_ready; exact E). exact E2.
Qed.
End reader.

(** C7: a reader that waits gets everything.  An application calls [dequeue_message] over and over for
    one service, waiting whenever there is nothing, while the VideoCore goes on sending and the slot
    handler runs each time the reader has to wait.  If enough is sent, all the calls return: with what
    waited at the beginning and then what was sent to the service, in order.  The reader holds the
    lock of the map of services while it waits, which does not keep the handler from running through
    the messages of all services; in the end it is free. *)
Theorem reader_gets_all (ss : SlotState) (Q : list Z) (cs : list channel) (fuel k i n : nat) (c : channel)
    (rs : rounds) (w : W) (R : Z) (qs : list (list SlotMessage)) (q : list SlotMessage) :
  cs !! i = Some c -> all_open (arriving (events rs) + k) w cs qs -> reading ss Q R w -> 0 <= R ->
  writes_on fuel ss Q cs R (events rs) ->
  qs !! i = Some q -> keeps_up i n rs (contents qs) ->
  exists w', run_with (acts fuel rs) (dequeue_all n (ch_handle c)) w =
      Ret (Some (Ok (take n (map data q ++ all_sent i rs))), w') /\ lock_free w'.
Proof.
  intros Hc Ho Hrd HR Hwr Hq Hk. revert n w qs q Ho Hrd Hq Hk.
  assert (forall rs R, 0 <= R -> writes_on fuel ss Q cs R (events rs) ->
    forall r rs', rs = r :: rs' -> waiting_at ss Q cs fuel k i c rs' (R + stream_len (item_messages cs r.2))) as HB.
  { clear rs R HR Hwr. induction rs as [|r0 rs IH]; intros R HR Hwr r rs' [= <- <-].
    destruct Hwr as (Hwr & _ & Hrest). pose proof (stream_len_nonneg _ (wrote_fits _ _ _ _ _ Hwr)).
    apply reader_waiting; [done|lia|done|]. intros r rs' ->. apply IH with (r := r) (rs' := rs'); [lia|done|done]. }
  apply (reader_ready ss Q cs fuel k i c Hc rs R HR Hwr (HB rs R HR Hwr)).
Qed.
End conversation.
