(* ===== verification/VchiSystem.v ===== *)
(** The whole program through the VCHI layer: applications that call [vchi::Instance] one operation
    after the other, the slot handler, the completion handler and the VideoCore, in any interleaving.
    What the values in the program refer to is right in every reachable state: boxes of user data
    keep their types, services and completions name boxes of the type they are downcast to, and the
    map of services names services that exist. *)

From stdpp Require Import relations gmap.
From S2P Require Import Prelude Locks Memory Layout Types SlotMessage Event SlotZero Slot Service.
From S2P Require Import State SlotHandler Completion Instance Registry CoreSteps Queues Concurrency System.
From S2P Require Import Stream Transmit Receive Boot Connection Delivery Vchi VchiOk.

Section vchisystem.
Context {L : LockLib} {LL : LockLaws L} {RW : RwLib} {RWL : RwLaws RW} {VC : Type} {App : AppCallbacks L VC}.
Context {AL : AppLaws}.
Notation W := (World (Client (Vchi VC))).
Implicit Types w : W.

(** ** What refers to what *)

Definition box (w : W) (i : nat) : option AnyBox := user_data (w_client w) !! i.
Definition is_handle (w : W) (i : nat) : Prop := exists h, box w i = Some (AnyServiceHandle h).
Definition is_user (w : W) (i : nat) : Prop := exists u, box w i = Some (AnyServiceUser u).

(** User data as VCHI passes it to VCHIQ: a box with a handle. *)
Definition names_handle (w : W) (ud : option nat) : Prop := exists i, ud = Some i /\ is_handle w i.

(** A VCHIQ handle of a service that was created. *)
Definition registered (w : W) (h : ServiceHandle) : Prop :=
  VCHIQ_MAX_SERVICES <= h < VCHIQ_MAX_SERVICES + Z.of_nat (length (w_heap w)).

Definition entry_ok (w : W) (vs : VchiService VC) : Prop :=
  registered w (vs_handle vs) /\ callback (vs_base vs) = None.

Record client_ok (w : W) : Prop := {
  ok_user_boxes : forall i u, box w i = Some (AnyServiceUser u) ->
    is_vchi u = true /\ names_handle w (su_userdata u);
  ok_completions : forall i c, completions (completion (w_client w)) !! i = Some (Some c) ->
    names_handle w (service_userdata c);
  ok_map : forall h vs, vchi_services (vchi_of w) !! h = Some vs -> entry_ok w vs;
}.

Record vchi_ok (w : W) : Prop := {
  ok_reg : reg_inv w;
  ok_services : forall l s, w_heap w !! l = Some s -> exists i, userdata (base s) = Some i /\ is_user w i;
  ok_client : client_ok w;
}.

(** ** How the state may change *)

(** Boxes keep their types; handles in boxes do not change. *)
Record boxes_kept (w w' : W) : Prop := {
  kept_handle : forall i h, box w i = Some (AnyServiceHandle h) -> box w' i = Some (AnyServiceHandle h);
  kept_user : forall i, is_user w i -> is_user w' i;
  kept_data : forall i d, box w i = Some (AnyCallbackData d) -> exists d', box w' i = Some (AnyCallbackData d');
}.
#[local] Instance boxes_kept_preorder : PreOrder boxes_kept.
Proof.
  split; [intros w; split; eauto|]. intros w1 w2 w3 [? ? Hd1] [? ? Hd2]. split; [auto..|].
  intros i d Hi. destruct (Hd1 i d Hi) as [d' Hd']. by apply (Hd2 i d').
Qed.

Record vchi_evolves (w w' : W) : Prop := {
  evolves_ok : vchi_ok w';
  evolves_heap : heap_evolves (w_heap w) (w_heap w');
  evolves_boxes : boxes_kept w w';
}.
Definition vchi_step (w w' : W) : Prop := vchi_ok w -> vchi_evolves w w'.

#[export] Instance vchi_step_preorder : PreOrder vchi_step.
Proof.
  split; [by intros w Hw|]. intros w1 w2 w3 H1 H2 Hw. destruct (H1 Hw) as [? ? ?].
  destruct H2 as [? ? ?]; [done|]. split; [done|by etransitivity..].
Qed.

(** Assertions that survive such changes. *)
Definition known (P : W -> Prop) (w : W) : Prop := vchi_ok w /\ P w.

Lemma stable_ok : stable vchi_step vchi_ok.
Proof. intros w w' Hs Hw. apply Hs, Hw. Qed.

Lemma stable_known (P : W -> Prop) :
  (forall w w', vchi_evolves w w' -> P w -> P w') -> stable vchi_step (known P).
Proof. intros HP w w' Hs [Hw Hp]. pose proof (Hs Hw) as He. split; [apply He|by eapply HP]. Qed.

Lemma names_handle_kept w w' ud : boxes_kept w w' -> names_handle w ud -> names_handle w' ud.
Proof. intros Hk (i & -> & h & Hi). exists i. split; [done|]. exists h. by apply Hk. Qed.

Lemma registered_kept w w' h : heap_evolves (w_heap w) (w_heap w') -> registered w h -> registered w' h.
Proof. intros Hh [? ?]. apply heap_evolves_length in Hh. unfold registered. lia. Qed.

Lemma registered_evolves w w' h : vchi_evolves w w' -> registered w h -> registered w' h.
Proof. intros [_ Hh _]. by apply registered_kept. Qed.

Lemma names_handle_evolves w w' ud : vchi_evolves w w' -> names_handle w ud -> names_handle w' ud.
Proof. intros [_ _ Hb]. by apply names_handle_kept. Qed.

Lemma is_user_evolves w w' i : vchi_evolves w w' -> is_user w i -> is_user w' i.
Proof. intros [_ _ Hb]. by apply Hb. Qed.

Lemma entry_ok_evolves w w' vs : vchi_evolves w w' -> entry_ok w vs -> entry_ok w' vs.
Proof. intros He [? ?]. split; [by eapply registered_evolves|done]. Qed.

(** ** Changes that leave the client alone *)

Lemma same_boxes w w' : user_data (w_client w') = user_data (w_client w) -> boxes_kept w w'.
Proof.
  intros E. assert (forall i, box w' i = box w i) as Hb by (intros i; unfold box; by rewrite E).
  split; unfold is_user; setoid_rewrite Hb; eauto.
Qed.

Lemma client_ok_kept w w' :
  boxes_kept w w' -> (length (w_heap w) <= length (w_heap w'))%nat ->
  (forall i u, box w' i = Some (AnyServiceUser u) -> box w i = Some (AnyServiceUser u)) ->
  completion (w_client w') = completion (w_client w) ->
  vchi_services (vchi_of w') = vchi_services (vchi_of w) ->
  client_ok w -> client_ok w'.
Proof.
  intros Hb Hl Hu Hc Hup [H1 H2 H3]. split.
  - intros i u Hi. destruct (H1 i u (Hu i u Hi)) as [? ?]. split; [done|by eapply names_handle_kept].
  - intros i c Hi. rewrite Hc in Hi. eapply names_handle_kept; [done|by eapply H2].
  - intros h vs Hi. rewrite Hup in Hi. destruct (H3 h vs Hi) as [[? ?] ?].
    split; [|done]. unfold registered. lia.
Qed.

Lemma core_vchi_step w w' : reg_step w w' -> core_frame w w' -> vchi_step w w'.
Proof.
  intros Hr [Hc Hl] [Hreg Hs Hcl]. destruct (Hr Hreg) as [Hi Hh].
  assert (boxes_kept w w') as Hb by (apply same_boxes; by rewrite Hc).
  split; [|done|done]. split; [done| |].
  - intros l s' Hl'. destruct (lookup_lt_is_Some_2 (w_heap w) l) as [s Hs0].
    { rewrite <- Hl. by eapply lookup_lt_Some. }
    destruct (Hh l s Hs0) as (s2 & Hs2 & He). simplify_eq.
    destruct (Hs l s Hs0) as (i & Hi' & Hu). exists i. rewrite (evolves_userdata _ _ He). split; [done|by apply Hb].
  - apply (client_ok_kept w); unfold box, vchi_of; rewrite ?Hl, ?Hc; done.
Qed.

#[local] Instance vchi_core_closed : CoreClosed vchi_step.
Proof. split; [apply _|apply core_vchi_step]. Qed.
#[local] Hint Resolve close_start_evolves try_down_remove_event_evolves frame_evolves service_from_handle_frame
  service_by_port_frame unwrap_result_frame get_service_frame : evolves.

(** ** Changes of the client only *)

Lemma client_vchi_step w w' :
  client_frame w w' -> (vchi_ok w -> boxes_kept w w' /\ client_ok w') -> vchi_step w w'.
Proof.
  intros Hf Hc Hw. destruct (Hc Hw) as [Hb Hcl]. destruct Hw as [Hr Hs _].
  pose proof (client_frame_heap _ _ Hf) as Hh. split; [|by rewrite Hh|done].
  split; [by apply (client_frame_step w)| |done].
  intros l s Hl. rewrite Hh in Hl. destruct (Hs l s Hl) as (i & Hi & Hu). exists i. split; [done|by apply Hb].
Qed.

(** The completion queue: entries may go, and come for boxes with handles. *)
Lemma completion_vchi_step w c :
  (vchi_ok w -> forall i x, completions c !! i = Some (Some x) ->
     (exists j, completions (completion (w_client w)) !! j = Some (Some x)) \/ names_handle w (service_userdata x)) ->
  vchi_step w (with_completion w c).
Proof.
  intros Hc. apply client_vchi_step; [done|]. intros Hw. split; [by apply same_boxes|].
  destruct (ok_client _ Hw) as [H1 H2 H3]. split; [exact H1| |exact H3].
  intros i x Hi. destruct (Hc Hw i x Hi) as [[j Hj]|Hn]; [by apply (H2 j x)|exact Hn].
Qed.

(** The record of a service, with the same user data. *)
Lemma with_user_vchi_step w i u u' :
  box w i = Some (AnyServiceUser u) -> su_userdata u' = su_userdata u -> is_vchi u' = is_vchi u ->
  vchi_step w (with_user w i u').
Proof.
  intros Hi Hud Hv. apply client_vchi_step; [done|]. intros Hw.
  assert (forall j, box (with_user w i u') j = if decide (j = i) then Some (AnyServiceUser u') else box w j) as Hbox.
  { intros j. unfold box. cbn. destruct (decide (j = i)) as [->|].
    - apply list_lookup_insert_eq. by eapply lookup_lt_Some.
    - by apply list_lookup_insert_ne. }
  assert (boxes_kept w (with_user w i u')) as Hk.
  { split; unfold is_user; intros j; rewrite Hbox; destruct (decide (j = i)) as [->|]; eauto;
      intros ? E; congruence. }
  destruct (ok_client _ Hw) as [H1 H2 H3]. split; [done|]. split; [| |exact H3].
  - intros j v Hj. rewrite Hbox in Hj. destruct (decide (j = i)) as [->|].
    + injection Hj as <-. rewrite Hv, Hud. destruct (H1 i u Hi) as [? ?]. split; [done|by eapply names_handle_kept].
    + destruct (H1 j v Hj) as [? ?]. split; [done|by eapply names_handle_kept].
  - intros j x Hj. eapply names_handle_kept; [done|by apply (H2 j x)].
Qed.

(** The VCHI layer's own state. *)
Lemma with_vchi_step w v :
  (vchi_ok w -> forall h vs, vchi_services v !! h = Some vs -> entry_ok w vs) -> vchi_step w (with_vchi w v).
Proof.
  intros Hv. apply client_vchi_step; [done|]. intros Hw. split; [by apply same_boxes|].
  destruct (ok_client _ Hw) as [H1 H2 H3]. split; [exact H1|exact H2|exact (Hv Hw)].
Qed.

Lemma upd_vchi_vchi f :
  (forall v, vchi_services (f v) = vchi_services v) -> evolves vchi_step (upd_vchi f : M W unit).
Proof.
  intros Hf w u w'. rewrite upd_vchi_Ret. intros [= _ <-]. apply with_vchi_step. intros Hw h vs. rewrite Hf.
  apply (ok_map _ (ok_client _ Hw)).
Qed.

(** A new box: one of the application, or a handle. *)
Lemma new_box_vchi_step w b :
  match b with
  | AnyServiceUser u => is_vchi u = true /\ names_handle w (su_userdata u)
  | _ => True
  end ->
  vchi_step w (with_client w ((w_client w) <| user_data ::= fun l => l ++ [b] |>)).
Proof.
  intros Hb. set (w' := with_client w _). apply client_vchi_step; [done|]. intros Hw.
  assert (forall i x, box w i = Some x -> box w' i = Some x) as Hold by (intros i x; apply lookup_app_l_Some).
  assert (boxes_kept w w') as Hk.
  { split; [auto| |eauto]. intros i [u Hu]. exists u. auto. }
  split; [done|]. destruct (ok_client _ Hw) as [H1 H2 H3]. split; [| |exact H3].
  - intros i u [Hi|[_ Hi]]%lookup_app_Some.
    + destruct (H1 i u Hi) as [? ?]. split; [done|by eapply names_handle_kept].
    + apply list_lookup_singleton_Some in Hi as [_ ->]. destruct Hb as [? ?]. split; [done|by eapply names_handle_kept].
  - intros i x Hi. eapply names_handle_kept; [done|by apply (H2 i x)].
Qed.
(** ** The VCHIQ instance *)

Lemma add_completion_typed reason message c u c' u' :
  add_completion reason message c u = Ret (c', u') ->
  su_userdata u' = su_userdata u /\ is_vchi u' = is_vchi u /\
  forall i x, completions c' !! i = Some (Some x) ->
    (exists j, completions c !! j = Some (Some x)) \/ service_userdata x = su_userdata u.
Proof.
  unfold add_completion. cbv zeta. intros E.
  assert (exists c1, completions c1 = completions c /\ is_Some (completions c1 !! ring_index MAX_COMPLETIONS (completion_insert c)) /\
    completions c' = <[ring_index MAX_COMPLETIONS (completion_insert c) :=
      Some (mkServiceCompletion reason message (su_userdata u))]> (completions c1) /\
    su_userdata u' = su_userdata u /\ is_vchi u' = is_vchi u) as (c1 & Hc1 & _ & Hc' & Hud & Hv).
  { destruct (MAX_COMPLETIONS <=? _); [destruct (sem_try_down _)|]; destruct (completions _ !! _) eqn:He in E; try done;
      injection E as <- <-; (eexists; split; [|split; [by rewrite He|split; [reflexivity|]]]; [done|by case_decide]). }
  split; [done|]. split; [done|].
  intros i x. rewrite Hc', Hc1. intros [(_ & Ex & _)|[_ Hx]]%list_lookup_insert_Some.
  - right. by simplify_eq.
  - left. by exists i.
Qed.

Lemma queue_received_typed reason message c u c' u' :
  queue_received reason message c u = Ret (c', u') ->
  su_userdata u' = su_userdata u /\ is_vchi u' = is_vchi u /\
  forall i x, completions c' !! i = Some (Some x) ->
    (exists j, completions c !! j = Some (Some x)) \/ service_userdata x = su_userdata u.
Proof.
  intros E. set (typed c1 u1 := su_userdata u1 = su_userdata u /\ is_vchi u1 = is_vchi u /\
    forall i x, completions c1 !! i = Some (Some x) ->
      (exists j, completions c !! j = Some (Some x)) \/ service_userdata x = su_userdata u).
  destruct (queue_received_ind (fun _ => typed) reason message c u c' u') as (n & _ & H); [| |exact E| |exact H].
  - intros n m c1 u1 c2 u2 (Hud & Hv & Hx) (Hud' & Hv' & Hx')%add_completion_typed.
    split; [congruence|]. split; [congruence|].
    intros i x Hi. destruct (Hx' i x Hi) as [[j Hj]|Ex]; [by apply (Hx j x)|right; congruence].
  - intros n c1 u1 u2 (Hud & Hv & Hx) [? ? _]. split; [congruence|]. split; [congruence|done].
  - split; [done|]. split; [done|]. intros i x Hi. left. by exists i.
Qed.

Lemma service_callback_vchi reason message l : evolves vchi_step (service_callback reason message l : M W _).
Proof.
  intros w r w'. unfold service_callback. intros (s & w1 & [Hs ->]%get_service_inv & H)%bind_Ret_inv.
  apply bind_Ret_inv in H as (i & w1 & H1 & H).
  assert (w1 = w) as -> by (unfold unwrap in H1; destruct (userdata (base s)); [by injection H1 as _ <-|done]). clear H1.
  apply bind_Ret_inv in H as (u & w1 & [Hu ->]%get_user_inv & H).
  unfold get_client in H. rewrite bind_gets in H. apply bind_Ret_inv in H as ([c u'] & w1 & H1 & H).
  unfold lift in H1. destruct (queue_received _ _ _ _) as [[c1 u1]| | |] eqn:E; try done. injection H1 as -> -> <-.
  apply queue_received_typed in E as (Hud & Hv & Hc).
  unfold upd_client, set_user in H. rewrite bind_modify in H. unfold upd_client in H. rewrite bind_modify in H.
  injection H as _ <-.
  transitivity (with_completion w c).
  - apply completion_vchi_step. intros Hw j x Hj. destruct (Hc j x Hj) as [?|Ex]; [by left|].
    right. rewrite Ex. by apply (ok_user_boxes _ (ok_client _ Hw) i).
  - change (vchi_step (with_completion w c) (with_user (with_completion w c) i u')).
    by apply (with_user_vchi_step (with_completion w c) i u).
Qed.

Lemma invoke_vchi cb reason message h : evolves vchi_step (invoke_callback cb reason message h : M W unit).
Proof.
  destruct cb. unfold invoke_callback, instance_host.
  evolves_step; [apply (frame_evolves vchi_step), service_from_handle_frame|].
  evolves_step; [apply (frame_evolves vchi_step), unwrap_result_frame|].
  evolves_step; [apply service_callback_vchi|]. auto with evolves typeclass_instances.
Qed.

(** *** Requests *)

Lemma upd_client_vchi (f : Client (Vchi VC) -> Client (Vchi VC)) :
  (forall c, user_data (f c) = user_data c /\ completion (f c) = completion c /\ upper (f c) = upper c) ->
  evolves vchi_step (upd_client f : M W unit).
Proof.
  intros Hf w u w' E. unfold upd_client, modify in E. injection E as _ <-.
  destruct (Hf (w_client w)) as (Hb & Hc & Hu). apply client_vchi_step; [done|]. intros Hw.
  split; [by apply same_boxes|]. apply (client_ok_kept w); try done; [by apply same_boxes| | |apply Hw].
  - unfold box. cbn. by rewrite Hb.
  - unfold vchi_of. cbn. by rewrite Hu.
Qed.

Lemma get_user_vchi i : evolves vchi_step (get_user i : M W _).
Proof. by intros w u w' [_ ->]%get_user_inv. Qed.

(** Reading the record of a service and writing one with the same user data. *)
Lemma set_user_does i u u' :
  su_userdata u' = su_userdata u -> is_vchi u' = is_vchi u ->
  does vchi_step (fun w => box w i = Some (AnyServiceUser u)) (set_user i u' : M W unit) any_result.
Proof.
  intros Hud Hv w a w' Hb E. unfold set_user, upd_client, modify in E. injection E as _ <-.
  split; [|done]. by apply (with_user_vchi_step w i u).
Qed.

Lemma with_user_evolves {A} i (k : ServiceUser -> M W A) :
  (forall u, does vchi_step (fun w => box w i = Some (AnyServiceUser u)) (k u) any_result) ->
  evolves vchi_step (bind (get_user i) k).
Proof.
  intros Hk. apply (does_evolves_inv vchi_step _ any_result). eapply does_bind; [apply _| |exact Hk].
  apply does_pure; [apply _|]. intros w u w' _ [Hb ->]%get_user_inv. done.
Qed.

Lemma set_user_then {A} i u u' (k : unit -> M W A) :
  su_userdata u' = su_userdata u -> is_vchi u' = is_vchi u -> (forall x, evolves vchi_step (k x)) ->
  does vchi_step (fun w => box w i = Some (AnyServiceUser u)) (bind (set_user i u') k) any_result.
Proof.
  intros Hud Hv Hk. eapply does_bind; [apply _|by apply (set_user_does i u)|]. intros x. by apply does_evolves.
Qed.

Lemma poll_dequeue_vchi i : evolves vchi_step (poll_dequeue i : M W _).
Proof.
  apply with_user_evolves. intros u. destruct (msg_remove u =? msg_insert u); cbv zeta.
  - destruct (sem_try_down _); apply set_user_then; try done; intros []; apply evolves_ret; apply _.
  - apply does_evolves, evolves_ret, _.
Qed.

Lemma take_message_vchi {T} (try_into : SlotMessage -> VchiqResult T) i : evolves vchi_step (take_message try_into i : M W _).
Proof.
  apply with_user_evolves. intros u. destruct (_ <? _); [apply does_evolves, evolves_ret, _|]. cbv zeta.
  assert (forall {A B} (m : M W A) (k : A -> M W B), evolves io_frame m ->
    (forall a, does vchi_step (fun w => box w i = Some (AnyServiceUser u)) (k a) any_result) ->
    does vchi_step (fun w => box w i = Some (AnyServiceUser u)) (bind m k) any_result) as Hpure.
  { intros A B m k Hm Hk. eapply does_bind; [apply _| |exact Hk]. intros w a w' Hb E. pose proof (Hm _ _ _ E) as HF.
    split; [by apply (frame_evolves vchi_step m Hm w a w')|]. unfold box. by rewrite (frame_client _ _ HF). }
  apply Hpure; [apply evolves_unwrap, _|]. intros e. apply Hpure; [apply evolves_unwrap, _|]. intros m.
  apply Hpure; [apply unwrap_result_frame|]. intros r. apply set_user_then; [done..|]. intros []. apply evolves_ret, _.
Qed.

Lemma dequeue_message_vchi {T} (try_into : SlotMessage -> VchiqResult T) h :
  aevolves vchi_step (dequeue_message try_into h : Async W _).
Proof.
  apply aevolves_abind_try; [apply aevolves_astep, (frame_evolves vchi_step), service_from_handle_frame|]. intros l.
  apply aevolves_abind; [apply aevolves_astep, (frame_evolves vchi_step); evolves_solve|]. intros i.
  apply aevolves_abind; [apply aevolves_astep, get_user_vchi|]. intros u.
  destruct (negb (is_vchi u)); [done|].
  apply aevolves_abind; [by split; [apply poll_dequeue_vchi|]|]. intros _. apply aevolves_astep, take_message_vchi.
Qed.

Lemma Instance_connect_vchi : aevolves vchi_step (Instance_connect : Async W _).
Proof.
  apply aevolves_abind; [apply aevolves_astep; unfold get_client; auto with evolves typeclass_instances|].
  intros c. destruct (connected c); [done|]. apply aevolves_abind_try; [apply (State_connect_evolves vchi_step)|].
  intros _. apply aevolves_abind; [|done]. by apply aevolves_astep, upd_client_vchi.
Qed.

Lemma Instance_queue_message_vchi fuel h data : evolves vchi_step (Instance_queue_message fuel h data : M W _).
Proof.
  apply (frame_evolves vchi_step). unfold Instance_queue_message. evolves_step; [apply service_from_handle_frame|].
  evolves_step; [auto with evolves|]. apply queue_message_other_frame, make_msg_id_DATA_CLOSE.
Qed.

Lemma take_completions_typed count : forall (c : Completion) cs c',
  take_completions count c = Ret (cs, c') ->
  forall i x, completions c' !! i = Some (Some x) -> exists j, completions c !! j = Some (Some x).
Proof.
  induction count as [|count IH]; intros c cs c'; cbn [take_completions].
  { intros [= <- <-] i x Hi. by exists i. }
  destruct (_ =? _); [intros [= <- <-] i x Hi; by exists i|]. cbv zeta.
  destruct (completions c !! _) as [[y|]|] eqn:E; try done.
  destruct (take_completions count _) as [[cs1 c1]| | |] eqn:E1; try done. intros [= <- <-] i x Hi.
  destruct (IH _ _ _ E1 i x Hi) as [j Hj]. cbn -[ring_index] in Hj.
  apply list_lookup_insert_Some in Hj as [(_ & ? & _)|[_ Hj]]; [done|]. by exists j.
Qed.

Lemma await_completion_vchi count : aevolves vchi_step (await_completion count : Async W _).
Proof.
  apply aevolves_abind; [apply aevolves_astep; unfold get_client; auto with evolves typeclass_instances|].
  intros c. destruct (negb (connected c)); [done|].
  apply aevolves_abind.
  - split; [|done]. unfold poll_completion, get_client. evolves_solve.
    intros w u w' E. unfold upd_client, modify in E. injection E as _ <-.
    match goal with |- vchi_step _ ?w' => apply (completion_vchi_step w (completion (w_client w'))) end.
    intros _ i x Hi. left. by exists i.
  - intros _. apply aevolves_astep. intros w r w'. unfold collect_completions, get_client. rewrite bind_gets.
    intros ([cs c'] & w1 & H1 & H)%bind_Ret_inv. unfold lift in H1.
    destruct (take_completions _ _) as [[cs1 c1]| | |] eqn:E; try done. injection H1 as -> -> <-.
    unfold upd_client in H. rewrite bind_modify in H. injection H as _ <-.
    apply (completion_vchi_step w c'). intros _ i x Hi. left. by eapply take_completions_typed.
Qed.
(** *** Creating a service *)

Lemma add_service_vchi params st i :
  sp_userdata params = Some i ->
  does vchi_step (known (fun w => is_user w i)) (add_service params st : M W _)
    (fun r => known (fun w => match r with Ok h => registered w h | Err _ => True end)).
Proof.
  intros Hud w r w' [Hw Hi] E. pose proof (add_service_opening _ _ _ _ _ E) as ->.
  pose proof (ok_reg _ Hw) as Hr. destruct (add_service_step _ _ _ _ _ E Hr) as [Hr' Hh].
  assert (w_client w' = w_client w /\ (forall l s, w_heap w' !! l = Some s ->
      w_heap w !! l = Some s \/ userdata (base s) = Some i) /\
    match r with Ok h => registered w' h | Err _ => True end) as (Hc & Hs & Hreg).
  { pose proof (inv_count _ Hr). destruct (decide (Z.of_nat (length (w_heap w)) = VCHIQ_MAX_SERVICES)).
    - rewrite add_service_full in E by done. injection E as <- <-. split; [done|]. split; [by left|done].
    - rewrite add_service_Ok in E by (done || lia). injection E as <- <-. split; [done|]. split.
      + intros l s [Hl|[_ Hl]]%lookup_app_Some; [by left|]. apply list_lookup_singleton_Some in Hl as [_ <-].
        by right.
      + rewrite (inv_handle _ Hr) by lia. unfold registered. cbn [w_heap with_new_service update].
        rewrite length_app. cbn [length]. lia. }
  assert (boxes_kept w w') as Hb by (apply same_boxes; by rewrite Hc).
  assert (vchi_evolves w w') as He.
  { split; [|done|done]. split; [done| |].
    - intros l s Hl. destruct (Hs l s Hl) as [Hl'|Hu].
      + destruct (ok_services _ Hw l s Hl') as (j & Hj & Hu). exists j. split; [done|by apply Hb].
      + exists i. split; [done|by apply Hb].
    - apply (client_ok_kept w); unfold box, vchi_of; rewrite ?Hc; try done; [by apply heap_evolves_length|apply Hw]. }
  split; [by intros _|]. split; [apply He|done].
Qed.

Lemma UserData_new_vchi b :
  does vchi_step (known (fun w => match b with
                                  | AnyServiceUser u => is_vchi u = true /\ names_handle w (su_userdata u)
                                  | _ => True
                                  end)) (UserData_new b : M W nat)
    (fun i => known (fun w => box w i = Some b)).
Proof.
  intros w i w' [Hw Hb] E. rewrite UserData_new_Ret in E. injection E as <- <-.
  pose proof (new_box_vchi_step w b Hb Hw) as He. split; [by intros _|]. split; [apply He|].
  unfold box. cbn. by rewrite lookup_app_r, Nat.sub_diag.
Qed.

Lemma create_service_vchi `{R : OpenPayloadRepr} params open :
  adoes vchi_step (known (fun w => names_handle w (sp_userdata params)))
    (create_service params open true : Async W _)
    (fun r => known (fun w => match r with Ok h => registered w h | Err _ => True end)).
Proof.
  set (P := known _). assert (stable vchi_step P) as HP by (apply stable_known; intros w w'; apply names_handle_evolves).
  unfold create_service. eapply (adoes_abind _ _ _ _ (fun _ => P)).
  { apply adoes_astep, does_keeps; [unfold get_client; auto with evolves typeclass_instances|done]. }
  intros c. eapply (adoes_abind_try _ _ _ _ (fun _ => P)).
  { intros w [Hw Hn]. destruct open, (connected c); by split. }
  intros st. eapply (adoes_abind _ _ _ _ (fun i => known (fun w => is_user w i))).
  { apply adoes_astep. eapply does_conseq; [| |apply UserData_new_vchi].
    - intros w [Hw Hn]. by split.
    - intros i w [Hw Hb]. split; [done|by eexists]. }
  intros i. cbv zeta. eapply (adoes_abind_try _ _ _ _ (fun h => known (fun w => registered w h))).
  { apply adoes_astep. eapply does_conseq; [| |by apply (add_service_vchi _ _ i)]; [done|]. by intros [h|e] w Hw. }
  intros h. eapply (adoes_abind_try _ _ _ _ (fun _ => known (fun w => registered w h))); [|by intros [] w Hw].
  assert (aevolves vchi_step (if open then open_service h else Done (Ok tt) : Async W _)) as Ho
    by (destruct open; [apply (open_service_evolves vchi_step)|done]).
  eapply adoes_conseq; [|apply (adoes_keeps _ (known (fun w => registered w h)) _ Ho)].
  - intros [|e] w [Hw Hr]; [done|by split].
  - apply stable_known. intros w w'. apply registered_evolves.
Qed.

(** ** The VCHI layer *)

Lemma services_read_vchi : evolves vchi_step (services_read : M W unit).
Proof. unfold services_read, get_vchi. evolves_solve. by apply upd_vchi_vchi. Qed.

Lemma services_write_vchi : evolves vchi_step (services_write : M W unit).
Proof. unfold services_write, get_vchi. evolves_solve. by apply upd_vchi_vchi. Qed.

Lemma services_done_vchi :
  evolves vchi_step (services_read_done : M W unit) /\ evolves vchi_step (services_write_done : M W unit).
Proof. split; by apply upd_vchi_vchi. Qed.

Lemma find_service_vchi h : evolves vchi_step (find_service h : M W _).
Proof. unfold find_service, get_vchi. evolves_solve. Qed.

(** Changing the map: what is entered must be in order. *)
Lemma upd_map_does P f :
  (forall w h vs, vchi_ok w -> P w -> f (vchi_services (vchi_of w)) !! h = Some vs ->
     vchi_services (vchi_of w) !! h = Some vs \/ entry_ok w vs) ->
  does vchi_step (known P) (upd_vchi (fun v => v <| vchi_services ::= f |>) : M W unit) (fun _ => vchi_ok).
Proof.
  intros Hf w a w' [Hw Hp] E. rewrite upd_vchi_Ret in E. injection E as _ <-.
  assert (vchi_step w (with_vchi w ((vchi_of w) <| vchi_services ::= f |>))) as Hs.
  { apply with_vchi_step. intros _ h vs Hvs. destruct (Hf w h vs Hw Hp Hvs) as [Hold|]; [|done].
    by apply (ok_map _ (ok_client _ Hw) h). }
  split; [done|]. by apply Hs.
Qed.

Lemma Vchi_create_service_vchi `{R : OpenPayloadRepr} params cb open :
  sp_callback params = None ->
  adoes vchi_step vchi_ok (Vchi_create_service params cb open : Async W _) any_result.
Proof.
  intros Hcb. unfold Vchi_create_service. eapply (adoes_abind _ _ _ _ (fun _ => vchi_ok)).
  { apply adoes_astep, does_keeps; [unfold get_vchi; auto with evolves typeclass_instances|apply stable_ok]. }
  intros v. destruct (negb (vchi_initialized v)); [done|]. cbv zeta.
  eapply (adoes_abind _ _ _ _ (fun _ => vchi_ok)).
  { apply adoes_astep, does_keeps; [by apply upd_vchi_vchi|apply stable_ok]. }
  intros []. eapply (adoes_abind _ _ _ _ (fun i => known (fun w => is_handle w i))).
  { apply adoes_astep. eapply does_conseq; [| |apply UserData_new_vchi].
    - intros w Hw. by split.
    - intros i w [Hw Hb]. split; [done|by eexists]. }
  intros i. rewrite Hcb. rewrite bool_decide_eq_true_2 by done.
  eapply (adoes_abind_try _ _ _ _ (fun h => known (fun w => registered w h))).
  { eapply adoes_conseq; [|eapply adoes_pre; [|apply create_service_vchi]].
    - by intros [h|e] w Hw.
    - intros w [Hw Hi]. split; [done|]. by exists i. }
  intros h. eapply (adoes_abind _ _ _ _ any_result); [|done].
  assert (stable vchi_step (known (fun w => registered w h))) as Hst
    by (apply stable_known; intros w w'; apply registered_evolves).
  apply adoes_astep. eapply (does_bind _ _ _ _ (fun _ => known (fun w => registered w h))).
  { apply does_keeps; [apply services_write_vchi|done]. }
  intros []. eapply (does_bind _ _ _ _ (fun _ => vchi_ok)).
  - apply upd_map_does. intros w h' vs Hw Hr [[_ <-]|[_ ?]]%lookup_insert_Some; [right|by left].
    by split.
  - intros []. apply does_evolves, services_done_vchi.
Qed.
Lemma service_open_vchi `{R : OpenPayloadRepr} setup :
  adoes vchi_step vchi_ok (service_open setup : Async W _) any_result.
Proof. by apply Vchi_create_service_vchi. Qed.

Lemma service_close_vchi h : aevolves vchi_step (service_close h : Async W _).
Proof.
  destruct services_done_vchi as [Hrd Hwd].
  apply aevolves_abind; [apply aevolves_astep, services_read_vchi|]. intros _.
  apply aevolves_abind.
  { apply aevolves_abind_try; [apply aevolves_astep, find_service_vchi|]. intros vs. apply (close_service_evolves vchi_step). }
  intros r. apply aevolves_abind; [by apply aevolves_astep|]. intros _. apply aevolves_abind_try; [done|]. intros _.
  apply aevolves_abind; [|done]. apply aevolves_astep. evolves_step; [apply services_write_vchi|].
  evolves_step; [|done]. intros w u w' E. rewrite upd_vchi_Ret in E. injection E as _ <-.
  apply with_vchi_step. cbn -[delete]. intros Hw h' vs [_ Hvs]%lookup_delete_Some. by apply (ok_map _ (ok_client _ Hw) h').
Qed.

Lemma Vchi_queue_message_vchi fuel h data : evolves vchi_step (Vchi_queue_message fuel h data : M W _).
Proof.
  unfold Vchi_queue_message. evolves_step; [apply services_read_vchi|]. evolves_step.
  - evolves_step; [apply find_service_vchi|apply Instance_queue_message_vchi].
  - evolves_step; [apply services_done_vchi|]. auto with evolves typeclass_instances.
Qed.

Lemma Vchi_dequeue_message_vchi h n : adoes vchi_step vchi_ok (Vchi_dequeue_message h n : Async W _) any_result.
Proof.
  unfold Vchi_dequeue_message. eapply (adoes_abind _ _ _ _ (fun _ => vchi_ok)).
  { apply adoes_astep, does_keeps; [apply services_write_vchi|apply stable_ok]. }
  intros []. eapply (adoes_abind _ _ _ _ any_result).
  2: { intros r. apply adoes_evolves, aevolves_abind; [apply aevolves_astep, services_done_vchi|done]. }
  eapply (adoes_abind_try _ _ _ _ (fun vs => known (fun w => entry_ok w vs))).
  { apply adoes_astep. apply does_pure; [apply _|]. intros w r w' Hw. rewrite find_service_Ret. intros [= <- <-].
    split; [done|]. destruct (_ !! _) as [vs|] eqn:E; [|done]. split; [done|]. by apply (ok_map _ (ok_client _ Hw) h). }
  intros vs. destruct (peek_buf vs) as [buf|]; [|apply adoes_evolves, dequeue_message_vchi].
  eapply (adoes_abind _ _ _ _ (fun _ => vchi_ok)); [|done].
  apply adoes_astep, upd_map_does. intros w h' vs' Hw Hvs [[_ <-]|[_ ?]]%lookup_insert_Some; [right|by left].
  exact Hvs.
Qed.

Lemma Vchi_connect_vchi : aevolves vchi_step (Vchi_connect : Async W _).
Proof.
  apply aevolves_abind; [apply aevolves_astep; unfold get_vchi; auto with evolves typeclass_instances|].
  intros v. destruct (negb (vchi_connected v)); [|done].
  apply aevolves_abind_try; [apply Instance_connect_vchi|]. intros _.
  apply aevolves_abind; [|done]. by apply aevolves_astep, upd_vchi_vchi.
Qed.

(** ** The application *)

(** What an application does with its own data: it changes boxes of its own, and makes new ones. *)
Record app_frame (w w' : W) : Prop := {
  app_client : client_frame w w';
  app_completion : completion (w_client w') = completion (w_client w);
  app_upper : vchi_services (vchi_of w') = vchi_services (vchi_of w);
  app_boxes : exists bs ds, user_data (w_client w') = bs ++ map AnyCallbackData ds /\
    Forall2 own_box (user_data (w_client w)) bs;
}.

Lemma own_data_boxes ds bs : Forall2 own_box (map AnyCallbackData ds) bs -> exists ds', bs = map AnyCallbackData ds'.
Proof.
  revert bs. induction ds as [|d ds IH]; intros bs; cbn.
  - intros ->%Forall2_nil_inv_l. by exists [].
  - intros (b & bs' & Hb & Hbs & ->)%Forall2_cons_inv_l. destruct b as [| |d']; try done.
    destruct (IH _ Hbs) as [ds' ->]. by exists (d' :: ds').
Qed.

#[export] Instance app_frame_preorder : PreOrder app_frame.
Proof.
  assert (forall b1 b2 b3, own_box b1 b2 -> own_box b2 b3 -> own_box b1 b3) as Htrans
    by (intros [] b2 b3 H12 H23; cbn in *; subst; try done; by destruct b2, b3).
  split.
  - intros w. split; [done..|]. exists (user_data (w_client w)), []. rewrite app_nil_r.
    split; [done|apply own_boxes_refl].
  - intros w1 w2 w3 [? ? ? (bs1 & ds1 & E1 & H1)] [? ? ? (bs2 & ds2 & E2 & H2)].
    split; [by etransitivity|congruence|congruence|]. rewrite E1 in H2.
    apply Forall2_app_inv_l in H2 as (l1 & l2 & Hl1 & Hl2 & ->). apply own_data_boxes in Hl2 as [ds' ->].
    exists l1, (ds' ++ ds2). rewrite E2, map_app, app_assoc. split; [done|].
    clear -H1 Hl1 Htrans. revert l1 Hl1. induction H1 as [|b1 b2 l l' Hb _ IH]; intros l1 Hl1.
    + by apply Forall2_nil_inv_l in Hl1 as ->.
    + apply Forall2_cons_inv_l in Hl1 as (b3 & l3 & Hb3 & Hl3 & ->). constructor; [by eapply Htrans|by apply IH].
Qed.

(** Making a box, and changing one. *)
Lemma new_data_app d : evolves app_frame (UserData_new (AnyCallbackData d) : M W nat).
Proof.
  intros w i w' E. rewrite UserData_new_Ret in E. injection E as _ <-. split; [done..|].
  exists (user_data (w_client w)), [d]. split; [done|apply own_boxes_refl].
Qed.

Lemma set_data_app w i d d' :
  box w i = Some (AnyCallbackData d) ->
  app_frame w (with_client w ((w_client w) <| user_data ::= <[i := AnyCallbackData d']> |>)).
Proof.
  intros Hi. split; [done..|]. eexists _, []. rewrite app_nil_r. split; [reflexivity|].
  rewrite <- (list_insert_id (user_data (w_client w)) i _ Hi) at 1. apply Forall2_insert; [apply own_boxes_refl|done].
Qed.

Lemma app_vchi_step w w' : app_frame w w' -> vchi_step w w'.
Proof.
  intros [Hf Hc Hu (bs & ds & Hbs & Hown)]. apply client_vchi_step; [done|]. intros Hw.
  assert (forall i b, box w i = Some b -> exists b', box w' i = Some b' /\ own_box b b') as Hold.
  { intros i b Hi. destruct (Forall2_lookup_l _ _ _ _ _ Hown Hi) as (b' & Hb' & Ho). exists b'. split; [|done].
    unfold box. rewrite Hbs. by apply lookup_app_l_Some. }
  assert (boxes_kept w w') as Hk.
  { split.
    - intros i h Hi. by destruct (Hold i _ Hi) as (b' & Hb' & ->).
    - intros i [u Hi]. destruct (Hold i _ Hi) as (b' & Hb' & ->). by exists u.
    - intros i d Hi. destruct (Hold i _ Hi) as ([| |d'] & Hb' & Ho); try done. by exists d'. }
  split; [done|]. apply (client_ok_kept w); try done; [by rewrite (client_frame_heap _ _ Hf)| |apply Hw].
  intros i u Hi. unfold box in Hi. rewrite Hbs in Hi. apply lookup_app_Some in Hi as [Hi|[_ Hi]].
  - destruct (Forall2_lookup_r _ _ _ _ _ Hown Hi) as (b & Hb & Ho). unfold box. rewrite Hb.
    by destruct b; cbn in Ho; [f_equal|..].
  - rewrite list_lookup_fmap in Hi. by destruct (ds !! _).
Qed.
(** ** The tasks *)

Lemma invoke_vchi_callback_vchi call : evolves vchi_step (invoke_vchi_callback call : M W unit).
Proof.
  unfold invoke_vchi_callback. evolves_step; [by apply upd_vchi_vchi|].
  intros w u w'. unfold get_client. rewrite bind_gets. intros (boxes & w1 & E1 & E)%bind_Ret_inv.
  unfold lift in E1. destruct (app_callback _ _ _ _) as [bs| | |] eqn:Ea; try done. injection E1 as -> <-.
  unfold upd_client, modify in E. injection E as _ <-.
  apply app_vchi_step. split; [done..|]. exists boxes, []. rewrite app_nil_r. split; [done|].
  by eapply app_keeps.
Qed.

Lemma handle_completion_vchi c : evolves vchi_step (handle_completion c : M W unit).
Proof.
  unfold handle_completion, get_client, get_vchi. evolves_solve;
    first [ apply services_read_vchi | apply services_done_vchi | apply invoke_vchi | apply invoke_vchi_callback_vchi ].
Qed.

Lemma completion_handler_vchi : evolves vchi_step (completion_handler : M W bool).
Proof.
  unfold completion_handler. evolves_step.
  - intros w r w' E. by destruct (poll_evolves vchi_step _ (await_completion_vchi 8) _ _ _ E).
  - evolves_solve. induction a as [|c cs IH]; cbn [handle_completions]; [auto with evolves typeclass_instances|].
    evolves_step; [apply handle_completion_vchi|exact IH].
Qed.

(** ** Programs and actions *)

(** One step of an application: an operation of [vchi::Instance], or something with its own data.
    [sends] says what the applications send. *)
Inductive vchi_call `{R : OpenPayloadRepr} (sends : list Z -> Prop) : forall {A}, Async W A -> Prop :=
| call_initialize : vchi_call sends (astep Vchi_initialize)
| call_connect : vchi_call sends Vchi_connect
| call_open setup : vchi_call sends (service_open setup)
| call_close h : vchi_call sends (service_close h)
| call_queue fuel h data : sends data -> vchi_call sends (astep (Vchi_queue_message fuel h data))
| call_dequeue h n : vchi_call sends (Vchi_dequeue_message h n)
| call_own {A} (m : M W A) : evolves app_frame m -> vchi_call sends (astep m)
| call_wait {A} (p : M W (option A)) : evolves app_frame p -> vchi_call sends (Await p Done).

(** Any program made of such steps: what it does next may depend on the results so far. *)
Inductive vchi_program `{R : OpenPayloadRepr} (sends : list Z -> Prop) : forall {A}, Async W A -> Prop :=
| prog_done {A} (a : A) : vchi_program sends (Done a)
| prog_call {A} (f : Async W A) : vchi_call sends f -> vchi_program sends f
| prog_then {A B} (f : Async W A) (k : A -> Async W B) :
    vchi_program sends f -> (forall a, vchi_program sends (k a)) -> vchi_program sends (abind f k).

(** What happens by itself: the two tasks run, and the VideoCore writes to the shared memory as [writes]
    says. *)
Inductive vchi_action (writes : mem -> mem -> Prop) : M W unit -> Prop :=
| act_slot_handler fuel locked : vchi_action writes (slot_handler fuel locked)
| act_completion_handler : vchi_action writes (let* _ := completion_handler in ret tt)
| act_memory (g : mem -> mem) : (forall m, writes m (g m)) ->
    vchi_action writes (modify (fun w => w <| w_hw ::= fun hw => hw <| hw_mem ::= g |> |>)).

Lemma vchi_call_does `{R : OpenPayloadRepr} sends {A} (f : Async W A) : vchi_call sends f -> adoes vchi_step vchi_ok f any_result.
Proof.
  intros [].
  - apply adoes_evolves, aevolves_astep. unfold Vchi_initialize, get_vchi. evolves_solve. by apply upd_vchi_vchi.
  - apply adoes_evolves, Vchi_connect_vchi.
  - apply service_open_vchi.
  - apply adoes_evolves, service_close_vchi.
  - apply adoes_evolves, aevolves_astep, Vchi_queue_message_vchi.
  - apply Vchi_dequeue_message_vchi.
  - apply adoes_evolves, aevolves_astep. by eapply evolves_mono; [apply app_vchi_step|].
  - apply adoes_evolves. split; [|done]. by eapply evolves_mono; [apply app_vchi_step|].
Qed.

Lemma vchi_program_does `{R : OpenPayloadRepr} sends {A} (f : Async W A) :
  vchi_program sends f -> adoes vchi_step vchi_ok f (fun _ => vchi_ok).
Proof.
  induction 1 as [A a|A f Hf|A B f k _ IHf _ IHk].
  - by intros w Hw.
  - eapply adoes_conseq; [|eapply adoes_pre; [|apply (adoes_frame _ vchi_ok vchi_ok f _ stable_ok (vchi_call_does sends f Hf))]].
    + by intros a w [_ ?].
    + by intros w Hw.
  - by eapply adoes_abind.
Qed.

Lemma vchi_action_vchi writes m : vchi_action writes m -> evolves vchi_step m.
Proof.
  intros [fuel locked| |g _].
  - apply (slot_handler_evolves vchi_step). intros cb message h. apply invoke_vchi.
  - evolves_step; [apply completion_handler_vchi|]. auto with evolves typeclass_instances.
  - apply (memory_evolves vchi_step).
Qed.

Definition vchi_system_step `{R : OpenPayloadRepr} (sends : list Z -> Prop) (writes : mem -> mem -> Prop) :
    system (S := W) -> system -> Prop :=
  sys_step (vchi_program sends) (vchi_action writes).

Lemma vchi_reachable `{R : OpenPayloadRepr} sends writes w s :
  vchi_ok w -> rtc (vchi_system_step sends writes) ([], w) s -> vchi_evolves w s.2.
Proof.
  intros Hw Hs. refine (reachable_evolves vchi_step (vchi_program sends) (vchi_action writes)
    (vchi_action_vchi writes) vchi_ok stable_ok _ w s Hw Hs Hw).
  intros f Hf. eapply adoes_conseq; [|by apply (vchi_program_does sends)]. done.
Qed.

(** ** From the start *)

Lemma Vchi_Instance_new_ok {P : Platform} {PL : PlatformLaws P} next hw w :
  Vchi_Instance_new next VCHIQ_MAX_SERVICES hw = Ret w -> vchi_ok w.
Proof.
  unfold Vchi_Instance_new. destruct (Instance_new _ _ _) as [[w1|]| | |] eqn:E; try done. intros [= ->].
  apply Instance_new_world in E as [Hf Hc]. split; [apply Hf| |].
  - intros l s Hl. by rewrite (fresh_heap _ Hf) in Hl.
  - split; unfold box, vchi_of; rewrite Hc; try done.
    intros i c Hi. cbn -[MAX_COMPLETIONS] in Hi. by apply lookup_replicate in Hi as [? _].
Qed.

(** C19: user data and handles stay what they are taken for, in the whole program.  Let any number of
    applications run, each of which calls the operations of [vchi::Instance] one after the other and
    works on its own data, while the slot handler, the completion handler and the VideoCore act at
    any time.  In every state reached, boxes of user data are still of the type they were made with,
    and a box with a handle still has that handle; services changed along their life cycle only; and
    the state is again in order: the registry of services is, each service has a record of the type
    it is downcast to, each record and each completion names a box with a handle, and each entry of
    the map is for a service that exists and leaves callbacks to the VCHI layer. *)
Theorem vchi_always_ok `{R : OpenPayloadRepr} (sends : list Z -> Prop) (writes : mem -> mem -> Prop)
    (w : W) (s : system) :
  vchi_ok w -> rtc (vchi_system_step sends writes) ([], w) s ->
  vchi_ok s.2 /\ boxes_kept w s.2 /\ heap_evolves (w_heap w) (w_heap s.2).
Proof. intros Hw Hs. by destruct (vchi_reachable sends writes w s Hw Hs). Qed.

(** C2: the lookups of the program succeed in every state it reaches from [Instance::new].  The user
    data of a service is always the record VCHIQ made for it, so that the downcasts in
    [service_callback] and [dequeue_message] do not panic; the user data of a completion is always a
    handle, so that the downcast in the completion handler does not; and the VCHIQ handle of an entry
    of the map always finds its service. *)
Theorem vchi_lookups_succeed `{R : OpenPayloadRepr} {P : Platform} {PL : PlatformLaws P}
    (sends : list Z -> Prop) (writes : mem -> mem -> Prop) (next : Z) (hw : Hw) (w : W) (s : system) :
  Vchi_Instance_new next VCHIQ_MAX_SERVICES hw = Ret w -> rtc (vchi_system_step sends writes) ([], w) s ->
  let w' := s.2 in
  (forall l svc, w_heap w' !! l = Some svc ->
     exists i u, userdata (base svc) = Some i /\ get_user i w' = Ret (u, w') /\ is_vchi u = true) /\
  (forall i c, completions (completion (w_client w')) !! i = Some (Some c) ->
     exists ud h, service_userdata c = Some ud /\ user_data (w_client w') !! ud = Some (AnyServiceHandle h)) /\
  (forall h vs, vchi_services (vchi_of w') !! h = Some vs ->
     exists l svc, service_from_handle (vs_handle vs) w' = Ret (Ok l, w') /\ w_heap w' !! l = Some svc /\
       handle svc = vs_handle vs).
Proof.
  intros Hw Hs w'. apply Vchi_Instance_new_ok in Hw. destruct (vchi_reachable sends writes w s Hw Hs) as [Hok _ _].
  fold w' in Hok. pose proof (ok_client _ Hok) as [Hu Hc Hm]. split_and!.
  - intros l svc Hl. destruct (ok_services _ Hok l svc Hl) as (i & Hi & u & Hb). exists i, u.
    split; [done|]. split; [by apply get_user_Ret|by apply (Hu i u)].
  - intros i c Hi. destruct (Hc i c Hi) as (ud & Eud & h & Hh). by exists ud, h.
  - intros h vs Hvs. destruct (Hm h vs Hvs) as [[H1 H2] _]. pose proof (ok_reg _ Hok) as Hr.
    destruct (lookup_lt_is_Some_2 (w_heap w') (Z.to_nat (vs_handle vs - VCHIQ_MAX_SERVICES))) as [svc Hsvc]; [lia|].
    destruct (inv_heap _ Hr _ _ Hsvc) as (_ & Eh & _).
    assert (handle svc = vs_handle vs) as E by (rewrite Eh; lia). rewrite <- E.
    eexists _, svc. split; [by apply by_handle|done].
Qed.
End vchisystem.
