(* ===== verification/Ownership.v ===== *)
(** Who writes where.  The shared memory has two owners: the program writes messages to the slots of this
    side, behind the last message it sent, and two words of the control block; everything else is
    the VideoCore's or nobody's.  The whole program keeps to this, in any interleaving. *)

From stdpp Require Import relations.
From S2P Require Import Prelude Locks Memory Layout Types SlotMessage Event SlotZero Slot Service.
From S2P Require Import State SlotHandler Completion Instance Registry Concurrency Stream Transmit Boot.
From S2P Require Import Queues Vchi VchiOk VchiSystem.

(** ** Changes that leave the transmit side alone *)

(** Walks down an operation; what is left to show is that updates are of fields that are not named in
    [tx_frame]. *)
Ltac txf_modify :=
  unfold upd_state, upd_slot, upd_quota, upd_service_quota, upd_client;
  apply evolves_modify; intros; split; reflexivity.
Ltac txf :=
  unfold get_srv, get_slot, get_quota, get_mem, get_client, get_vchi, upd_quota, upd_service_quota;
  evolves_solve; try txf_modify.


Section frame.
Context {L : LockLib} {CB : Callbacks} {C : Type}.
Implicit Types w : World C.

Record tx_frame w w' : Prop := {
  same_slots : slot_data (slot_state (w_state w')) = slot_data (slot_state (w_state w));
  same_zero : slot_zero (slot_state (w_state w')) = slot_zero (slot_state (w_state w));
  same_pos : local_tx_pos (slot_state (w_state w')) = local_tx_pos (slot_state (w_state w));
  same_last : tx_data (slot_state (w_state w')) = tx_data (slot_state (w_state w));
  same_available : slot_queue_available (w_state w') = slot_queue_available (w_state w);
  same_hw : w_hw w' = w_hw w;
}.
#[export] Instance tx_frame_preorder : PreOrder tx_frame.
Proof. split; [done|]. intros w1 w2 w3 [? ? ? ? ? ?] [? ? ? ? ? ?]. split; congruence. Qed.

Lemma client_tx_frame w w' : client_frame w w' -> tx_frame w w'.
Proof. intros [Hs _ Hh _]. by split; rewrite ?Hs. Qed.

Lemma get_service_txf l : evolves tx_frame (get_service l : M (World C) _).
Proof. by intros w s w' [_ ->]%get_service_inv. Qed.

Lemma upd_service_txf l f : evolves tx_frame (upd_service l f : M (World C) unit).
Proof. by intros w u w' (s & _ & ->)%upd_service_inv. Qed.
#[local] Hint Resolve get_service_txf upd_service_txf : evolves.

Lemma service_from_handle_txf h : evolves tx_frame (service_from_handle h : M (World C) _).
Proof. unfold service_from_handle. txf. Qed.

Lemma service_by_port_txf p : evolves tx_frame (service_by_port p : M (World C) _).
Proof. unfold service_by_port. txf. Qed.

Lemma unwrap_result_txf {A} (r : VchiqResult A) : evolves tx_frame (unwrap_result r : M (World C) A).
Proof. unfold unwrap_result. txf. Qed.
#[local] Hint Resolve service_from_handle_txf service_by_port_txf unwrap_result_txf : evolves.

(** *** Of the central state *)

Lemma add_service_txf params st : evolves tx_frame (add_service params st : M (World C) _).
Proof. unfold add_service. txf. Qed.

Lemma wait_data_quota_txf fuel stride tx_end :
  evolves tx_frame (wait_data_quota fuel stride tx_end : M (World C) _).
Proof. revert tx_end. induction fuel as [|fuel IH]; intros tx_end; cbn [wait_data_quota]; unfold down; txf. Qed.

Lemma wait_service_quota_txf fuel l stride tx_end :
  evolves tx_frame (wait_service_quota fuel l stride tx_end : M (World C) _).
Proof. revert tx_end. induction fuel as [|fuel IH]; intros tx_end; cbn [wait_service_quota]; unfold down; txf. Qed.
#[local] Hint Resolve wait_data_quota_txf wait_service_quota_txf : evolves.

Lemma check_data_message_txf fuel service stride :
  evolves tx_frame (check_data_message fuel service stride : M (World C) _).
Proof. unfold check_data_message. txf. Qed.

Lemma free_service_txf l : evolves tx_frame (free_service l : M (World C) _).
Proof. unfold free_service, up_remove_event. txf. Qed.
#[local] Hint Resolve free_service_txf : evolves.

Lemma close_service_complete_txf l st : evolves tx_frame (close_service_complete l st : M (World C) _).
Proof. unfold close_service_complete, up_remove_event. txf. Qed.

Lemma try_down_remove_event_txf l : evolves tx_frame (try_down_remove_event l : M (World C) bool).
Proof. unfold try_down_remove_event. txf. Qed.
#[local] Hint Resolve close_service_complete_txf try_down_remove_event_txf : evolves.

(** *** Of the slot handler *)

Context {H : CallbackHost C} {HL : CallbackLaws C}.

Lemma invoke_callback_txf cb reason message h : evolves tx_frame (invoke_callback cb reason message h).
Proof. eapply evolves_mono; [apply client_tx_frame|apply invoke_frame]. Qed.
#[local] Hint Resolve invoke_callback_txf : evolves.

Lemma dispatch_txf t l rp message : evolves tx_frame (dispatch t l rp message : M (World C) unit).
Proof. unfold dispatch, handle_connect, handle_openack, handle_close, handle_data, up_remove_event. txf. Qed.

Lemma handle_message_txf tx : evolves tx_frame (handle_message tx : M (World C) unit).
Proof.
  unfold handle_message, message_service, current_rx. txf; [apply dispatch_txf|].
  unfold advance_rx. apply evolves_modify. intros w. split; cbn; by repeat case_match.
Qed.

Lemma slot_handler_txf fuel locked : evolves tx_frame (slot_handler fuel locked : M (World C) unit).
Proof.
  unfold slot_handler. txf. generalize (tx_pos (remote (slot_zero a)) a0). intros tx.
  induction fuel as [|fuel IH]; cbn [handle_messages]; txf. apply handle_message_txf.
Qed.
End frame.

(** ** What the program owns *)

(** The longest payload that fits in a slot. *)
Definition max_payload : Z := VCHIQ_SLOT_SIZE - header_size.
Definition fits_slot (d : list Z) : Prop := Z.of_nat (length d) <= max_payload.

Section owned.
Context {L : LockLib} {CB : Callbacks} {C : Type}.
Implicit Types w : World C.
Context (a : Area).

(** Where the last message sent begins, on the linear range of positions. *)
Definition last_sent (w : World C) : Z :=
  match tx_data (slot_state (w_state w)) with
  | Some p => (pos_index p - area_first a) * VCHIQ_SLOT_SIZE + pos_offset p
  | None => 0
  end.

(** What may still be written: the slots of this side from the last message on, whose header a
    padding message may replace; [fired] of the trigger event of the VideoCore; and [tx_pos] of this
    side. *)
Definition owned (w : World C) (x : Z) : Prop :=
  area_addr a (last_sent w) <= x < area_addr a (area_count a * VCHIQ_SLOT_SIZE) \/
  area_base a + 52 <= x < area_base a + 56 \/
  area_base a + 432 <= x < area_base a + 436.

(** The transmit side is in order. *)
Record tx_ok (w : World C) : Prop := {
  tx_ok_area : area_ok a;
  tx_ok_slots : tx_area a w;
  tx_ok_at : exists st, tx_at a (local_tx_pos (slot_state (w_state w))) st w /\
    forall p, st = Some p -> p mod 8 = 0;
}.

Lemma last_sent_at tx st w : tx_at a tx st w -> last_sent w = default 0 st.
Proof.
  intros [_ _ Hd _]. unfold last_sent. rewrite Hd. destruct st as [st|]; [|done]. cbn.
  change VCHIQ_SLOT_SIZE with 4096. pose proof (Z.div_mod st 4096). lia.
Qed.

Context (theirs : Z -> Prop).

(** What the program does to the memory; what others do there is not looked at. *)
Record tx_evolves (w w' : World C) : Prop := {
  evolves_tx_ok : tx_ok w';
  evolves_pos : local_tx_pos (slot_state (w_state w)) <= local_tx_pos (slot_state (w_state w'));
  evolves_last : last_sent w <= last_sent w';
  evolves_mem : forall x, ~ theirs x -> ~ owned w x -> hw_mem (w_hw w') x = hw_mem (w_hw w) x;
}.
Definition tx_step (w w' : World C) : Prop := tx_ok w -> tx_evolves w w'.

#[export] Instance tx_step_preorder : PreOrder tx_step.
Proof.
  split; [by intros w Hw|]. intros w1 w2 w3 H1 H2 Hw. destruct (H1 Hw) as [Hw2 Hp1 Hl1 Hm1].
  destruct (H2 Hw2) as [Hw3 Hp2 Hl2 Hm2]. split; [done|lia|lia|]. intros x Ht Hx. rewrite Hm2; [by apply Hm1|done|].
  intros [Ho|Ho]; apply Hx; [left|by right]. unfold area_addr in *. lia.
Qed.

Lemma tx_frame_step w w' : tx_frame w w' -> tx_step w w'.
Proof.
  intros [E1 E2 E3 E4 E5 E6] [Hok [] (st & [] & Hst)].
  assert (last_sent w' = last_sent w) as El by (unfold last_sent; by rewrite E4).
  split; [|by rewrite E3|by rewrite El|by rewrite E6].
  split; [done|split; rewrite ?E1, ?E2, ?E5, ?E6; done|].
  exists st. split; [|done]. split; rewrite ?E3, ?E4; done.
Qed.

Lemma txf_evolves {A} (m : M (World C) A) : evolves tx_frame m -> evolves tx_step m.
Proof. apply evolves_mono, tx_frame_step. Qed.

(** ** Sending a message *)

Lemma fill_message_length service heap t id cx tx_end q h m p msg q' :
  let n := match cx with Some cx => Z.of_nat (length cx) | None => 0 end in
  fill_message service heap t id cx n tx_end q (mkMessage h (read_bytes m p (Z.to_nat n))) = Ret (msg, q') ->
  Z.of_nat (length (data msg)) = n.
Proof.
  intros n E. unfold fill_message in E. unfold n. destruct cx; repeat case_match; by simplify_eq.
Qed.

Lemma publish_service service t w u w' :
  publish service t w = Ret (u, w') -> forall l, service = Some l -> t = CLOSE -> is_Some (w_heap w !! l).
Proof.
  unfold publish, get_slot. rewrite bind_gets. intros ([] & w1 & E1 & E)%bind_Ret_inv l -> ->.
  apply bind_Ret_inv in E as ([] & w2 & E2 & _). rewrite decide_True in E2 by done.
  apply upd_service_inv in E2 as (s & Hs & _). injection E1 as <-. by exists s.
Qed.

Lemma queue_message_rest_inv tx st w service t id cx b r w' :
  area_ok a -> tx_area a w -> tx_at a tx st w -> fits_slot (default [] cx) ->
  queue_message_rest service t id cx b w = Ret (r, w') ->
  exists msg q', length (data msg) = length (default [] cx) /\
    let start := alloc_start tx (stride msg) in
    start < area_count a * 4096 /\
    tx_at a (start + stride msg) (Some start) w' /\ tx_area a w' /\
    published (area_base a) (start + stride msg)
      (with_quota (tx_write a start msg (reserved a tx (stride msg) st w)) q') w'.
Proof.
  intros Hok Ha Hat Hd. unfold queue_message_rest. cbv zeta.
  assert (match cx with Some cx => Z.of_nat (length cx) | None => 0 end = Z.of_nat (length (default [] cx))) as Hn
    by by destruct cx.
  unfold fits_slot, max_payload in Hd. change (VCHIQ_SLOT_SIZE - header_size) with 4088 in Hd.
  set (n := match cx with Some cx => Z.of_nat (length cx) | None => 0 end) in *. rewrite <- Hn in Hd.
  assert (0 < calc_msg_stride n <= 4096 /\ calc_msg_stride n mod 8 = 0) as [Hs Hs8]
    by (rewrite calc_msg_stride_val by lia; zdiv).
  pose proof (slot_reservable _ st Hs) as Hres. pose proof Hat as [_ [Hr Hal] _ _].
  destruct (Z.lt_ge_cases (alloc_start tx (calc_msg_stride n)) (area_count a * 4096)) as [Hlt|Hge].
  2: { unfold bind_try, bind at 1. erewrite reserve_space_full; try done. apply alloc_start_full; lia. }
  erewrite bind_try_Ok by by eapply reserve_space_Ok. set (start := alloc_start tx (calc_msg_stride n)) in *.
  pose proof (reserved_area a tx st w _ Hok Ha Hat Hres) as Ha1.
  pose proof (reserved_at a tx st w _ Hok Hat Hs Hs8 Hlt) as Hat1.
  set (w1 := reserved a tx (calc_msg_stride n) st w) in *.
  pose proof (alloc_start_bounds tx (calc_msg_stride n) ltac:(lia) Hal) as [Hst _]. fold start in Hst, Hat1.
  unfold get_slot. rewrite !bind_gets. intros ([] & w2 & E2 & E)%bind_Ret_inv.
  apply bind_Ret_inv in E as ([] & w3 & E3 & E). injection E as _ <-.
  apply store_inv in E2 as (msg & q' & Ef & ->). apply fill_message_length in Ef. fold n in Ef.
  rewrite (area_pos_ptr _ a) in E3 by apply (tx_slots _ _ Ha1).
  exists msg, q'. split; [lia|]. cbv zeta. unfold stride. rewrite Ef. fold start w1.
  set (w2 := with_quota (tx_write a start msg w1) q').
  assert (tx_area a w2) as Ha2.
  { assert (tx_area a (tx_write a start msg w1)) as [] by (apply tx_area_write; done || lia). by split. }
  destruct (publish_Ret a w2 service t Ha2 Hok) as (w4 & E4 & Hp & _).
  { rewrite (at_pos _ _ _ _ Hat1 : local_tx_pos (slot_state (w_state w2)) = _).
    pose proof (at_range _ _ _ _ Hat1). pose proof Hok as (_ & _ & ? & _). lia. }
  { by eapply publish_service. }
  change (publish service t w2 = Ret (tt, w3)) in E3. rewrite E4 in E3. injection E3 as ->.
  split; [done|]. split; [|split; [by eapply published_area|done]].
  destruct Hat1 as [H1 H2 H3 H4]. split; rewrite ?(pub_state _ _ _ _ Hp); done.
Qed.

(** Sending a message that fits in a slot keeps to what the program owns. *)
Lemma queue_message_rest_step service t id cx b :
  fits_slot (default [] cx) -> evolves tx_step (queue_message_rest service t id cx b : M (World C) _).
Proof.
  intros Hd w r w' E [Hok Ha (st & Hat & Hst8)].
  destruct (queue_message_rest_inv _ st w service t id cx b r w' Hok Ha Hat Hd E)
    as (msg & q' & Hlen & Hlt & Hat' & Ha' & Hp).
  set (tx := local_tx_pos (slot_state (w_state w))) in *.
  set (start := alloc_start tx (stride msg)) in *. pose proof Hat as [_ [Hr Hal] _ Hl].
  unfold fits_slot, max_payload in Hd. change (VCHIQ_SLOT_SIZE - header_size) with 4088 in Hd.
  assert (8 + Z.of_nat (length (data msg)) <= stride msg <= 4096 /\ stride msg mod 8 = 0) as [Hs Hs8]
    by (unfold stride; rewrite calc_msg_stride_val by lia; zdiv).
  pose proof (alloc_start_spec tx (stride msg) ltac:(lia) Hal ltac:(lia)) as (Hst & Hst8' & _).
  fold start in Hst, Hst8'. pose proof (at_range _ _ _ _ Hat') as [Hr' _].
  pose proof (last_sent_at _ _ _ Hat) as El. pose proof (last_sent_at _ _ _ Hat') as El'. cbn in El'.
  assert (last_sent w <= start /\ forall p, st = Some p -> 0 <= p <= tx - 8) as [Hls Hpad].
  { rewrite El. destruct st as [p|]; cbn; [|split; [lia|done]]. pose proof (Hst8 p eq_refl). split; [lia|]. intros ? [= <-]. zdiv. }
  split.
  - split; [done|done|]. rewrite (at_pos _ _ _ _ Hat'). exists (Some start). split; [done|]. by intros p [= <-].
  - rewrite (at_pos _ _ _ _ Hat'). fold tx. lia.
  - lia.
  - intros x _ Hx. unfold owned in Hx. change VCHIQ_SLOT_SIZE with 4096 in Hx.
    rewrite (pub_words _ _ _ _ Hp) by tauto.
    transitivity (pad a tx (stride msg) st (hw_mem (w_hw w)) x).
    + apply (write_message_agree _ _ _ x 1); [|lia]. unfold area_addr in *. lia.
    + unfold pad. destruct st as [p|]; [|done]. destruct (_ <? _); [|done].
      pose proof (Hpad p eq_refl). rewrite El in Hx. cbn in Hx.
      apply (write_message_agree _ _ _ x 1); [|lia]. cbn [data padding length]. unfold area_addr in *. lia.
Qed.

Lemma queue_message_tx fuel service id cx b :
  fits_slot (default [] cx) -> evolves tx_step (queue_message fuel service id cx b : M (World C) _).
Proof.
  intros Hd. unfold queue_message. evolves_solve.
  - apply txf_evolves, check_data_message_txf.
  - by apply queue_message_rest_step.
Qed.

(** ** The operations *)

#[local] Hint Resolve txf_evolves get_service_txf upd_service_txf service_from_handle_txf service_by_port_txf
  unwrap_result_txf free_service_txf try_down_remove_event_txf add_service_txf : evolves.

Lemma queue_control_tx service id b : evolves tx_step (queue_message 0 service id None b : M (World C) _).
Proof. by apply queue_message_tx. Qed.
#[local] Hint Resolve queue_control_tx : evolves.

Lemma set_conn_state_txf c : evolves tx_frame (set_conn_state c : M (World C) unit).
Proof. unfold set_conn_state. txf_modify. Qed.

Lemma State_connect_tx : aevolves tx_step (State_connect : Async (World C) _).
Proof.
  pose proof (fun c => txf_evolves _ (set_conn_state_txf c)) as Hset.
  split; [unfold connect_start; evolves_solve|]. intros [[]|e]; cbn; [|done..].
  split; [apply txf_evolves; unfold poll_connect; txf|]. intros _. by split.
Qed.

Lemma open_service_tx `{R : OpenPayloadRepr} h : aevolves tx_step (open_service h : Async (World C) _).
Proof.
  split.
  - unfold open_start. evolves_solve. apply queue_message_tx. unfold fits_slot. cbn. rewrite open_payload_size.
    by vm_compute.
  - intros [[]|e]; cbn; [|done]. split; [|done]. apply txf_evolves. unfold poll_open. txf.
Qed.

Lemma close_service_tx h : aevolves tx_step (close_service h : Async (World C) _).
Proof.
  split.
  - unfold close_start, close_service_internal, queue_close. evolves_solve.
  - intros [[]|e]; cbn; [|done]. split; [|done]. apply txf_evolves. unfold poll_close. txf.
Qed.

(** The VideoCore keeps to its own memory, which the slot queue of this side is not part of. *)
Definition vc_writes (m m' : mem) : Prop := forall x, ~ theirs x -> m' x = m x.

Lemma vc_writes_tx (g : mem -> mem) :
  (forall x, area_base a + 476 <= x < area_base a + 732 -> ~ theirs x) -> (forall m, vc_writes m (g m)) ->
  evolves tx_step (modify (fun w => w <| w_hw ::= fun hw => hw <| hw_mem ::= g |> |>) : M (World C) unit).
Proof.
  intros Hq Hg. apply evolves_modify. intros w [Hok Ha (st & Hat & Hst)]. split; [|done|done|].
  - split; [done| |].
    + apply (tx_area_mem a w _ Hok Ha). intros x Hx. apply Hg, Hq. lia.
    + exists st. split; [|done]. by destruct Hat.
  - intros x Ht _. by apply Hg.
Qed.
End owned.

(** ** The whole program *)

Section program.
Context {L : LockLib} {LL : LockLaws L} {RW : RwLib} {RWL : RwLaws RW} {VC : Type} {App : AppCallbacks L VC}.
Context {AL : AppLaws}.
Notation W := (World (Client (Vchi VC))).
Context (a : Area) (theirs : Z -> Prop).
Notation tx_step := (tx_step a theirs).

Lemma upd_vchi_txf f : evolves tx_frame (upd_vchi f : M W unit).
Proof. by apply evolves_modify. Qed.
Lemma upd_client_txf f : evolves tx_frame (upd_client f : M W unit).
Proof. by apply evolves_modify. Qed.
#[local] Hint Resolve upd_vchi_txf upd_client_txf get_service_txf service_from_handle_txf unwrap_result_txf
  add_service_txf : evolves.

Lemma get_user_txf i : evolves tx_frame (get_user i : M W _).
Proof. unfold get_user. txf. Qed.
Lemma set_user_txf i u : evolves tx_frame (set_user i u : M W unit).
Proof. unfold set_user. txf. Qed.
Lemma UserData_new_txf b : evolves tx_frame (UserData_new b : M W nat).
Proof. unfold UserData_new. txf. Qed.
#[local] Hint Resolve get_user_txf set_user_txf UserData_new_txf : evolves.

Lemma services_read_txf : evolves tx_frame (services_read : M W unit).
Proof. unfold services_read. txf. Qed.
Lemma services_write_txf : evolves tx_frame (services_write : M W unit).
Proof. unfold services_write. txf. Qed.
Lemma services_read_done_txf : evolves tx_frame (services_read_done : M W unit).
Proof. unfold services_read_done. txf. Qed.
Lemma services_write_done_txf : evolves tx_frame (services_write_done : M W unit).
Proof. unfold services_write_done. txf. Qed.
Lemma find_service_txf h : evolves tx_frame (find_service h : M W _).
Proof. unfold find_service. txf. Qed.
#[local] Hint Resolve services_read_txf services_write_txf services_read_done_txf services_write_done_txf
  find_service_txf txf_evolves : evolves.

(** What an [async fn] does between two suspensions, if it sends nothing. *)
Lemma astep_tx {A} (m : M W A) : evolves tx_frame m -> aevolves tx_step (astep m).
Proof. intros Hm. by apply aevolves_astep, txf_evolves. Qed.

(** Walks down an [async fn]. *)
Ltac tx_async :=
  repeat match goal with
  | |- aevolves _ (abind_try _ _) => apply aevolves_abind_try; [|intros ?]
  | |- aevolves _ (abind _ _) => apply aevolves_abind; [|intros ?]
  | |- aevolves _ (Done _) => exact I
  | |- aevolves _ (match ?x with _ => _ end) => destruct x
  | |- aevolves _ (let _ := _ in _) => cbv zeta
  | |- aevolves _ (astep _) => apply astep_tx; solve [txf]
  end.

Lemma create_service_tx `{R : OpenPayloadRepr} params open vchi :
  aevolves tx_step (create_service params open vchi : Async W _).
Proof. unfold create_service. tx_async. apply open_service_tx. Qed.

Lemma Instance_connect_tx : aevolves tx_step (Instance_connect : Async W _).
Proof. unfold Instance_connect. tx_async. apply State_connect_tx. Qed.

Lemma dequeue_message_tx {T} (try_into : SlotMessage -> VchiqResult T) h :
  aevolves tx_step (dequeue_message try_into h : Async W _).
Proof.
  unfold dequeue_message. tx_async.
  - split; [|done]. apply txf_evolves. unfold poll_dequeue. txf.
  - apply astep_tx. unfold take_message. txf.
Qed.

Lemma await_completion_tx count : aevolves tx_step (await_completion count : Async W _).
Proof.
  unfold await_completion. tx_async.
  - split; [|done]. apply txf_evolves. unfold poll_completion. txf.
  - apply astep_tx. unfold collect_completions. txf.
Qed.

Lemma Vchi_connect_tx : aevolves tx_step (Vchi_connect : Async W _).
Proof. unfold Vchi_connect. tx_async. apply Instance_connect_tx. Qed.

Lemma Vchi_create_service_tx `{R : OpenPayloadRepr} params cb open :
  aevolves tx_step (Vchi_create_service params cb open : Async W _).
Proof. unfold Vchi_create_service. tx_async. apply create_service_tx. Qed.

Lemma service_close_tx h : aevolves tx_step (service_close h : Async W _).
Proof. unfold service_close. tx_async. apply close_service_tx. Qed.

Lemma Vchi_dequeue_message_tx h n : aevolves tx_step (Vchi_dequeue_message h n : Async W _).
Proof. unfold Vchi_dequeue_message. tx_async. apply dequeue_message_tx. Qed.

Lemma Vchi_queue_message_tx fuel h data :
  fits_slot data -> evolves tx_step (Vchi_queue_message fuel h data : M W _).
Proof.
  intros Hd. unfold Vchi_queue_message, Instance_queue_message. evolves_solve. by apply queue_message_tx.
Qed.

(** *** The tasks *)

Lemma invoke_vchi_callback_txf call : evolves tx_frame (invoke_vchi_callback call : M W unit).
Proof. unfold invoke_vchi_callback. txf. Qed.
#[local] Hint Resolve invoke_callback_txf invoke_vchi_callback_txf : evolves.

Lemma handle_completion_txf c : evolves tx_frame (handle_completion c : M W unit).
Proof. unfold handle_completion. txf. Qed.

Lemma completion_handler_tx : evolves tx_step (completion_handler : M W bool).
Proof.
  unfold completion_handler. evolves_step.
  - intros w r w' E. by destruct (poll_evolves tx_step _ (await_completion_tx 8) _ _ _ E).
  - assert (forall cs, evolves tx_frame (handle_completions cs : M W unit)) as Hcs.
    { induction cs as [|c cs IH]; cbn [handle_completions]; txf. apply handle_completion_txf. }
    evolves_solve.
Qed.

Lemma vchi_call_tx `{R : OpenPayloadRepr} {A} (f : Async W A) : vchi_call fits_slot f -> aevolves tx_step f.
Proof.
  assert (forall {A} (m : M W A), evolves app_frame m -> evolves tx_frame m) as Happ.
  { intros B m. apply evolves_mono. intros w w' [Hf _ _ _]. by apply client_tx_frame. }
  intros [].
  - apply astep_tx. unfold Vchi_initialize. txf.
  - apply Vchi_connect_tx.
  - apply Vchi_create_service_tx.
  - apply service_close_tx.
  - by apply aevolves_astep, Vchi_queue_message_tx.
  - apply Vchi_dequeue_message_tx.
  - by apply astep_tx, Happ.
  - split; [|done]. by apply txf_evolves, Happ.
Qed.

Lemma vchi_program_tx `{R : OpenPayloadRepr} {A} (f : Async W A) : vchi_program fits_slot f -> aevolves tx_step f.
Proof. induction 1; [done|by apply vchi_call_tx|by apply aevolves_abind]. Qed.

Lemma vchi_action_tx m :
  (forall x, area_base a + 476 <= x < area_base a + 732 -> ~ theirs x) ->
  vchi_action (vc_writes theirs) m -> evolves tx_step m.
Proof.
  intros Hq [fuel locked| |g Hg].
  - apply txf_evolves, slot_handler_txf.
  - evolves_step; [apply completion_handler_tx|]. auto with evolves typeclass_instances.
  - by apply vc_writes_tx.
Qed.

Lemma later_tx `{R : OpenPayloadRepr} w s s' :
  (forall x, area_base a + 476 <= x < area_base a + 732 -> ~ theirs x) ->
  rtc (vchi_system_step fits_slot (vc_writes theirs)) ([], w) s ->
  rtc (vchi_system_step fits_slot (vc_writes theirs)) s s' -> tx_step s.2 s'.2.
Proof.
  intros Hq. apply (later_evolves tx_step (vchi_program fits_slot) (vchi_action (vc_writes theirs))
    (fun m => vchi_action_tx m Hq) anything); [done| |done].
  intros f Hf. by apply adoes_evolves, vchi_program_tx.
Qed.
End program.

Section start.
Context {L : LockLib} {LL : LockLaws L} {RW : RwLib} {RWL : RwLaws RW} {VC : Type} {App : AppCallbacks L VC}.
Context {AL : AppLaws} {P : Platform} {PL : PlatformLaws P} {R : OpenPayloadRepr}.
Notation W := (World (Client (Vchi VC))).

Lemma fresh_tx_ok {X} (w : World (Client X)) : fresh w -> tx_ok boot_area w.
Proof.
  intros Hf. destruct (fresh_tx _ Hf) as [Hok Ha Hat _ _]. split; [done..|].
  exists None. rewrite (at_pos _ _ _ _ Hat). split; [exact Hat|done].
Qed.

Lemma tx_ok_bounds w : tx_ok boot_area (w : W) ->
  0 <= last_sent boot_area w <= local_tx_pos (slot_state (w_state w)) /\
  local_tx_pos (slot_state (w_state w)) <= 31 * 4096.
Proof.
  intros [_ _ (st & Hat & _)]. rewrite (last_sent_at _ _ _ _ Hat).
  destruct Hat as [_ [Hr _] _ Hl]. change (area_count boot_area) with 31 in Hr. destruct st; cbn in *; lia.
Qed.

(** C3: the program writes only to what it owns.  Let any number of applications run on a new
    instance, of which none sends more than fits in a slot, and let the slot handler, the completion
    handler and the VideoCore act at any time, the VideoCore only on bytes that are [theirs] and not
    on the slot queue of this side.  Then between any two states [s] and [s'] of a run, a byte that is
    not theirs changes only if it is in a slot of this side at or behind the last message sent, or
    in one of two words of the control block; all of these are inside the shared allocation.
    The positions only grow and stay within the slots; and a message before the last one stays in
    memory as it was sent. *)
Theorem memory_discipline (theirs : Z -> Prop) (next : Z) (hw : Hw) (w : W) (s s' : system) :
  (forall x, shared_base + 476 <= x < shared_base + 732 -> ~ theirs x) ->
  Vchi_Instance_new next VCHIQ_MAX_SERVICES hw = Ret w ->
  rtc (vchi_system_step fits_slot (vc_writes theirs)) ([], w) s ->
  rtc (vchi_system_step fits_slot (vc_writes theirs)) s s' ->
  let m := hw_mem (w_hw s.2) in
  let m' := hw_mem (w_hw s'.2) in
  let pos (s : system) := local_tx_pos (slot_state (w_state s.2)) in
  (forall x, ~ theirs x -> ~ owned boot_area s.2 x -> m' x = m x) /\
  (forall x, owned boot_area s.2 x -> shared_base <= x < shared_base + shared_size) /\
  0 <= pos s /\ pos s <= pos s' <= 31 * VCHIQ_SLOT_SIZE /\
  (forall p msg, 0 <= p -> p + header_size + Z.of_nat (length (data msg)) <= last_sent boot_area s.2 ->
     (forall x, area_addr boot_area p <= x < area_addr boot_area (last_sent boot_area s.2) -> ~ theirs x) ->
     message_at m (area_addr boot_area p) msg -> message_at m' (area_addr boot_area p) msg).
Proof.
  intros Hq Hw Hs Hs' m m' pos. change VCHIQ_SLOT_SIZE with 4096.
  assert (tx_ok boot_area w) as Hok.
  { unfold Vchi_Instance_new in Hw. destruct (Instance_new _ _ _) as [[w1|]| | |] eqn:E; try done.
    injection Hw as ->. apply Instance_new_world in E as [Hf _]. by apply fresh_tx_ok. }
  destruct (later_tx boot_area theirs w ([], w) s Hq (rtc_refl _ _) Hs Hok) as [Hok1 _ _ _].
  destruct (later_tx boot_area theirs w s s' Hq Hs Hs' Hok1) as [Hok2 Hpos _ Hm].
  pose proof (tx_ok_bounds _ Hok1) as [? ?]. pose proof (tx_ok_bounds _ Hok2) as [_ ?].
  split_and!; try (unfold pos; lia).
  - exact Hm.
  - intros x. unfold owned, area_addr, shared_size. change VCHIQ_SLOT_SIZE with 4096.
    cbn -[shared_base last_sent]. lia.
  - intros p msg Hp Hl Ht. change header_size with 8 in Hl. apply message_at_agree. intros x Hx.
    assert (area_addr boot_area p <= x < area_addr boot_area (last_sent boot_area s.2)) as Hx'
      by (unfold area_addr in *; lia).
    apply Hm; [by apply Ht|]. unfold owned, area_addr in *. change VCHIQ_SLOT_SIZE with 4096.
    cbn -[shared_base last_sent] in *. lia.
Qed.
End start.
