(* ===== verification/TestProgram.v ===== *)
(** The test program, [src/main.rs]: it connects, opens the service [echo], sends one message, waits
    for the callback and closes the service.  [ping_test_completes] composes all parts of the
    development along this run. *)

From stdpp Require Import gmap.
From S2P Require Import Prelude Locks Memory Layout Types SlotMessage Event SlotZero Slot Service.
From S2P Require Import State SlotHandler Completion Instance Registry Queues Stream Transmit Receive.
From S2P Require Import Connection Delivery Vchi VchiOk Concurrency VchiSystem.

(** ** The program *)

(** The one callback it registers. *)
Inductive TestCallback : Type := vchi_clnt_callback.

Section program.
Context {L : LockLib} {RW : RwLib}.

Definition vchi_clnt_callback_run (ud : option (@UserData instance_callbacks)) (reason : Reason)
    (boxes : list AnyBox) : outcome (list AnyBox) :=
  match ud with
  | Some ud =>
      match boxes !! (ud : nat) with
      | Some (AnyCallbackData callback_data) =>
          match reason with
          | MESSAGE_AVAILABLE =>
              Ret (<[(ud : nat) := AnyCallbackData (callback_data <| reply_event ::= sem_up |>)]> boxes)
          | BULK_TRANSMIT_DONE | BULK_RECEIVE_DONE => Panic PTodo
          | _ => Ret boxes
          end
      | _ => Panic PUnwrap
      end
  | None => Ret boxes
  end.

#[export] Instance test_callbacks : AppCallbacks L TestCallback := fun cb =>
  match cb with vchi_clnt_callback => vchi_clnt_callback_run end.

Notation W := (World (Client (Vchi TestCallback))).

(** [TestParameter], ten [i32] in the order of declaration, and [TestMessage]. *)
Record TestParameter : Type := mkTestParameter {
  tp_magic : Z;
  tp_blocksize : Z;
  tp_iters : Z;
  tp_verify : Z;
  tp_echo : Z;
  tp_align_size : Z;
  tp_client_align : Z;
  tp_server_align : Z;
  tp_client_message_quota : Z;
  tp_server_message_quota : Z;
}.

Definition TestParameter_image (p : TestParameter) : list Z :=
  le_bytes 4 (u32 (tp_magic p)) ++ le_bytes 4 (u32 (tp_blocksize p)) ++ le_bytes 4 (u32 (tp_iters p)) ++
  le_bytes 4 (u32 (tp_verify p)) ++ le_bytes 4 (u32 (tp_echo p)) ++ le_bytes 4 (u32 (tp_align_size p)) ++
  le_bytes 4 (u32 (tp_client_align p)) ++ le_bytes 4 (u32 (tp_server_align p)) ++
  le_bytes 4 (u32 (tp_client_message_quota p)) ++ le_bytes 4 (u32 (tp_server_message_quota p)).

Inductive TestMessage : Type := TmError | TmOneWay | TmAsync | TmSync | TmConfig | TmEcho.
Definition TestMessage_val (t : TestMessage) : Z :=
  match t with TmError => 0 | TmOneWay => 1 | TmAsync => 2 | TmSync => 3 | TmConfig => 4 | TmEcho => 5 end.

Definition test_message : TestParameter := {|
  tp_magic := TestMessage_val TmConfig;
  tp_blocksize := 0;
  tp_iters := 100;
  tp_verify := 1;
  tp_echo := 1;
  tp_align_size := 1;
  tp_client_align := 0;
  tp_server_align := 0;
  tp_client_message_quota := 0;
  tp_server_message_quota := 0;
|}.

(** [callback_param.read()] or [.lock()], with [downcast_ref::<CallbackData>().unwrap()]. *)
Definition get_callback_data (ud : nat) : M W CallbackData :=
  let* c := get_client in
  match user_data c !! ud with
  | Some (AnyCallbackData d) => ret d
  | _ => raise PUnwrap
  end.
Definition set_callback_data (ud : nat) (d : CallbackData) : M W unit :=
  upd_client (fun c => c <| user_data ::= <[ud := AnyCallbackData d]> |>).

(** The closure the test polls: has the callback raised the event? *)
Definition poll_reply (ud : nat) : M W (option unit) :=
  let* d := get_callback_data ud in
  match sem_try_down (reply_event d) with
  | Some e => set_callback_data ud (d <| reply_event := e |>) ;; ret (Some tt)
  | None => ret None
  end.

Definition echo_setup (fourcc : FourCC) (callback_param : nat) : ServiceCreation TestCallback :=
  {| sc_service_id := fourcc; sc_version := 3; sc_version_min := 3;
     sc_callback := Some vchi_clnt_callback; sc_callback_param := Some callback_param;
     sc_rx_fifo_size := 0; sc_tx_fifo_size := 0; sc_want_unaligned_bulk_rx := false;
     sc_want_unaligned_bulk_tx := false; sc_want_crc := false |}.

Definition vchiq_ping_test {R : OpenPayloadRepr} (fuel : nat) (fourcc : FourCC)
  : Async W (VchiqResult unit) :=
  await* callback_param := astep (UserData_new (AnyCallbackData (mkCallbackData None (sem_new 0)))) in
  await? service := service_open (echo_setup fourcc callback_param) in
  await* _ := astep (
    let* d := get_callback_data callback_param in
    set_callback_data callback_param (d <| cd_service := Some service |>)) in
  await? _ := astep (Vchi_queue_message fuel service (TestParameter_image test_message)) in
  await* _ := Await (poll_reply callback_param) Done in
  await? _ := service_close service in
  Done (Ok tt).

(** [test_vchiq] after [Instance::new]; the result of the ping test is only printed. *)
Definition test_vchiq {R : OpenPayloadRepr} (fuel : nat) : Async W (VchiqResult unit) :=
  await* _ := astep Vchi_initialize in
  await* r := Vchi_connect in
  await* _ := astep (unwrap_result r) in
  vchiq_ping_test fuel (FourCC_from [101; 99; 104; 111]).
End program.
#[export] Existing Instance test_callbacks.

(** ** The run *)

Section run.
Context {L : LockLib} {LL : LockLaws L} {RW : RwLib} {RWL : RwLaws RW}.
Notation W := (World (Client (Vchi TestCallback))).
Implicit Types w : W.

(** The callback works on its own box only. *)
#[export] Instance test_laws : AppLaws.
Proof.
  split. intros [] ud r boxes boxes' E.
  pose proof (own_boxes_refl boxes) as Hrefl.
  unfold app_callback, test_callbacks, vchi_clnt_callback_run in E.
  destruct ud as [ud|]; [|by injection E as <-].
  destruct (boxes !! (ud : nat)) as [[| |d]|] eqn:Eb; try done.
  destruct r; try done; injection E as <-; try done.
  rewrite <- (list_insert_id boxes ud _ Eb) at 1. by apply Forall2_insert.
Qed.

Definition with_boxes (w : W) (l : list AnyBox) : W := with_client w ((w_client w) <| user_data := l |>).

Lemma opened_with_boxes k w h vs l s src ud q boxes :
  opened k w h vs l s src ud q -> boxes !! ud = box w ud ->
  opened k (with_boxes w boxes) h vs l s src ud q.
Proof.
  intros [Hl He Hh Hp [[Hi Hs Hst] Ho Hr Hc [Hf (u & Hu & Hur) Hlen]]] Hb.
  split; try done. split; try done.
  - split; [by apply (client_frame_step w)|done|done].
  - split; [done| |done]. exists u. split; [|done]. change (boxes !! ud = Some (AnyServiceUser u)).
    by rewrite Hb.
Qed.

(** The test is a program in the sense of [VchiSystem]: it calls the operations of VCHI and works on
    its own box.  So everything that holds of all programs holds of it, and of many tests at once. *)
Lemma get_callback_data_inv p w d w' :
  get_callback_data p w = Ret (d, w') -> box w p = Some (AnyCallbackData d) /\ w' = w.
Proof.
  unfold get_callback_data, get_client. rewrite bind_gets. fold (box w p).
  destruct (box w p) as [[| |d']|]; try done. by intros [= -> ->].
Qed.

Lemma own_data_app {A} p (k : CallbackData -> M W A) :
  (forall d w, box w p = Some (AnyCallbackData d) -> forall a w', k d w = Ret (a, w') -> app_frame w w') ->
  evolves app_frame (bind (get_callback_data p) k).
Proof. intros Hk w a w' (d & w1 & [Hd ->]%get_callback_data_inv & E)%bind_Ret_inv. by eapply Hk. Qed.

Lemma poll_reply_app p : evolves app_frame (poll_reply p : M W _).
Proof.
  apply own_data_app. intros d w Hd a w'. destruct (sem_try_down _) as [e|]; [|by intros [= _ <-]].
  unfold set_callback_data, upd_client. rewrite bind_modify. intros [= _ <-]. by apply (set_data_app w p d).
Qed.

Lemma test_is_program {R : OpenPayloadRepr} (sends : list Z -> Prop) fuel :
  sends (TestParameter_image test_message) -> vchi_program sends (test_vchiq fuel).
Proof.
  intros Hping.
  assert (forall {A B} (f : Async W (VchiqResult A)) (k : A -> Async W (VchiqResult B)),
    vchi_program sends f -> (forall a, vchi_program sends (k a)) -> vchi_program sends (abind_try f k)) as Htry.
  { intros A B f k Hf Hk. apply prog_then; [done|]. intros [a|e]; [apply Hk|apply prog_done]. }
  unfold test_vchiq, vchiq_ping_test. apply prog_then; [apply prog_call, call_initialize|]. intros [].
  apply prog_then; [apply prog_call, call_connect|]. intros r. apply prog_then.
  { apply prog_call, call_own. unfold unwrap_result. destruct r; auto with evolves typeclass_instances. }
  intros []. apply prog_then; [apply prog_call, call_own, new_data_app|]. intros p.
  apply Htry; [apply prog_call, call_open|]. intros h. apply prog_then.
  { apply prog_call, call_own, own_data_app. intros d w Hd a w' [= _ <-]. by apply (set_data_app w p d). }
  intros []. apply Htry; [by apply prog_call, call_queue|]. intros [].
  apply prog_then; [apply prog_call, call_wait, poll_reply_app|]. intros [].
  apply Htry; [apply prog_call, call_close|]. intros []. apply prog_done.
Qed.

(** *** The answer of the VideoCore, and the callback *)

(** The state while the test waits: the service is open, and nothing was received yet. *)
Record waiting (k : nat) (w : W) (h : ServiceHandle) (vs : VchiService TestCallback) (l : nat) (s : Service)
    (src : Z) (p : nat) (d : CallbackData) : Prop := {
  wait_opened : opened (S k) w h vs l s src (S (S p)) [];
  wait_base : vs_base vs = mkServiceBase (fourcc (vs_base vs)) None (Some p);
  wait_callback : vchi_callback vs = Some vchi_clnt_callback;
  wait_param : box w p = Some (AnyCallbackData d);
  wait_handle : box w (S p) = Some (AnyServiceHandle h);
  wait_user : box w (S (S p)) = Some (AnyServiceUser (ServiceUser_new (Some (S p)) true));
  wait_empty : comp_repr (completion (w_client w)) [] /\ completion_remove (completion (w_client w)) < 2 ^ 63;
  wait_connected : connected (w_client w) = true;
}.

(** What the slot handler and the completion handler do with the answer. *)
Definition answered (src dst : Z) (d : list Z) : M W unit :=
  process (vc_message DATA src dst d) ;;
  let* _ := completion_handler in
  ret tt.

Lemma answered_Ret k w h vs l s src p d ans :
  waiting k w h vs l s src p d ->
  exists w', answered src (localport s) ans w = Ret (tt, w') /\
    opened k w' h vs l s src (S (S p)) [vc_message DATA src (localport s) ans] /\
    box w' p = Some (AnyCallbackData (d <| reply_event ::= sem_up |>)) /\
    called (vchi_of w') = called (vchi_of w) ++ [mkVchiCall vchi_clnt_callback (Some p) MESSAGE_AVAILABLE] /\
    vchi_services (vchi_of w') = vchi_services (vchi_of w) /\
    forall a msgs, tx_stream a msgs w -> tx_stream a msgs w'.
Proof.
  intros [Hop Hb Hcb Hp Hh Hu [Hc Hrm] Hcon]. pose proof Hop as [Hl He Hvh Hpk Hsv].
  set (m := vc_message DATA src (localport s) ans). set (u := ServiceUser_new (Some (S p)) true) in Hu.
  set (w1 := with_service w l (callback_taken s)).
  destruct (receive_first_Ret k w1 (handle s) (S (S p)) u m (serving_taken _ _ _ _ _ _ _ Hsv) Hu eq_refl eq_refl Hc Hrm)
    as (w2 & u' & E2 & Hq2 & [Hf2 Hup2] & Hc2 & Hb2 & Hcon2).
  destruct (process_data_invokes _ w l s src (S (S p)) [] ans w2 Hsv E2 Hf2) as (E3 & Hu3 & Hq3).
  set (w3 := with_service w2 l s) in *.
  assert (vchi_of w3 = vchi_of w) as Hv3 by exact Hup2.
  assert (user_data (w_client w3) = <[S (S p) := AnyServiceUser u']> (user_data (w_client w))) as Hb3 by exact Hb2.
  set (call := mkVchiCall vchi_clnt_callback (Some p : option (@UserData instance_callbacks)) MESSAGE_AVAILABLE).
  set (boxes := <[p := AnyCallbackData (d <| reply_event ::= sem_up |>)]> (user_data (w_client w3))).
  assert (user_data (w_client w3) !! p = Some (AnyCallbackData d)) as Hp3
    by (rewrite Hb3, list_lookup_insert_ne by lia; exact Hp).
  destruct (completion_handler_Ret w3 [mkServiceCompletion MESSAGE_AVAILABLE (Some m) (su_userdata u)] [call] boxes)
    as (w4 & E4 & Hc4 & Hbx & Hcl & Hs4 & Hl4 & Hf4).
  { change (connected (w_client w3)) with (connected (w_client w2)). rewrite Hcon2. exact Hcon. }
  { unfold lock_free. rewrite Hv3. exact Hl. }
  { exact Hc2. }
  { apply Forall2_cons. split; [|constructor]. unfold call_of. cbn.
    assert (user_data (w_client w3) !! S p = Some (AnyServiceHandle h)) as E
      by (rewrite Hb3, list_lookup_insert_ne by lia; exact Hh).
    change (w_client w3) with (w_client w2) in E. rewrite E.
    cbn. rewrite Hv3, He. cbn. rewrite Hcb. cbn. by rewrite Hb. }
  { cbn [run_calls call call_callback call_userdata call_reason].
    unfold app_callback, test_callbacks, vchi_clnt_callback_run. by rewrite Hp3. }
  exists w4. split_and!.
  - unfold answered. fold m. erewrite bind_Ret by exact E3. by erewrite bind_Ret by exact E4.
  - assert (opened k w3 h vs l s src (S (S p)) [m]) as Hop3.
    { destruct Hsv as [_ Ho Hr Hcbk _]. split; [unfold lock_free; by rewrite Hv3|by rewrite Hv3|done|done|].
      split; try done. apply Hq3. exact Hq2. }
    destruct Hop3 as [_ He3 _ _ Hsv3]. split; [done|by rewrite Hs4|done|done|].
    pose proof Hsv3 as [_ _ _ _ [Hfd (u3 & Hu3' & Hur) _]].
    apply (serving_with_queue k k w3 w4 l s src (S (S p)) [m] [m] Hsv3 Hf4). split.
    + by rewrite (client_frame_heap _ _ Hf4), (client_frame_state _ _ Hf4).
    + exists u3. split; [|exact Hur]. rewrite Hbx. unfold boxes. by rewrite list_lookup_insert_ne by lia.
    + apply (ring_length _ _ _ _ Hc4).
  - unfold box. rewrite Hbx. apply list_lookup_insert_eq. by eapply lookup_lt_Some.
  - by rewrite Hcl, Hv3.
  - by rewrite Hs4, Hv3.
  - intros a msgs Hs. apply (client_frame_tx _ _ w3); [done|]. apply with_service_tx.
    apply (client_frame_tx _ _ w1); [done|]. by apply with_service_tx.
Qed.

(** *** The whole run *)

(** A connected client in a state from which the test can run: it can open a service, the slot has
    room for the three messages, no completion waits, and the quotas are not used up. *)
Record can_ping (a : Area) (msgs : list SlotMessage) (w : W) : Prop := {
  ping_open : can_open a msgs w;
  ping_room : 80 <= room (stream_len msgs);
  ping_empty : comp_repr (completion (w_client w)) [] /\ completion_remove (completion (w_client w)) < 2 ^ 63;
  ping_new : vchi_services (vchi_of w) !! service_handle (vchi_of w) = None;
  ping_quota : service_quotas (quota_state (w_state w)) !! length (w_heap w) = Some ServiceQuota_default;
  ping_share : default_slot_quota (w_state w) <> 0 /\ default_message_quota (w_state w) <> 0 /\
    data_use_count (quota_state (w_state w)) <> data_quota (quota_state (w_state w));
}.

Lemma can_open_boxes a msgs w l : can_open a msgs w -> can_open a msgs (with_boxes w l).
Proof.
  intros [? ? ? ? ? ? ? ?]. split; try done; [by apply (client_frame_step w)|by apply (client_frame_tx _ _ w)].
Qed.

(** The new service may send: nothing is counted against it yet. *)
Lemma opened_may_send a msgs w w' n s setup rp k {R : OpenPayloadRepr} :
  can_ping a msgs w -> open_done k a msgs setup rp w w' s ->
  exists sq, sender w' (length (w_heap w)) s sq /\ ~ data_exhausted w' n /\ ~ service_exhausted w' sq n.
Proof.
  intros [_ _ _ _ Hq (H1 & H2 & H3)] Hd. pose proof (done_opened _ _ _ _ _ _ _ _ Hd) as [_ _ _ _ [Hu _ _ _ _]].
  pose proof (done_quotas _ _ _ _ _ _ _ _ Hd) as Eq. destruct (in_use_port _ _ _ Hu) as [Hp _].
  exists (opened_quota w ServiceQuota_default). split; [|split].
  - split; [apply Hu|]. rewrite Eq, Hp, Nat2Z.id. unfold opened_quotas. cbn [service_quotas update].
    by rewrite list_lookup_alter_eq, Hq.
  - intros [_ H]. rewrite Eq in H. done.
  - intros [H|[_ H]]; cbn in H; congruence.
Qed.

(** What is left of the test once its message was sent. *)
Definition ping_rest (p : nat) (h : ServiceHandle) : Async W (VchiqResult unit) :=
  await* _ := Await (poll_reply p) Done in
  await? _ := service_close h in
  Done (Ok tt).

Lemma room_less x n : 0 <= x -> 0 <= n < room x -> room (x + n) = room x - n.
Proof. unfold room. change VCHIQ_SLOT_SIZE with 4096. intros Hx Hn. zdiv. Qed.

Lemma room_fits x A n : 0 <= x < A * 4096 -> 0 <= n < room x -> x + n < A * 4096.
Proof. unfold room. change VCHIQ_SLOT_SIZE with 4096. intros Hx Hn. zdiv. Qed.

Lemma get_callback_data_Ret p d w :
  box w p = Some (AnyCallbackData d) -> get_callback_data p w = Ret (d, w).
Proof. unfold get_callback_data, get_client, box. intros E. rewrite bind_gets. by rewrite E. Qed.

Lemma set_callback_data_Ret p d w :
  set_callback_data p d w = Ret (tt, with_boxes w (<[p := AnyCallbackData d]> (user_data (w_client w)))).
Proof. reflexivity. Qed.

(** Up to the wait: the service is open and the message sent. *)
Lemma ping_sends {R : OpenPayloadRepr} a msgs w fuel fourcc rp version :
  can_ping a msgs w -> 0 <= rp < 4096 ->
  let n := length (w_heap w) in
  let p := length (user_data (w_client w)) in
  let h := service_handle (vchi_of w) in
  exists w' s,
    (forall env, run_with (process (vc_message OPENACK rp (Z.of_nat n) version) :: env) (vchiq_ping_test fuel fourcc) w =
       run_with env (ping_rest p h) w') /\
    waiting 1 w' h (opened_entry_of (echo_setup fourcc p) (handle s)) n s rp p
      (mkCallbackData (Some h) (sem_new 0)) /\
    tx_stream a ((msgs ++ [open_message s]) ++ [data_sent s (TestParameter_image test_message)]) w' /\
    permits (Service.remove_event s) = 0 /\
    vchi_services (vchi_of w') = <[h := opened_entry_of (echo_setup fourcc p) (handle s)]> (vchi_services (vchi_of w)) /\
    called (vchi_of w') = called (vchi_of w).
Proof.
  intros Hping Hrp n p h. pose proof Hping as [Hopen Hroom [Hc0 Hrm0] Hnew _ _].
  set (d0 := mkCallbackData None (sem_new 0)). set (l0 := user_data (w_client w) ++ [AnyCallbackData d0]).
  set (w0 := with_boxes w l0).
  assert (can_ping a msgs w0) as Hping0 by (destruct Hping; split; [by apply can_open_boxes|done..]).
  destruct (service_open_Ret 2 a msgs w0 (echo_setup fourcc p) rp version (ping_open _ _ _ Hping0) Hrp ltac:(by vm_compute))
    as (wa & w1 & s & E0 & E1 & Hd).
  destruct (opened_may_send a msgs w0 w1 (stride (data_sent s (TestParameter_image test_message))) s _ rp 2 Hping0 Hd)
    as (sq & Hsd & Hnd & Hns).
  destruct Hd as [Hop _ Hev Hcls Hsrv _ Hcalled Hboxes Hcomp Hcon _ Htx].
  assert (length l0 = S p) as Hlen by (unfold l0; rewrite length_app; cbn; lia).
  change (user_data (w_client w0)) with l0 in *. rewrite Hlen in Hop, Hboxes.
  assert (box w1 p = Some (AnyCallbackData d0)) as Hp1.
  { unfold box. rewrite Hboxes, lookup_app_l by lia. unfold l0. by rewrite lookup_app_r, Nat.sub_diag. }
  assert (forall j, box w1 (S p + j) = [AnyServiceHandle h; AnyServiceUser (ServiceUser_new (Some (S p)) true)] !! j) as Hj.
  { intros j. unfold box. rewrite Hboxes, lookup_app_r, Hlen by lia. f_equal. lia. }
  set (d1 := mkCallbackData (Some h) (sem_new 0)).
  set (w2 := with_boxes w1 (<[p := AnyCallbackData d1]> (user_data (w_client w1)))).
  assert (forall j, p <> j -> box w2 j = box w1 j) as Hb2 by (intros j Hne; by apply list_lookup_insert_ne).
  assert (stream_len (msgs ++ [open_message s]) = stream_len msgs + 24) as Hsl
    by by rewrite stream_len_snoc, open_message_stride.
  pose proof (at_range _ _ _ _ (stream_pos _ _ _ Htx)) as [Hrange _]. rewrite Hsl in Hrange.
  destruct (at_range _ _ _ _ (stream_pos _ _ _ (can_tx _ _ _ Hopen))) as [Hrange0 _].
  destruct (vchi_queue_Ret 2 fuel a (msgs ++ [open_message s]) w2 h (TestParameter_image test_message)
    (opened_entry_of (echo_setup fourcc p) (handle s)) n s sq rp (S (S p)) []) as (w3 & E3 & Hs3 & Hop3 & [Kb Kc Kn Kl Ks]).
  - apply opened_with_boxes; [exact Hop|]. apply (Hb2 (S (S p))). lia.
  - by apply (client_frame_tx _ _ w1).
  - by destruct Hsd.
  - exact Hcls.
  - exact Hnd.
  - exact Hns.
  - by vm_compute.
  - change (stride (data_sent s (TestParameter_image test_message))) with 48.
    rewrite Hsl, room_less by lia. lia.
  - rewrite Hsl. apply room_fits; [split; [lia|apply (can_room _ _ _ Hopen)]|lia].
  - exists w3, s. split; [|split; [|split_and!]].
    + intros env. unfold vchiq_ping_test. erewrite run_with_step by apply UserData_new_Ret. fold d0 p.
      change (with_client w _) with w0. cbv zeta. unfold abind_try.
      erewrite run_with_abind_one by (exact E0 || exact E1). cbv beta iota.
      erewrite run_with_step by (erewrite bind_Ret by (apply get_callback_data_Ret; exact Hp1); reflexivity).
      by erewrite run_with_step by exact E3.
    + assert (forall j, box w3 j = box w2 j) as Hb3 by (intros j; unfold box; by rewrite Kb).
      split; try done.
      * rewrite Hb3. apply list_lookup_insert_eq. by eapply lookup_lt_Some.
      * rewrite Hb3, Hb2 by lia. rewrite <- (Nat.add_0_r (S p)). by rewrite Hj.
      * rewrite Hb3, Hb2 by lia. rewrite <- (Nat.add_1_r (S p)). by rewrite Hj.
      * rewrite Kc. change (completion (w_client w2)) with (completion (w_client w1)). by rewrite Hcomp.
      * rewrite Kn. change (connected (w_client w2)) with (connected (w_client w1)). rewrite Hcon.
        apply (can_connected _ _ _ Hopen).
    + exact Hs3.
    + exact Hev.
    + rewrite Ks. exact Hsrv.
    + rewrite Kl. exact Hcalled.
Qed.

(** The two messages of the test fit in front of the end of the slots. *)
Lemma ping_fits {R : OpenPayloadRepr} a msgs w s d :
  can_ping a msgs w -> length d = 40%nat ->
  stream_len ((msgs ++ [open_message s]) ++ [data_sent s d]) < area_count a * 4096.
Proof.
  intros [[_ _ _ _ _ Htx [_ Hlt] _] Hroom _ _ _ _] Hd.
  destruct (at_range _ _ _ _ (stream_pos _ _ _ Htx)) as [Hrange _].
  rewrite !stream_len_snoc, open_message_stride.
  assert (stride (data_sent s d) = 48) as ->
    by (unfold stride; cbn; by rewrite Hd).
  pose proof (room_fits (stream_len msgs) (area_count a) 72). lia.
Qed.

(** C12: the test program completes.  From every state in which the test can run, and whatever the
    VideoCore puts in its messages, [vchiq_ping_test] opens the service, sends its message of 40
    bytes, waits until the callback was called for the answer, closes the service and returns [Ok],
    when the VideoCore answers OPEN with OPENACK, the message with some data, and CLOSE with CLOSE.
    Then the service is free again, the map of services is as it was, and the callback of the test was
    called once. *)
Theorem ping_test_completes {R : OpenPayloadRepr} (a : Area) (msgs : list SlotMessage) (w : W) (fuel : nat)
    (fourcc : FourCC) (rp : Z) (version answer : list Z) :
  can_ping a msgs w -> 0 <= rp < 4096 ->
  let n := length (w_heap w) in
  let p := length (user_data (w_client w)) in
  exists w' s,
    run_with [process (vc_message OPENACK rp (Z.of_nat n) version);
              answered rp (Z.of_nat n) answer;
              process (vc_message CLOSE rp (Z.of_nat n) [])] (vchiq_ping_test fuel fourcc) w =
      Ret (Some (Ok tt), w') /\
    w_heap w' !! n = Some s /\ srvstate s = ServiceState.FREE /\
    vchi_services (vchi_of w') = vchi_services (vchi_of w) /\ lock_free w' /\
    called (vchi_of w') = called (vchi_of w) ++ [mkVchiCall vchi_clnt_callback (Some p) MESSAGE_AVAILABLE].
Proof.
  intros Hping Hrp n p. set (h := service_handle (vchi_of w)).
  destruct (ping_sends a msgs w fuel fourcc rp version Hping Hrp) as (w1 & s & Erun & Hw & Htx & Hev & Hsrv & Hcl).
  pose proof (wait_opened _ _ _ _ _ _ _ _ _ Hw) as [_ _ _ _ [Hu _ _ _ _]].
  destruct (in_use_port _ _ _ Hu) as [Hport _].
  destruct (answered_Ret 1 w1 h _ n s rp p _ answer Hw) as (w2 & E2 & Hop2 & Hp2 & Hcl2 & Hs2 & Htx2).
  rewrite Hport in E2.
  destruct (try_down_up (sem_new 0)) as (e & Ee & _).
  set (d2 := mkCallbackData (Some h) e). set (w3 := with_boxes w2 (<[p := AnyCallbackData d2]> (user_data (w_client w2)))).
  assert (poll_reply p w2 = Ret (Some tt, w3)) as Er.
  { unfold poll_reply. erewrite bind_Ret by (apply get_callback_data_Ret; exact Hp2).
    cbn [reply_event update]. by rewrite Ee. }
  assert (poll_reply p w1 = Ret (None, w1)) as Er1.
  { unfold poll_reply. erewrite bind_Ret by (apply get_callback_data_Ret; exact (wait_param _ _ _ _ _ _ _ _ _ Hw)).
    cbn [reply_event]. by rewrite try_down_none by by apply permits_new. }
  assert (opened 1 w3 h (opened_entry_of (echo_setup fourcc p) (handle s)) n s rp (S (S p))
    [vc_message DATA rp (localport s) answer]) as Hop3.
  { apply opened_with_boxes; [exact Hop2|]. apply list_lookup_insert_ne. lia. }
  pose proof (client_frame_tx _ _ w2 w3 ltac:(done) (Htx2 _ _ Htx)) as Htx3.
  destruct (service_close_Ret 1 a _ w3 h _ n s rp (S (S p)) _ Hop3 Htx3)
    as (wa & w4 & s4 & _ & _ & E4 & Hl4 & Hd4 & Hh4 & Hst4 & Hcl4);
    [by apply (ping_fits a msgs w s)|exact Hev|].
  rewrite Hport in E4.
  exists w4, s4. split; [|split_and!; try done].
  - rewrite Erun. unfold ping_rest.
    erewrite run_with_abind_one with (s1 := w1) (a := tt) (s3 := w3).
    2: { cbn [run_with]. by erewrite bind_Ret by by apply poll_Await_pending. }
    2: { etransitivity; [eapply run_with_pending; [by apply poll_Await_pending|exact E2]|].
         apply run_with_ready. cbn [poll]. by erewrite bind_Ret by exact Er. }
    unfold abind_try. by eapply run_with_abind_ready; [exact E4|].
  - rewrite Hd4. change (vchi_services (vchi_of w3)) with (vchi_services (vchi_of w2)). rewrite Hs2, Hsrv.
    apply delete_insert_id. apply (ping_new _ _ _ Hping).
  - rewrite Hcl4. change (called (vchi_of w3)) with (called (vchi_of w2)). by rewrite Hcl2, Hcl.
Qed.
End run.
