(* ===== verification/StartUp.v ===== *)
(** How the test kernel starts, [src/main.rs]: [alive] runs on one core after the other, then each core
    enters [run].  What they call is outside the repository (mailbox, MMU, UART, interrupt manager, the
    executor), so it is recorded as a sequence of calls; what the calls answer is a parameter.
    A panic ends in the endless loop of [src/panic.rs]. *)

From S2P Require Import Prelude.

(** What the board answers: the memory of the VideoCore, and whether the UART could be set up. *)
Class Board : Type := {
  get_vc_memory : Result (Z * Z) unit;
  uart_initialize : Z -> Z -> Result unit unit;
}.

(** The calls, in order. *)
Inductive kernel_call : Type :=
| mmu_initialize (core vc_mem_start vc_mem_size : Z)
| console_replace
| irq_initialize
| enable_interrupts
| brain_init
| spawn_test_vchiq
| do_thinking (core : Z).

Section startup.
Context {B : Board}.

Definition call (c : kernel_call) : M (list kernel_call) unit := modify (fun cs => cs ++ [c]).

Definition alive (core : Z) : M (list kernel_call) unit :=
  let* vc_mem := (match get_vc_memory with Ok m => ret m | Err _ => raise PUnwrap end) in
  call (mmu_initialize core vc_mem.1 vc_mem.2) ;;
  if core =? 0 then
    match uart_initialize 250000000 115200 with
    | Ok _ => call console_replace
    | Err _ => ret tt
    end ;;
    call irq_initialize ;;
    call enable_interrupts ;;
    call brain_init ;;
    call spawn_test_vchiq
  else ret tt.

(** [run] never returns. *)
Definition run (core : Z) : M (list kernel_call) unit :=
  call (do_thinking core) ;;
  block.

(** The boot code: the cores come alive one after the other. *)
Fixpoint alive_all (cores : list Z) : M (list kernel_call) unit :=
  match cores with
  | [] => ret tt
  | core :: cores => alive core ;; alive_all cores
  end.

(** What [alive] calls on a core. *)
Definition alive_calls (vc_mem : Z * Z) (core : Z) : list kernel_call :=
  mmu_initialize core vc_mem.1 vc_mem.2 ::
  if core =? 0 then
    match uart_initialize 250000000 115200 with Ok _ => [console_replace] | Err _ => [] end ++
    [irq_initialize; enable_interrupts; brain_init; spawn_test_vchiq]
  else [].

Lemma alive_Ret vc_mem core cs :
  get_vc_memory = Ok vc_mem -> alive core cs = Ret (tt, cs ++ alive_calls vc_mem core).
Proof.
  intros Hm. unfold alive, alive_calls. rewrite Hm, bind_ret_l. unfold call. rewrite bind_modify.
  destruct (core =? 0); [|done]. destruct (uart_initialize _ _); rewrite ?bind_ret_l, !bind_modify;
    unfold modify; by rewrite <- !app_assoc.
Qed.

Lemma alive_all_Ret vc_mem cores cs :
  get_vc_memory = Ok vc_mem -> alive_all cores cs = Ret (tt, cs ++ (cores ≫= alive_calls vc_mem)).
Proof.
  intros Hm. revert cs. induction cores as [|core cores IH]; intros cs; cbn [alive_all].
  - by rewrite app_nil_r.
  - erewrite bind_Ret by by apply alive_Ret. by rewrite IH, <- app_assoc.
Qed.

(** Whatever the order of the cores: with the memory split known, the kernel comes up, the test is
    spawned once for core 0, with the executor, interrupts and the MMU of that core set up before - also
    without a UART - and every core has its MMU set up once.  Without the memory split the first core
    panics and nothing was done. *)
Lemma kernel_boots (cores : list Z) :
  NoDup cores -> 0 ∈ cores ->
  (forall vc_mem, get_vc_memory = Ok vc_mem ->
     exists before after, alive_all cores [] = Ret (tt, before ++ spawn_test_vchiq :: after) /\
       spawn_test_vchiq ∉ before ++ after /\
       mmu_initialize 0 vc_mem.1 vc_mem.2 ∈ before /\ enable_interrupts ∈ before /\ brain_init ∈ before) /\
  (forall e, get_vc_memory = Err e -> alive_all cores [] = Panic PUnwrap).
Proof.
  intros Hnd Hin. apply list_elem_of_split in Hin as (c1 & c2 & ->).
  apply NoDup_app in Hnd as (_ & Hn1 & [Hn2 _]%NoDup_cons). split.
  - intros vc_mem Hm.
    assert (forall cs, 0 ∉ cs -> spawn_test_vchiq ∉ (cs ≫= alive_calls vc_mem)) as Hother.
    { intros cs Hcs (core & Hc & Hi)%list_elem_of_bind. unfold alive_calls in Hc.
      rewrite (proj2 (Z.eqb_neq _ _)) in Hc by by intros ->. apply list_elem_of_singleton in Hc. done. }
    set (first := mmu_initialize 0 vc_mem.1 vc_mem.2 ::
      match uart_initialize 250000000 115200 with Ok _ => [console_replace] | Err _ => [] end ++
      [irq_initialize; enable_interrupts; brain_init]).
    assert (alive_calls vc_mem 0 = first ++ [spawn_test_vchiq]) as E.
    { unfold alive_calls, first. cbn [Z.eqb]. rewrite <- app_comm_cons. by rewrite <- app_assoc. }
    exists ((c1 ≫= alive_calls vc_mem) ++ first), (c2 ≫= alive_calls vc_mem). split; [|split].
    + rewrite (alive_all_Ret vc_mem) by done. rewrite bind_app. cbn [mbind list_bind].
      fold (mbind (M := list) (alive_calls vc_mem) c2). rewrite E. by rewrite <- !app_assoc.
    + rewrite !not_elem_of_app. split; [split|by apply Hother].
      * apply Hother. intros H0. apply (Hn1 0 H0). by left.
      * unfold first. destruct (uart_initialize _ _); cbn [app]; rewrite !not_elem_of_cons; by split_and!; [..|apply not_elem_of_nil].
    + unfold first. destruct (uart_initialize _ _); cbn [app]; rewrite !elem_of_app, !elem_of_cons; tauto.
  - intros e He. destruct c1; cbn [app alive_all]; unfold alive; rewrite He; done.
Qed.
End startup.
