(* ===== verification/LegacyState.v ===== *)
(** The version of the central state that [src/vchiq/state.rs] replaced: [src/state copy.rs].

    No [mod] declaration names that file; it is modelled to compare the two versions, which
    [LegacyStateOk] does.  Here all of [StateInner] is behind one [AsyncMutex], which a function holds
    until it is done, positions are [u32], and the slot handler is a method.  Names start with
    [Inner_] for [StateInner] and with [Old_] for the [State] around it. *)

From S2P Require Import Prelude Locks Memory Layout Types SlotMessage Event SlotZero Slot Service State.

(** [x as i32]. *)
Definition i32 (x : Z) : Z := (x + 2 ^ 31) mod 2 ^ 32 - 2 ^ 31.
(** [+], [-] and [*] on u32. *)
Definition u32_add (x y : Z) : Z := u32 (x + y).
Definition u32_sub (x y : Z) : Z := u32 (x - y).
Definition u32_mul (x y : Z) : Z := u32 (x * y).

Section legacy.
Context {L : LockLib} {AM : AMutexLib} {CB : Callbacks}.

(** [VchiqConnectState] has the constructors of the [ConnectState] of today. *)
Record StateInner : Type := mkStateInner {
  in_shm_ptr : Z;
  in_shm_ptr_phys : Z;
  in_shm_ptr_layout : AllocLayout;
  in_slot_zero : SlotZeroAccessor;
  in_slot_data : SlotAccessor;
  in_conn_state : ConnectState;
  in_tx_data : option SlotPosition;
  in_rx_data : option SlotPosition;
  in_local_tx_pos : Z;
  in_rx_pos : Z;
  in_slot_queue_available : Z;
  in_services : list (option nat);
  in_unused_service : Z;
  in_service_quotas : list ServiceQuota;
  in_default_slot_quota : Z;
  in_default_message_quota : Z;
  in_poll_needed : bool;
}.
#[export] Instance eta_StateInner : Eta StateInner := fun r =>
  mkStateInner (in_shm_ptr r) (in_shm_ptr_phys r) (in_shm_ptr_layout r) (in_slot_zero r)
    (in_slot_data r) (in_conn_state r) (in_tx_data r) (in_rx_data r) (in_local_tx_pos r)
    (in_rx_pos r) (in_slot_queue_available r) (in_services r) (in_unused_service r)
    (in_service_quotas r) (in_default_slot_quota r) (in_default_message_quota r) (in_poll_needed r).

(** [State]; [old_lock] is the mutex around [inner]. *)
Record OldState : Type := mkOldState {
  old_initialized : bool;
  old_connect : asem;
  old_slot_available_event : sem;
  old_lock : amutex;
  old_inner : StateInner;
}.
#[export] Instance eta_OldState : Eta OldState := fun r =>
  mkOldState (old_initialized r) (old_connect r) (old_slot_available_event r) (old_lock r)
    (old_inner r).

(** The world: the state, the heap of services, the hardware, the static [NEXT_SRV_HANDLE]. *)
Record OldWorld : Type := mkOldWorld {
  o_state : OldState;
  o_heap : list Service;
  o_hw : Hw;
  o_next_handle : Z;
}.
#[export] Instance eta_OldWorld : Eta OldWorld := fun r =>
  mkOldWorld (o_state r) (o_heap r) (o_hw r) (o_next_handle r).

Notation MO := (M OldWorld).

Definition get_inner : MO StateInner := gets (fun w => old_inner (o_state w)).
Definition upd_old (f : OldState -> OldState) : MO unit := modify (fun w => w <| o_state ::= f |>).
Definition upd_inner (f : StateInner -> StateInner) : MO unit :=
  upd_old (fun s => s <| old_inner ::= f |>).
Definition o_get_mem : MO mem := gets (fun w => hw_mem (o_hw w)).
Definition o_upd_hw (f : Hw -> Hw) : MO unit := modify (fun w => w <| o_hw ::= f |>).
Definition o_upd_mem (f : mem -> mem) : MO unit := o_upd_hw (fun hw => hw <| hw_mem ::= f |>).
Definition o_get_service (service : nat) : MO Service :=
  let* heap := gets o_heap in unwrap (heap !! service).
Definition o_upd_service (service : nat) (f : Service -> Service) : MO unit :=
  let* s := o_get_service service in
  modify (fun w => w <| o_heap ::= <[service := f s]> |>).
Definition o_unwrap_result {A} (r : VchiqResult A) : MO A :=
  match r with Ok a => ret a | Err _ => raise PUnwrap end.

(** ** The mutex *)

(** One poll of [self.inner.lock()]. *)
Definition poll_lock : MO (option unit) :=
  let* w := gets o_state in
  let '(locked, a) := amutex_poll_lock (old_lock w) in
  upd_old (fun s => s <| old_lock := a |>) ;;
  ret (if locked then Some tt else None).
Definition unlock : MO unit := upd_old (fun s => s <| old_lock ::= amutex_unlock |>).

(** A block that gets the guard, runs without waiting and drops the guard, whichever way it is
    left. *)
Definition with_lock {A} (m : MO A) : Async OldWorld A :=
  await* _ := Await poll_lock Done in
  await* a := astep m in
  await* _ := astep unlock in
  Done a.

(** [state.slot_data.store_message(..)]. *)
Definition o_store (slot_pos : SlotPosition) (size_T : nat) (f : SlotMessage -> SlotMessage) : MO unit :=
  let* s := get_inner in
  let* m := o_get_mem in
  let* r := lift (store_message (in_slot_data s) slot_pos size_T (fun msg => Ret (f msg, tt)) m) in
  o_upd_mem (fun _ => r.2).

(** ** Creating and initializing *)

Definition Inner_new {P : Platform} (m : mem) : outcome (VchiqResult StateInner * mem) :=
  let slot_mem_size := page_align (TOTAL_SLOTS * VCHIQ_SLOT_SIZE) in
  match Layout_from_size_align slot_mem_size page_size with
  | None => Ret (Err (EGeneric "invalid parameters to Layout::from_size_align"), m)
  | Some layout =>
      let shm_ptr := alloc layout in
      let shm_ptr_phys := Z.lor shm_ptr 3221225472 in (* 0xC000_0000 *)
      let shm_ptr := map_memory shm_ptr (layout_size layout)
        (Z.lor (Z.lor (Z.shiftl 1 10) (Z.shiftl 2 8)) (Z.shiftl 3 2)) in
      let slot_zero_offset := Z.land (usize_sub VCHIQ_SLOT_SIZE shm_ptr) VCHIQ_SLOT_MASK in
      let slot_zero_ptr := shm_ptr + slot_zero_offset in
      if negb (slot_zero_ptr mod VCHIQ_SLOT_SIZE =? 0) then Panic PAssert else
      let slot_zero := SlotZeroAccessor_new slot_zero_ptr (usize_sub slot_mem_size slot_zero_offset) in
      match initialize slot_zero m with
      | Panic p => Panic p
      | Blocked => Blocked
      | OutOfFuel => OutOfFuel
      | Ret (num_slots, slot_zero, m) =>
          let slot_data := mkSlotAccessor slot_zero_ptr (usize_add num_slots VCHIQ_SLOT_ZERO_SLOTS) in
          let m := set_platform_data slot_zero
            [u32 (usize_add shm_ptr_phys slot_mem_size); u32 MAX_FRAGMENTS] m in
          let chunk := Z.to_nat (MAX_FRAGMENTS - 1) in
          let m := init_fragments (usize_add shm_ptr slot_mem_size) chunk
                     (Z.to_nat MAX_FRAGMENTS / chunk) m in
          let slot_queue_available :=
            u32_add (u32_sub (slot_last (local slot_zero) m) (slot_first (local slot_zero) m)) 1 in
          let default_slot_quota := slot_queue_available / 2 in
          let default_message_quota := Z.min (u32_mul default_slot_quota 256) (2 ^ 32 - 1) in
          Ret (Ok {|
            in_shm_ptr := shm_ptr;
            in_shm_ptr_phys := shm_ptr_phys;
            in_shm_ptr_layout := layout;
            in_slot_zero := slot_zero;
            in_slot_data := slot_data;
            in_conn_state := DISCONNECTED;
            in_tx_data := None;
            in_rx_data := None;
            in_local_tx_pos := 0;
            in_rx_pos := 0;
            in_slot_queue_available := slot_queue_available;
            in_services := replicate (Z.to_nat VCHIQ_MAX_SERVICES) None;
            in_unused_service := 0;
            in_service_quotas := replicate (Z.to_nat VCHIQ_MAX_SERVICES) ServiceQuota_default;
            in_default_slot_quota := default_slot_quota;
            in_default_message_quota := default_message_quota;
            in_poll_needed := false
          |}, m)
      end
  end.

Definition Old_new {P : Platform} (m : mem) : outcome (VchiqResult OldState * mem) :=
  match Inner_new m with
  | Ret (Ok inner, m) =>
      Ret (Ok {| old_initialized := false;
                 old_connect := asem_new 0;
                 old_slot_available_event := sem_new (in_slot_queue_available inner);
                 old_lock := amutex_new;
                 old_inner := inner |}, m)
  | Ret (Err e, m) => Ret (Err e, m)
  | Panic p => Panic p
  | Blocked => Blocked
  | OutOfFuel => OutOfFuel
  end.

Definition Inner_initialize {P : Platform} : MO (VchiqResult unit) :=
  let* s := get_inner in
  let* m := o_get_mem in
  let slot_index := slot_sync (local (in_slot_zero s)) m in
  o_store (mkPosition slot_index 0) 0
    (fun message => message <| header ::= fun h => h <| msgid := VCHIQ_MSGID_PADDING |> |>) ;;
  let? status := ret (set_vchiq_slot_base (u32 (in_shm_ptr_phys s))) in
  if negb (status =? 0)
  then ret (Err (EGeneric "unable to set VCHIQ base address"))
  else ret (Ok tt).

Definition Old_initialize {P : Platform} : Async OldWorld (VchiqResult unit) :=
  await* s := astep (gets o_state) in
  if negb (old_initialized s) then
    await? _ := with_lock Inner_initialize in
    await* _ := astep (upd_old (fun s => s <| old_initialized := true |>)) in
    Done (Ok tt)
  else Done (Ok tt).

(** ** Services *)

Definition Inner_service_by_port (local_port : Z) : MO (option nat) :=
  let* s := get_inner in
  let* service := index (in_services s) local_port in
  match service with
  | Some l =>
      let* srv := o_get_service l in
      if decide (srvstate srv = ServiceState.FREE) then ret None else ret (Some l)
  | None => ret None
  end.

Definition Inner_service_from_handle (srvhandle : ServiceHandle) : MO (VchiqResult nat) :=
  let* s := get_inner in
  let* heap := gets o_heap in
  match find_handle heap srvhandle (in_services s) with
  | Some l => ret (Ok l)
  | None => ret (Err (EVchiq (ServiceNotFound srvhandle)))
  end.

(** [add_service] before it takes the lock. *)
Definition add_service_new (srv_params : ServiceParams) (srv_st : ServiceState.t) : MO Service :=
  let* new_handle := gets o_next_handle in
  modify (fun w => w <| o_next_handle := usize_add new_handle 1 |>) ;;
  let service := Service_new srv_params new_handle in
  ret (if decide (srv_st = ServiceState.OPENING)
       then service <| public_fourcc := None |> else service).

(** The entry looked for among those in use: the first free one, or - for a state other than
    OPENING - the first free one of the reversed list, with its position in that list. *)
Definition find_unused (srv_st : ServiceState.t) (services : list (option nat)) : option nat :=
  if decide (srv_st = ServiceState.OPENING) then first_unused 0 services
  else first_unused 0 (rev services).

(** [add_service] with the lock. *)
Definition add_service_insert (service : Service) (srv_st : ServiceState.t)
  : MO (VchiqResult ServiceHandle) :=
  let* s := get_inner in
  let* srv_index :=
    (if Z.of_nat (length (in_services s)) <? in_unused_service s then raise PIndex
     else ret (find_unused srv_st (take (Z.to_nat (in_unused_service s)) (in_services s)))) in
  let srv_index :=
    match srv_index with
    | Some i => Some (Z.of_nat i)
    | None => if in_unused_service s <? VCHIQ_MAX_SERVICES then Some (in_unused_service s) else None
    end in
  match srv_index with
  | Some reuse_idx =>
      let service_handle := handle service in
      let service := service <| localport := reuse_idx |> in
      let service := set_state srv_st service in
      let* _ := index (in_services s) reuse_idx in
      let* heap := gets o_heap in
      modify (fun w => w <| o_heap := heap ++ [service] |>) ;;
      upd_inner (fun s => s <| in_services ::= <[Z.to_nat reuse_idx := Some (length heap)]> |>
                            <| in_unused_service := u32_add (in_unused_service s) 1 |>) ;;
      upd_inner (fun s => s <| in_service_quotas ::= alter (fun quota =>
        let quota := quota <| slot_quota := in_default_slot_quota s |>
                           <| message_quota := in_default_message_quota s |> in
        if slot_use_count quota =? 0
        then quota <| previous_tx_index :=
               i32 (i32 (slot_queue_index_from_pos (in_local_tx_pos s)) - 1) |>
        else quota) (Z.to_nat reuse_idx) |>) ;;
      ret (Ok service_handle)
  | None => ret (Err (EGeneric "unable to add a new service"))
  end.

Definition Inner_add_service (srv_params : ServiceParams) (srv_st : ServiceState.t)
  : Async OldWorld (VchiqResult ServiceHandle) :=
  await* service := astep (add_service_new srv_params srv_st) in
  with_lock (add_service_insert service srv_st).

Definition Inner_remove_service (h : ServiceHandle) : MO (VchiqResult unit) := raise PTodo.

(** [free_service]: a service in any other state is reported and left as it is. *)
Definition Inner_free_service (service : nat) : MO unit :=
  let* s := o_get_service service in
  match srvstate s with
  | ServiceState.OPENING | ServiceState.CLOSED | ServiceState.HIDDEN
  | ServiceState.LISTENING | ServiceState.CLOSEWAIT =>
      o_upd_service service (set_state ServiceState.FREE) ;;
      o_upd_service service (fun s => s <| remove_event ::= sem_up |>)
  | _ => ret tt
  end.

(** ** Sending *)

Definition Inner_reserve_space (space_needed : Z) (is_blocking : bool) : MO (VchiqResult SlotPosition) :=
  let* s := get_inner in
  let tx_pos := in_local_tx_pos s in
  let slot_space := usize_sub VCHIQ_SLOT_SIZE (Z.land tx_pos VCHIQ_SLOT_MASK) in
  let* tx_pos :=
    (if slot_space <? space_needed then
       let* slot_pos := unwrap (in_tx_data s) in
       let size := usize_sub slot_space header_size in
       o_store slot_pos 0 (fun message =>
         message <| header := mkHeader VCHIQ_MSGID_PADDING (u32 size) |>) ;;
       ret (u32_add tx_pos (u32 slot_space))
     else ret tx_pos) in
  let* slot_position :=
    (if Z.land tx_pos VCHIQ_SLOT_MASK =? 0 then
       assert (negb (tx_pos =? u32_mul (in_slot_queue_available s) (u32 VCHIQ_SLOT_SIZE))) ;;
       let slot_queue_index := Z.land (slot_queue_index_from_pos tx_pos) VCHIQ_SLOT_QUEUE_MASK in
       let* m := o_get_mem in
       let* slot_index := index (slot_queue (local (in_slot_zero s)) m) slot_queue_index in
       ret (mkPosition slot_index 0)
     else
       let* tx_data := unwrap (in_tx_data s) in
       ret (mkPosition (pos_index tx_data) (Z.land tx_pos VCHIQ_SLOT_MASK))) in
  upd_inner (fun s => s <| in_local_tx_pos := u32_add tx_pos (u32 space_needed) |>
                        <| in_tx_data := Some slot_position |>) ;;
  ret (Ok slot_position).

(** [queue_message] with the lock: a DATA message is refused without a service, and not implemented
    with one. *)
Definition queue_message_locked (service : option nat) (msg_type : MessageType) (msg_id : Z)
    (context : option (list Z)) (is_blocking : bool) : MO (VchiqResult unit) :=
  let msg_size := match context with Some cx => Z.of_nat (length cx) | None => 0 end in
  let? _ :=
    (if decide (msg_type = DATA) then
       match service with
       | Some _ => raise PUnimplemented
       | None => ret (Err (EVchiq DataMessageWithoutService))
       end
     else ret (Ok tt)) in
  let? slot_position := Inner_reserve_space (calc_msg_stride msg_size) is_blocking in
  o_store slot_position (Z.to_nat msg_size) (fun message =>
    let message := match context with Some cx => message <| data := cx |> | None => message end in
    message <| header := mkHeader msg_id (u32 msg_size) |>) ;;
  let* s := get_inner in
  o_upd_mem (set_tx_pos (local (in_slot_zero s)) (in_local_tx_pos s)) ;;
  match service with
  | Some l =>
      if decide (msg_type = CLOSE) then o_upd_service l (set_state ServiceState.CLOSESENT)
      else ret tt
  | None => ret tt
  end ;;
  o_upd_hw (signal_remote (trigger (remote (in_slot_zero s)))) ;;
  ret (Ok tt).

(** [queue_message::<T>]; [context] is the memory image of the [T]. *)
Definition Inner_queue_message (service : option nat) (msg_id : Z) (context : option (list Z))
    (is_blocking : bool) : Async OldWorld (VchiqResult unit) :=
  await* msg_type := astep (lift (msg_type_from_id msg_id)) in
  with_lock (queue_message_locked service msg_type msg_id context is_blocking).

(** ** Connecting *)

Definition connection_state : Async OldWorld ConnectState :=
  with_lock (let* s := get_inner in ret (in_conn_state s)).
Definition set_connection_state (c : ConnectState) : Async OldWorld unit :=
  with_lock (upd_inner (fun s => s <| in_conn_state := c |>)).

(** One poll of [self.connect.down()]. *)
Definition old_poll_connect : MO (option unit) :=
  let* s := gets o_state in
  match asem_poll_down (old_connect s) with
  | Some c => upd_old (fun s => s <| old_connect := c |>) ;; ret (Some tt)
  | None => ret None
  end.

Definition Old_connect : Async OldWorld (VchiqResult unit) :=
  await* s := astep (gets o_state) in
  if negb (old_initialized s) then Done (Err (EGeneric "VCHIQ State not initialized")) else
  await* conn_state := connection_state in
  await? _ :=
    (if decide (conn_state = DISCONNECTED) then
       await? _ := Inner_queue_message None (make_msg_id CONNECT 0 0) None true in
       await* _ := set_connection_state CONNECTING in
       Done (Ok tt)
     else Done (Ok tt)) in
  await* conn_state := connection_state in
  if decide (conn_state = CONNECTING) then
    await* _ := Await old_poll_connect Done in
    await* _ := set_connection_state CONNECTED in
    Done (Ok tt)
  else astep (raise PUnreachable).

(** ** Opening *)

(** The closure polled for the answer: it needs the lock first. *)
Definition Inner_poll_open (h : ServiceHandle) : MO (option ServiceState.t) :=
  let* locked := poll_lock in
  match locked with
  | Some _ =>
      let* r := Inner_service_from_handle h in
      let* service := o_unwrap_result r in
      let* s := o_get_service service in
      let* answer :=
        match sem_try_down (remove_event s) with
        | Some e => o_upd_service service (fun s => s <| remove_event := e |>) ;; ret (Some (srvstate s))
        | None => ret None
        end in
      unlock ;;
      ret answer
  | None => ret None
  end.

Definition Inner_open_service {R : OpenPayloadRepr} (h : ServiceHandle)
  : Async OldWorld (VchiqResult unit) :=
  await* cx := with_lock (
    let* r := Inner_service_from_handle h in
    let* service := o_unwrap_result r in
    let* s := o_get_service service in
    ret (mkOpenPayload (fourcc (base s)) 0 (version s) (version_min s), localport s)) in
  let '(payload, localport) := cx in
  await? _ := Inner_queue_message None (make_msg_id OPEN localport 0)
                (Some (open_payload_image payload)) true in
  await* srvstate := Await (Inner_poll_open h) Done in
  Done (match srvstate with
        | ServiceState.OPEN | ServiceState.OPENSYNC | ServiceState.CLOSEWAIT => Ok tt
        | _ => Err (EGeneric "unable to open service")
        end).

(** ** Closing *)

(** The part of [close_service] that holds the lock. *)
Definition close_service_locked (h : ServiceHandle) : MO (VchiqResult nat) :=
  let? service := Inner_service_from_handle h in
  let* s := o_get_service service in
  match srvstate s with
  | ServiceState.FREE | ServiceState.LISTENING | ServiceState.HIDDEN =>
      ret (Err (EVchiq (UnableToCloseService h)))
  | _ =>
      o_upd_service service (fun s => s <| closing := true |>) ;;
      let* i := get_inner in
      let* _ := unwrap (in_service_quotas i !! Z.to_nat (localport s)) in
      upd_inner (fun i => i <| in_service_quotas ::=
        alter (fun q => q <| quota_event ::= sem_up |>) (Z.to_nat (localport s)) |>) ;;
      ret (Ok service)
  end.

Definition Inner_queue_close (service : nat) : Async OldWorld (VchiqResult unit) :=
  await* s := astep (o_get_service service) in
  Inner_queue_message (Some service)
    (make_msg_id CLOSE (localport s) (Z.land (remoteport s) 4095)) None false.

(** It returns when the CLOSE message is queued. *)
Definition Inner_close_service (h : ServiceHandle) : Async OldWorld (VchiqResult unit) :=
  await? service := with_lock (close_service_locked h) in
  await* s := astep (o_get_service service) in
  await? _ :=
    match srvstate s with
    | ServiceState.CLOSED | ServiceState.HIDDEN | ServiceState.LISTENING | ServiceState.CLOSEWAIT =>
        await* _ := astep (Inner_free_service service) in Done (Ok tt)
    | ServiceState.OPENING => Inner_queue_close service
    | ServiceState.OPENSYNC | ServiceState.OPEN =>
        await* r := Inner_queue_close service in
        match r with
        | Ok _ => await* _ := astep (o_upd_service service (set_state ServiceState.CLOSESENT)) in
                  Done (Ok tt)
        | Err _ => Done (Ok tt)
        end
    | ServiceState.CLOSESENT => astep (raise PTodo)
    | ServiceState.CLOSERECVD => astep (raise PTodo)
    | ServiceState.FREE => Done (Ok tt)
    end in
  Done (Ok tt).

(** ** The slot handler *)

Definition Inner_message_service (msg_type : MessageType) (local_port remote_port : Z) : MO (option nat) :=
  match msg_type with
  | CLOSE =>
      let* service := Inner_service_by_port local_port in
      match service with
      | Some l =>
          let* s := o_get_service l in
          if negb (remoteport s =? remote_port) && negb (remoteport s =? VCHIQ_PORT_FREE)
             && (local_port =? 0)
          then raise PTodo else ret (Some l)
      | None => raise PTodo
      end
  | OPENACK | DATA | BULK_RX | BULK_TX | BULK_RX_DONE | BULK_TX_DONE =>
      let* service := Inner_service_by_port local_port in
      match service with
      | Some l => ret (Some l)
      | None => raise PTodo
      end
  | _ => ret None
  end.

Definition Inner_handle_openack (service : nat) (remote_port : Z) (slot_data : SlotMessage) : MO unit :=
  match OpenAckPayload_try_from slot_data with
  | Ok version => o_upd_service service (fun s => s <| peer_version := version |>)
  | Err _ => ret tt
  end ;;
  let* s := o_get_service service in
  if decide (srvstate s = ServiceState.OPENING) then
    o_upd_service service (fun s => s <| remoteport := remote_port |>) ;;
    o_upd_service service (set_state ServiceState.OPEN) ;;
    o_upd_service service (fun s => s <| remove_event ::= sem_up |>)
  else ret tt.

(** A CLOSE of the VideoCore marks the service and wakes a sender that waits for its quota. *)
Definition Inner_handle_close (service : nat) : MO unit :=
  o_upd_service service (fun s => s <| closing := true |>) ;;
  let* s := o_get_service service in
  let* i := get_inner in
  let* _ := index (in_service_quotas i) (localport s) in
  upd_inner (fun i => i <| in_service_quotas ::=
    alter (fun q => q <| quota_event ::= sem_up |>) (Z.to_nat (localport s)) |>).

Definition Inner_dispatch (msg_type : MessageType) (service : option nat) (remote_port : Z)
    (slot_data : SlotMessage) : MO unit :=
  match msg_type with
  | OPEN => raise PUnimplemented
  | OPENACK => let* service := unwrap service in Inner_handle_openack service remote_port slot_data
  | CLOSE => let* service := unwrap service in Inner_handle_close service
  | DATA => raise PUnimplemented
  | CONNECT => upd_old (fun s => s <| old_connect ::= asem_up |>)
  | BULK_RX | BULK_TX => raise PUnimplemented
  | BULK_RX_DONE | BULK_TX_DONE => ret tt
  | PADDING => ret tt
  | PAUSE | RESUME | REMOTE_USE | REMOTE_RELEASE | REMOTE_USE_ACTIVE => raise PUnimplemented
  end.

Definition Inner_current_rx (tx_pos : Z) : MO SlotPosition :=
  let* s := get_inner in
  match in_rx_data s with
  | Some pos => ret pos
  | None =>
      let slot_queue_index := Z.land (slot_queue_index_from_pos tx_pos) VCHIQ_SLOT_QUEUE_MASK in
      let* m := o_get_mem in
      let* slot_index := index (slot_queue (remote (in_slot_zero s)) m) slot_queue_index in
      let pos := mkPosition slot_index 0 in
      upd_inner (fun s => s <| in_rx_data := Some pos |>) ;;
      ret pos
  end.

Definition Inner_advance_rx (pos : SlotPosition) (size : Z) : MO unit :=
  let msg_stride := calc_msg_stride size in
  let offset := usize_add (pos_offset pos) msg_stride in
  upd_inner (fun s =>
    let s := s <| in_rx_pos ::= fun p => u32_add p (u32 msg_stride) |> in
    if Z.land (in_rx_pos s) VCHIQ_SLOT_MASK =? 0
    then s <| in_rx_data := None |>
    else s <| in_rx_data := Some (mkPosition (pos_index pos) offset) |>).

(** One round of the loop of [parse_rx_slots]. *)
Definition Inner_handle_message (tx_pos : Z) : MO unit :=
  let* rx_data := Inner_current_rx tx_pos in
  let* s := get_inner in
  let* m := o_get_mem in
  let* slot_data := lift (read_message (in_slot_data s) rx_data m) in
  let* msg_type := lift (msg_type_from_id (msgid (header slot_data))) in
  let local_port := dst_port_from_id (msgid (header slot_data)) in
  let remote_port := src_port_from_id (msgid (header slot_data)) in
  let size := msg_size (header slot_data) in
  let* service := Inner_message_service msg_type local_port remote_port in
  Inner_dispatch msg_type service remote_port slot_data ;;
  Inner_advance_rx rx_data size.

(** [while self.rx_pos != tx_pos]. *)
Fixpoint Inner_handle_messages (fuel : nat) (tx_pos : Z) : MO unit :=
  let* s := get_inner in
  if in_rx_pos s =? tx_pos then ret tt else
  match fuel with
  | O => lift OutOfFuel
  | S fuel => Inner_handle_message tx_pos ;; Inner_handle_messages fuel tx_pos
  end.

Definition parse_rx_slots (fuel : nat) : MO unit :=
  let* s := get_inner in
  let* m := o_get_mem in
  Inner_handle_messages fuel (tx_pos (remote (in_slot_zero s)) m).

(** [trigger_mut().wait()]: arming the event, and one poll of it; [env] is what the VideoCore does
    to the memory after each access of the poll. *)
Definition arm_trigger : MO unit :=
  let* s := get_inner in
  o_upd_mem (set_armed (trigger (local (in_slot_zero s))) 1).
Definition on_memory (env : mem -> mem) (w : EventWorld) : EventWorld :=
  w <| ew_hw ::= fun hw => hw <| hw_mem ::= env |> |>.
Definition poll_trigger (env : mem -> mem) : MO (option unit) :=
  let* s := get_inner in
  let* hw := gets o_hw in
  let* r := lift (poll_with (on_memory env) Event_poll (mkEventWorld (trigger (local (in_slot_zero s))) hw)) in
  let '(ready, w) := r in
  upd_inner (fun s => s <| in_slot_zero ::= fun z => z <| local ::= fun l => l <| trigger := ew_local w |> |> |>) ;;
  o_upd_hw (fun _ => ew_hw w) ;;
  ret (match ready with inl o => o | inr _ => None end).

(** [handle_slots]: the lock is held while the trigger is awaited. *)
Definition handle_slots (fuel : nat) (env : mem -> mem) : Async OldWorld unit :=
  await* _ := Await poll_lock Done in
  await* _ := astep arm_trigger in
  await* _ := Await (poll_trigger env) Done in
  await* _ := astep (parse_rx_slots fuel) in
  astep unlock.

(** [Drop for StateInner]: the address and the layout given to [dealloc]. *)
Definition Inner_drop (s : StateInner) : Z * AllocLayout := (in_shm_ptr s, in_shm_ptr_layout s).
End legacy.
#[export] Existing Instances eta_StateInner eta_OldState eta_OldWorld.
