(* ===== verification/LegacyInstance.v ===== *)
(** The instance that [src/vchiq/instance/mod.rs] and [src/vchi/completion.rs] replaced:
    [src/instance.rs] and [src/completionhandler.rs].

    No [mod] declaration names these files; they are modelled to compare the versions, which
    [LegacyInstanceOk] does.  They are written against the central state of today ([State]).  A service
    holds its [ServiceUser] itself and not a box of any type, a completion has no user data, and the
    completion handler looks at no completion. *)

From S2P Require Import Prelude Locks Memory Layout Types SlotMessage Event SlotZero Slot Service.
From S2P Require Import State Completion.

(** The closure made by [create_service]; it captures the completion queue. *)
Inductive OldCallback : Type := old_service_callback_closure.

(** [U] is the user data of a client, which this code never looks at. *)
#[local] Instance plain_callbacks (U : Type) : Callbacks := {|
  VchiqCallback := Empty_set;
  UserData := U;
|}.

Section legacy_instance.
Context {L : LockLib} {U : Type}.

(** [ServiceUser] has the fields of today's. *)
Definition OldUser : Type := @ServiceUser L (plain_callbacks U).

#[local] Instance old_callbacks : Callbacks := {|
  VchiqCallback := OldCallback;
  UserData := OldUser;
|}.

Record OldServiceCompletion : Type := mkOldServiceCompletion {
  oc_reason : Reason;
  oc_msg : option SlotMessage;
}.

Record OldCompletion : Type := mkOldCompletion {
  oc_insert : Z;
  oc_remove : Z;
  oc_insert_event : sem;
  oc_remove_event : sem;
  oc_completions : list (option OldServiceCompletion);
}.
#[export] Instance eta_OldCompletion : Eta OldCompletion := fun r =>
  mkOldCompletion (oc_insert r) (oc_remove r) (oc_insert_event r) (oc_remove_event r) (oc_completions r).

(** [VchiqInstance] apart from its [state]; [oi_handlers] counts the completion handlers spawned. *)
Record OldClient : Type := mkOldClient {
  oi_connected : bool;
  oi_completion : OldCompletion;
  oi_handlers : nat;
}.
#[export] Instance eta_OldClient : Eta OldClient := fun r =>
  mkOldClient (oi_connected r) (oi_completion r) (oi_handlers r).

Notation W := (World OldClient).

Definition OldCompletion_new : OldCompletion :=
  mkOldCompletion 0 0 (sem_new 0) (sem_new 0) (replicate (Z.to_nat MAX_COMPLETIONS) None).

(** [VchiqInstance::new].  Polling the slot handler it spawns is up to the executor. *)
Definition OldInstance_new {P : Platform} (next_handle : Z) (hw : Hw) : outcome (VchiqResult W) :=
  match State_new (hw_mem hw) with
  | Ret (Ok s, m) =>
      let w := {| w_state := s; w_heap := []; w_hw := hw <| hw_mem := m |>;
                  w_next_handle := next_handle;
                  w_client := mkOldClient false OldCompletion_new 0 |} in
      match State_initialize w with
      | Ret (Ok _, w) => Ret (Ok w)
      | Ret (Err e, _) => Ret (Err e)
      | Panic p => Panic p
      | Blocked => Blocked
      | OutOfFuel => OutOfFuel
      end
  | Ret (Err e, _) => Ret (Err e)
  | Panic p => Panic p
  | Blocked => Blocked
  | OutOfFuel => OutOfFuel
  end.

(** ** Completions and messages *)

(** [add_completion]. *)
Definition old_add_completion (reason : Reason) (message : option SlotMessage)
    (c : OldCompletion) (user_service : OldUser) : outcome (OldCompletion * OldUser) :=
  let insert := oc_insert c in
  let remove := oc_remove c in
  let c :=
    if MAX_COMPLETIONS <=? usize_sub insert remove then
      match sem_try_down (oc_remove_event c) with
      | Some e => c <| oc_remove_event := e |>
      | None => c
      end
    else c in
  let i := ring_index MAX_COMPLETIONS insert in
  match oc_completions c !! i with
  | None => Panic PUnwrap
  | Some _ =>
      let c := c <| oc_completions ::= <[i := Some (mkOldServiceCompletion reason message)]> |> in
      let user_service :=
        if decide (reason = MESSAGE_AVAILABLE)
        then user_service <| message_available_pos := isize insert |> else user_service in
      let c := c <| oc_insert := usize_add insert 1 |> in
      Ret (c <| oc_insert_event ::= sem_up |>, user_service)
  end.

(** What [service_callback] does to the completion queue and the record of the service. *)
Definition old_queue_received (reason : Reason) (message : SlotMessage)
    (c : OldCompletion) (u : OldUser) : outcome (OldCompletion * OldUser) :=
  let add_unless (skip : bool) (c : OldCompletion) (u : OldUser) :=
    if skip then Ret (c, u) else old_add_completion reason (Some message) c u in
  if is_vchi u then
    let full :=
      if msg_insert u =? usize_add (msg_remove u) MSG_QUEUE_SIZE then
        let r := if message_available_pos u <? isize (oc_remove c)
                 then old_add_completion reason None c u else Ret (c, u) in
        match r with
        | Ret (c, u) =>
            Ret (c, match sem_try_down (su_remove_event u) with
                    | Some e => u <| su_remove_event := e |>
                    | None => u
                    end)
        | o => o
        end
      else Ret (c, u) in
    match full with
    | Ret (c, u) =>
        let i := ring_index MSG_QUEUE_SIZE (msg_insert u) in
        match msg_queue u !! i with
        | None => Panic PUnwrap
        | Some _ =>
            let u := u <| msg_queue ::= <[i := Some message]> |>
                       <| msg_insert ::= fun n => usize_add n 1 |> in
            let skip := (isize (oc_remove c) <=? message_available_pos u) || dequeue_pending u in
            let u := if skip then u <| dequeue_pending := false |> else u in
            add_unless skip c (u <| su_insert_event ::= sem_up |>)
        end
    | o => o
    end
  else add_unless false c u.

(** [&mut service.borrow_mut().base.userdata]. *)
Definition old_get_user (service : nat) : M W OldUser :=
  let* s := get_service service in unwrap (userdata (base s)).
Definition set_userdata (u : OldUser) (s : Service) : Service :=
  s <| base ::= fun b => b <| userdata := Some u |> |>.
Definition old_set_user (service : nat) (u : OldUser) : M W unit :=
  upd_service service (set_userdata u).

Definition old_get_client : M W OldClient := gets w_client.
Definition old_upd_client (f : OldClient -> OldClient) : M W unit :=
  modify (fun w => w <| w_client ::= f |>).

Definition old_service_callback (service : nat) (reason : Reason) (message : SlotMessage)
  : M W (VchiqResult unit) :=
  let* u := old_get_user service in
  let* c := old_get_client in
  let* r := lift (old_queue_received reason message (oi_completion c) u) in
  let '(c, u) := r in
  old_upd_client (fun cl => cl <| oi_completion := c |>) ;;
  old_set_user service u ;;
  ret (Ok tt).

(** ** Operations *)

Definition OldInstance_connect : Async W (VchiqResult unit) :=
  await* c := astep old_get_client in
  if oi_connected c then Done (Err (EVchiq AlreadyConnected)) else
  await? _ := State_connect in
  await* _ := astep (old_upd_client (fun c => c <| oi_connected := true |> <| oi_handlers ::= S |>)) in
  Done (Ok tt).

(** [ServiceParams], whose user data is the record of the service. *)
Record OldServiceParams : Type := mkOldServiceParams {
  op_params_fourcc : FourCC;
  op_params_userdata : OldUser;
  op_params_version : Z;
  op_params_version_min : Z;
}.

Definition OldInstance_create_service {R : OpenPayloadRepr} (params : OldServiceParams) (open : bool)
  : Async W (VchiqResult ServiceHandle) :=
  await* c := astep old_get_client in
  let srv_state := if open then ServiceState.OPENING
                   else if oi_connected c then ServiceState.LISTENING else ServiceState.HIDDEN in
  let params := {| sp_fourcc := op_params_fourcc params;
                   sp_callback := Some old_service_callback_closure;
                   sp_userdata := Some (op_params_userdata params);
                   sp_version := op_params_version params;
                   sp_version_min := op_params_version_min params |} in
  await? srv_handle := astep (add_service params srv_state) in
  await? _ := (if open then open_service srv_handle else Done (Ok tt)) in
  Done (Ok srv_handle).

Definition OldInstance_open_service {R : OpenPayloadRepr} (params : OldServiceParams)
  : Async W (VchiqResult ServiceHandle) :=
  await* c := astep old_get_client in
  if oi_connected c then OldInstance_create_service params true
  else Done (Err (EVchiq NotConnected)).

Definition OldInstance_close_service (service : ServiceHandle) : Async W (VchiqResult unit) :=
  close_service service.

(** [queue_message]; [data] is the memory image of the value sent. *)
Definition OldInstance_queue_message (fuel : nat) (service : ServiceHandle) (data : list Z)
  : M W (VchiqResult unit) :=
  let? service := service_from_handle service in
  let* s := get_service service in
  queue_message fuel (Some service) (make_msg_id DATA (localport s) (remoteport s)) (Some data) false.

(** The closure [dequeue_message] polls. *)
Definition old_poll_dequeue (service : nat) : M W (option unit) :=
  let* u := old_get_user service in
  if msg_remove u =? msg_insert u then
    let u := u <| dequeue_pending := true |> in
    match sem_try_down (su_insert_event u) with
    | Some e =>
        let u := u <| su_insert_event := e |> in
        old_set_user service u ;;
        ret (if negb (msg_remove u =? msg_insert u) then Some tt else None)
    | None => old_set_user service u ;; ret None
    end
  else ret (Some tt).

(** What [dequeue_message] does once there is a message. *)
Definition old_take_message (service : nat) : M W (VchiqResult (list Z)) :=
  let* u := old_get_user service in
  if msg_insert u <? msg_remove u
  then ret (Err (EGeneric "user service msg_remove > msg_insert")) else
  let i := ring_index MSG_QUEUE_SIZE (msg_remove u) in
  let* entry := unwrap (msg_queue u !! i) in
  let* message := unwrap entry in
  old_set_user service (u <| msg_remove ::= fun n => usize_add n 1 |>
                          <| msg_queue ::= <[i := None]> |>
                          <| su_remove_event ::= sem_up |>) ;;
  ret (Ok (data message)).

(** [dequeue_message]; the code ignores its argument [max_data_to_read]. *)
Definition OldInstance_dequeue_message (service : ServiceHandle) (max_data_to_read : Z)
  : Async W (VchiqResult (list Z)) :=
  await? service := astep (service_from_handle service) in
  await* u := astep (old_get_user service) in
  if negb (is_vchi u) then Done (Err (EGeneric "called dequeue for is_vchi = false service")) else
  await* _ := Await (old_poll_dequeue service) Done in
  astep (old_take_message service).

(** [set_service_option]; [value] is an i32, which [as usize] extends with its sign. *)
Definition set_slot_quota (s : State) (value : Z) (srv_quota : ServiceQuota) : ServiceQuota :=
  let value := if value =? 0 then default_slot_quota s else usize value in
  if (slot_use_count srv_quota <=? value) && (value <? usize_max) then
    let srv_quota := srv_quota <| slot_quota := value |> in
    if message_use_count srv_quota <=? message_quota srv_quota
    then srv_quota <| quota_event ::= sem_up |> else srv_quota
  else srv_quota.
Definition set_message_quota (s : State) (value : Z) (srv_quota : ServiceQuota) : ServiceQuota :=
  let value := if value =? 0 then default_message_quota s else usize value in
  if (message_use_count srv_quota <=? value) && (value <? usize_max) then
    let srv_quota := srv_quota <| message_quota := value |> in
    if slot_use_count srv_quota <=? slot_quota srv_quota
    then srv_quota <| quota_event ::= sem_up |> else srv_quota
  else srv_quota.

Definition set_service_option (service : ServiceHandle) (option : ServiceOption) (value : Z)
  : M W (VchiqResult unit) :=
  let? service := service_from_handle service in
  let* s := get_service service in
  match option with
  | AUTOCLOSE => upd_service service (fun s => s <| auto_close := negb (value =? 0) |>)
  | SLOT_QUOTA =>
      let* q := get_quota in
      let* st := gets w_state in
      let* _ := unwrap (service_quotas q !! Z.to_nat (localport s)) in
      upd_service_quota (Z.to_nat (localport s)) (set_slot_quota st value)
  | MESSAGE_QUOTA =>
      let* q := get_quota in
      let* st := gets w_state in
      let* _ := unwrap (service_quotas q !! Z.to_nat (localport s)) in
      upd_service_quota (Z.to_nat (localport s)) (set_message_quota st value)
  | SYNCHRONOUS =>
      if bool_decide (srvstate s = ServiceState.HIDDEN) || bool_decide (srvstate s = ServiceState.LISTENING)
      then upd_service service (fun s => s <| sync := negb (value =? 0) |>)
      else ret tt
  | TRACE => upd_service service (fun s => s <| trace := negb (value =? 0) |>)
  end ;;
  ret (Ok tt).

Definition old_poll_completion : M W (option unit) :=
  let* cl := old_get_client in
  let c := oi_completion cl in
  if oc_remove c =? oc_insert c then
    match sem_try_down (oc_insert_event c) with
    | Some e => old_upd_client (fun cl => cl <| oi_completion ::= fun c => c <| oc_insert_event := e |> |>)
    | None => ret tt
    end ;;
    ret None
  else ret (Some tt).

(** The loop of [await_completion]. *)
Fixpoint old_take_completions (count : nat) (c : OldCompletion)
  : outcome (list OldServiceCompletion * OldCompletion) :=
  match count with
  | O => Ret ([], c)
  | S count =>
      let remove := oc_remove c in
      if remove =? oc_insert c then Ret ([], c) else
      let i := ring_index MAX_COMPLETIONS remove in
      match oc_completions c !! i with
      | Some (Some completion) =>
          let c := c <| oc_completions ::= <[i := None]> |> <| oc_remove := usize_add remove 1 |> in
          match old_take_completions count c with
          | Ret (result, c) => Ret (completion :: result, c)
          | o => o
          end
      | _ => Panic PUnwrap
      end
  end.

Definition OldInstance_await_completion (count : nat) : Async W (VchiqResult (list OldServiceCompletion)) :=
  await* cl := astep old_get_client in
  if negb (oi_connected cl) then Done (Err (EVchiq NotConnected)) else
  await* _ := Await old_poll_completion Done in
  astep (
    let* cl := old_get_client in
    let* r := lift (old_take_completions count (oi_completion cl)) in
    let '(result, c) := r in
    old_upd_client (fun cl => cl <| oi_completion := c |>) ;;
    ret (Ok result)).

(** [completion_handler], one poll of it: it polls a fresh [await_completion] for up to 8 completions,
    and the loop over them is empty.  [Some tt] is [Poll::Ready]. *)
Definition old_completion_handler : M W (option unit) :=
  let* r := poll (OldInstance_await_completion 8) in
  match r with
  | inr _ => ret None
  | inl (Ok data) => ret None
  | inl (Err e) => ret (Some tt)
  end.
End legacy_instance.
#[export] Existing Instances eta_OldCompletion eta_OldClient.
