(* ===== verification/LegacyStateOk.v ===== *)
(** The two versions of the central state compared: [src/state copy.rs] ([LegacyState]) against
    [src/vchiq/state.rs] and [src/vchiq/slothandler.rs] ([State], [SlotHandler]).

    [up] reads a world of the old version as one of the new version.  [same P m m' Q] says that [m]
    and [m'] do the same from related worlds; it composes along [bind], so that an operation is
    compared piece by piece. *)

From S2P Require Import Prelude Locks Memory Layout Types SlotMessage Event SlotZero Slot Service.
From S2P Require Import State SlotHandler Registry Stream Transmit Receive Boot Connection LegacyState.

Section legacy_ok.
Context {L : LockLib} {AM : AMutexLib} {AL : AMutexLaws AM} {CB : Callbacks} {C : Type}.
Variables (x : State) (c : C).

Notation MO := (M OldWorld).
Notation MN := (M (World C)).

(** What the old version does not have - the quota of all DATA messages and two events - is taken
    from [x]; the component on top is [c]. *)
Definition up_state (s : OldState) : State :=
  let i := old_inner s in
  {| initialized := old_initialized s;
     shm_ptr := in_shm_ptr i;
     shm_ptr_phys := in_shm_ptr_phys i;
     shm_ptr_layout := in_shm_ptr_layout i;
     slot_state := {|
       slot_zero := in_slot_zero i; slot_data := in_slot_data i;
       tx_data := in_tx_data i; rx_data := in_rx_data i;
       local_tx_pos := in_local_tx_pos i; rx_pos := in_rx_pos i |};
     conn_state := in_conn_state i;
     slot_queue_available := in_slot_queue_available i;
     poll_needed := in_poll_needed i;
     quota_state := {|
       previous_data_index := previous_data_index (quota_state x);
       data_use_count := data_use_count (quota_state x);
       data_quota := data_quota (quota_state x);
       service_quotas := in_service_quotas i |};
     srv_state := {| services := in_services i; unused_service := in_unused_service i |};
     default_slot_quota := in_default_slot_quota i;
     default_message_quota := in_default_message_quota i;
     connect_sem := old_connect s;
     slot_available_event := old_slot_available_event s;
     slot_remove_event := slot_remove_event x;
     data_quota_event := data_quota_event x |}.

Definition up (w : OldWorld) : World C :=
  mkWorld (up_state (o_state w)) (o_heap w) (o_hw w) (o_next_handle w) c.

Definition up_out {A} (o : outcome (A * OldWorld)) : outcome (A * World C) :=
  match o with
  | Ret (a, w) => Ret (a, up w)
  | Panic p => Panic p
  | Blocked => Blocked
  | OutOfFuel => OutOfFuel
  end.

Lemma Ret_pair_inj {A B} (a a' : A) (b b' : B) : Ret (a, b) = Ret (a', b') -> a = a' /\ b = b'.
Proof. by intros [= -> ->]. Qed.

Definition same {A} (P : OldWorld -> Prop) (m : MO A) (m' : MN A) (Q : A -> OldWorld -> Prop) : Prop :=
  forall w, P w -> m' (up w) = up_out (m w) /\ forall a w', m w = Ret (a, w') -> Q a w'.

Lemma same_ret {A} (P : OldWorld -> Prop) (a : A) (Q : A -> OldWorld -> Prop) :
  (forall w, P w -> Q a w) -> same P (ret a) (ret a) Q.
Proof. intros H w Hw. split; [done|]. intros ? ? [= <- <-]. by apply H. Qed.

Lemma same_raise {A} P p (Q : A -> OldWorld -> Prop) : same P (raise p) (raise p) Q.
Proof. by intros w _. Qed.

Lemma same_gets {A} P (f : OldWorld -> A) (g : World C -> A) :
  (forall w, g (up w) = f w) -> same P (gets f) (gets g) (fun a w => P w /\ a = f w).
Proof. intros H w Hw. split; [unfold gets; by rewrite H|]. by intros ? ? [= <- <-]. Qed.

Lemma same_modify P (f : OldWorld -> OldWorld) (g : World C -> World C) (Q : unit -> OldWorld -> Prop) :
  (forall w, P w -> g (up w) = up (f w) /\ Q tt (f w)) -> same P (modify f) (modify g) Q.
Proof.
  intros H w Hw. destruct (H w Hw) as [E HQ]. split; [unfold modify; cbn; by rewrite E|].
  by intros ? ? [= <- <-].
Qed.

Lemma same_lift {A} P (o : outcome A) : same P (lift o) (lift o) (fun a w => P w /\ o = Ret a).
Proof. intros w Hw. unfold lift. destruct o; split; try done. by intros ? ? [= <- <-]. Qed.

Lemma same_unwrap {A} P (o : option A) : same P (unwrap o) (unwrap o) (fun a w => P w /\ o = Some a).
Proof. destruct o as [a|]; [|apply same_raise]. intros w Hw. split; [done|]. by intros ? ? [= <- <-]. Qed.

Lemma same_index {A} P (l : list A) i : same P (index l i) (index l i) (fun _ => P).
Proof.
  unfold index. destruct (l !! _); [|apply same_raise].
  case_decide; [by apply same_ret|apply same_raise].
Qed.

Lemma same_assert P b : same P (assert b) (assert b) (fun _ => P).
Proof. destruct b; [by apply same_ret|apply same_raise]. Qed.

Lemma same_bind {A B} P (m : MO A) (m' : MN A) Q (k : A -> MO B) (k' : A -> MN B) R :
  same P m m' Q -> (forall a, same (Q a) (k a) (k' a) R) -> same P (bind m k) (bind m' k') R.
Proof.
  intros Hm Hk w Hw. destruct (Hm w Hw) as [E HQ]. unfold bind. rewrite E.
  destruct (m w) as [[a w']| | |] eqn:Em; cbn; [|split; [done|by intros ? ?]..].
  apply Hk. by apply HQ.
Qed.

Lemma same_bind_try {A B E} P (m : MO (Result A E)) (m' : MN (Result A E)) Q
    (k : A -> MO (Result B E)) (k' : A -> MN (Result B E)) R :
  same P m m' (fun r w => match r with Ok a => Q a w | Err e => R (Err e) w end) ->
  (forall a, same (Q a) (k a) (k' a) R) -> same P (bind_try m k) (bind_try m' k') R.
Proof.
  intros Hm Hk. eapply same_bind; [exact Hm|]. intros [a|e]; [apply Hk|by apply same_ret].
Qed.

Lemma same_conseq {A} P P' (m : MO A) (m' : MN A) (Q Q' : A -> OldWorld -> Prop) :
  same P m m' Q -> (forall w, P' w -> P w) -> (forall a w, Q a w -> Q' a w) -> same P' m m' Q'.
Proof. intros H HP HQ w Hw. destruct (H w (HP w Hw)) as [? HQ0]. split; [done|]. eauto. Qed.

Lemma same_post {A} P (m : MO A) (m' : MN A) (Q Q' : A -> OldWorld -> Prop) :
  same P m m' Q -> (forall a w, Q a w -> Q' a w) -> same P m m' Q'.
Proof. intros H HQ. by eapply same_conseq. Qed.

Lemma same_pre {A} P P' (m : MO A) (m' : MN A) (Q : A -> OldWorld -> Prop) :
  same P m m' Q -> (forall w, P' w -> P w) -> same P' m m' Q.
Proof. intros H HP. by eapply same_conseq. Qed.

(** ** Services and lookups *)

(** The parts of the old state that only the transmit side and the slot handler change. *)
Definition small (i : StateInner) : Prop :=
  0 <= in_local_tx_pos i < 2 ^ 31 /\ 0 <= in_rx_pos i < 2 ^ 31 /\
  0 <= in_slot_queue_available i <= 64.
Definition small_w (w : OldWorld) : Prop := small (old_inner (o_state w)).

Lemma same_get_service P l : same P (o_get_service l) (get_service l) (fun _ => P).
Proof.
  eapply same_bind; [by apply (same_gets P o_heap)|]. intros heap.
  eapply same_conseq; [apply (same_unwrap P)|by intros w []|by intros a w []].
Qed.

Lemma same_upd_service (P : OldWorld -> Prop) l f :
  (forall w s, P w -> P (w <| o_heap ::= <[l := s]> |>)) ->
  same P (o_upd_service l f) (upd_service l f) (fun _ => P).
Proof.
  intros HP. eapply same_bind; [apply same_get_service|]. intros s.
  apply same_modify. intros w Hw. split; [done|]. by apply HP.
Qed.

Lemma same_store (P : OldWorld -> Prop) pos n f f' :
  (forall w m, P w -> P (w <| o_hw ::= fun hw => hw <| hw_mem := m |> |>)) ->
  (forall q msg, f' q msg = Ret (f msg, q)) ->
  same P (o_store pos n f) (store pos n f') (fun _ => P).
Proof.
  intros HP Hf w Hw. unfold o_store, store, get_inner, get_slot, get_quota, o_get_mem, get_mem.
  rewrite !bind_gets. cbn -[store_message]. unfold bind, lift.
  unfold store_message. rewrite Hf. destruct (position_ok _ _); [|done]. cbn. split; [done|].
  intros ? ? [= <- <-]. by apply HP.
Qed.

Lemma same_assume {A} (P : OldWorld -> Prop) (phi : Prop) (m : MO A) (m' : MN A) Q :
  (forall w, P w -> phi) -> (phi -> same P m m' Q) -> same P m m' Q.
Proof. intros H1 H2 w Hw. by apply H2; [eapply H1|]. Qed.

(** What the new version reads with one more [gets], or from another record. *)
Lemma same_gets_r {A B} (P : OldWorld -> Prop) (m : MO A) (g : World C -> B) (k' : B -> MN A) Q :
  (forall v, same (fun w => P w /\ g (up w) = v) m (k' v) Q) -> same P m (bind (gets g) k') Q.
Proof. intros H w Hw. rewrite bind_gets. by apply H. Qed.

Definition slot_of (i : StateInner) : SlotState := {|
  slot_zero := in_slot_zero i; slot_data := in_slot_data i;
  tx_data := in_tx_data i; rx_data := in_rx_data i;
  local_tx_pos := in_local_tx_pos i; rx_pos := in_rx_pos i |}.
Definition srv_of (i : StateInner) : SrvState := mkSrvState (in_services i) (in_unused_service i).

Lemma same_get_slot {B} (P : OldWorld -> Prop) (k : StateInner -> MO B) (k' : SlotState -> MN B) Q :
  (forall i, same (fun w => P w /\ old_inner (o_state w) = i) (k i) (k' (slot_of i)) Q) ->
  same P (bind get_inner k) (bind get_slot k') Q.
Proof. intros H w Hw. unfold get_inner, get_slot. rewrite !bind_gets. by apply H. Qed.

Lemma same_get_srv {B} (P : OldWorld -> Prop) (k : StateInner -> MO B) (k' : SrvState -> MN B) Q :
  (forall i, same (fun w => P w /\ old_inner (o_state w) = i) (k i) (k' (srv_of i)) Q) ->
  same P (bind get_inner k) (bind get_srv k') Q.
Proof. intros H w Hw. unfold get_inner, get_srv. rewrite !bind_gets. by apply H. Qed.

Lemma same_get_mem P : same P o_get_mem get_mem (fun _ => P).
Proof. eapply same_post; [by apply (same_gets P (fun w => hw_mem (o_hw w)))|]. by intros m w []. Qed.

(** [reserve_space], as long as no position leaves the range of u32. *)
Lemma same_reserve_space space b :
  0 <= space < 2 ^ 30 + 16 ->
  same small_w (Inner_reserve_space space b) (reserve_space space b)
    (fun _ w => 0 <= in_local_tx_pos (old_inner (o_state w)) < 2 ^ 32).
Proof.
  intros Hs. apply same_get_slot. intros i. cbv zeta. cbn [local_tx_pos tx_data slot_of].
  apply (same_assume _ (small i)); [by intros w [Hw <-]|]. intros (Htx & _ & Hav).
  assert (0 <= Z.land (in_local_tx_pos i) VCHIQ_SLOT_MASK < 4096) as Hl
    by (rewrite (land_mask _ 12) by done; zdiv).
  set (sp := usize_sub VCHIQ_SLOT_SIZE _).
  assert (0 < sp <= 4096) as Hsp by (unfold sp; change VCHIQ_SLOT_SIZE with 4096; ints; lia).
  set (P := fun w => old_inner (o_state w) = i).
  apply (same_pre P); [|by intros w []].
  apply (same_bind _ _ _ (fun tx w => P w /\ 0 <= tx < 2 ^ 31 + 4096)).
  { destruct (sp <? space).
    - eapply (same_bind _ _ _ (fun _ => P)).
      { eapply same_post; [apply same_unwrap|]. by intros ? w []. }
      intros pos. eapply same_bind; [by apply (same_store P)|].
      intros []. unfold u32_add. ints. apply same_ret. intros w Hw. split; [done|lia].
    - apply same_ret. intros w Hw. split; [done|lia]. }
  intros tx. apply (same_assume _ (0 <= tx < 2 ^ 31 + 4096)); [by intros w []|]. intros Ht.
  apply (same_bind _ _ _ (fun _ => P)); [apply (same_pre P); [|by intros w []]|].
  { destruct (_ =? 0).
    - apply same_gets_r. intros v.
      apply (same_assume _ (slot_queue_available v = in_slot_queue_available i));
        [by intros w [Hw <-]; unfold P in Hw; cbn; rewrite Hw|]. intros ->.
      apply (same_pre P); [|by intros w []].
      unfold u32_mul. change (u32 VCHIQ_SLOT_SIZE) with 4096. change VCHIQ_SLOT_SIZE with 4096. ints.
      eapply same_bind; [apply same_assert|]. intros [].
      eapply same_bind; [apply same_get_mem|]. intros m.
      eapply same_bind; [apply same_index|]. intros j. by apply same_ret.
    - eapply same_bind; [apply same_unwrap|]. intros pos. apply same_ret. by intros w []. }
  intros pos. eapply (same_bind _ _ _ (fun _ w => 0 <= in_local_tx_pos (old_inner (o_state w)) < 2 ^ 32)).
  { apply same_modify. intros w Hw. unfold u32_add. ints. split; [done|]. cbn. lia. }
  intros []. by apply same_ret.
Qed.

Lemma same_assoc_r {A B D} (P : OldWorld -> Prop) (m : MO D) (m' : MN A) (k : A -> MN B) (h : B -> MN D) Q :
  same P m (bind m' (fun a => bind (k a) h)) Q -> same P m (bind (bind m' k) h) Q.
Proof. intros H w Hw. rewrite bind_assoc. by apply H. Qed.

(** Sending, once the lock is held: everything but DATA. *)
Lemma same_queue_message_locked service t id cx b :
  t <> DATA -> match cx with Some cx => Z.of_nat (length cx) | None => 0 end < 2 ^ 30 ->
  same small_w (queue_message_locked service t id cx b) (queue_message_rest service t id cx b)
    (fun _ _ => True).
Proof.
  intros Ht Hl. unfold queue_message_locked, queue_message_rest. cbv zeta.
  set (n := match cx with Some cx => _ | None => 0 end) in *.
  assert (0 <= n) by (unfold n; destruct cx; lia).
  assert (0 <= calc_msg_stride n < 2 ^ 30 + 16) by (rewrite calc_msg_stride_val by lia; zdiv).
  rewrite decide_False by done. intros w0 Hw0.
  rewrite (bind_try_Ok _ _ w0 tt w0 eq_refl). revert w0 Hw0.
  apply (same_bind_try _ _ _ (fun _ w => 0 <= in_local_tx_pos (old_inner (o_state w)) < 2 ^ 32)).
  { eapply same_post; [by apply same_reserve_space|]. by intros [pos|e] w Hw. }
  intros pos. set (P := fun w => 0 <= _ < 2 ^ 32).
  apply (same_gets_r P). intros ss. apply same_gets_r. intros heap. apply (same_pre P); [|by intros w [[] ?]].
  eapply same_bind; [apply (same_store P); [done|]|].
  { intros q msg. unfold fill_message. by rewrite decide_False by done. }
  intros []. unfold publish at 1. apply same_assoc_r, same_get_slot. intros i. cbn [slot_of local_tx_pos slot_zero].
  apply (same_assume _ (0 <= in_local_tx_pos i < 2 ^ 32)); [by intros w [Hw <-]|]. intros Hi. ints.
  apply same_assoc_r. eapply same_bind; [by apply (same_modify _ _ _ (fun _ _ => True))|]. intros [].
  apply same_assoc_r. apply (same_bind _ _ _ (fun _ _ => True)).
  { destruct service as [l|]; [|by apply same_ret].
    destruct (decide (t = CLOSE)); [|by apply same_ret]. by apply same_upd_service. }
  intros []. eapply same_bind; [by apply (same_modify _ _ _ (fun _ _ => True))|]. intros []. by apply same_ret.
Qed.

(** ** The mutex *)

Definition lock_free (w : OldWorld) : Prop := amutex_held (old_lock (o_state w)) = false.
Definition locked_w (w : OldWorld) : OldWorld :=
  w <| o_state ::= fun s => s <| old_lock ::= fun a => (amutex_poll_lock a).2 |> |>.
Definition unlocked_w (w : OldWorld) : OldWorld :=
  w <| o_state ::= fun s => s <| old_lock ::= amutex_unlock |> |>.

Lemma up_locked w : up (locked_w w) = up w.
Proof. done. Qed.
Lemma up_unlocked w : up (unlocked_w w) = up w.
Proof. done. Qed.
Lemma unlocked_free w : lock_free (unlocked_w w).
Proof. apply amutex_unlock_law. Qed.

Lemma poll_lock_Ret w :
  poll_lock w = Ret (if amutex_held (old_lock (o_state w)) then None else Some tt, locked_w w).
Proof.
  unfold poll_lock. rewrite bind_gets. destruct (amutex_poll_lock_law (old_lock (o_state w))) as [H1 _].
  unfold locked_w. cbn [update].
  destruct (amutex_poll_lock (old_lock (o_state w))) as [b a] eqn:E. cbn in H1. subst b.
  unfold upd_old. rewrite bind_modify. unfold ret. cbn [update]. do 2 f_equal.
  by destruct (amutex_held _).
Qed.

Lemma run_with_lock {A} env (m : MO A) w :
  lock_free w ->
  run_with env (with_lock m) w =
    match m (locked_w w) with
    | Ret (a, w') => Ret (Some a, unlocked_w w')
    | Panic p => Panic p
    | Blocked => Blocked
    | OutOfFuel => OutOfFuel
    end.
Proof.
  intros Hl. unfold lock_free in Hl.
  assert (poll (with_lock m) w = match m (locked_w w) with
    | Ret (a, w') => Ret (inl a, unlocked_w w')
    | Panic p => Panic p | Blocked => Blocked | OutOfFuel => OutOfFuel end) as E.
  { cbn. unfold bind at 1. rewrite poll_lock_Ret, Hl. cbn. unfold bind. by destruct (m _) as [[? ?]| | |]. }
  destruct env; cbn [run_with]; unfold bind at 1; rewrite E; by destruct (m _) as [[? ?]| | |].
Qed.

(** A run of the old version that ends, or goes wrong, the way the new version does; the lock is
    free again when it ends. *)
Definition agrees {A} (o : outcome (option A * OldWorld)) (o' : outcome (A * World C)) : Prop :=
  match o, o' with
  | Ret (Some a, w), Ret (a', w') => a' = a /\ w' = up w /\ lock_free w
  | Panic p, Panic p' => p = p'
  | Blocked, Blocked => True
  | OutOfFuel, OutOfFuel => True
  | _, _ => False
  end.

Lemma run_locked_agrees {A} (P : OldWorld -> Prop) (m : MO A) (m' : MN A) Q env w :
  same P m m' Q -> lock_free w -> P (locked_w w) -> agrees (run_with env (with_lock m) w) (m' (up w)).
Proof.
  intros H Hl HP. rewrite run_with_lock by done. destruct (H _ HP) as [E _].
  rewrite up_locked in E. rewrite E. destruct (m (locked_w w)) as [[a w']| | |]; cbn; try done.
  split; [done|]. split; [done|]. apply unlocked_free.
Qed.

Lemma old_queue_message_agrees (fuel : nat) (service : option nat) (id : Z) (cx : option (list Z))
    (b : bool) env (w : OldWorld) :
  lock_free w -> small_w w -> msg_type_from_id id <> Ret DATA ->
  match cx with Some cx => Z.of_nat (length cx) | None => 0 end < 2 ^ 30 ->
  agrees (run_with env (Inner_queue_message service id cx b) w)
         (queue_message fuel service id cx b (up w)).
Proof.
  intros Hl Hw Ht Hn. unfold Inner_queue_message, queue_message.
  destruct (msg_type_from_id id) as [t|p| |] eqn:Et.
  - rewrite (run_with_step _ _ _ _ t w) by done. erewrite bind_Ret by reflexivity. cbv beta.
    cbv zeta. rewrite decide_False by congruence. rewrite (bind_try_Ok _ _ _ tt (up w)) by done.
    eapply run_locked_agrees; [apply same_queue_message_locked; [congruence|done]|done|done].
  - by destruct env.
  - by destruct env.
  - by destruct env.
Qed.

(** ** The slot handler *)

Section handler.
Context {H : CallbackHost C} {HL : CallbackLaws C}.

Lemma same_service_by_port P port :
  same P (Inner_service_by_port port) (service_by_port port) (fun _ => P).
Proof.
  apply same_get_srv. intros i. apply (same_pre P); [|by intros w []].
  eapply same_bind; [apply same_index|]. intros [l|]; [|by apply same_ret].
  eapply same_bind; [apply same_get_service|]. intros s. case_decide; by apply same_ret.
Qed.

Lemma same_message_service P t lp rp :
  same P (Inner_message_service t lp rp) (message_service t lp rp) (fun _ => P).
Proof.
  destruct t; try (by apply same_ret); (eapply same_bind; [apply same_service_by_port|]);
    intros [l|]; try apply same_raise; try by apply same_ret.
  eapply same_bind; [apply same_get_service|]. intros s.
  destruct (_ && _ && _); [apply same_raise|by apply same_ret].
Qed.

(** The messages that both versions handle alike. *)
Definition unchanged (t : MessageType) : Prop := t <> CLOSE /\ t <> DATA.

Definition heap_free (P : OldWorld -> Prop) : Prop :=
  forall w f, P w -> P (w <| o_heap ::= f |>).

Lemma same_handle_openack P l rp message :
  heap_free P -> same P (Inner_handle_openack l rp message) (handle_openack l rp message) (fun _ => P).
Proof.
  intros HP. assert (forall f, same P (o_upd_service l f) (upd_service l f) (fun _ => P)) as Hu.
  { intros f. apply same_upd_service. intros w s Hw. by apply HP. }
  eapply (same_bind _ _ _ (fun _ => P)).
  { destruct (OpenAckPayload_try_from message); [apply Hu|by apply same_ret]. }
  intros []. eapply same_bind; [apply same_get_service|]. intros s. case_decide; [|by apply same_ret].
  eapply same_bind; [apply Hu|]. intros []. eapply same_bind; [apply Hu|]. intros []. apply Hu.
Qed.

Lemma same_dispatch P t l rp message :
  unchanged t -> heap_free P -> (forall w f, P w -> P (w <| o_state ::= fun s => s <| old_connect ::= f |> |>)) ->
  same P (Inner_dispatch t l rp message) (dispatch t l rp message) (fun _ => P).
Proof.
  intros [H1 H2] HP Hc. destruct t; try done; try apply same_raise; try by apply same_ret.
  - apply same_modify. intros w Hw. split; [done|by apply Hc].
  - eapply (same_bind _ _ _ (fun _ => P)); [eapply same_post; [apply same_unwrap|by intros ? w []]|].
    intros s. by apply same_handle_openack.
Qed.

Lemma same_current_rx tx P :
  (forall w p, P w -> P (w <| o_state ::= fun s => s <| old_inner ::= fun i => i <| in_rx_data := p |> |> |>)) ->
  same P (Inner_current_rx tx) (current_rx tx) (fun _ => P).
Proof.
  intros HP. apply same_get_slot. intros i. apply (same_pre P); [|by intros w []]. cbn [rx_data slot_of].
  destruct (in_rx_data i); [by apply same_ret|]. cbv zeta.
  eapply same_bind; [apply same_get_mem|]. intros m. eapply same_bind; [apply same_index|]. intros j.
  apply (same_bind _ _ _ (fun _ => P)); [|intros []; by apply same_ret].
  apply same_modify. intros w Hw. split; [done|by apply HP].
Qed.

Lemma same_advance_rx pos size :
  0 <= size < 2 ^ 32 -> 0 <= calc_msg_stride size < 2 ^ 32 ->
  same (fun w => 0 <= in_rx_pos (old_inner (o_state w)) /\
                 in_rx_pos (old_inner (o_state w)) + calc_msg_stride size < 2 ^ 32)
    (Inner_advance_rx pos size) (advance_rx pos size) (fun _ _ => True).
Proof.
  intros Hs Hst. apply same_modify. intros w [H1 H2]. split; [|done].
  unfold up. cbn. unfold u32_add. ints. by destruct (_ =? 0).
Qed.

(** One round, for a message that is handled alike. *)
Lemma same_handle_message tx pos message msgs w0 t :
  rx_ready pos (message :: msgs) (up w0) -> rx_at tx pos (up w0) ->
  msg_type_from_id (msgid (header message)) = Ret t -> unchanged t ->
  same (fun w => w = w0) (Inner_handle_message tx) (handle_message tx) (fun _ _ => True).
Proof.
  intros Hr Hat Ht Hu. pose proof (current_rx_Ret tx pos (up w0) Hat) as Ec.
  destruct Hr as [Hok [Ho0 Hom] Hroom [Hr0 Hr1] Hfits [Hmsg _]].
  apply Forall_cons_1 in Hfits as [Hf Hfits]. pose proof (stream_len_nonneg _ Hfits) as Hnn.
  cbn [stream_len foldr] in Hroom, Hr1. fold (stream_len msgs) in Hroom, Hr1.
  pose proof (stride_bounds _ Hf) as [Hb _].
  unfold Inner_handle_message, handle_message.
  set (P := fun w => in_rx_pos (old_inner (o_state w)) = in_rx_pos (old_inner (o_state w0)) /\
    in_slot_data (old_inner (o_state w)) = in_slot_data (old_inner (o_state w0)) /\
    hw_mem (o_hw w) = hw_mem (o_hw w0)).
  apply (same_bind _ _ _ (fun a w => P w /\ a = pos)).
  { intros w ->. destruct (same_current_rx tx P ltac:(done) w0 ltac:(done)) as [E HQ].
    split; [exact E|]. intros a w' Ew. split; [by eapply HQ|].
    rewrite Ew, Ec in E. by injection E. }
  intros pos'. apply (same_assume _ (pos' = pos)); [by intros w []|]. intros ->.
  apply (same_pre P); [|by intros w []]. apply same_get_slot. intros i.
  apply (same_assume _ (in_slot_data i = in_slot_data (old_inner (o_state w0)))).
  { by intros w [(_ & Hw & _) <-]. }
  intros Hsd. apply (same_pre P); [|by intros w []].
  apply (same_bind _ _ _ (fun m w => P w /\ m = hw_mem (o_hw w0))).
  { eapply same_post; [by apply (same_gets P (fun w => hw_mem (o_hw w)))|]. by intros m w [(? & ? & ?) ->]. }
  intros m. apply (same_assume _ (m = hw_mem (o_hw w0))); [by intros w []|]. intros ->.
  apply (same_pre P); [|by intros w []]. cbn [slot_data slot_of]. rewrite Hsd.
  assert (read_message (in_slot_data (old_inner (o_state w0))) pos (hw_mem (o_hw w0)) = Ret message)
    as -> by exact (read_message_at _ _ _ message Hok (proj1 Hf) Hmsg).
  eapply (same_bind _ _ _ (fun d w => P w /\ Ret message = Ret d)); [apply same_lift|]. intros d.
  apply (same_assume _ (d = message)); [intros w [_ E]; by injection E|]. intros ->.
  apply (same_pre P); [|by intros w []]. rewrite Ht.
  eapply (same_bind _ _ _ (fun d w => P w /\ Ret t = Ret d)); [apply same_lift|]. intros d.
  apply (same_assume _ (d = t)); [intros w [_ E]; by injection E|]. intros ->.
  apply (same_pre P); [|by intros w []]. cbv zeta.
  eapply same_bind; [apply same_message_service|]. intros s.
  eapply (same_bind _ _ _ (fun _ => P)); [apply (same_dispatch P); [done|..]; unfold heap_free, P; naive_solver|]. intros [].
  destruct Hf as [(_ & Hsz & Hlen) _]. unfold is_u32 in Hsz.
  assert (calc_msg_stride (msg_size (header message)) = stride message) as Est by (by rewrite Hlen).
  eapply same_pre; [apply same_advance_rx; rewrite ?Est; lia|].
  intros w (E & _). rewrite E, Est. cbn in Hr0, Hr1. lia.
Qed.

(** The loop, over messages that are handled alike. *)
Lemma handle_messages_agree msgs : forall fuel pos w,
  rx_ready pos msgs (up w) -> (length msgs <= fuel)%nat ->
  let tx := rx_pos (slot_state (w_state (up w))) + stream_len msgs in
  rx_at tx pos (up w) ->
  Forall (fun message => exists t, msg_type_from_id (msgid (header message)) = Ret t /\ unchanged t) msgs ->
  handle_messages fuel tx (up w) = up_out (Inner_handle_messages fuel tx w).
Proof.
  induction msgs as [|message msgs IH]; intros fuel pos w Hr Hf tx Hat Hu.
  { unfold tx. cbn [stream_len foldr]. rewrite Z.add_0_r.
    destruct fuel; cbn [handle_messages Inner_handle_messages]; unfold get_slot, get_inner;
      rewrite !bind_gets; cbn [slot_state w_state up up_state rx_pos]; by rewrite Z.eqb_refl. }
  apply Forall_cons_1 in Hu as [(t & Ht & Hu) Hus].
  destruct fuel as [|fuel]; [cbn in Hf; lia|]. cbn [handle_messages Inner_handle_messages].
  unfold get_slot, get_inner. rewrite !bind_gets.
  pose proof Hr as [_ _ _ [Hr0 Hr1] Hfits _]. apply Forall_cons_1 in Hfits as [Hfit Hfits].
  pose proof (stride_bounds _ Hfit) as [Hb _]. pose proof (stream_len_nonneg _ Hfits) as Hnn.
  unfold tx in *. cbn [stream_len foldr] in *. fold (stream_len msgs) in *.
  change (in_rx_pos (old_inner (o_state w))) with (rx_pos (slot_state (w_state (up w)))).
  rewrite (proj2 (Z.eqb_neq _ _)) by lia.
  destruct (same_handle_message _ pos message msgs w t Hr Hat Ht Hu w eq_refl) as [E _].
  unfold bind. rewrite E.
  destruct (Inner_handle_message _ w) as [[[] w1]| | |] eqn:E1; [|done..]. cbn [up_out] in E |- *.
  rewrite (handle_message_Ret _ pos message msgs) in E by done.
  apply bind_Ret_inv in E as (u & w2 & Ep & Em). apply process_rx in Ep.
  unfold move_rx, upd_slot, upd_state, modify in Em. apply Ret_pair_inj in Em as [_ Em].
  assert (rx_pos (slot_state (w_state (up w1))) = rx_pos (slot_state (w_state (up w))) + stride message) as Hp.
  { rewrite <- Em. cbn. by rewrite (rx_frame_slot _ _ Ep). }
  rewrite Z.add_assoc, <- Hp. destruct (decide (msgs = [])) as [->|Hne].
  { cbn [stream_len foldr]. rewrite Z.add_0_r.
    destruct fuel; cbn [handle_messages Inner_handle_messages]; unfold get_slot, get_inner;
      rewrite !bind_gets; cbn [slot_state w_state up up_state rx_pos]; by rewrite Z.eqb_refl. }
  pose proof (rx_ready_next pos message msgs (up w) w2 Hr Ep Hne) as [Hr' Hd']. cbv zeta in Hr', Hd'.
  match type of Hd' with rx_data (slot_state (w_state ?y)) = _ => assert (y = up w1) as Ey end.
  { rewrite <- Em. cbn [update]. rewrite (rx_frame_slot _ _ Ep). reflexivity. }
  rewrite Ey in Hr', Hd'.
  apply (IH fuel _ w1 Hr'); [cbn in Hf; lia|by apply rx_at_Some|done].
Qed.
End handler.

(** ** Closing *)

Lemma same_service_from_handle P h :
  same P (Inner_service_from_handle h) (service_from_handle h) (fun _ => P).
Proof.
  apply same_get_srv. intros i. apply (same_pre P); [|by intros w []].
  eapply same_bind; [eapply same_post; [by apply (same_gets P o_heap)|]|].
  { intros heap w [Hw _]. exact Hw. }
  intros heap. cbn [services srv_of]. by destruct (find_handle _ _ _); apply same_ret.
Qed.

Lemma Inner_service_from_handle_Ret h w r :
  service_from_handle h (up w) = Ret (r, up w) ->
  exists w', Inner_service_from_handle h w = Ret (r, w') /\ w' = w.
Proof.
  intros E. destruct (same_service_from_handle (fun w' => w' = w) h w eq_refl) as [Es HQ].
  rewrite E in Es. destruct (Inner_service_from_handle h w) as [[r' w']| | |] eqn:Ew; try done.
  cbn in Es. apply Ret_pair_inj in Es as [-> _]. exists w'. split; [done|]. by eapply HQ.
Qed.

Lemma o_get_service_Ret l w s : o_heap w !! l = Some s -> o_get_service l w = Ret (s, w).
Proof. intros E. unfold o_get_service. rewrite bind_gets, E. done. Qed.

Definition o_with_service (w : OldWorld) (l : nat) (s : Service) : OldWorld :=
  w <| o_heap ::= <[l := s]> |>.

Lemma o_upd_service_bind {A} l f (k : unit -> MO A) w s :
  o_heap w !! l = Some s -> bind (o_upd_service l f) k w = k tt (o_with_service w l (f s)).
Proof. intros E. unfold o_upd_service. rewrite bind_assoc. by erewrite bind_Ret by by apply o_get_service_Ret. Qed.

Definition o_quota_raised (w : OldWorld) (port : nat) : OldWorld :=
  w <| o_state ::= fun s => s <| old_inner ::= fun i => i <| in_service_quotas ::=
    alter (fun q => q <| quota_event ::= sem_up |>) port |> |> |>.

Lemma close_service_locked_Ret w l s :
  in_use (up w) l s -> srvstate s = ServiceState.OPEN \/ srvstate s = ServiceState.CLOSESENT ->
  close_service_locked (handle s) w =
    Ret (Ok l, o_quota_raised (o_with_service w l (s <| closing := true |>)) (Z.to_nat (localport s))).
Proof.
  intros Hu Hst. destruct (Inner_service_from_handle_Ret (handle s) w (Ok l)) as (w' & E & ->);
    [by apply in_use_by_handle|].
  unfold close_service_locked. rewrite (bind_try_Ok _ _ _ _ _ E).
  destruct (in_use_port _ _ _ Hu) as [_ Hp]. pose proof (use_inv _ _ _ Hu) as Hi.
  pose proof (use_service _ _ _ Hu) as Hh. change (w_heap (up w)) with (o_heap w) in Hh.
  erewrite bind_Ret by by apply o_get_service_Ret.
  set (rest := bind (o_upd_service l _) _). transitivity (rest w); [by destruct Hst as [-> | ->]|].
  unfold rest. erewrite o_upd_service_bind by done. unfold get_inner. rewrite bind_gets.
  pose proof (inv_quotas _ Hi) as Hq. cbn in Hq. cbn [o_state o_with_service update].
  destruct (lookup_lt_is_Some_2 (in_service_quotas (old_inner (o_state w))) (Z.to_nat (localport s)))
    as [q Eq]. { rewrite Hq. change (Z.to_nat VCHIQ_MAX_SERVICES) with (Z.to_nat 4096). lia. }
  rewrite Eq. unfold unwrap. rewrite bind_ret_l. done.
Qed.

(** The CLOSE message of the old version, through that of the new one. *)
Lemma Inner_queue_close_Ret a msgs w l s :
  tx_stream a msgs (up w) -> stream_len msgs < area_count a * 4096 -> lock_free w -> small_w w ->
  o_heap w !! l = Some s -> 0 <= localport s < 4096 -> 0 <= remoteport s < 4096 ->
  reg_inv (up w) -> srvstate s = ServiceState.OPEN ->
  exists w', run_with [] (Inner_queue_close l) w = Ret (Some (Ok tt), w') /\ lock_free w' /\
    reg_inv (up w') /\ tx_stream a (msgs ++ [control_message CLOSE (localport s) (remoteport s)]) (up w') /\
    o_heap w' !! l = Some (set_state ServiceState.CLOSESENT s).
Proof.
  intros Hs Hlt Hl Hsm Hh Hp Hr Hi Hst. set (id := make_msg_id CLOSE (localport s) (remoteport s)).
  assert (msg_type_from_id id = Ret CLOSE) as Et by by apply make_msg_id_fields.
  destruct (queue_message_stream a msgs (up w) 0 (Some l) id None false CLOSE)
    as (w2 & E & Hs2 & _ & _ & _ & Hheap & _); try done.
  { split; [done|]. split; [done|]. intros l' [= <-] _. by exists s. }
  { by apply control_fits. }
  { by apply (room_8 _ _ _ Hs). }
  assert (Z.land (remoteport s) 4095 = remoteport s) as Hland
    by (rewrite (land_mask _ 12) by lia; apply Z.mod_small; lia).
  assert (reg_inv w2) as Hi2.
  { destruct (queue_close_inv l (up w) s (Ok tt) w2 Hi Hh) as [[? _] _]; [by right| |done].
    unfold queue_close. erewrite bind_Ret by (apply get_service_Ret; exact Hh). by rewrite Hland. }
  pose proof (old_queue_message_agrees 0 (Some l) id None false [] w Hl Hsm) as Ha.
  rewrite E in Ha. rewrite Et in Ha. specialize (Ha ltac:(done) ltac:(done)).
  unfold Inner_queue_close. rewrite (run_with_step _ _ _ _ s w) by by apply o_get_service_Ret. cbv beta.
  rewrite Hland. destruct (run_with [] _ w) as [[[r|] w']| | |]; try done. destruct Ha as (<- & -> & Hl').
  exists w'. split_and!; try done. change (o_heap w') with (w_heap (up w')). rewrite Hheap.
  unfold sent_heap. rewrite decide_True by done. rewrite list_lookup_alter_eq.
  change (w_heap (up w)) with (o_heap w). by rewrite Hh.
Qed.

Lemma old_close_sent (a : Area) (msgs : list SlotMessage) (w : OldWorld) (l : nat) (s : Service) :
  tx_stream a msgs (up w) -> stream_len msgs < area_count a * 4096 -> lock_free w -> small_w w ->
  in_use (up w) l s -> srvstate s = ServiceState.OPEN -> 0 <= remoteport s < 4096 ->
  exists w', run_with [] (Inner_close_service (handle s)) w = Ret (Some (Ok tt), w') /\ lock_free w' /\
    reg_inv (up w') /\ tx_stream a (msgs ++ [control_message CLOSE (localport s) (remoteport s)]) (up w') /\
    o_heap w' !! l = Some (closing_sent s).
Proof.
  intros Hs Hlt Hl Hsm Hu Hst Hr. destruct (in_use_port _ _ _ Hu) as [_ Hp].
  set (s1 := s <| closing := true |>).
  set (w1 := unlocked_w (o_quota_raised (o_with_service (locked_w w) l s1) (Z.to_nat (localport s)))).
  pose proof (use_service _ _ _ Hu) as Hh. change (w_heap (up w)) with (o_heap w) in Hh.
  assert (o_heap w1 !! l = Some s1) as Hh1.
  { cbn. apply list_lookup_insert_eq. by eapply lookup_lt_Some. }
  assert (reg_inv (up w1)) as Hi1.
  { apply (reg_step_preorder.(PreOrder_Transitive) (up w) (with_service (up w) l s1) (up w1)); [| |apply Hu].
    - apply (with_service_step _ _ s); [done|]. svc_step.
    - apply io_frame_step, (quota_raised_frame (with_service (up w) l s1)). }
  destruct (Inner_queue_close_Ret a msgs w1 l s1) as (w2 & E2 & Hl2 & Hi2 & Hs2 & Hh2); try done.
  { by apply (tx_stream_frame a msgs (up w)). }
  { apply unlocked_free. }
  assert (o_heap w2 !! l = Some (closing_sent s)) as Hh2' by exact Hh2.
  exists (o_with_service w2 l (closing_sent s)). split; [|split; [done|split; [|split]]].
  - unfold Inner_close_service, abind_try at 1. erewrite run_with_abind_now.
    2: { rewrite run_with_lock by done. by rewrite (close_service_locked_Ret (locked_w w) l s) by tauto. }
    cbv beta iota. fold s1 w1. rewrite (run_with_step _ _ _ _ s1 w1) by by apply o_get_service_Ret.
    cbv beta. change (srvstate s1) with (srvstate s). rewrite Hst. cbv iota.
    unfold abind_try. erewrite run_with_abind_now.
    2: { erewrite run_with_abind_now by exact E2. cbv beta iota.
         rewrite (run_with_step _ _ _ _ tt (o_with_service w2 l (closing_sent s))); [done|].
         unfold o_upd_service. erewrite bind_Ret by (apply o_get_service_Ret; exact Hh2). done. }
    done.
  - apply (with_service_step (up w2) l (closing_sent s)); [done| |done]. svc_step.
  - by apply (tx_stream_frame _ _ (up w2)).
  - cbn. apply list_lookup_insert_eq. by eapply lookup_lt_Some.
Qed.

(** ** Waiting with the lock *)

Section waiting.
Context {LL : LockLaws L}.

Definition trigger_of (w : OldWorld) : EventAccessor LocalEvent :=
  trigger (local (in_slot_zero (old_inner (o_state w)))).

(** The trigger, at address [p], was not fired, and nothing raised its semaphore. *)
Definition untriggered (p : Z) (w : OldWorld) : Prop :=
  ev_inner (trigger_of w) = p /\ fired (trigger_of w) (hw_mem (o_hw w)) = 0 /\
  exists e, ev_event (trigger_of w) = Some e /\ permits e = 0.

(** [handle_slots] has the lock and waits for the trigger. *)
Definition waiting (p : Z) (w : OldWorld) : Prop :=
  amutex_held (old_lock (o_state w)) = true /\ untriggered p w.

(** What happens elsewhere meanwhile. *)
Definition idle (p : Z) (m : MO unit) : Prop :=
  forall w, waiting p w -> exists w', m w = Ret (tt, w') /\ waiting p w'.

Lemma poll_trigger_waits env p w :
  untriggered p w -> (forall m, agree (env m) m p (size_of Event_t)) ->
  exists w', poll_trigger env w = Ret (None, w') /\ untriggered p w' /\
    old_lock (o_state w') = old_lock (o_state w) /\
    old_initialized (o_state w') = old_initialized (o_state w).
Proof.
  intros (Hp & Hf & e & He & Hz) Henv. unfold poll_trigger, get_inner. rewrite !bind_gets.
  fold (trigger_of w). set (ev := trigger_of w) in *.
  assert (forall m, fired ev (env m) = fired ev m) as Hfa by (intros m; apply fired_agree; rewrite Hp; apply Henv).
  assert (poll_with (on_memory env) Event_poll (mkEventWorld ev (o_hw w)) =
    Ret (inl None, mkEventWorld ev ((o_hw w) <| hw_mem ::= fun m => env (env (env (set_armed ev 1 (env m)))) |>))) as E.
  { unfold Event_poll, astep, load_fired, store_armed, event_try_down. cbn [abind poll_with].
    rewrite bind_gets, bind_modify. cbn -[fired set_armed]. rewrite Hf. cbn -[fired set_armed].
    unfold bind at 1, modify at 1. cbn -[fired set_armed].
    rewrite !Hfa, fired_set_armed, Hfa, Hf. cbn -[fired set_armed]. unfold bind at 1.
    cbn -[fired set_armed]. by rewrite He, try_down_none. }
  rewrite E. unfold lift. cbn -[fired set_armed].
  eexists. split; [done|]. split; [|done]. split; [done|]. split; [|by exists e].
  etransitivity; [|exact Hf]. cbn -[fired set_armed]. by rewrite !Hfa, fired_set_armed, Hfa.
Qed.

Lemma poll_lock_waits p w : waiting p w -> exists w', poll_lock w = Ret (None, w') /\ waiting p w'.
Proof.
  intros [Hh Hu]. rewrite poll_lock_Ret, Hh. eexists. split; [done|]. split; [|exact Hu].
  apply amutex_poll_lock_law.
Qed.

(** Whoever needs the lock is pending for as long as that lasts. *)
Lemma run_lock_waits {A} p (k : unit -> Async OldWorld A) acts : forall w,
  waiting p w -> Forall (idle p) acts ->
  exists w', run_with acts (Await poll_lock k) w = Ret (None, w') /\ waiting p w'.
Proof.
  induction acts as [|act acts IH]; intros w Hw Ha;
    destruct (poll_lock_waits p w Hw) as (w1 & E & Hw1); cbn [run_with];
    unfold bind at 1; rewrite (poll_Await_pending _ _ _ _ E).
  - by exists w1.
  - apply Forall_cons_1 in Ha as [Hact Ha]. destruct (Hact w1 Hw1) as (w2 & E2 & Hw2).
    unfold bind. rewrite E2. by apply IH.
Qed.

Lemma old_connect_waits fuel env p w :
  lock_free w -> old_initialized (o_state w) = true -> untriggered p w ->
  (forall m, agree (env m) m p (size_of Event_t)) ->
  exists rest w1, poll (handle_slots fuel env) w = Ret (inr rest, w1) /\ waiting p w1 /\
    (forall w2, waiting p w2 -> exists w3, poll rest w2 = Ret (inr rest, w3) /\ waiting p w3) /\
    forall acts, Forall (idle p) acts ->
      exists w', run_with acts Old_connect w1 = Ret (None, w') /\ waiting p w'.
Proof.
  intros Hl Hi (Hp & Hf & e & He & Hz) Henv. unfold lock_free in Hl.
  set (w0 := (locked_w w) <| o_hw ::= fun hw => hw <| hw_mem ::= set_armed (trigger_of w) 1 |> |>).
  assert (untriggered p w0) as Hu0.
  { split; [exact Hp|]. split; [|by exists e]. etransitivity; [apply fired_set_armed|exact Hf]. }
  destruct (poll_trigger_waits env p w0 Hu0 Henv) as (w1 & E1 & Hu1 & Hl1 & Hi1).
  assert (waiting p w1) as Hw1.
  { split; [|exact Hu1]. rewrite Hl1. apply amutex_poll_lock_law. }
  eexists _, w1. split; [|split; [exact Hw1|split]].
  - unfold handle_slots, astep. cbn [abind]. rewrite (poll_Await_ready poll_lock _ _ tt (locked_w w))
      by (by rewrite poll_lock_Ret, Hl).
    rewrite (poll_Step arm_trigger _ _ tt w0) by done.
    by apply poll_Await_pending.
  - intros w2 [Hh2 Hu2]. destruct (poll_trigger_waits env p w2 Hu2 Henv) as (w3 & E3 & Hu3 & Hl3 & _).
    exists w3. split; [by apply poll_Await_pending|]. split; [by rewrite Hl3|exact Hu3].
  - intros acts Ha. unfold Old_connect. rewrite (run_with_step _ _ _ _ (o_state w1) w1) by done.
    cbv beta. assert (old_initialized (o_state w1) = true) as ->; [by rewrite Hi1|].
    by apply run_lock_waits.
Qed.
End waiting.

(** ** The two versions compared *)

(** C38: sending is as before, but for DATA.  With the lock free, positions below 2^31
    and a payload below 2^30 bytes, a [queue_message] of the old version for any message that is not
    DATA ends as that of today does - with the same result, or the same
    panic - and leaves the same memory, positions, services and doorbell; the lock is free again.  A
    DATA message was not implemented: without a service it is refused, with one it panics. *)
Theorem old_queue_message_same (fuel : nat) (service : option nat) (id : Z) (cx : option (list Z))
    (b : bool) (env : list (MO unit)) (w : OldWorld) :
  lock_free w -> small_w w -> match cx with Some cx => Z.of_nat (length cx) | None => 0 end < 2 ^ 30 ->
  (msg_type_from_id id <> Ret DATA ->
   agrees (run_with env (Inner_queue_message service id cx b) w)
          (queue_message fuel service id cx b (up w))) /\
  (msg_type_from_id id = Ret DATA ->
   run_with env (Inner_queue_message service id cx b) w =
     match service with
     | Some _ => Panic PUnimplemented
     | None => Ret (Some (Err (EVchiq DataMessageWithoutService)), unlocked_w (locked_w w))
     end).
Proof.
  intros Hl Hw Hn. split; [by intros Ht; apply old_queue_message_agrees|].
  intros Ht. unfold Inner_queue_message. rewrite Ht.
  rewrite (run_with_step _ _ _ _ DATA w) by done. cbv beta. rewrite run_with_lock by done.
  unfold queue_message_locked. cbv zeta. rewrite decide_True by done. by destruct service.
Qed.

(** A DATA message for a service is not implemented. *)
Lemma Inner_current_rx_up tx pos w :
  rx_at tx pos (up w) -> exists w1, Inner_current_rx tx w = Ret (pos, w1) /\ up w1 = at_slot pos (up w).
Proof.
  intros Hat. destruct (same_current_rx tx (fun _ => True) ltac:(done) w I) as [E _].
  rewrite (current_rx_Ret tx pos (up w) Hat) in E.
  destruct (Inner_current_rx tx w) as [[p w1]| | |]; try done. cbn [up_out] in E.
  apply Ret_pair_inj in E as [-> E]. by exists w1.
Qed.

Lemma Inner_handle_message_data tx pos l s src d msgs w :
  rx_ready pos (vc_message DATA src (localport s) d :: msgs) (up w) -> rx_at tx pos (up w) ->
  in_use (up w) l s -> 0 <= src < 4096 -> Inner_handle_message tx w = Panic PUnimplemented.
Proof.
  intros [Hok _ _ _ Hfits [Hmsg _]] Hat Hu Hsrc.
  destruct (Inner_current_rx_up tx pos w Hat) as (w1 & E & Eu).
  apply Forall_cons_1 in Hfits as [[Hwf _] _]. set (message := vc_message _ _ _ _) in *.
  assert (read_message (in_slot_data (old_inner (o_state w1))) pos (hw_mem (o_hw w1)) = Ret message) as Er.
  { change (read_message (slot_data (slot_state (w_state (up w1)))) pos (hw_mem (w_hw (up w1))) = Ret message).
    rewrite Eu. exact (read_message_at _ _ _ message Hok Hwf Hmsg). }
  destruct (in_use_port _ _ _ Hu) as [_ Hp].
  destruct (make_msg_id_fields DATA src (localport s) Hsrc Hp) as (Et & _ & Ed).
  assert (in_use (up w1) l s) as Hu1.
  { rewrite Eu. destruct Hu as [Hi Hh Hst]. split; [|done..]. by destruct Hi. }
  assert (exists w2, Inner_service_by_port (localport s) w1 = Ret (Some l, w2)) as (w2 & Es).
  { destruct (same_service_by_port (fun _ => True) (localport s) w1 I) as [Es _].
    rewrite (in_use_by_port _ _ _ Hu1) in Es.
    destruct (Inner_service_by_port _ w1) as [[o w2]| | |]; try done. cbn [up_out] in Es.
    apply Ret_pair_inj in Es as [-> _]. by exists w2. }
  unfold Inner_handle_message. erewrite bind_Ret by exact E. unfold get_inner, o_get_mem.
  rewrite !bind_gets, Er. erewrite bind_Ret by reflexivity. cbv beta.
  change (msgid (header message)) with (make_msg_id DATA src (localport s)). rewrite Et.
  erewrite bind_Ret by reflexivity. cbv beta zeta. rewrite Ed. cbn [Inner_message_service].
  rewrite bind_assoc. by erewrite bind_Ret by exact Es.
Qed.

Section handler_theorem.
Context {H : CallbackHost C} {HL : CallbackLaws C}.

(** C39: the slot handler is as before, but for CLOSE and DATA.  For messages of any other kind that lie
    between the two positions, in one slot, [parse_rx_slots] does to the old state what
    [slot_handler] does to the state of today: it handles the same messages with the same effects,
    panics where that panics, and ends at the same position.  If the first of the
    messages is DATA for a service in use, it panics. *)
Theorem old_handler_same (w : OldWorld) (pos : SlotPosition) (msgs : list SlotMessage) (fuel : nat) :
  let tx := in_rx_pos (old_inner (o_state w)) + stream_len msgs in
  tx_pos (remote (in_slot_zero (old_inner (o_state w)))) (hw_mem (o_hw w)) = tx ->
  rx_ready pos msgs (up w) -> rx_at tx pos (up w) -> (length msgs <= fuel)%nat ->
  (Forall (fun message => exists t, msg_type_from_id (msgid (header message)) = Ret t /\ unchanged t) msgs ->
   slot_handler fuel true (up w) = up_out (parse_rx_slots fuel w)) /\
  (forall l s src d rest, msgs = vc_message DATA src (localport s) d :: rest -> 0 <= src < 4096 ->
   in_use (up w) l s -> parse_rx_slots fuel w = Panic PUnimplemented).
Proof.
  intros tx Htx Hr Hat Hf. split.
  - intros Hu. unfold slot_handler, parse_rx_slots, get_slot, get_inner, get_mem, o_get_mem.
    rewrite !bind_gets. cbn [slot_state w_state up up_state slot_zero w_hw]. rewrite Htx.
    by apply (handle_messages_agree msgs fuel pos w).
  - intros l s src d rest -> Hsrc Hu. destruct fuel as [|fuel]; [cbn in Hf; lia|].
    pose proof Hr as [_ _ _ _ Hfits _]. apply Forall_cons_1 in Hfits as [Hfit Hfits].
    pose proof (stride_bounds _ Hfit) as [Hb _]. pose proof (stream_len_nonneg _ Hfits) as Hnn.
    unfold parse_rx_slots, get_inner, o_get_mem. rewrite !bind_gets, Htx. cbn [Inner_handle_messages].
    unfold get_inner. rewrite bind_gets, (proj2 (Z.eqb_neq _ _)).
    2: { unfold tx. cbn [stream_len foldr]. fold (stream_len rest). lia. }
    unfold bind. by rewrite (Inner_handle_message_data tx pos l s src d rest w Hr Hat Hu Hsrc).
Qed.
End handler_theorem.

(** Closing is not completed.  [close_service] of the old version on an open service queues the CLOSE
    message and returns Ok at once, the service being in CLOSESENT.  When the answer comes, the
    handler marks the service as closing and wakes senders that wait for its quota, but leaves it in
    CLOSESENT: it is never freed, nobody learns that it is closed, and a second [close_service]
    panics on a [todo!()].  (Today the answer frees the service and the caller waits for that.) *)
Lemma old_close_unanswered (a : Area) (msgs : list SlotMessage) (w : OldWorld) (l : nat) (s : Service) :
  tx_stream a msgs (up w) -> stream_len msgs < area_count a * 4096 -> lock_free w -> small_w w ->
  in_use (up w) l s -> srvstate s = ServiceState.OPEN -> 0 <= remoteport s < 4096 ->
  exists w1, run_with [] (Inner_close_service (handle s)) w = Ret (Some (Ok tt), w1) /\ lock_free w1 /\
    tx_stream a (msgs ++ [control_message CLOSE (localport s) (remoteport s)]) (up w1) /\
    o_heap w1 !! l = Some (closing_sent s) /\
    (exists w2, Inner_handle_close l w1 = Ret (tt, w2) /\ o_heap w2 !! l = Some (closing_sent s)) /\
    run_with [] (Inner_close_service (handle s)) w1 = Panic PTodo.
Proof.
  intros Hs Hlt Hl Hsm Hu Hst Hr. destruct (in_use_port _ _ _ Hu) as [_ Hp].
  destruct (old_close_sent a msgs w l s) as (w1 & E1 & Hl1 & Hi1 & Hs1 & Hh1); try done.
  assert (in_use (up w1) l (closing_sent s)) as Hu1 by by split.
  exists w1. split_and!; try done.
  - pose proof (inv_quotas _ Hi1) as Hq. cbn in Hq.
    destruct (lookup_lt_is_Some_2 (in_service_quotas (old_inner (o_state w1))) (Z.to_nat (localport s)))
      as [q Eq]. { rewrite Hq. change (Z.to_nat VCHIQ_MAX_SERVICES) with (Z.to_nat 4096). lia. }
    eexists. split.
    + unfold Inner_handle_close. erewrite o_upd_service_bind by exact Hh1.
      erewrite bind_Ret.
      2: { apply o_get_service_Ret. cbn. apply list_lookup_insert_eq. by eapply lookup_lt_Some. }
      unfold get_inner. rewrite bind_gets. cbn [o_state o_with_service update localport closing_sent set_state].
      erewrite bind_Ret; [reflexivity|]. unfold index. rewrite Eq. by rewrite decide_True by lia.
    + cbn. apply list_lookup_insert_eq. by eapply lookup_lt_Some.
  - unfold Inner_close_service, abind_try at 1. erewrite run_with_abind_now.
    2: { rewrite run_with_lock by done.
         change (handle s) with (handle (closing_sent s)).
         by rewrite (close_service_locked_Ret (locked_w w1) l (closing_sent s)) by tauto. }
    cbv beta iota. erewrite run_with_step.
    2: { apply o_get_service_Ret. cbn. apply list_lookup_insert_eq. by eapply lookup_lt_Some. }
    reflexivity.
Qed.

(** A slow VideoCore locks everybody out.  [handle_slots] takes the lock of the whole state and keeps it
    while it awaits the trigger.  When it is polled before the VideoCore fired the trigger, it stays
    pending with the lock; and until the trigger is fired a [connect] never gets any further, in
    particular never sends the CONNECT message, however often both are polled and whatever else
    happens.  (Today the handler gives the lock up in every round.) *)
Lemma old_connect_starves {LL : LockLaws L} (fuel : nat) (env : mem -> mem) (p : Z) (w : OldWorld) :
  lock_free w -> old_initialized (o_state w) = true -> untriggered p w ->
  (forall m, agree (env m) m p (size_of Event_t)) ->
  exists rest w1, poll (handle_slots fuel env) w = Ret (inr rest, w1) /\ waiting p w1 /\
    (forall w2, waiting p w2 -> exists w3, poll rest w2 = Ret (inr rest, w3) /\ waiting p w3) /\
    forall acts, Forall (idle p) acts ->
      exists w', run_with acts Old_connect w1 = Ret (None, w') /\ waiting p w'.
Proof. intros Hl Hi Hu Henv. by apply old_connect_waits. Qed.

(** ** Adding a service *)

Lemma first_unused_all_used services : forall i,
  Forall is_Some services -> first_unused i services = None.
Proof. induction services as [|[s|] services IH]; intros i; inversion 1; [done|by apply IH|by destruct H2]. Qed.

Lemma find_unused_None st n : find_unused st (map Some (seq 0 n)) = None.
Proof.
  assert (Forall is_Some (map (@Some nat) (seq 0 n))) as Ha
    by (apply List.Forall_forall; intros o (i & <- & _)%in_map_iff; by exists i).
  unfold find_unused. case_decide; apply first_unused_all_used; [done|by apply Forall_rev].
Qed.

Lemma old_add_service_Ret env (params : ServiceParams) (st : ServiceState.t) (w : OldWorld) :
  lock_free w -> small_w w -> reg_inv (up w) -> Z.of_nat (length (o_heap w)) < VCHIQ_MAX_SERVICES ->
  exists w', run_with env (Inner_add_service params st) w = Ret (Some (Ok (o_next_handle w)), w') /\
    lock_free w' /\
    o_heap w' = o_heap w ++ [set_state st
      ((if decide (st = ServiceState.OPENING)
        then (Service_new params (o_next_handle w)) <| public_fourcc := None |>
        else Service_new params (o_next_handle w)) <| localport := Z.of_nat (length (o_heap w)) |>)] /\
    (st = ServiceState.OPENING -> up w' = with_new_service params (up w)).
Proof.
  intros Hl Hsm [Hc Hs Hu _ _ Hq] Hn. cbn in Hc, Hs, Hu, Hq. change VCHIQ_MAX_SERVICES with 4096 in *.
  unfold Inner_add_service. erewrite run_with_step.
  2: { unfold add_service_new. rewrite bind_gets, bind_modify. reflexivity. }
  set (s0 := if decide _ then _ else _). cbv beta.
  assert (handle s0 = o_next_handle w) as Hh by (unfold s0; by case_decide).
  set (w0 := w <| o_next_handle := _ |>). rewrite run_with_lock by done.
  unfold add_service_insert, get_inner. rewrite bind_gets.
  change (old_inner (o_state (locked_w w0))) with (old_inner (o_state w)).
  rewrite Hs, Hu, length_app, length_map, length_seq, length_replicate, (proj2 (Z.ltb_ge _ _)) by lia.
  rewrite Nat2Z.id, take_app_length' by by rewrite length_map, length_seq.
  rewrite bind_ret_l, find_unused_None, (proj2 (Z.ltb_lt _ _)) by done.
  erewrite bind_Ret.
  2: { unfold index. rewrite Nat2Z.id, lookup_app_r, lookup_replicate_2, decide_True
         by (rewrite ?length_map, ?length_seq; lia). reflexivity. }
  rewrite bind_gets, bind_modify. unfold upd_inner, upd_old. rewrite !bind_modify. unfold ret at 1.
  cbv beta iota. eexists. split; [rewrite Hh; reflexivity|]. split; [apply unlocked_free|]. split; [done|].
  intros ->. destruct Hsm as (Htx & _ & _).
  assert (u32_add (in_unused_service (old_inner (o_state w))) 1 = Z.of_nat (length (o_heap w)) + 1) as E1
    by (rewrite Hu; unfold u32_add; by ints).
  assert (forall tx, 0 <= tx < 2 ^ 31 -> i32 (i32 (slot_queue_index_from_pos tx) - 1) =
            isize (isize (slot_queue_index_from_pos tx) - 1)) as E2.
  { intros tx Ht. unfold slot_queue_index_from_pos. change VCHIQ_SLOT_SIZE with 4096.
    assert (0 <= tx / 4096 < 2 ^ 19) by zdiv. ints. unfold i32. rewrite !Z.mod_small; try lia.
    rewrite Z.mod_small; lia. }
  specialize (E2 _ Htx). unfold up, with_new_service, up_state.
  cbn -[Z.of_nat Z.to_nat insert list_insert alter list_alter seq map replicate i32 isize].
  rewrite Nat2Z.id, E1, E2. reflexivity.
Qed.

(** Adding a service.  For a service to be opened the old [add_service] did what that of today does, as
    long as there is room; where today any other state panics, it entered the service in that
    state.  A full table is an error, with another value than today's. *)
Lemma old_add_service_same (env : list (MO unit)) (params : ServiceParams) (st : ServiceState.t)
    (w : OldWorld) :
  lock_free w -> small_w w -> reg_inv (up w) ->
  (Z.of_nat (length (o_heap w)) < VCHIQ_MAX_SERVICES ->
   exists w', run_with env (Inner_add_service params st) w = Ret (Some (Ok (o_next_handle w)), w') /\
     lock_free w' /\
     (exists s, o_heap w' = o_heap w ++ [s] /\ srvstate s = st /\ handle s = o_next_handle w /\
        localport s = Z.of_nat (length (o_heap w))) /\
     (st = ServiceState.OPENING ->
        add_service params st (up w) = Ret (Ok (o_next_handle w), up w'))) /\
  (Z.of_nat (length (o_heap w)) = VCHIQ_MAX_SERVICES ->
   exists w', run_with env (Inner_add_service params st) w =
     Ret (Some (Err (EGeneric "unable to add a new service")), w') /\ lock_free w' /\ o_heap w' = o_heap w).
Proof.
  intros Hl Hsm Hi. split; intros Hn.
  - destruct (old_add_service_Ret env params st w Hl Hsm Hi Hn) as (w' & E & Hl' & Hh & Hup).
    exists w'. split; [done|]. split; [done|]. split.
    + eexists. split; [exact Hh|]. split; [done|]. split; [by case_decide|done].
    + intros ->. rewrite Hup by done. by apply add_service_Ok.
  - destruct Hi as [Hc Hs Hu _ _ Hq]. cbn in Hc, Hs, Hu, Hq. change VCHIQ_MAX_SERVICES with 4096 in *.
    unfold Inner_add_service. erewrite run_with_step.
    2: { unfold add_service_new. rewrite bind_gets, bind_modify. reflexivity. }
    cbv beta. rewrite run_with_lock by done. unfold add_service_insert, get_inner. rewrite bind_gets.
    set (w0 := w <| o_next_handle := _ |>).
    change (old_inner (o_state (locked_w w0))) with (old_inner (o_state w)).
    rewrite Hs, Hu, length_app, length_map, length_seq, length_replicate, (proj2 (Z.ltb_ge _ _)) by lia.
    rewrite Nat2Z.id, take_app_length' by by rewrite length_map, length_seq.
    rewrite bind_ret_l, find_unused_None, (proj2 (Z.ltb_ge _ _)) by (change VCHIQ_MAX_SERVICES with 4096; lia).
    eexists. split; [done|]. split; [apply unlocked_free|done].
Qed.
End legacy_ok.

(** Every world of today is that of an old world with a free lock. *)
Section down.
Context {L : LockLib} {AM : AMutexLib} {AL : AMutexLaws AM} {CB : Callbacks} {C : Type}.

Definition down (w : World C) : OldWorld :=
  let s := w_state w in
  let ss := slot_state s in
  {| o_state := {|
       old_initialized := State.initialized s;
       old_connect := connect_sem s;
       old_slot_available_event := slot_available_event s;
       old_lock := amutex_new;
       old_inner := {|
         in_shm_ptr := shm_ptr s; in_shm_ptr_phys := shm_ptr_phys s;
         in_shm_ptr_layout := shm_ptr_layout s;
         in_slot_zero := slot_zero ss; in_slot_data := slot_data ss;
         in_conn_state := conn_state s;
         in_tx_data := tx_data ss; in_rx_data := rx_data ss;
         in_local_tx_pos := local_tx_pos ss; in_rx_pos := rx_pos ss;
         in_slot_queue_available := slot_queue_available s;
         in_services := services (srv_state s); in_unused_service := unused_service (srv_state s);
         in_service_quotas := service_quotas (quota_state s);
         in_default_slot_quota := default_slot_quota s;
         in_default_message_quota := default_message_quota s;
         in_poll_needed := poll_needed s |} |};
     o_heap := w_heap w; o_hw := w_hw w; o_next_handle := w_next_handle w |}.

Lemma up_down (w : World C) : up (w_state w) (w_client w) (down w) = w.
Proof. by destruct w as [[? ? ? ? [] ? ? ? [] [] ? ? ? ? ? ?] ? ? ? ?]. Qed.

Lemma down_free (w : World C) : lock_free (down w).
Proof. apply amutex_new_law. Qed.
End down.

(** ** Starting up *)

Section boot.
Context {L : LockLib} {AM : AMutexLib} {AL : AMutexLaws AM} {CB : Callbacks}.
Context {P : Platform} {PL : PlatformLaws P}.

(** Both versions start alike: [State::new] leaves the same memory, and the same state. *)
Lemma old_new_same (m : mem) :
  exists o s m', Old_new m = Ret (Ok o, m') /\ State_new m = Ret (Ok s, m') /\
    up_state s o = s /\ small (old_inner o) /\ amutex_held (old_lock o) = false.
Proof.
  destruct (State_new_Ret m) as (s & m' & E & Hb). pose proof (boot_available _ _ _ Hb) as Hav.
  pose proof E as E0. unfold Old_new, Inner_new. unfold State_new in E. cbv zeta in E |- *.
  destruct (Layout_from_size_align _ _) as [layout|]; [|discriminate].
  destruct (negb _); [discriminate|].
  destruct (initialize _ m) as [[[n sz] m1]| | |]; try discriminate.
  apply Ret_pair_inj in E as [E <-]. apply (f_equal (fun r => match r with Ok s => s | Err _ => s end)) in E.
  cbv beta iota in E. rewrite <- E in Hav. cbn [slot_queue_available] in Hav.
  unfold u32_add, u32_sub. rewrite Hav in E |- *.
  eexists _, s, _. split; [reflexivity|]. split; [exact E0|]. rewrite <- E. split; [|split].
  - reflexivity.
  - unfold small. cbn. lia.
  - apply amutex_new_law.
Qed.
End boot.
