(* ===== verification/LegacyInstanceOk.v ===== *)
(** The two versions of the instance compared: [src/instance.rs] and [src/completionhandler.rs]
    ([LegacyInstance]) against [src/vchiq/instance/mod.rs] and [src/vchi/completion.rs] ([Instance],
    [Vchi]).  The completion queue and the record of a service are the same data but for the user data
    in them; [old_comp] and [new_user] are the conversions. *)

From S2P Require Import Prelude Locks Memory Layout Types SlotMessage Event SlotZero Slot Service.
From S2P Require Import State SlotHandler Completion Instance Registry Queues LegacyInstance.

Section legacy_instance_ok.
Context {L : LockLib} {U : Type}.

Definition old_entry (e : ServiceCompletion) : OldServiceCompletion :=
  mkOldServiceCompletion (reason e) (msg e).
Definition old_comp (c : Completion) : OldCompletion :=
  mkOldCompletion (completion_insert c) (completion_remove c) (insert_event c) (remove_event c)
    (map (fmap old_entry) (completions c)).
Definition new_user (ud : option nat) (u : OldUser (U := U)) : ServiceUser := {|
  su_userdata := ud;
  is_vchi := is_vchi u;
  dequeue_pending := dequeue_pending u;
  close_pending := close_pending u;
  message_available_pos := message_available_pos u;
  msg_insert := msg_insert u;
  msg_remove := msg_remove u;
  su_insert_event := su_insert_event u;
  su_remove_event := su_remove_event u;
  close_event := close_event u;
  msg_queue := msg_queue u;
|}.

(** The outcome on the old data, as one on the data of today. *)
Definition user_agrees (ud : option nat) (o : outcome (OldCompletion * OldUser (U := U)))
    (o' : outcome (Completion * ServiceUser)) : Prop :=
  match o, o' with
  | Ret (c, u), Ret (c', u') => c = old_comp c' /\ u' = new_user ud u
  | Panic p, Panic p' => p = p'
  | _, _ => False
  end.

Lemma old_comp_lookup c i :
  oc_completions (old_comp c) !! i = fmap old_entry <$> completions c !! i.
Proof. apply list_lookup_fmap. Qed.

Lemma old_comp_insert c i e :
  <[i := fmap old_entry e]> (oc_completions (old_comp c)) = map (fmap old_entry) (<[i := e]> (completions c)).
Proof. symmetry. apply list_fmap_insert. Qed.

Lemma add_completion_agrees reason message c ud u :
  user_agrees ud (old_add_completion reason message (old_comp c) u)
    (add_completion reason message c (new_user ud u)).
Proof.
  unfold old_add_completion, add_completion. cbv zeta.
  change (oc_insert (old_comp c)) with (completion_insert c).
  change (oc_remove (old_comp c)) with (completion_remove c).
  change (oc_remove_event (old_comp c)) with (remove_event c).
  set (c0 := if MAX_COMPLETIONS <=? _ then _ else c).
  match goal with |- context [oc_completions ?c1 !! _] => assert (c1 = old_comp c0) as -> end.
  { unfold c0. destruct (_ <=? _); [|done]. by destruct (sem_try_down _). }
  rewrite old_comp_lookup. set (i := ring_index _ _).
  destruct (completions c0 !! i) as [e|]; [|done]. cbn [fmap option_fmap option_map].
  split; [|by case_decide].
  pose proof (old_comp_insert c0 i (Some (mkServiceCompletion reason message ud))) as Ei.
  unfold old_comp at 2. cbn -[insert list_insert map] in Ei |- *. rewrite <- Ei. reflexivity.
Qed.

(** Receiving does the same to both. *)
Lemma old_queue_received_agrees reason message c ud u :
  user_agrees ud (old_queue_received reason message (old_comp c) u)
    (queue_received reason (Some message) c (new_user ud u)).
Proof.
  unfold old_queue_received, queue_received. cbv zeta.
  change (is_vchi (new_user ud u)) with (is_vchi u). destruct (is_vchi u); [|apply add_completion_agrees].
  change (msg_insert (new_user ud u)) with (msg_insert u).
  change (msg_remove (new_user ud u)) with (msg_remove u).
  change (message_available_pos (new_user ud u)) with (message_available_pos u).
  change (oc_remove (old_comp c)) with (completion_remove c).
  match goal with |- user_agrees _ (match ?f with _ => _ end) (match ?g with _ => _ end) =>
    set (full := f); set (full' := g) end.
  assert (user_agrees ud full full') as Hf.
  { unfold full, full'. destruct (_ =? _); [|done].
    assert (user_agrees ud
      (if message_available_pos u <? isize (completion_remove c)
       then old_add_completion reason None (old_comp c) u else Ret (old_comp c, u))
      (if message_available_pos u <? isize (completion_remove c)
       then add_completion reason None c (new_user ud u) else Ret (c, new_user ud u))) as Ha
      by (destruct (_ <? _); [apply add_completion_agrees|done]).
    match type of Ha with user_agrees _ ?f ?g =>
      destruct f as [[c1 u1]| | |], g as [[c2 u2]| | |]; try done end.
    destruct Ha as [-> ->]. split; [done|]. cbn. by destruct (sem_try_down _). }
  clearbody full full'. destruct full as [[c1 u1]| | |], full' as [[c2 u2]| | |]; try done.
  destruct Hf as [-> ->]. cbn [new_user msg_insert msg_queue].
  destruct (msg_queue u1 !! _); [|done].
  change (oc_remove (old_comp c2)) with (completion_remove c2).
  set (v := u1 <| msg_queue ::= _ |> <| msg_insert ::= _ |>).
  set (v' := (new_user ud u1) <| msg_queue ::= _ |> <| msg_insert ::= _ |>).
  assert (v' = new_user ud v) as -> by done.
  change (message_available_pos (new_user ud v)) with (message_available_pos v).
  change (dequeue_pending (new_user ud v)) with (dequeue_pending v).
  destruct (_ || _); [done|].
  match goal with |- user_agrees _ (old_add_completion _ _ _ ?v1) _ =>
    exact (add_completion_agrees reason (Some message) c2 ud v1) end.
Qed.

Lemma old_take_completions_agrees count : forall c,
  match take_completions count c with
  | Ret (result, c') =>
      old_take_completions count (old_comp c) = Ret (map old_entry result, old_comp c')
  | Panic p => old_take_completions count (old_comp c) = Panic p
  | _ => False
  end.
Proof.
  induction count as [|count IH]; intros c; cbn [take_completions old_take_completions]; [done|].
  change (oc_insert (old_comp c)) with (completion_insert c).
  change (oc_remove (old_comp c)) with (completion_remove c).
  destruct (_ =? _); [done|]. rewrite old_comp_lookup. set (i := ring_index _ _).
  destruct (completions c !! i) as [[e|]|]; cbn [fmap option_fmap option_map]; [|done..].
  match goal with |- context [old_take_completions count ?c1] =>
    match goal with |- context [take_completions count ?c2] =>
      assert (c1 = old_comp c2) as -> end end.
  { pose proof (old_comp_insert c i None) as Ei. unfold old_comp at 2.
    cbn -[insert list_insert map] in Ei |- *. rewrite <- Ei. reflexivity. }
  match goal with |- context [take_completions count ?c2] => specialize (IH c2);
    destruct (take_completions count c2) as [[r c']| | |]; try done; by rewrite IH end.
Qed.

(** ** Two worlds in step *)

Section worlds.
Context {X : Type}.
Notation WO := (@World L (@old_callbacks L U) OldClient).
Notation WN := (@World L instance_callbacks (Client X)).

(** Service [l] has the same record in both, in the service itself and in box [ud], and the completion
    queues hold the same. *)
Record in_step (l ud : nat) (w : WO) (w' : WN) : Prop := {
  step_old : exists s u d, w_heap w !! l = Some s /\ userdata (base s) = Some u /\
    user_data (w_client w') !! ud = Some (AnyServiceUser (new_user d u));
  step_new : exists s, w_heap w' !! l = Some s /\ userdata (base s) = Some ud;
  step_comp : oi_completion (w_client w) = old_comp (completion (w_client w'));
  step_connected : oi_connected (w_client w) = connected (w_client w');
}.

(** Calls that do the same: results related by [RA], and worlds in step again. *)
Definition calls_agree {A B} (l ud : nat) (RA : A -> B -> Prop) (o : outcome (A * WO)) (o' : outcome (B * WN))
  : Prop :=
  match o, o' with
  | Ret (a, w), Ret (b, w') => RA a b /\ in_step l ud w w'
  | Panic p, Panic p' => p = p'
  | _, _ => False
  end.

Lemma calls_agree_bind {A B A' B'} l ud (RA : A -> B -> Prop) (RB : A' -> B' -> Prop)
    (m : M WO A) (m' : M WN B) (k : A -> M WO A') (k' : B -> M WN B') w w' :
  calls_agree l ud RA (m w) (m' w') ->
  (forall a b w w', RA a b -> in_step l ud w w' -> calls_agree l ud RB (k a w) (k' b w')) ->
  calls_agree l ud RB (bind m k w) (bind m' k' w').
Proof.
  intros Hm Hk. unfold bind.
  destruct (m w) as [[a w1]| | |], (m' w') as [[b w1']| | |]; try done.
  destruct Hm as [Ha Hst]. by apply Hk.
Qed.

Lemma old_get_user_Ret l (w : WO) s u :
  w_heap w !! l = Some s -> userdata (base s) = Some u -> old_get_user l w = Ret (u, w).
Proof.
  intros Hs Hu. unfold old_get_user. erewrite bind_Ret by by apply get_service_Ret. by rewrite Hu.
Qed.

Lemma old_set_user_Ret l (w : WO) s u :
  w_heap w !! l = Some s ->
  old_set_user l u w = Ret (tt, with_service w l (set_userdata u s)).
Proof. apply upd_service_Ret. Qed.

(** Storing the record on both sides, and the completion queue as well. *)
Lemma in_step_set_user l ud w w' s u d :
  in_step l ud w w' -> w_heap w !! l = Some s ->
  in_step l ud (with_service w l (set_userdata u s)) (with_user w' ud (new_user d u)).
Proof.
  intros [(s0 & u0 & d0 & Hs & Hu & Hud) (s' & Hs' & Hu') Hc Hcon] Hl. split.
  - exists (set_userdata u s), u, d. split; [by eapply with_service_lookup|]. split; [done|].
    cbn. apply list_lookup_insert_eq. by eapply lookup_lt_Some.
  - by exists s'.
  - done.
  - done.
Qed.

Lemma get_user_step l ud w w' s u d :
  in_step l ud w w' -> w_heap w !! l = Some s -> userdata (base s) = Some u ->
  user_data (w_client w') !! ud = Some (AnyServiceUser (new_user d u)) ->
  old_get_user l w = Ret (u, w) /\ get_user ud w' = Ret (new_user d u, w').
Proof.
  intros Hst Hs Hu Hud. split; [by eapply old_get_user_Ret|]. by apply get_user_Ret.
Qed.

Lemma set_user_Ret ud (w' : WN) u : set_user ud u w' = Ret (tt, with_user w' ud u).
Proof. done. Qed.

Lemma in_step_set_comp l ud w w' c :
  in_step l ud w w' ->
  in_step l ud (w <| w_client ::= fun cl => cl <| oi_completion := old_comp c |> |>)
    (w' <| w_client ::= fun cl => cl <| completion := c |> |>).
Proof. by intros [? ? ? ?]. Qed.

(** Receiving. *)
Lemma service_callback_step l ud reason message w w' :
  in_step l ud w w' ->
  calls_agree l ud eq (old_service_callback l reason message w)
    (service_callback reason (Some message) l w').
Proof.
  intros Hst. destruct (id Hst) as [(s & u & d & Hs & Hu & Hud) (s' & Hs' & Hu') Hc Hcon].
  unfold old_service_callback, service_callback.
  erewrite (bind_Ret (old_get_user l)) by by eapply old_get_user_Ret.
  unfold old_get_client. rewrite bind_gets, Hc.
  erewrite (bind_Ret (get_service l)) by by apply get_service_Ret. rewrite Hu'.
  erewrite (bind_Ret (unwrap _)) by reflexivity.
  erewrite (bind_Ret (get_user ud)) by by apply get_user_Ret.
  unfold get_client. rewrite bind_gets.
  pose proof (old_queue_received_agrees reason message (completion (w_client w')) d u) as Ha.
  unfold bind at 1. unfold bind at 3. unfold lift.
  destruct (old_queue_received _ _ _ _) as [[c1 u1]| | |],
           (queue_received _ _ _ _) as [[c2 u2]| | |]; try done.
  destruct Ha as [-> ->]. unfold old_upd_client, upd_client. rewrite !bind_modify.
  pose proof (in_step_set_comp l ud w w' c2 Hst) as Hst2.
  unfold bind. erewrite old_set_user_Ret by exact Hs. rewrite set_user_Ret.
  split; [done|]. by eapply in_step_set_user.
Qed.

(** Waiting for a message, and taking it. *)
Lemma old_poll_dequeue_step l ud w w' :
  in_step l ud w w' -> calls_agree l ud eq (old_poll_dequeue l w) (poll_dequeue ud w').
Proof.
  intros Hst. destruct (id Hst) as [(s & u & d & Hs & Hu & Hud) _ _ _].
  destruct (get_user_step _ _ _ _ _ _ _ Hst Hs Hu Hud) as [E1 E2].
  unfold old_poll_dequeue, poll_dequeue. rewrite (bind_Ret _ _ _ _ _ E1), (bind_Ret _ _ _ _ _ E2).
  change (msg_remove (new_user d u)) with (msg_remove u). change (msg_insert (new_user d u)) with (msg_insert u).
  destruct (_ =? _) eqn:Eq; [|done]. cbv zeta.
  cbn [su_insert_event new_user update].
  destruct (sem_try_down (su_insert_event u)) as [e|];
    unfold bind; erewrite old_set_user_Ret by exact Hs; rewrite set_user_Ret.
  - split; [cbn; by rewrite Eq|].
    match goal with |- in_step _ _ (with_service _ _ (set_userdata ?v _)) _ =>
      exact (in_step_set_user l ud w w' s v d Hst Hs) end.
  - split; [done|].
    match goal with |- in_step _ _ (with_service _ _ (set_userdata ?v _)) _ =>
      exact (in_step_set_user l ud w w' s v d Hst Hs) end.
Qed.

Lemma take_message_step l ud w w' :
  in_step l ud w w' ->
  calls_agree l ud eq (old_take_message l w) (take_message Vec_try_from ud w').
Proof.
  intros Hst. destruct (id Hst) as [(s & u & d & Hs & Hu & Hud) _ _ _].
  destruct (get_user_step _ _ _ _ _ _ _ Hst Hs Hu Hud) as [E1 E2].
  unfold old_take_message, take_message. rewrite (bind_Ret _ _ _ _ _ E1), (bind_Ret _ _ _ _ _ E2).
  change (msg_remove (new_user d u)) with (msg_remove u). change (msg_insert (new_user d u)) with (msg_insert u).
  change (msg_queue (new_user d u)) with (msg_queue u).
  destruct (_ <? _); [done|]. cbv zeta.
  destruct (msg_queue u !! _) as [[message|]|]; [|done..].
  unfold Vec_try_from, unwrap_result, unwrap. rewrite !bind_ret_l.
  unfold bind. erewrite old_set_user_Ret by exact Hs. rewrite set_user_Ret. split; [done|].
  match goal with |- in_step _ _ (with_service _ _ (set_userdata ?v _)) _ =>
    exact (in_step_set_user l ud w w' s v d Hst Hs) end.
Qed.

(** Waiting for completions, and taking them. *)
Lemma poll_completion_step l ud w w' :
  in_step l ud w w' -> calls_agree l ud eq (old_poll_completion w) (poll_completion w').
Proof.
  intros Hst. destruct (id Hst) as [Ho Hn Hc Hcon].
  unfold old_poll_completion, poll_completion, old_get_client, get_client. rewrite !bind_gets, Hc.
  cbv zeta. cbn [old_comp oc_insert oc_remove oc_insert_event].
  destruct (_ =? _); [|done]. destruct (sem_try_down _) as [e|]; [|done].
  unfold old_upd_client, upd_client. rewrite !bind_modify. split; [done|].
  split; [exact Ho|exact Hn| |exact Hcon]. cbn. by rewrite Hc.
Qed.

Definition old_take_step (count : nat) : M WO (VchiqResult (list OldServiceCompletion)) :=
  let* cl := old_get_client in
  let* r := lift (old_take_completions count (oi_completion cl)) in
  let '(result, c) := r in
  old_upd_client (fun cl => cl <| oi_completion := c |>) ;;
  ret (Ok result).
Definition new_take_step (count : nat) : M WN (VchiqResult (list ServiceCompletion)) :=
  let* cl := get_client in
  let* r := lift (take_completions count (completion cl)) in
  let '(result, c) := r in
  upd_client (fun cl => cl <| completion := c |>) ;;
  ret (Ok result).

(** Results of the two [await_completion]. *)
Definition entries_agree (r : VchiqResult (list OldServiceCompletion))
    (r' : VchiqResult (list ServiceCompletion)) : Prop :=
  match r, r' with
  | Ok q, Ok q' => q = map old_entry q'
  | Err e, Err e' => e = e'
  | _, _ => False
  end.

Lemma take_completions_step l ud count w w' :
  in_step l ud w w' -> calls_agree l ud entries_agree (old_take_step count w) (new_take_step count w').
Proof.
  intros Hst. unfold old_take_step, new_take_step, old_get_client, get_client. rewrite !bind_gets.
  rewrite (step_comp _ _ _ _ Hst).
  pose proof (old_take_completions_agrees count (completion (w_client w'))) as Ha.
  unfold bind at 1. unfold bind at 2. unfold lift.
  destruct (take_completions count _) as [[q c]| | |]; try done; rewrite Ha; [|done].
  unfold old_upd_client, upd_client. rewrite !bind_modify. split; [done|]. by apply in_step_set_comp.
Qed.

(** A poll of the whole [await_completion]. *)
Lemma old_await_completion_step l ud count w w' :
  in_step l ud w w' ->
  calls_agree l ud
    (fun r r' => match r, r' with inl q, inl q' => entries_agree q q' | inr _, inr _ => True | _, _ => False end)
    (poll (OldInstance_await_completion count) w) (poll (await_completion count) w').
Proof.
  intros Hst. unfold OldInstance_await_completion, await_completion, astep. cbn [abind].
  rewrite (poll_Step _ _ _ (w_client w) w), (poll_Step _ _ _ (w_client w') w') by done. cbn [abind].
  rewrite (step_connected _ _ _ _ Hst). destruct (negb _); [done|]. cbn [abind poll].
  eapply calls_agree_bind; [by apply poll_completion_step|].
  intros o o' w1 w1' <- Hst1. destruct o as [v|]; [|by split]. cbn [poll].
  eapply calls_agree_bind; [by apply (take_completions_step l ud count w1 w1')|].
  intros q q' w2 w2' Hq Hst2. by split.
Qed.

(** ** The two versions compared *)

(** C40: the queues of an instance work as before.  From worlds in step - the same record of the service,
    kept in the service itself or in a box, and the same completions - the callback for a received
    message, the poll for a message, taking a message, and a poll of [await_completion] do the same
    in both versions: equal results, or the same panic, and worlds in step again. *)
Theorem old_queues_same (l ud : nat) (w : WO) (w' : WN) :
  in_step l ud w w' ->
  (forall reason message, calls_agree l ud eq (old_service_callback l reason message w)
     (service_callback reason (Some message) l w')) /\
  calls_agree l ud eq (old_poll_dequeue l w) (poll_dequeue ud w') /\
  calls_agree l ud eq (old_take_message l w) (take_message Vec_try_from ud w') /\
  (forall count, calls_agree l ud
     (fun r r' => match r, r' with inl q, inl q' => entries_agree q q' | inr _, inr _ => True | _, _ => False end)
     (poll (OldInstance_await_completion count) w) (poll (await_completion count) w')).
Proof.
  intros Hst. split_and!.
  - intros. by apply service_callback_step.
  - by apply old_poll_dequeue_step.
  - by apply take_message_step.
  - intros. by apply old_await_completion_step.
Qed.

(** The old completion handler threw completions away.  A poll of it takes up to 8 completions out of
    the queue and does nothing with them: no callback runs, nothing else changes, and it is pending
    again.  It only ends when the instance is not connected. *)
Lemma old_completions_discarded (w : WO) (c : Completion) (q : list ServiceCompletion) :
  oi_completion (w_client w) = old_comp c -> comp_repr c q ->
  (oi_connected (w_client w) = true -> q <> [] ->
   exists c', old_completion_handler w =
       Ret (None, w <| w_client ::= fun cl => cl <| oi_completion := old_comp c' |> |>) /\
     comp_repr c' (drop 8 q)) /\
  (oi_connected (w_client w) = false -> old_completion_handler w = Ret (Some tt, w)).
Proof.
  intros Hc Hr. unfold old_completion_handler, OldInstance_await_completion, astep. cbn [abind].
  split.
  - intros Hcon Hq. destruct (take_completions_repr 8 c q Hr) as (c' & E & Hr' & _).
    exists c'. split; [|done]. pose proof (old_take_completions_agrees 8 c) as Ha. rewrite E in Ha.
    assert (oc_remove (old_comp c) =? oc_insert (old_comp c) = false) as Hne.
    { apply Z.eqb_neq. cbn. destruct q as [|e q]; [done|]. by apply (ring_pop _ _ _ _ _ Hr). }
    erewrite bind_Ret.
    2: { rewrite (poll_Step _ _ _ (w_client w) w) by done. rewrite Hcon. cbn [negb abind].
         rewrite (poll_Await_ready _ _ _ tt w).
         2: { unfold old_poll_completion, old_get_client. rewrite bind_gets, Hc. by rewrite Hne. }
         cbn [abind poll]. erewrite bind_Ret; [reflexivity|].
         unfold old_get_client. rewrite bind_gets, Hc. erewrite bind_Ret by (unfold lift; by rewrite Ha).
         unfold old_upd_client. rewrite bind_modify. reflexivity. }
    done.
  - intros Hcon. erewrite bind_Ret.
    2: { rewrite (poll_Step _ _ _ (w_client w) w) by done. rewrite Hcon. reflexivity. }
    done.
Qed.

(** Quotas set by an application.  [set_service_option] with SLOT_QUOTA stores the value, or the
    default for 0, unless it is below what is in use, and wakes waiting senders if the service is
    within its other quota as well.  The upper bound [value < usize::MAX] keeps nothing out but -1:
    a negative value is extended to 64 bits, so that -2 lifts the quota to 2^64 - 2 slots. *)
Lemma set_slot_quota_spec (w : WO) (h : ServiceHandle) (l : nat)
    (s : @Service L (@old_callbacks L U)) (sq : ServiceQuota) (value : Z) :
  service_from_handle h w = Ret (Ok l, w) -> w_heap w !! l = Some s ->
  service_quotas (quota_state (w_state w)) !! Z.to_nat (localport s) = Some sq ->
  - 2 ^ 31 <= value < 2 ^ 31 -> 0 < default_slot_quota (w_state w) < usize_max ->
  0 <= slot_use_count sq < 2 ^ 31 ->
  let stored :=
    if value =? 0 then slot_use_count sq <=? default_slot_quota (w_state w)
    else if value <? 0 then negb (value =? -1) else slot_use_count sq <=? value in
  exists w' sq', set_service_option h SLOT_QUOTA value w = Ret (Ok tt, w') /\
    w_heap w' = w_heap w /\
    service_quotas (quota_state (w_state w')) =
      <[Z.to_nat (localport s) := sq']> (service_quotas (quota_state (w_state w))) /\
    slot_quota sq' =
      (if stored
       then if value =? 0 then default_slot_quota (w_state w)
            else if value <? 0 then 2 ^ 64 + value else value
       else slot_quota sq) /\
    quota_event sq' =
      (if stored && (message_use_count sq <=? message_quota sq)
       then sem_up (quota_event sq) else quota_event sq).
Proof.
  intros Hl Hs Hq Hv Hd Hu stored.
  exists (w <| w_state ::= fun st => st <| quota_state ::= fun q => q <| service_quotas ::=
            alter (set_slot_quota (w_state w) value) (Z.to_nat (localport s)) |> |> |>).
  exists (set_slot_quota (w_state w) value sq). split; [|split; [done|split]].
  - unfold set_service_option. rewrite (bind_try_Ok _ _ _ _ _ Hl).
    erewrite bind_Ret by by apply get_service_Ret. unfold get_quota.
    rewrite !bind_assoc, bind_gets, bind_assoc, bind_gets, Hq. rewrite bind_assoc.
    unfold unwrap. rewrite bind_ret_l. reflexivity.
  - cbn. rewrite list_insert_alter. apply list_alter_ext; [|done]. intros sq0 E0. by simplify_eq.
  - set (v := if value =? 0 then default_slot_quota (w_state w)
              else if value <? 0 then 2 ^ 64 + value else value).
    assert ((if value =? 0 then default_slot_quota (w_state w) else usize value) = v /\
            (slot_use_count sq <=? v) && (v <? usize_max) = stored) as [Ev Es].
    { unfold v, stored, usize, usize_max in *. destruct (Z.eqb_spec value 0) as [->|Hne].
      { split; [done|]. rewrite (proj2 (Z.ltb_lt _ _)) by lia. apply andb_true_r. }
      destruct (Z.ltb_spec value 0) as [Hneg|Hpos].
      - split; [rewrite <- (Z.mod_add value 1) by lia; rewrite Z.mod_small; lia|].
        rewrite (proj2 (Z.leb_le _ _)) by lia. cbn [andb].
        destruct (Z.eqb_spec value (-1)); [apply Z.ltb_ge|apply Z.ltb_lt]; lia.
      - split; [apply Z.mod_small; lia|]. rewrite (proj2 (Z.ltb_lt _ _)) by lia. apply andb_true_r. }
    unfold set_slot_quota. cbv zeta. rewrite Ev, Es. destruct stored; [|done].
    cbn. by destruct (message_use_count sq <=? _).
Qed.
End worlds.
End legacy_instance_ok.
