(* ===== verification/Scenario.v ===== *)
(** Concrete runs: a platform like the Raspberry Pi 3, the run the README of the repository shows,
    and states in which the hypotheses of the theorems hold. *)

From stdpp Require Import relations gmap.
From S2P Require Import Prelude Locks Memory Layout Types SlotMessage Event SlotZero Slot Service.
From S2P Require Import State SlotHandler Completion Instance Registry Queues Concurrency System Stream Transmit.
From S2P Require Import Receive Boot Connection Delivery Vchi VchiOk VchiSystem Ownership TestProgram.

(** ** The platform *)

(** Pages of 4 KiB; one allocation, where the run of the README has it; the memory mapped high. *)
#[export] Instance pi3 : Platform := {|
  page_size := 4096;
  page_align x := round_up x 4096;
  alloc _ := 978944;
  map_memory p _ _ := 2 ^ 64 - 2 ^ 32 + 3221225472 + p;
  set_vchiq_slot_base _ := Ok 0;
|}.

#[export] Instance pi3_laws : PlatformLaws pi3.
Proof.
  split; cbn -[Z.pow].
  - done.
  - done.
  - unfold memory_end. intros l Hl. lia.
  - intros l ->. by exists 239.
  - unfold memory_end. intros p n f. lia.
  - intros p n f [k ->]. exists (2 ^ 52 - 2 ^ 20 + 786432 + k). lia.
Qed.

(** The fields of the OPEN payload in the order the VideoCore reads them. *)
#[export] Instance declared_order : OpenPayloadRepr.
Proof.
  refine {| open_payload_image p :=
    le_bytes 4 (op_fourcc p) ++ le_bytes 4 (op_client_id p) ++
    le_bytes 2 (op_version p) ++ le_bytes 2 (op_version_min p) |}.
  intros p. by rewrite !length_app, !length_le_bytes.
Defined.

(** The result of a computation that returns. *)
Definition got {A} (o : outcome A) : match o with Ret _ => True | _ => False end -> { x | o = Ret x } :=
  match o with
  | Ret x => fun _ => exist _ x eq_refl
  | _ => fun H => match H with end
  end.

Notation L0 := counting_locks.
(** The application is the test program. *)
Definition V0 : Type := Vchi TestCallback.
Definition W0 : Type := World (L := L0) (Client (L := L0) V0).

(** ** What the VideoCore does *)

(** It sets its queue of slots up and arms the trigger. *)
Definition slots_offered (ss : SlotState) (m : mem) : mem :=
  let z := remote (slot_zero ss) in
  set_armed (trigger z) 1 (set_slot_queue z (map (fun i => Z.of_nat i + 2) (seq 0 31)) m).

(** It stores a message at [off] in slot 2 and publishes the position after it. *)
Definition message_sent (off : Z) (msg : SlotMessage) (ss : SlotState) (m : mem) : mem :=
  set_tx_pos (remote (slot_zero ss)) (off + stride msg)
    (write_message m (message_ptr (slot_data ss) (mkPosition 2 off)) msg).

Definition vc_init_mem (w : W0) : mem -> mem := slots_offered (slot_state (w_state w)).
Definition vc_send_mem (off : Z) (msg : SlotMessage) (w : W0) : mem -> mem :=
  message_sent off msg (slot_state (w_state w)).

Definition with_mem (w : W0) (m : mem) : W0 := w <| w_hw ::= fun hw => hw <| hw_mem := m |> |>.
Definition vc_act (f : W0 -> mem -> mem) : M W0 unit :=
  modify (fun w => with_mem w (f w (hw_mem (w_hw w)))).

Definition vc_init : M W0 unit := vc_act vc_init_mem.
Definition vc_send (off : Z) (msg : SlotMessage) : M W0 unit := vc_act (vc_send_mem off msg).
Definition vc_round (off : Z) (msg : SlotMessage) : M W0 unit := vc_send off msg ;; slot_handler 10 true.

(** ** The run of the README *)

(** The service the VideoCore offers, and its port there. *)
Definition echo : FourCC := FourCC_from [101; 99; 104; 111].
Definition vc_port : Z := 75.

Definition hw0 : Hw := mkHw (fun _ => 0) [].

(** [test_vchiq] of [main.rs] while the VideoCore sets up its half of the memory and answers: the
    test sends 40 bytes, gets one byte, and its callback is called before the service is closed. *)
Definition vc_answers : list (M W0 unit) :=
  [vc_init;; vc_round 0 (control_message CONNECT 0 0);
   vc_round 8 (vc_message OPENACK vc_port 0 [3; 0]);
   vc_round 24 (vc_message DATA vc_port 0 [0]);; let* _ := completion_handler in ret tt;
   vc_round 40 (vc_message CLOSE vc_port 0 [])].

Definition readme_run : outcome (option (VchiqResult unit) * W0) :=
  match Vchi_Instance_new (L := L0) (VchiCallback := TestCallback) 0 VCHIQ_MAX_SERVICES hw0 with
  | Ret w => run_with vc_answers (test_vchiq 3) w
  | _ => Blocked
  end.

(** What can be seen of a world. *)
Definition observe (w : W0) :=
  let ss := slot_state (w_state w) in
  (conn_state (w_state w), local_tx_pos ss, rx_pos ss,
   map (fun s => (handle s, srvstate s, localport s, remoteport s)) (w_heap w),
   called (vchi_of w), map_to_list (vchi_services (vchi_of w)), hw_mmio (w_hw w)).

(** The run the README shows: the test succeeds, the positions end at 88 and 48 as in the README, the
    callback was called once with its parameter, the service is free and its entry gone, and the
    doorbell rang for each of the three messages after the VideoCore armed the event. *)
Lemma readme_run_works :
  match readme_run with
  | Ret (r, w) => Some (r, observe w)
  | _ => None
  end =
  Some (Some (Ok tt),
        (CONNECTED, 88, 48, [(4096, ServiceState.FREE, 0, VCHIQ_PORT_FREE)],
         [mkVchiCall vchi_clnt_callback (Some 0%nat) MESSAGE_AVAILABLE], [],
         [(BELL2, 0); (BELL2, 0); (BELL2, 0)])).
Proof. vm_compute. reflexivity. Qed.

(** ** States *)

(** A fresh instance. *)
Definition new_state : { r : State (L := L0) * mem | State_new (hw_mem hw0) = Ret (Ok r.1, r.2) }.
Proof.
  destruct (State_new (hw_mem hw0)) as [[[s|e] m]|p| |] eqn:E; [by exists (s, m)|exfalso..];
    destruct (State_new_Ret (L := L0) (hw_mem hw0)) as (s' & m' & E' & _);
    by rewrite E in E'.
Defined.

Definition w_fresh : W0 :=
  boot_world (L := L0) (Vchi_new 0) hw0 ((proj1_sig new_state).1 <| State.initialized := true |>)
    (sync_written (proj1_sig new_state).2).

Lemma w_fresh_fresh : fresh w_fresh.
Proof.
  exact (booted_fresh (Vchi_new 0) hw0 _ _ _ (State_new_booted _ _ _ (proj2_sig new_state))).
Qed.

Lemma w_fresh_tx : tx_stream boot_area [] w_fresh.
Proof. apply w_fresh_fresh. Qed.

(** The parameter of the callback, before the answer. *)
Definition waiting_data : CallbackData (L := L0) := mkCallbackData (Some 0) (sem_new 0).

(** The client has prepared the record of a service, and created the service. *)
Definition echo_user : ServiceUser (L := L0) := ServiceUser_new None true.
Definition echo_entry : VchiService TestCallback := opened_entry_of (echo_setup echo 2) 4096.
Definition vchi_ready : V0 :=
  (Vchi_new 0) <| vchi_initialized := true |> <| vchi_connected := true |> <| service_handle := 1 |>
    <| vchi_services := {[ 0 := echo_entry ]} |>.
Definition w_client_ready : W0 :=
  with_client w_fresh (mkClient true Completion_default
    [AnyServiceUser echo_user; AnyServiceHandle 0; AnyCallbackData waiting_data] vchi_ready).
Definition service_params : ServiceParams :=
  mkServiceParams echo (Some service_callback_closure) (Some 0%nat) 3 3.
Definition w_opening : W0 := with_new_service service_params w_client_ready.
Definition s_opening : Service (L := L0) := new_service service_params w_client_ready.

Lemma w_client_ready_inv : reg_inv w_client_ready.
Proof. by apply (client_frame_step w_fresh _), w_fresh_fresh. Qed.

Lemma w_opening_inv : reg_inv w_opening.
Proof. by apply with_new_service_ok; [apply w_client_ready_inv|]. Qed.

Lemma w_opening_use : in_use w_opening 0 s_opening.
Proof. split; [apply w_opening_inv|done|done]. Qed.

Lemma w_opening_tx : tx_stream boot_area [] w_opening.
Proof. by apply with_new_service_tx, (client_frame_tx _ _ w_fresh), w_fresh_tx. Qed.

(** The same with the service in another state. *)
Definition s_in (st : ServiceState.t) : Service (L := L0) :=
  s_opening <| srvstate := st |> <| remoteport := vc_port |>.
Definition w_in (st : ServiceState.t) : W0 := with_service w_opening 0 (s_in st).

Lemma s_in_evolves st : rtc srv_step ServiceState.OPENING st -> svc_evolves s_opening (s_in st).
Proof. intros Hst. by split. Qed.

Lemma w_in_inv st : rtc srv_step ServiceState.OPENING st -> reg_inv (w_in st).
Proof.
  intros Hst. apply (with_service_step w_opening 0 s_opening); [done|by apply s_in_evolves|].
  apply w_opening_inv.
Qed.

Lemma w_in_tx st : tx_stream boot_area [] (w_in st).
Proof. apply with_service_tx, w_opening_tx. Qed.

Lemma to_open : rtc srv_step ServiceState.OPENING ServiceState.OPEN.
Proof. apply rtc_once. constructor. Qed.
Lemma to_closewait : rtc srv_step ServiceState.OPENING ServiceState.CLOSEWAIT.
Proof. apply rtc_once. constructor. Qed.

Notation w_open := (w_in ServiceState.OPEN).
Notation s_open := (s_in ServiceState.OPEN).

Lemma w_open_use : in_use w_open 0 s_open.
Proof. split; [apply w_in_inv, to_open|done|done]. Qed.

Lemma w_open_queue : client_repr 1000 w_open 4096 0 [].
Proof.
  split.
  - exists 0%nat, s_open. split_and!; [by vm_compute|done|done].
  - exists echo_user. split; [done|]. split; [apply ring_repr_empty|]. split; [done|]. by vm_compute.
  - done.
Qed.

Lemma w_open_queue_less k : (k <= 1000)%nat -> client_repr k w_open 4096 0 [].
Proof.
  intros Hk. destruct w_open_queue as [Hs (u & Hu & Hr & Hv & Hb) Hc].
  split; [exact Hs| |exact Hc]. exists u. split; [exact Hu|]. split; [exact Hr|]. split; [exact Hv|lia].
Qed.

(** The registry with all 4096 entries taken. *)
Definition w_many (n : nat) : W0 := Nat.iter n (with_new_service service_params) w_fresh.

Lemma w_many_ok n : Z.of_nat n <= VCHIQ_MAX_SERVICES -> reg_inv (w_many n) /\ length (w_heap (w_many n)) = n.
Proof.
  induction n as [|n IH]; intros Hn; [split; [apply w_fresh_fresh|done]|].
  destruct IH as [Hi Hl]; [lia|]. change (w_many (S n)) with (with_new_service service_params (w_many n)). split.
  - apply with_new_service_ok; [done|]. rewrite Hl. lia.
  - change (length (w_heap (w_many n) ++ [new_service service_params (w_many n)]) = S n).
    rewrite length_app, Hl. cbn. lia.
Qed.

Lemma w_full_ok : exists w : W0, reg_inv w /\ Z.of_nat (length (w_heap w)) = VCHIQ_MAX_SERVICES.
Proof.
  assert (exists n, Z.of_nat n = VCHIQ_MAX_SERVICES) as [n Hn]
    by (exists (Z.to_nat VCHIQ_MAX_SERVICES); by apply Z2Nat.id).
  exists (w_many n). destruct (w_many_ok n) as [Hi Hl]; [by rewrite Hn|]. by rewrite Hl.
Qed.

(** ** The theorems at these states *)

Definition message0 : SlotMessage := control_message CONNECT 0 0.

Lemma completion_queue_fifo_witness :
  comp_repr (L := L0) Completion_default [] /\
  exists c', take_completions (L := L0) 3 Completion_default = Ret ([], c') /\ comp_repr c' [].
Proof.
  assert (comp_repr (L := L0) Completion_default []) as Hc by apply ring_repr_empty.
  split; [done|]. exact (proj2 (completion_queue_fifo Completion_default [] Hc) 3%nat).
Defined.

Definition full_completions : Completion (L := L0) :=
  mkCompletion 128 0 0%nat 0%nat
    (replicate 128 (Some (mkServiceCompletion MESSAGE_AVAILABLE None None))).

Lemma full_completions_repr :
  comp_repr full_completions (replicate 128 (mkServiceCompletion MESSAGE_AVAILABLE None None)).
Proof.
  split; [done|done|done|by vm_compute|]. intros k x Hx. apply lookup_replicate in Hx as [-> Hk].
  apply lookup_replicate. split; [done|]. pose proof (ring_index_lt (0 + Z.of_nat k)). done.
Qed.

Lemma completion_queue_overflow_witness :
  exists c' u', add_completion MESSAGE_AVAILABLE None full_completions echo_user = Ret (c', u') /\
    (exists c'', take_completions 1 c' =
       Ret ([mkServiceCompletion MESSAGE_AVAILABLE None (su_userdata echo_user)], c'')) /\
    (forall count, (128 < count)%nat -> take_completions count c' = Panic PUnwrap).
Proof.
  exact (completion_queue_overflow full_completions _ MESSAGE_AVAILABLE None echo_user
    full_completions_repr eq_refl).
Defined.

Lemma message_queue_refines_witness :
  client_repr 1000 w_open 4096 0 [] /\
  exists w', client_run 4096 [Receive message0; Dequeue] w_open = Ret ([[]], w') /\
    client_repr 0 w' 4096 0 [].
Proof.
  split; [apply w_open_queue|].
  apply (message_queue_refines 4096 0 [Receive message0; Dequeue] w_open []); [|reflexivity].
  apply w_open_queue_less. cbn. lia.
Defined.

Lemma dequeue_message_wakes_witness :
  client_repr 1 w_open 4096 0 [] /\
  exists w', run_with [invoke_callback service_callback_closure MESSAGE_AVAILABLE (Some message0) 4096]
               (dequeue_message Vec_try_from 4096) w_open = Ret (Some (Ok (data message0)), w') /\
    client_repr 0 w' 4096 0 [].
Proof.
  assert (client_repr 1 w_open 4096 0 []) as Hq by (apply w_open_queue_less; lia).
  split; [exact Hq|]. exact (dequeue_message_wakes w_open 4096 0 message0 Hq).
Defined.

Lemma service_lookup_witness :
  reg_inv w_opening /\ service_from_handle 4096 w_opening = Ret (Ok 0%nat, w_opening).
Proof.
  split; [apply w_opening_inv|]. exact (proj1 (service_lookup w_opening w_opening_inv) 4096).
Defined.

Lemma add_service_spec_witness :
  reg_inv w_client_ready /\
  exists w' s, add_service service_params ServiceState.OPENING w_client_ready = Ret (Ok 4096, w') /\
    w_heap w' = [] ++ [s] /\ srvstate s = ServiceState.OPENING.
Proof.
  split; [apply w_client_ready_inv|].
  destruct (proj1 (add_service_spec w_client_ready service_params w_client_ready_inv) eq_refl)
    as (w' & s & E & _ & Hh & Hst & _).
  exists w', s. split; [exact E|]. split; [exact Hh|exact Hst].
Defined.

Lemma registry_always_ok_witness :
  reg_inv w_fresh /\ rtc vchiq_step ([], w_fresh) ([forget Instance_connect], w_fresh) /\
  heap_evolves (w_heap w_fresh) (w_heap w_fresh).
Proof.
  assert (rtc vchiq_step ([], w_fresh) ([forget Instance_connect], w_fresh)) as Hs
    by (apply rtc_once; exact (step_spawn request action [] w_fresh _ req_connect)).
  split; [apply w_fresh_fresh|]. split; [exact Hs|].
  exact (proj2 (registry_always_ok w_fresh _ (fresh_reg _ w_fresh_fresh) Hs)).
Defined.

Lemma services_exhausted_witness :
  exists (w : W0) w', reg_inv w /\
    add_service service_params ServiceState.OPENING w = Ret (Err (EVchiq UnableToAddService), w').
Proof.
  destruct w_full_ok as (w & Hi & Hl).
  destruct (services_exhausted w ([], w) service_params Hi Hl (rtc_refl _ _)) as (w' & E).
  exists w, w'. split; [exact Hi|exact E].
Defined.

Lemma reserve_space_refines_witness :
  exists w', reserve_space 24 true w_fresh = Ret (Ok (area_pos boot_area 0), w') /\
    tx_at boot_area 24 (Some 0) w'.
Proof.
  destruct w_fresh_tx as [Hok Ha Hat _ _].
  destruct (proj1 (reserve_space_refines boot_area 0 None w_fresh 24 true Hok Ha Hat
    ltac:(lia) eq_refl) eq_refl) as (w' & E & _ & Hat' & _).
  exists w'. split; [exact E|exact Hat'].
Defined.

(** A DATA message of the open service. *)
Definition data_id : Z := make_msg_id DATA 0 vc_port.

Definition quota_open : ServiceQuota (L := L0) := mkServiceQuota 15 0 3840 0 0%nat (-1).

Lemma w_open_sender : sender w_open 0 s_open quota_open.
Proof. split; [done|by vm_compute]. Qed.

Lemma w_open_may_send n : may_send 3 (Some 0%nat) DATA n w_open.
Proof.
  apply (may_send_data 3 0 s_open quota_open n w_open w_open_sender eq_refl).
  - intros [_ H]. vm_compute in H. discriminate H.
  - intros [H|[_ H]]; vm_compute in H; discriminate H.
Qed.

Lemma data_id_type : msg_type_from_id data_id = Ret DATA.
Proof. by vm_compute. Qed.

Lemma fits_sent id d :
  is_u32 id -> Z.of_nat (length d) <= 4088 -> fits (sent_message id (Some d)).
Proof.
  intros Hid Hd. split; [|exact Hd]. split; [exact Hid|]. split; [|done].
  unfold is_u32. cbn. lia.
Qed.

Lemma data_id_u32 : is_u32 data_id.
Proof. by vm_compute. Qed.

Lemma queue_message_appends_witness :
  exists w', queue_message 3 (Some 0%nat) data_id (Some (repeat 7 40)) false w_open = Ret (Ok tt, w') /\
    tx_stream boot_area [sent_message data_id (Some (repeat 7 40))] w'.
Proof.
  destruct (queue_message_appends boot_area [] w_open 3 (Some 0%nat) data_id (Some (repeat 7 40)) false DATA
    (w_in_tx _) data_id_type (w_open_may_send _)
    (fits_sent data_id (repeat 7 40) data_id_u32 ltac:(by vm_compute)) ltac:(by vm_compute) eq_refl) as (w' & E & Hs & _).
  exists w'. split; [exact E|exact Hs].
Defined.

(** A message that leaves 8 bytes in the slot. *)
Definition long_message : SlotMessage := sent_message 0 (Some (repeat 0 4080)).

Lemma long_sent : exists w : W0, tx_stream boot_area ([] ++ [long_message]) w.
Proof.
  destruct (queue_message_stream boot_area [] w_fresh 1 None 0 (Some (repeat 0 4080)) false PADDING)
    as (w1 & _ & Hs & _); [apply w_fresh_tx|done|by apply may_send_control| |by vm_compute|done|].
  - apply fits_sent; by vm_compute.
  - by exists w1.
Qed.

Lemma padding_destroys_last_message_witness :
  exists w w' : W0, tx_stream boot_area ([] ++ [long_message]) w /\
    queue_message 1 None 0 (Some [1]) false w = Ret (Ok tt, w') /\
    read_header (hw_mem (w_hw w')) (area_addr boot_area 0) = mkHeader VCHIQ_MSGID_PADDING 0.
Proof.
  destruct long_sent as (w & Hs).
  destruct (padding_destroys_last_message boot_area [] long_message w 1 None 0 (Some [1]) false PADDING
    Hs eq_refl (may_send_control 1 PADDING _ w ltac:(discriminate)) ltac:(by apply fits_sent; vm_compute) eq_refl eq_refl)
    as (w' & E & Hp & _).
  exists w, w'. split; [exact Hs|]. split; [exact E|exact Hp].
Defined.

Lemma data_message_refused_witness :
  msg_type_from_id data_id = Ret DATA /\
  queue_message 1 None data_id None false w_open = Ret (Err (EVchiq DataMessageWithoutService), w_open).
Proof.
  split; [exact data_id_type|].
  exact (proj1 (data_message_refused w_open 1 data_id None false data_id_type)).
Defined.

(** All slots for data are in use. *)
Definition w_used : W0 :=
  w_open <| w_state ::= fun s => s <| quota_state ::= fun q => q <| data_use_count := 30 |> |> |>.

Lemma data_quota_blocks_witness :
  queue_message 1 (Some 0%nat) data_id (Some [1]) false w_used = Blocked.
Proof.
  apply (data_quota_blocks w_used 1 0 s_open quota_open data_id (Some [1]) false data_id_type).
  - split; [reflexivity|vm_compute; reflexivity].
  - reflexivity.
  - reflexivity.
  - left. split; [vm_compute; discriminate|vm_compute; reflexivity].
  - vm_compute. reflexivity.
  - vm_compute. reflexivity.
Defined.

(** *** Start-up and handshakes *)

Lemma State_new_spec_witness :
  PlatformLaws pi3 /\ exists s m', State_new (L := L0) (hw_mem hw0) = Ret (Ok s, m') /\ booted (hw_mem hw0) s m'.
Proof. split; [exact pi3_laws|]. exact (State_new_spec (L := L0) (hw_mem hw0)). Defined.

Lemma fragments_outside_allocation_witness :
  (3 < 63)%nat /\
  exists s m', State_new (L := L0) (hw_mem hw0) = Ret (Ok s, m') /\
    let a := shm_ptr s + layout_size (shm_ptr_layout s) + Z.of_nat 3 * size_of Fragment_t in
    shm_ptr s + layout_size (shm_ptr_layout s) <= a /\ read_u32 m' a = u32 (a + size_of Fragment_t).
Proof.
  assert (3 < 63)%nat as H by lia. split; [exact H|].
  exact (fragments_outside_allocation (L := L0) (hw_mem hw0) 3 H).
Defined.

Lemma Instance_new_spec_witness : exists w : W0,
  Instance_new (L := L0) (Vchi_new 0) VCHIQ_MAX_SERVICES hw0 = Ret (Ok w) /\ fresh w.
Proof. exact (proj1 (Instance_new_spec (L := L0) (Vchi_new 0) hw0) (fun _ => eq_refl)). Defined.

Lemma connect_handshake_witness :
  exists w1 w2 : W0, run_with (replicate 2 (ret tt)) State_connect w_fresh = Ret (None, w1) /\
    run_with (replicate 2 (ret tt) ++ [process (control_message CONNECT 0 0)]) State_connect w_fresh =
      Ret (Some (Ok tt), w2) /\ conn_state (w_state w2) = CONNECTED.
Proof.
  destruct (proj2 (connect_handshake (LL := counting_laws) boot_area [] w_fresh 2) w_fresh_tx eq_refl)
    as (w1 & w2 & E1 & _ & _ & E2 & Hc).
  - exact (proj2 (fresh_conn _ w_fresh_fresh)).
  - exact (proj1 (fresh_conn _ w_fresh_fresh)).
  - vm_compute. reflexivity.
  - exists w1, w2. split; [exact E1|]. split; [exact E2|exact Hc].
Defined.

Lemma s_opening_permits : permits (LockLaws := counting_laws) (Service.remove_event s_opening) = 0.
Proof. reflexivity. Qed.

Lemma open_handshake_witness :
  exists w2 s2, run_with [process (vc_message OPENACK vc_port 0 [3; 0])] (open_service 4096) w_opening =
      Ret (Some (Ok tt), w2) /\
    w_heap w2 !! 0%nat = Some s2 /\ srvstate s2 = ServiceState.OPEN /\ remoteport s2 = vc_port.
Proof.
  destruct (open_handshake (LL := counting_laws) boot_area [] w_opening 0 s_opening vc_port [3; 0] w_opening_tx
    ltac:(by vm_compute) eq_refl w_opening_use eq_refl s_opening_permits ltac:(by vm_compute))
    as (w1 & w2 & s2 & _ & _ & _ & E & Hh & Hst & Hr & _).
  - exists w2, s2. split; [exact E|]. split; [exact Hh|]. split; [exact Hst|exact Hr].
Defined.

Lemma open_refused_returns_ok_witness :
  exists w2 s2, run_with [process (vc_message CLOSE vc_port 0 [])] (open_service 4096) w_opening =
      Ret (Some (Ok tt), w2) /\
    w_heap w2 !! 0%nat = Some s2 /\ srvstate s2 = ServiceState.CLOSEWAIT.
Proof.
  destruct (open_refused_returns_ok (LL := counting_laws) boot_area [] w_opening 0 s_opening vc_port w_opening_tx
    ltac:(by vm_compute) eq_refl w_opening_use eq_refl eq_refl s_opening_permits ltac:(by vm_compute))
    as (w2 & s2 & E & Hh & Hst & _).
  - exists w2, s2. split; [exact E|]. split; [exact Hh|exact Hst].
Defined.

Lemma close_handshake_witness :
  exists w2 s2, run_with [process (vc_message CLOSE vc_port 0 [])] (close_service 4096) w_open =
      Ret (Some (Ok tt), w2) /\
    w_heap w2 !! 0%nat = Some s2 /\ srvstate s2 = ServiceState.FREE.
Proof.
  destruct (close_handshake (LL := counting_laws) boot_area [] w_open 0 s_open (w_in_tx _)
    eq_refl w_open_use eq_refl ltac:(by vm_compute) eq_refl)
    as (w1 & w2 & s2 & _ & _ & _ & E & Hh & Hst & _).
  - exists w2, s2. split; [exact E|]. split; [exact Hh|exact Hst].
Defined.

Lemma close_service_cases_witness :
  exists w' s', run_with [] (close_service 4096) (w_in ServiceState.CLOSEWAIT) = Ret (Some (Ok tt), w') /\
    w_heap w' !! 0%nat = Some s' /\ srvstate s' = ServiceState.FREE.
Proof.
  destruct (proj1 (proj2 (proj2 (close_service_cases (LL := counting_laws) (w_in ServiceState.CLOSEWAIT) 4096 0
    (s_in ServiceState.CLOSEWAIT) (w_in_inv _ to_closewait)) eq_refl)) eq_refl eq_refl) as (w' & s' & E & Hh & Hst & _).
  exists w', s'. split; [exact E|]. split; [exact Hh|exact Hst].
Defined.

(** *** Receiving *)

(** The VideoCore has sent one DATA message. *)
Definition data_message : SlotMessage := vc_message DATA vc_port 0 [1; 2; 3].
Definition sent_mem : mem :=
  vc_send_mem 0 data_message w_open (vc_init_mem w_open (hw_mem (w_hw w_open))).
Definition w_rx : W0 := with_mem w_open sent_mem.

Lemma serving_with_mem k (w : W0) m l s src ud q :
  serving k w l s src ud q -> serving k (with_mem w m) l s src ud q.
Proof.
  intros [[Hi Hs Hst] Ho Hr Hc [Hf Hu Hl]]. split; [|exact Ho|exact Hr|exact Hc|split; [exact Hf|exact Hu|exact Hl]].
  split; [|exact Hs|exact Hst]. by destruct (io_frame_step w (with_mem w m)).
Qed.

Lemma w_open_serving k : (k <= 1000)%nat -> serving k w_open 0 s_open vc_port 0 [].
Proof.
  intros Hk. split; [exact w_open_use|reflexivity|by vm_compute|reflexivity|].
  exact (w_open_queue_less k Hk).
Qed.

Lemma w_rx_serving k : (k <= 1000)%nat -> serving k w_rx 0 s_open vc_port 0 [].
Proof. intros Hk. exact (serving_with_mem k w_open sent_mem 0 s_open vc_port 0 [] (w_open_serving k Hk)). Qed.

Lemma w_rx_ready : rx_ready (mkPosition 2 0) [data_message] w_rx.
Proof.
  split.
  - vm_compute. reflexivity.
  - split; [done|vm_compute; reflexivity].
  - by vm_compute.
  - split; by vm_compute.
  - constructor; [|constructor]. split; [|by vm_compute]. split; [by vm_compute|split; by vm_compute].
  - split; [split; vm_compute; reflexivity|exact I].
Qed.

Lemma w_rx_at : rx_at 16 (mkPosition 2 0) w_rx.
Proof. vm_compute. split; [reflexivity|split; reflexivity]. Qed.

Lemma w_rx_tx : tx_pos (remote (slot_zero (slot_state (w_state w_rx)))) (hw_mem (w_hw w_rx)) = 16.
Proof. vm_compute. reflexivity. Qed.

Lemma slot_handler_delivers_witness :
  rx_ready (mkPosition 2 0) [data_message] w_rx /\
  slot_handler 1 true w_rx = deliver 2 0 [data_message] (at_slot (mkPosition 2 0) w_rx).
Proof.
  split; [exact w_rx_ready|].
  exact (proj1 (slot_handler_delivers w_rx (mkPosition 2 0) [data_message] 1 w_rx_tx w_rx_ready w_rx_at
    ltac:(discriminate) ltac:(cbn; lia))).
Defined.

Lemma slot_handler_idle_witness : slot_handler 5 true w_open = Ret (tt, w_open).
Proof.
  assert (tx_pos (remote (slot_zero (slot_state (w_state w_open)))) (hw_mem (w_hw w_open)) =
    rx_pos (slot_state (w_state w_open))) as H by (vm_compute; reflexivity).
  exact (proj1 (slot_handler_idle w_open 5) H).
Defined.

Lemma data_reaches_client_witness :
  exists w', slot_handler 1 true w_rx = Ret (tt, w') /\ serving 10 w' 0 s_open vc_port 0 [data_message].
Proof.
  destruct (data_reaches_client w_rx 0 s_open vc_port 0 10 [] [[1; 2; 3]] (mkPosition 2 0) 1
    (w_rx_serving 11 ltac:(lia)) ltac:(cbn; lia) w_rx_tx w_rx_ready w_rx_at ltac:(discriminate) ltac:(cbn; lia))
    as (w' & E & Hs & _).
  exists w'. split; [exact E|exact Hs].
Defined.

Lemma data_dropped_witness : process (vc_message DATA 76 0 [1]) w_open = Ret (tt, w_open).
Proof.
  exact (data_dropped w_open 0 s_open 76 [1] w_open_use ltac:(by vm_compute)
    (or_introl (ltac:(discriminate) : remoteport s_open <> 76))).
Defined.

(** The VideoCore filled slot 2 - a message to be handled first lies there - and went on to slot 3. *)
Definition ahead_mem : mem :=
  write_message sent_mem (message_ptr (slot_data (slot_state (w_state w_open))) (mkPosition 3 0))
    (control_message CONNECT 0 0).
Definition w_ahead : W0 := with_mem w_open ahead_mem.

Lemma rx_slot_from_tx_pos_witness :
  slot_queue (remote (slot_zero (slot_state (w_state w_ahead)))) (hw_mem (w_hw w_ahead)) !! 0%nat = Some 2 /\
  handle_messages 2 4104 w_ahead =
    bind (process (control_message CONNECT 0 0))
      (fun _ => move_rx 3 0 8 ;; handle_messages 1 4104) (at_slot (mkPosition 3 0) w_ahead).
Proof.
  split; [vm_compute; reflexivity|].
  exact (rx_slot_from_tx_pos w_ahead 4104 3 (control_message CONNECT 0 0) 1
    ltac:(vm_compute; reflexivity) ltac:(by vm_compute) ltac:(lia) ltac:(vm_compute; discriminate)
    ltac:(vm_compute; reflexivity) ltac:(vm_compute; reflexivity)
    (control_fits CONNECT 0 0 ltac:(lia) ltac:(lia)) ltac:(split; vm_compute; reflexivity)).
Defined.

(** *** Through VCHI *)

(** A client that has connected and opened nothing. *)
Definition w_connected : W0 :=
  with_client w_fresh (mkClient true Completion_default [AnyCallbackData waiting_data] ((Vchi_new 0) <| vchi_initialized := true |>)).

Lemma w_connected_open : can_open boot_area [] w_connected.
Proof.
  assert (client_frame w_fresh w_connected) as Hf by done.
  split; [reflexivity|reflexivity|reflexivity| |reflexivity| |split; [by vm_compute|reflexivity]|reflexivity].
  - apply (client_frame_step _ _ Hf), w_fresh_fresh.
  - apply (client_frame_tx _ _ _ _ Hf), w_fresh_tx.
Qed.

Lemma w_open_opened k : (k <= 1000)%nat -> opened k w_open 0 echo_entry 0 s_open vc_port 0 [].
Proof. intros Hk. split; [reflexivity|reflexivity|reflexivity|reflexivity|exact (w_open_serving k Hk)]. Qed.

Lemma service_open_works_witness :
  can_open boot_area [] w_connected /\
  exists w' s,
    run_with [process (vc_message OPENACK vc_port 0 [3; 0])] (service_open (echo_setup echo 0)) w_connected =
      Ret (Some (Ok 0), w') /\
    open_done 10 boot_area [] (echo_setup echo 0) vc_port w_connected w' s.
Proof.
  split; [exact w_connected_open|].
  destruct (proj2 (service_open_works (LL := counting_laws) 10 boot_area [] w_connected (echo_setup echo 0) vc_port [3; 0])
    w_connected_open ltac:(by vm_compute) ltac:(by vm_compute)) as (w0 & w' & s & _ & E & Ho).
  exists w', s. split; [exact E|exact Ho].
Defined.

Lemma vchi_dequeue_works_witness :
  exists w1 w2, run_with [] (Vchi_dequeue_message 0 100) w_open = Ret (None, w1) /\ lock_held w1 /\
    run_with [process (vc_message DATA vc_port 0 [1; 2; 3])] (Vchi_dequeue_message 0 100) w_open =
      Ret (Some (Ok [1; 2; 3]), w2).
Proof.
  destruct (proj2 (proj2 (vchi_dequeue_works 10 w_open 0 100)) echo_entry 0%nat s_open vc_port 0%nat [1; 2; 3]
    (w_open_opened 11 ltac:(lia))) as (w1 & w2 & E1 & Hl & E2 & _).
  exists w1, w2. split; [exact E1|]. split; [exact Hl|exact E2].
Defined.

Lemma data_in_order_witness :
  exists w1 w2, slot_handler 1 true w_rx = Ret (tt, w1) /\
    run_with [] (dequeue_all 1 0) w1 = Ret (Some (Ok [[1; 2; 3]]), w2) /\
    opened 10 w2 0 echo_entry 0 s_open vc_port 0 [].
Proof.
  assert (opened 11 w_rx 0 echo_entry 0 s_open vc_port 0 []) as Ho
    by (split; [reflexivity|reflexivity|reflexivity|reflexivity|exact (w_rx_serving 11 ltac:(lia))]).
  exact (data_in_order 10 w_rx 0 echo_entry 0 s_open vc_port 0 [] [[1; 2; 3]] (mkPosition 2 0) 1
    Ho ltac:(cbn; lia) w_rx_tx w_rx_ready w_rx_at ltac:(discriminate) ltac:(cbn; lia)).
Defined.

Lemma vchi_queue_appends_witness :
  exists w', Vchi_queue_message 3 0 (repeat 7 40) w_open = Ret (Ok tt, w') /\
    tx_stream boot_area [data_sent s_open (repeat 7 40)] w'.
Proof.
  destruct (proj2 (vchi_queue_appends 10 3 boot_area [] w_open 0 (repeat 7 40)) echo_entry 0%nat s_open quota_open
    vc_port 0%nat [] (w_open_opened 10 ltac:(lia)) (w_in_tx _) w_open_sender eq_refl) as (w' & E & Hs & _).
  - intros [_ H]. vm_compute in H. discriminate H.
  - intros [H|[_ H]]; vm_compute in H; discriminate H.
  - by vm_compute.
  - by vm_compute.
  - reflexivity.
  - exists w'. split; [exact E|exact Hs].
Defined.

Lemma service_close_works_witness :
  exists w2 s2, run_with [process (vc_message CLOSE vc_port 0 [])] (service_close 0) w_open = Ret (Some (Ok tt), w2) /\
    vchi_services (vchi_of w2) = delete 0 (vchi_services (vchi_of w_open)) /\
    w_heap w2 !! 0%nat = Some s2 /\ srvstate s2 = ServiceState.FREE.
Proof.
  destruct (proj2 (service_close_works (LL := counting_laws) 10 boot_area [] w_open 0) echo_entry 0%nat s_open vc_port 0%nat []
    (w_open_opened 10 ltac:(lia)) (w_in_tx _) eq_refl eq_refl) as (w1 & w2 & s2 & _ & _ & E & _ & Hd & Hh & Hst).
  exists w2, s2. split; [exact E|]. split; [exact Hd|]. split; [exact Hh|exact Hst].
Defined.

(** One completion of the service waits. *)
Definition note : ServiceCompletion := mkServiceCompletion MESSAGE_AVAILABLE (Some message0) (Some 1%nat).
Definition noted_completions : Completion (L := L0) :=
  mkCompletion (usize_add 0 1) 0 0%nat 0%nat (<[ring_index RING 0 := Some note]> (replicate 128 None)).
Definition w_noted : W0 := with_completion w_open noted_completions.

Lemma noted_repr : comp_repr noted_completions [note].
Proof. apply (ring_push _ 0 0 [] note ring_repr_empty). cbn. lia. Qed.

Lemma w_noted_free : lock_free w_noted.
Proof. reflexivity. Qed.

Definition note_call : VchiCall TestCallback := mkVchiCall vchi_clnt_callback (Some 2%nat) MESSAGE_AVAILABLE.
Definition noted_boxes : list (AnyBox (L := L0)) :=
  [AnyServiceUser echo_user; AnyServiceHandle 0; AnyCallbackData (waiting_data <| reply_event ::= sem_up |>)].

Lemma completion_handler_calls_witness :
  exists w', completion_handler w_noted = Ret (false, w') /\
    user_data (w_client w') = noted_boxes /\ called (vchi_of w') = [note_call].
Proof.
  destruct (completion_handler_calls w_noted [note] [note_call] noted_boxes eq_refl w_noted_free noted_repr
    ltac:(apply Forall2_cons; by split) eq_refl) as (w' & E & _ & Hb & Hc & _).
  exists w'. split; [exact E|]. split; [exact Hb|exact Hc].
Defined.

(** The same after the service was closed. *)
Definition w_removed : W0 :=
  with_vchi w_noted ((vchi_of w_noted) <| vchi_services := ∅ |>).

Lemma w_removed_free : lock_free w_removed.
Proof. reflexivity. Qed.

Lemma completion_handler_fails_witness :
  lock_free w_removed /\ completion_handler w_removed = Panic PUnwrap.
Proof.
  split; [exact w_removed_free|].
  exact (proj2 (completion_handler_fails w_removed note [] 1%nat 0 eq_refl noted_repr eq_refl eq_refl)
    w_removed_free eq_refl).
Defined.

(** *** The test program *)

(** The client has connected, and has no box yet. *)
Definition w_ping : W0 :=
  with_client w_fresh (mkClient true Completion_default [] ((Vchi_new 0) <| vchi_initialized := true |>)).

Lemma w_ping_ready : can_ping boot_area [] w_ping.
Proof.
  assert (client_frame w_fresh w_ping) as Hf by done.
  split; [split; [reflexivity|reflexivity|reflexivity| |reflexivity| |split; [by vm_compute|reflexivity]|reflexivity]|..].
  - apply (client_frame_step _ _ Hf), w_fresh_fresh.
  - apply (client_frame_tx _ _ _ _ Hf), w_fresh_tx.
  - by vm_compute.
  - split; [apply ring_repr_empty|by vm_compute].
  - reflexivity.
  - vm_compute. reflexivity.
  - vm_compute. split; [discriminate|]. split; discriminate.
Qed.

Lemma ping_test_completes_witness :
  exists w' s,
    run_with [process (vc_message OPENACK vc_port 0 [3; 0]); answered vc_port 0 [0];
              process (vc_message CLOSE vc_port 0 [])] (vchiq_ping_test 3 echo) w_ping = Ret (Some (Ok tt), w') /\
    w_heap w' !! 0%nat = Some s /\ srvstate s = ServiceState.FREE /\
    called (vchi_of w') = [mkVchiCall vchi_clnt_callback (Some 0%nat) MESSAGE_AVAILABLE].
Proof.
  destruct (ping_test_completes (LL := counting_laws) boot_area [] w_ping 3 echo vc_port [3; 0] [0] w_ping_ready
    ltac:(by vm_compute)) as (w' & s & E & Hh & Hst & _ & _ & Hc).
  exists w', s. split; [exact E|]. split; [exact Hh|]. split; [exact Hst|exact Hc].
Defined.

(** *** Any memory, any size *)

(** The message of [w_rx] in a memory that is zero elsewhere. *)
Definition zero_rx_mem : mem := vc_send_mem 0 data_message w_open (fun _ => 0).
Definition w_zero_rx : W0 := with_mem w_open zero_rx_mem.

Lemma zero_rx_mem_ok : mem_ok zero_rx_mem.
Proof.
  unfold zero_rx_mem, vc_send_mem, set_tx_pos, volatile_setter_u32.
  apply write_uint_ok, write_message_ok.
  - by intros a.
  - change (data data_message) with [1; 2; 3]. by repeat (constructor; [by vm_compute|]).
Qed.

Lemma slot_handler_terminates_witness :
  exists k, (k <= 2)%nat /\
    (handle_messages 2 16 w_zero_rx = rounds k 16 w_zero_rx \/
     exists w', rounds k 16 w_zero_rx = Ret (tt, w') /\ 16 < rx_pos (slot_state (w_state w'))).
Proof.
  exact (proj1 (slot_handler_terminates w_zero_rx 16 2 zero_rx_mem_ok)
    ltac:(by vm_compute) ltac:(by vm_compute) ltac:(by vm_compute)).
Defined.

Lemma first_sent : exists w1 : W0, tx_stream boot_area [message0] w1.
Proof.
  destruct (queue_message_stream boot_area [] w_open 0 None (make_msg_id CONNECT 0 0) None false CONNECT
    (w_in_tx _) ltac:(by vm_compute)) as (w1 & _ & H1 & _).
  - by apply may_send_control.
  - split; [by vm_compute|by vm_compute].
  - by vm_compute.
  - by vm_compute.
  - by exists w1.
Qed.

Lemma oversized_message_overruns_witness :
  exists (w w' : W0), tx_stream boot_area [message0] w /\
    queue_message 0 None (make_msg_id CONNECT 0 0) (Some (repeat 7 5000)) false w = Ret (Ok tt, w') /\
    read_bytes (hw_mem (w_hw w')) (area_addr boot_area 8192) 912 = repeat 7 912 /\
    queue_message 0 None (make_msg_id CONNECT 0 0) (Some (repeat 7 5000)) false w_fresh = Panic PUnwrap.
Proof.
  destruct first_sent as (w1 & H1).
  assert ([message0] <> []) as Hne by discriminate. assert (CONNECT <> DATA) as Hnd by discriminate.
  destruct (proj1 (oversized_message_overruns boot_area [message0] w1 0 None (make_msg_id CONNECT 0 0) (repeat 7 5000)
    false CONNECT H1 ltac:(by vm_compute) (may_send_control _ _ _ _ Hnd)
    ltac:(by vm_compute) ltac:(by vm_compute)) Hne ltac:(by vm_compute)) as (w' & E & _ & _ & Hr & _).
  exists w1, w'. split; [exact H1|]. split; [exact E|]. split; [exact Hr|].
  exact (proj1 (proj2 (oversized_message_overruns boot_area [] w_fresh 0 None (make_msg_id CONNECT 0 0) (repeat 7 5000)
    false CONNECT w_fresh_tx ltac:(by vm_compute) (may_send_control _ _ _ _ Hnd)
    ltac:(by vm_compute) ltac:(by vm_compute))) eq_refl).
Defined.

(** *** The whole program *)

Lemma started : exists w : W0, Vchi_Instance_new 0 VCHIQ_MAX_SERVICES hw0 = Ret w.
Proof.
  destruct (proj1 (Instance_new_spec (P := pi3) (L := L0) (Vchi_new (VchiCallback := TestCallback) 0) hw0)
    (fun _ => eq_refl)) as (w & E & _).
  exists w. unfold Vchi_Instance_new. by rewrite E.
Qed.

(** Two applications run the test program. *)
Definition test_task : Async W0 unit := abind (test_vchiq 3) (fun _ => Done tt).

Lemma two_tests (sends : list Z -> Prop) writes w :
  sends (TestParameter_image test_message) ->
  rtc (vchi_system_step sends writes) ([], w) ([test_task; test_task], w).
Proof.
  intros Hm. assert (vchi_program sends test_task) as Ht
    by (apply prog_then; [by apply test_is_program|intros ?; apply prog_done]).
  eapply rtc_l; [exact (step_spawn (vchi_program sends) (vchi_action writes) [] w _ Ht)|].
  apply rtc_once. exact (step_spawn (vchi_program sends) (vchi_action writes) [test_task] w _ Ht).
Qed.

(** Nothing is said of what is sent or written. *)
Definition any_data : list Z -> Prop := fun _ => True.
Definition any_write : mem -> mem -> Prop := fun _ _ => True.

Lemma vchi_always_ok_witness :
  exists w : W0, vchi_ok w /\
    rtc (vchi_system_step any_data any_write) ([], w) ([test_task; test_task], w) /\ boxes_kept w w.
Proof.
  destruct started as (w & E). pose proof (Vchi_Instance_new_ok 0 hw0 w E) as Hw.
  exists w. split; [exact Hw|]. split; [exact (two_tests any_data any_write w I)|].
  exact (proj1 (proj2 (vchi_always_ok any_data any_write w _ Hw (two_tests any_data any_write w I)))).
Defined.

Lemma vchi_lookups_succeed_witness :
  exists w : W0, Vchi_Instance_new 0 VCHIQ_MAX_SERVICES hw0 = Ret w /\
    forall i c, completions (completion (w_client w)) !! i = Some (Some c) ->
      exists ud h, service_userdata c = Some ud /\ user_data (w_client w) !! ud = Some (AnyServiceHandle h).
Proof.
  destruct started as (w & E). exists w. split; [exact E|].
  exact (proj1 (proj2 (vchi_lookups_succeed any_data any_write 0 hw0 w _ E (two_tests any_data any_write w I)))).
Defined.

(** The VideoCore writes a word to a slot of its own while two applications run. *)
Definition vc_slots (x : Z) : Prop := shared_base + 2 * 4096 <= x < shared_base + 34 * 4096.
Definition vc_word (m : mem) : mem := write_u32 m (shared_base + 3 * 4096) 7.

Lemma memory_discipline_witness :
  exists (w : W0) (s : system (S := W0)), Vchi_Instance_new 0 VCHIQ_MAX_SERVICES hw0 = Ret w /\
    hw_mem (w_hw s.2) 0 = hw_mem (w_hw w) 0 /\ read_u32 (hw_mem (w_hw s.2)) (shared_base + 3 * 4096) = 7.
Proof.
  destruct started as (w & E). pose proof shared_base_range as [Hb _].
  set (w' := mkWorld (w_state w) (w_heap w) ((w_hw w) <| hw_mem ::= vc_word |>) (w_next_handle w) (w_client w) : W0).
  assert (fits_slot (TestParameter_image test_message)) as Hm by by vm_compute.
  assert (rtc (vchi_system_step fits_slot (vc_writes vc_slots)) ([test_task; test_task], w) ([test_task; test_task], w'))
    as Hs.
  { apply rtc_once.
    eapply (step_act _ _ _ w _ w'); [apply (act_memory _ vc_word)|reflexivity]. intros m x Hx. apply (write_uint_agree 4 _ _ _ x 1); unfold vc_slots in Hx; lia. }
  assert (forall x, shared_base + 476 <= x < shared_base + 732 -> ~ vc_slots x) as Hq by (unfold vc_slots; lia).
  destruct (memory_discipline vc_slots 0 hw0 w _ _ Hq E (two_tests fits_slot (vc_writes vc_slots) w Hm) Hs)
    as (Hmem & Hin & _).
  exists w, ([test_task; test_task], w'). split; [exact E|]. split.
  - apply Hmem; [unfold vc_slots; lia|]. intros Ho. apply Hin in Ho. lia.
  - apply (read_write_u32 (hw_mem (w_hw w))). unfold is_u32. lia.
Defined.
