(* ===== verification/TalkScenario.v ===== *)
(** A conversation of three rounds with two services, and a message queue that overflows: states in
    which the hypotheses of [conversation_in_order], [reader_gets_all], [message_queue_overflow] and
    [send_capacity] hold. *)

From stdpp Require Import relations gmap.
From S2P Require Import Prelude Locks Memory Layout Types SlotMessage Event SlotZero Slot Service.
From S2P Require Import State SlotHandler Completion Instance Registry Queues Overflow Stream Transmit Capacity Receive Boot Connection.
From S2P Require Import Delivery Vchi VchiOk Conversation TestProgram Scenario.

(** ** Two open services *)

Definition echo_entry2 : VchiService TestCallback := opened_entry_of (echo_setup echo 2) 4097.
Definition params2 : ServiceParams :=
  mkServiceParams echo (Some service_callback_closure) (Some 1%nat) 3 3.
Definition w_two_ready : W0 :=
  with_client w_fresh (mkClient true Completion_default
    [AnyServiceUser echo_user; AnyServiceUser echo_user; AnyCallbackData waiting_data]
    (vchi_ready <| vchi_services := {[ 0 := echo_entry; 1 := echo_entry2 ]} |>)).
Definition w_one_opening : W0 := with_new_service service_params w_two_ready.
Definition w_two_opening : W0 := with_new_service params2 w_one_opening.

Definition opened_at (port : Z) (s : Service (L := L0)) : Service :=
  s <| srvstate := ServiceState.OPEN |> <| remoteport := port |>.
Definition s_one : Service (L := L0) := opened_at vc_port (new_service service_params w_two_ready).
Definition s_two : Service (L := L0) := opened_at (vc_port + 1) (new_service params2 w_one_opening).
Definition w_two : W0 := with_service (with_service w_two_opening 0 s_one) 1 s_two.

Lemma opened_at_evolves port s : srvstate s = ServiceState.OPENING -> svc_evolves s (opened_at port s).
Proof. intros Hs. split; try done. rewrite Hs. apply to_open. Qed.

Lemma w_two_inv : reg_inv w_two.
Proof.
  assert (reg_inv w_two_ready) as H0 by by apply (client_frame_step w_fresh _), w_fresh_fresh.
  assert (reg_inv w_one_opening) as H1 by by apply with_new_service_ok.
  assert (reg_inv w_two_opening) as H2 by by apply with_new_service_ok.
  eapply with_service_step; [done|by apply opened_at_evolves|].
  eapply with_service_step; [done|by apply opened_at_evolves|done].
Qed.

Definition channels : list (channel (L := L0) (VC := TestCallback)) :=
  [mkChannel 0 echo_entry 0 s_one vc_port 0; mkChannel 1 echo_entry2 1 s_two (vc_port + 1) 1].

Lemma client_repr_two l h :
  find_handle (w_heap w_two) h (services (srv_state (w_state w_two))) = Some l -> (l < 2)%nat ->
  client_repr 1000 w_two h l [].
Proof.
  intros Hf Hl. split.
  - destruct l as [|[|l]]; [exists 0%nat, s_one|exists 1%nat, s_two|lia]; by split_and!.
  - exists echo_user. split; [by destruct l as [|[|l]]; [..|lia]|].
    split; [apply ring_repr_empty|]. split; [done|]. by vm_compute.
  - done.
Qed.

Lemma w_two_open : all_open 1000 w_two channels [[]; []].
Proof.
  pose proof w_two_inv as Hi. split; [reflexivity|]. split.
  - apply (bool_decide_unpack _). vm_compute. exact I.
  - constructor; [|constructor; [|constructor]]; (split; [reflexivity|split; reflexivity]).
  - constructor; [|constructor; [|constructor]];
      (split; [split; [exact Hi|reflexivity|discriminate]|reflexivity| |reflexivity|]).
    + split; [vm_compute; reflexivity|vm_compute; split; [discriminate|reflexivity]].
    + apply (client_repr_two 0); [vm_compute; reflexivity|lia].
    + split; [vm_compute; reflexivity|vm_compute; split; [discriminate|reflexivity]].
    + apply (client_repr_two 1); [vm_compute; reflexivity|lia].
Qed.

(** ** The conversation *)

Notation talk_ss := (slot_state (w_state w_two)).

(** The VideoCore stores a message, and publishes the position [tx]. *)
Definition vc_put (slot off : Z) (msg : SlotMessage) (m : mem) : mem :=
  write_message m (message_ptr (slot_data talk_ss) (mkPosition slot off)) msg.
Definition vc_publish (tx : Z) (m : mem) : mem := set_tx_pos (remote (slot_zero talk_ss)) tx m.

Definition to_one (d : list Z) : SlotMessage := vc_message DATA vc_port 0 d.
Definition to_two (d : list Z) : SlotMessage := vc_message DATA (vc_port + 1) 1 d.

(** Three messages, padding to the end of slot 2, and one message in slot 3. *)
Definition talk_mem1 : mem :=
  vc_publish 48 (vc_put 2 32 (to_one [4; 5]) (vc_put 2 16 (to_two [9]) (vc_put 2 0 (to_one [1; 2; 3])
    (vc_init_mem w_two (hw_mem (w_hw w_two)))))).
Definition talk_mem2 : mem :=
  vc_publish 4096 (vc_put 2 48 (vc_message PADDING 0 0 (replicate 4040 0)) talk_mem1).
Definition talk_mem3 : mem := vc_publish 4112 (vc_put 3 0 (to_two [7]) talk_mem2).

Definition talk : list event :=
  [Round talk_mem1 [Payload 0 [1; 2; 3]; Payload 1 [9]; Payload 0 [4; 5]]; Take 1 1;
   Round talk_mem2 [Pad 4040]; Take 0 2;
   Round talk_mem3 [Payload 1 [7]]; Take 1 1].

Definition talk_queue : list Z := map (fun i => Z.of_nat i + 2) (seq 0 31) ++ replicate 33 0.

Lemma wrote_at_slot m R msgs i :
  queue_slot talk_queue R = Some i ->
  position_ok (slot_data talk_ss) (mkPosition i (R mod 4096)) = true ->
  tx_pos (remote (slot_zero talk_ss)) m = R + stream_len msgs /\ R + stream_len msgs < 2 ^ 32 ->
  Forall fits msgs -> R mod 4096 + stream_len msgs <= 4096 -> (R mod 4096 = 0 -> stream_len msgs < 4096) ->
  slot_queue (remote (slot_zero talk_ss)) m = talk_queue ->
  stream_at m (message_ptr (slot_data talk_ss) (mkPosition i (R mod 4096))) msgs ->
  vc_wrote talk_ss talk_queue R msgs m.
Proof.
  intros Hi Hok [Htx Hr] Hf Hroom Hst Hq Hat. split; try assumption. exists i. by split_and!.
Qed.

Lemma small_fits t src dst d :
  message_wf (vc_message t src dst d) -> Z.of_nat (length d) <= 4088 -> fits (vc_message t src dst d).
Proof. intros Hw Hd. by split. Qed.

Ltac fits_tac := apply small_fits; [split; [by vm_compute|split; by vm_compute]|by vm_compute].

Lemma talk_writes : writes_on 3 talk_ss talk_queue channels 0 talk.
Proof.
  split; [|split; [cbn; lia|split; [|split; [cbn; lia|split; [|split; [cbn; lia|exact I]]]]]].
  - apply (wrote_at_slot _ _ _ 2); [vm_compute; reflexivity|vm_compute; reflexivity|
      split; [vm_compute; reflexivity|by vm_compute]| |by vm_compute|by vm_compute|vm_compute; reflexivity|].
    + constructor; [fits_tac|constructor; [fits_tac|constructor; [fits_tac|constructor]]].
    + split; [split; vm_compute; reflexivity|]. split; [split; vm_compute; reflexivity|].
      split; [split; vm_compute; reflexivity|exact I].
  - apply (wrote_at_slot _ _ _ 2); [vm_compute; reflexivity|vm_compute; reflexivity|
      split; [vm_compute; reflexivity|by vm_compute]| |by vm_compute|by vm_compute|vm_compute; reflexivity|].
    + constructor; [fits_tac|constructor].
    + split; [split; vm_compute; reflexivity|exact I].
  - apply (wrote_at_slot _ _ _ 3); [vm_compute; reflexivity|vm_compute; reflexivity|
      split; [vm_compute; reflexivity|by vm_compute]| |by vm_compute|by vm_compute|vm_compute; reflexivity|].
    + constructor; [fits_tac|constructor].
    + split; [split; vm_compute; reflexivity|exact I].
Qed.

Lemma talk_reading : reading talk_ss talk_queue 0 w_two.
Proof. split; vm_compute; reflexivity. Qed.

Lemma conversation_in_order_witness :
  exists w' qs', conversation 3 channels talk w_two =
      Ret ([Some (Ok [[9]]); Some (Ok [[1; 2; 3]; [4; 5]]); Some (Ok [[7]])], w') /\
    all_open 995 w' channels qs' /\ map (map data) qs' = [[]; []].
Proof.
  exact (conversation_in_order talk_ss talk_queue channels 3 995 talk w_two 0 [[]; []]
    [[[9]]; [[1; 2; 3]; [4; 5]]; [[7]]] [[]; []] w_two_open talk_reading ltac:(lia) talk_writes eq_refl).
Defined.

(** The same rounds while the application waits for two messages of the second service. *)
Definition talk_rounds : list (mem * list vc_item) :=
  [(talk_mem1, [Payload 0 [1; 2; 3]; Payload 1 [9]; Payload 0 [4; 5]]);
   (talk_mem2, [Pad 4040]); (talk_mem3, [Payload 1 [7]])].

Lemma reader_gets_all_witness :
  exists w', run_with (acts 3 talk_rounds) (dequeue_all 2 1) w_two = Ret (Some (Ok [[9]; [7]]), w') /\ lock_free w'.
Proof.
  exact (reader_gets_all talk_ss talk_queue channels 3 995 1 2 _ talk_rounds w_two 0 [[]; []] [] eq_refl
    w_two_open talk_reading ltac:(lia) talk_writes eq_refl I).
Defined.

(** ** A full message queue *)

Lemma receive_many n : forall k (w : W0) q,
  client_repr (n + k) w 4096 0 q -> (length q + n <= 128)%nat ->
  exists w' : W0, client_repr k w' 4096 0 (q ++ replicate n message0).
Proof.
  induction n as [|n IH]; intros k w q Hw Hl; cbn [replicate].
  - exists w. by rewrite app_nil_r.
  - destruct (receive_Ret (n + k) w 4096 0 q message0 Hw) as (w1 & _ & Hw1 & _); [lia|].
    destruct (IH k w1 _ Hw1) as (w2 & Hw2); [rewrite length_app; cbn; lia|].
    exists w2. by rewrite <- app_assoc in Hw2.
Qed.

Lemma message_queue_overflow_witness :
  exists w w' : W0, client_repr 1 w 4096 0 (message0 :: replicate 127 message0) /\
    client_run 4096 (Receive data_message :: replicate 128 Dequeue) w = Ret ([1; 2; 3] :: replicate 127 [], w') /\
    run_with [] (dequeue_message Vec_try_from 4096) w' = Panic PUnwrap.
Proof.
  destruct (receive_many 128 1 w_open [] (w_open_queue_less 129 ltac:(lia)) ltac:(cbn; lia)) as (w & Hw).
  destruct (message_queue_overflow w 4096 0 message0 data_message (replicate 127 message0) Hw eq_refl)
    as (w' & E & Hp).
  exists w, w'. split; [exact Hw|]. split; [exact E|exact Hp].
Defined.

(** ** Fifteen slots of data, and no more *)

Definition slotful : list Z := repeat 0 4088.

Lemma placed_slotfuls n : forall k, 0 <= k -> placed (4096 * k) (sent_data data_id (repeat slotful n)).
Proof.
  induction n as [|n IH]; intros k Hk; [done|].
  assert (stride (sent_message data_id (Some slotful)) = 4096) as E by by vm_compute.
  split; [apply (fits_sent data_id slotful data_id_u32); by vm_compute|]. rewrite E. split.
  - unfold room. change VCHIQ_SLOT_SIZE with 4096. zdiv.
  - replace (4096 * k + 4096) with (4096 * (k + 1)) by lia. apply IH. lia.
Qed.

Lemma w_open_spending : spending 1 s_open 0 15 0 w_open quota_open.
Proof.
  assert (data_quota (quota_state (w_state w_open)) = 30) as Hq by by vm_compute.
  assert (data_use_count (quota_state (w_state w_open)) = 0) as Hc by by vm_compute.
  apply Build_spending.
  - zdiv.
  - exact (sender_quota _ _ _ _ w_open_sender).
  - exact eq_refl.
  - discriminate.
  - exact eq_refl.
  - exact eq_refl.
  - discriminate.
  - rewrite Hq, Hc. change (slot_use_count quota_open) with 0. lia.
Qed.

Lemma send_capacity_witness :
  (exists w', send_all 1 0 data_id (repeat slotful 15) w_open = Ret (Ok tt, w')) /\
  send_all 1 0 data_id (repeat slotful 16) w_open = Blocked.
Proof.
  split.
  - destruct (proj1 (send_capacity boot_area [] w_open 1 0 s_open quota_open 0 15 data_id (repeat slotful 15)
      (w_in_tx _) eq_refl eq_refl eq_refl data_id_type w_open_spending ltac:(by vm_compute)
      (placed_slotfuls 15 0 ltac:(lia))) ltac:(by vm_compute)) as (w' & E & _).
    by exists w'.
  - exact (proj2 (send_capacity boot_area [] w_open 1 0 s_open quota_open 0 15 data_id (repeat slotful 16)
      (w_in_tx _) eq_refl eq_refl eq_refl data_id_type w_open_spending ltac:(by vm_compute)
      (placed_slotfuls 16 0 ltac:(lia))) ltac:(by vm_compute)).
Defined.
