(* ===== verification/ReaderScenario.v ===== *)
(** Two readers of one service, and a client that takes completions: runs in which the hypotheses of
    [readers_in_order], [waiting_reader_served] and [completions_in_order] hold. *)

From stdpp Require Import relations gmap.
From S2P Require Import Prelude Locks Memory Layout Types SlotMessage Event SlotZero Slot Service.
From S2P Require Import State SlotHandler Completion Instance Registry Queues Concurrency System Stream Transmit.
From S2P Require Import Receive Boot Connection Vchi TestProgram Scenario Readers.

Notation WR := (World (L := L0) (Client (L := L0) (list event))).

(** ** Runs *)

(** A step of the system: a new request, a poll, the slot handler, or the VideoCore. *)
Inductive move : Type :=
| Ask (f : Async WR unit) (Hf : reader_request f)
| Run (i : nat)
| Handler
| Memory (f : SlotState (L := L0) -> mem -> mem).

Definition do_move (mv : move) (x : system (S := WR)) : option (system (S := WR)) :=
  match mv with
  | Ask f _ => Some (x.1 ++ [f], x.2)
  | Run i =>
      match x.1 !! i with
      | Some f => match poll f x.2 with
                  | Ret (inr f', w) => Some (<[i := f']> x.1, w)
                  | Ret (inl _, w) => Some (delete i x.1, w)
                  | _ => None
                  end
      | None => None
      end
  | Handler => match slot_handler (H := recording_host) 10 true x.2 with
               | Ret (_, w) => Some (x.1, w)
               | _ => None
               end
  | Memory f => Some (x.1, x.2 <| w_hw ::= fun hw => hw <| hw_mem ::= f (slot_state (w_state x.2)) |> |>)
  end.

Fixpoint do_moves (mvs : list move) (x : system) : option system :=
  match mvs with
  | [] => Some x
  | mv :: mvs => match do_move mv x with Some x => do_moves mvs x | None => None end
  end.

Lemma do_move_step mv x x' : do_move mv x = Some x' -> reader_step x x'.
Proof.
  destruct x as [fs w]. destruct mv as [f Hf|i| |f]; cbn [do_move fst snd].
  - intros [= <-]. by apply step_spawn.
  - destruct (fs !! i) as [f|] eqn:Hi; [|done]. destruct (poll f w) as [[[[]|f'] w']| | |] eqn:E; try done.
    + intros [= <-]. by eapply step_ready.
    + intros [= <-]. by eapply step_pending.
  - destruct (slot_handler (H := recording_host) 10 true w) as [[[] w']| | |] eqn:E; try done. intros [= <-].
    apply (step_act _ _ fs w (slot_handler (H := recording_host) 10 true)); [apply reads_handler|exact E].
  - intros [= <-]. set (m := f _ _). apply (step_act _ _ fs w _ _ (reads_videocore m)). reflexivity.
Qed.

Lemma do_moves_steps mvs : forall x x', do_moves mvs x = Some x' -> rtc reader_step x x'.
Proof.
  induction mvs as [|mv mvs IH]; intros x x' Hx; cbn [do_moves] in Hx.
  - by simplify_eq.
  - destruct (do_move mv x) as [x1|] eqn:E; [|done]. eapply rtc_l; [by apply do_move_step in E|by apply IH].
Qed.

(** ** The run *)

Definition w_new : WR :=
  boot_world (L := L0) [] hw0 ((proj1_sig new_state).1 <| State.initialized := true |>)
    (sync_written (proj1_sig new_state).2).

Lemma w_new_new : Instance_new (L := L0) [] VCHIQ_MAX_SERVICES hw0 = Ret (Ok w_new).
Proof.
  unfold Instance_new. rewrite (proj2_sig new_state). cbn [fst snd].
  fold (boot_world (L := L0) ([] : list event) hw0 (proj1_sig new_state).1 (proj1_sig new_state).2).
  by rewrite (State_initialize_Ret _ _ _ _ _ (State_new_booted _ _ _ (proj2_sig new_state))).
Qed.

Definition vc_sends (off : Z) (msg : SlotMessage) : list move := [Memory (message_sent off msg); Handler].

(** A client connects and opens a service. *)
Definition echo_params : ServiceParams := mkServiceParams echo None None 3 3.
Definition opening : list move :=
  [Ask _ reads_connect; Run 0; Memory slots_offered] ++ vc_sends 0 (control_message CONNECT 0 0) ++
  [Run 0; Ask _ (reads_create echo_params true true); Run 0] ++ vc_sends 8 (vc_message OPENACK vc_port 0 [3; 0]) ++
  [Run 0].

(** Of two readers one waits.  The other waits, too; two messages arrive, and the second reader is
    polled first. *)
Definition two_messages : list move :=
  Run 1 :: vc_sends 24 (vc_message DATA vc_port 0 [1; 2]) ++ vc_sends 40 (vc_message DATA vc_port 0 [3]) ++ [Run 1].

Definition observed (x : option (system (S := WR))) : option (nat * list event * list ServiceHandle) :=
  match x with Some x => Some (length x.1, events x.2, map handle (w_heap x.2)) | None => None end.

(** The completion of a message.  While a reader waits the first message is not announced. *)
Definition available (m : SlotMessage) : ServiceCompletion := mkServiceCompletion MESSAGE_AVAILABLE (Some m) None.

Definition history : list event :=
  [Received 4096 (vc_message DATA vc_port 0 [1; 2]) [];
   Received 4096 (vc_message DATA vc_port 0 [3]) [available (vc_message DATA vc_port 0 [3])];
   Taken 4096 [1; 2]].

Lemma reading_observed :
  match do_moves opening ([], w_new) with
  | Some x => match poll (read 4096) x.2 with
              | Ret (inr f, w) => (length x.1, observed (do_moves two_messages ([f; read 4096], w)))
              | _ => (1%nat, None)
              end
  | None => (1%nat, None)
  end = (0%nat, Some (1%nat, history, [4096])).
Proof. vm_compute. reflexivity. Qed.

Lemma history_roomy : roomy 4096 history.
Proof.
  split; [done|]. intros [|[|[|k]]]; [vm_compute; lia..|].
  rewrite (take_ge history) by (cbn; lia). vm_compute. lia.
Qed.

(** The state with one reader that waits, and the one reached after the messages. *)
Lemma two_readers : exists s s' f w1,
  rtc reader_step ([], w_new) s /\ s.1 !! 0%nat = Some (read 4096) /\ poll (read 4096) s.2 = Ret (inr f, w1) /\
  rtc reader_step (<[0%nat := f]> s.1, w1) s' /\ events s'.2 = history /\ map handle (w_heap s'.2) = [4096].
Proof.
  pose proof reading_observed as H.
  destruct (do_moves opening ([], w_new)) as [[fs w]|] eqn:E1; [cbn [fst snd] in H|discriminate H].
  destruct (poll (read 4096) w) as [[[|f] w1]| | |] eqn:E2; [discriminate H| |discriminate H..].
  destruct (do_moves _ ([f; read 4096], w1)) as [s'|] eqn:E3; [|discriminate H].
  injection H as Hfs _ He Hh. apply length_zero_iff_nil in Hfs as ->.
  exists ([read 4096; read 4096], w), s', f, w1. cbn [fst snd].
  split; [|split; [exact eq_refl|split; [exact E2|split; [exact (do_moves_steps _ _ _ E3)|split; assumption]]]].
  eapply rtc_r; [|exact (step_spawn _ _ [read 4096] w _ (reads_read 4096))].
  eapply rtc_r; [|exact (step_spawn _ _ [] w _ (reads_read 4096))]. exact (do_moves_steps _ _ _ E1).
Qed.

Lemma readers_in_order_witness :
  exists s sv ud, rtc reader_step ([], w_new) s /\ w_heap s.2 !! 0%nat = Some sv /\ events s.2 = history /\
    exists waiting, map data waiting = [[3]] /\ client_repr 0 s.2 (handle sv) ud waiting.
Proof.
  destruct two_readers as (s & s' & f & w1 & Hs & Hi & E & Hs' & He & Hh).
  assert (rtc reader_step ([], w_new) s') as Hr.
  { etransitivity; [exact Hs|]. eapply rtc_l; [|exact Hs']. destruct s as [fs w]. by eapply step_pending. }
  destruct (w_heap s'.2) as [|sv [|]] eqn:Hheap; try done. injection Hh as Hh.
  assert (w_heap s'.2 !! 0%nat = Some sv) as Hl by by rewrite Hheap.
  destruct (readers_in_order hw0 w_new s' 0 sv w_new_new Hr Hl) as (ud & u & _ & _ & H).
  { rewrite He, Hh. apply history_roomy. }
  rewrite He, Hh in H. destruct (is_vchi u); [|discriminate H]. destruct H as (waiting & Hw & Hq).
  exists s', sv, ud. split; [exact Hr|]. split; [exact Hl|]. split; [exact He|]. exists waiting.
  split; [|rewrite Hh; exact Hq]. by injection Hw as <-.
Defined.

Lemma waiting_reader_served_witness :
  exists (f : Async WR unit) (s' : system (S := WR)) (w2 : WR), poll f s'.2 = Ret (inl tt, w2) /\ events w2 = history ++ [Taken 4096 [3]].
Proof.
  destruct two_readers as (s & s' & f & w1 & Hs & Hi & E & Hs' & He & Hh).
  destruct (proj2 (waiting_reader_served hw0 w_new s s' 0 4096 f w1 w_new_new Hs Hi E Hs')
    (vc_message DATA vc_port 0 [3])) with (g := f) as (w2 & E2 & H2).
  - rewrite He. apply history_roomy.
  - rewrite He. reflexivity.
  - by left.
  - exists f, s', w2. rewrite He in H2. split; [exact E2|exact H2].
Defined.

(** ** Completions *)

(** Nobody waits when the messages arrive; a client takes the completion. *)
Definition announced_history : list event :=
  [Received 4096 (vc_message DATA vc_port 0 [1; 2]) [available (vc_message DATA vc_port 0 [1; 2])];
   Received 4096 (vc_message DATA vc_port 0 [3]) [];
   Completed [available (vc_message DATA vc_port 0 [1; 2])]].

Lemma completing_observed :
  observed (do_moves (opening ++ vc_sends 24 (vc_message DATA vc_port 0 [1; 2]) ++
    vc_sends 40 (vc_message DATA vc_port 0 [3]) ++ [Ask _ (reads_await 8); Run 0]) ([], w_new)) =
    Some (0%nat, announced_history, [4096]).
Proof. vm_compute. reflexivity. Qed.

Lemma completions_in_order_witness :
  exists s : system (S := WR), rtc reader_step ([], w_new) s /\ events s.2 = announced_history /\
    comp_repr (completion (w_client s.2)) [].
Proof.
  pose proof completing_observed as H.
  destruct (do_moves _ ([], w_new)) as [s|] eqn:E; [|discriminate H]. injection H as _ He _.
  pose proof (do_moves_steps _ _ _ E) as Hs. exists s. split; [exact Hs|]. split; [exact He|].
  destruct (completions_in_order hw0 w_new s w_new_new Hs) as (waiting & Ha & Hq).
  - rewrite He. intros [|[|[|k]]]; [vm_compute; lia..|].
    rewrite (take_ge announced_history) by (cbn; lia). vm_compute. lia.
  - rewrite He in Ha. injection Ha as <-. exact Hq.
Defined.
