(* ===== verification/LegacyScenario.v ===== *)
(** States in which the hypotheses of the theorems on the superseded sources hold: those of [Scenario],
    read as states of the older version. *)

From stdpp Require Import relations gmap.
From S2P Require Import Prelude Locks Memory Layout Types SlotMessage Event SlotZero Slot Service.
From S2P Require Import State SlotHandler Completion Instance Registry Queues Stream Transmit Receive Boot Connection.
From S2P Require Import Delivery Vchi LegacyState LegacyStateOk LegacyInstance LegacyInstanceOk Scenario.

Notation down0 := (down (L := L0) (AM := flag_amutex)).
Notation up0 w := (up (AM := flag_amutex) (w_state w) (w_client w)).

Lemma down_small (w : W0) :
  local_tx_pos (slot_state (w_state w)) = 0 -> rx_pos (slot_state (w_state w)) = 0 ->
  slot_queue_available (w_state w) = 31 -> small_w (down0 w).
Proof. intros H1 H2 H3. unfold small_w, small. cbn. rewrite H1, H2, H3. lia. Qed.

Lemma w_open_small : small_w (down0 w_open).
Proof. apply down_small; vm_compute; reflexivity. Qed.

Lemma w_open_up_tx : tx_stream boot_area [] (up0 w_open (down0 w_open)).
Proof. rewrite up_down. apply w_in_tx. Qed.
Lemma w_open_up_use : in_use (up0 w_open (down0 w_open)) 0 s_open.
Proof. rewrite up_down. apply w_open_use. Qed.

Lemma old_queue_message_same_witness :
  exists w', run_with [] (Inner_queue_message None (make_msg_id CONNECT 0 0) None true) (down0 w_open) =
      Ret (Some (Ok tt), w') /\
    queue_message 0 None (make_msg_id CONNECT 0 0) None true w_open = Ret (Ok tt, up0 w_open w').
Proof.
  pose proof (proj1 (old_queue_message_same (AL := flag_amutex_laws) (w_state w_open) (w_client w_open)
    0 None (make_msg_id CONNECT 0 0) None true [] (down0 w_open) (down_free w_open) w_open_small
    ltac:(lia)) ltac:(vm_compute; discriminate)) as H.
  rewrite up_down in H.
  destruct (queue_control boot_area [] w_open 0 true CONNECT 0 0 (w_in_tx _) eq_refl ltac:(discriminate)
    ltac:(lia) ltac:(lia)) as (w2 & E & _).
  rewrite E in H |- *.
  destruct (run_with [] _ (down0 w_open)) as [[[r|] w']| | |]; try destruct H.
  destruct H0 as [E2 _]. exists w'. rewrite <- H, E2. split; reflexivity.
Defined.

Lemma old_add_service_same_witness :
  exists w', run_with [] (Inner_add_service service_params ServiceState.LISTENING) (down0 w_fresh) =
    Ret (Some (Ok 4096), w') /\ lock_free (AL := flag_amutex_laws) w'.
Proof.
  destruct (proj1 (old_add_service_same (AL := flag_amutex_laws) (w_state w_fresh) (w_client w_fresh) []
    service_params ServiceState.LISTENING (down0 w_fresh) (down_free w_fresh)
    (down_small w_fresh ltac:(vm_compute; reflexivity) ltac:(vm_compute; reflexivity) ltac:(vm_compute; reflexivity))
    (eq_ind_r reg_inv (fresh_reg _ w_fresh_fresh) (up_down w_fresh))) eq_refl) as (w' & E & Hl & _).
  exists w'. split; [exact E|exact Hl].
Defined.

Lemma old_close_unanswered_witness :
  exists w1, run_with [] (Inner_close_service 4096) (down0 w_open) = Ret (Some (Ok tt), w1) /\
    o_heap w1 !! 0%nat = Some (closing_sent s_open) /\
    run_with [] (Inner_close_service 4096) w1 = Panic PTodo.
Proof.
  destruct (old_close_unanswered (AL := flag_amutex_laws) (w_state w_open) (w_client w_open) boot_area []
    (down0 w_open) 0 s_open w_open_up_tx eq_refl (down_free w_open) w_open_small w_open_up_use eq_refl
    ltac:(by vm_compute)) as (w1 & E & _ & _ & Hh & _ & Hp).
  exists w1. split; [exact E|]. split; [exact Hh|exact Hp].
Defined.

Lemma old_new_same_witness :
  PlatformLaws pi3 /\ exists o s m', Old_new (AM := flag_amutex) (L := L0) (hw_mem hw0) = Ret (Ok o, m') /\
    State_new (L := L0) (hw_mem hw0) = Ret (Ok s, m') /\ up_state s o = s.
Proof.
  split; [exact pi3_laws|].
  destruct (old_new_same (L := L0) (AL := flag_amutex_laws) (P := pi3) (PL := pi3_laws) (hw_mem hw0))
    as (o & s & m' & E1 & E2 & E3 & _).
  exists o, s, m'. split; [exact E1|]. split; [exact E2|exact E3].
Defined.

(** ** The slot handler *)

(** The VideoCore has accepted the service. *)
Definition openack : SlotMessage := vc_message OPENACK vc_port 0 [3; 0].
Definition w_acked : W0 :=
  with_mem w_opening (vc_send_mem 0 openack w_opening (vc_init_mem w_opening (hw_mem (w_hw w_opening)))).

Lemma w_acked_ready : rx_ready (mkPosition 2 0) [openack] w_acked.
Proof.
  split.
  - vm_compute. reflexivity.
  - split; [done|vm_compute; reflexivity].
  - by vm_compute.
  - split; by vm_compute.
  - constructor; [|constructor]. split; [|by vm_compute]. split; [by vm_compute|split; by vm_compute].
  - split; [split; vm_compute; reflexivity|exact I].
Qed.

Lemma w_acked_at : rx_at 16 (mkPosition 2 0) w_acked.
Proof. vm_compute. split; [reflexivity|split; reflexivity]. Qed.

Lemma w_acked_tx :
  tx_pos (remote (in_slot_zero (old_inner (o_state (down0 w_acked))))) (hw_mem (o_hw (down0 w_acked))) =
    in_rx_pos (old_inner (o_state (down0 w_acked))) + stream_len [openack].
Proof. vm_compute. reflexivity. Qed.

Lemma w_acked_tx_val : in_rx_pos (old_inner (o_state (down0 w_acked))) + stream_len [openack] = 16.
Proof. vm_compute. reflexivity. Qed.

Lemma old_handler_same_witness :
  slot_handler 1 true (up0 w_acked (down0 w_acked)) =
    up_out (w_state w_acked) (w_client w_acked) (parse_rx_slots 1 (down0 w_acked)).
Proof.
  apply (proj1 (old_handler_same (AM := flag_amutex) (w_state w_acked) (w_client w_acked) (down0 w_acked)
    (mkPosition 2 0) [openack] 1 w_acked_tx (eq_ind_r _ w_acked_ready (up_down w_acked))
    (eq_ind_r (fun tx => rx_at tx _ _) (eq_ind_r _ w_acked_at (up_down w_acked)) w_acked_tx_val)
    ltac:(cbn; lia))).
  constructor; [|constructor]. exists OPENACK. split; [by vm_compute|split; discriminate].
Defined.

Lemma w_fresh_untriggered :
  untriggered (LL := counting_laws) (ev_inner (trigger_of (AM := flag_amutex) (down0 w_fresh))) (down0 w_fresh).
Proof. split; [reflexivity|]. split; [vm_compute; reflexivity|]. exists 0%nat. by vm_compute. Qed.

Lemma old_connect_starves_witness :
  exists rest w1 w2, poll (handle_slots 5 id) (down0 w_fresh) = Ret (inr rest, w1) /\
    run_with [let* _ := poll rest in ret tt; let* _ := poll rest in ret tt] Old_connect w1 = Ret (None, w2).
Proof.
  destruct (old_connect_starves (AL := flag_amutex_laws) (LL := counting_laws) 5 id _ (down0 w_fresh)
    (down_free w_fresh) ltac:(vm_compute; reflexivity) w_fresh_untriggered (fun m => agree_refl _ _ _))
    as (rest & w1 & E & _ & Hrest & Hc).
  assert (idle (AL := flag_amutex_laws) (LL := counting_laws)
    (ev_inner (trigger_of (AM := flag_amutex) (down0 w_fresh))) (let* _ := poll rest in ret tt)) as Hi.
  { intros w2 Hw2. destruct (Hrest w2 Hw2) as (w3 & E3 & Hw3). exists w3. split; [|exact Hw3].
    unfold bind. rewrite E3. reflexivity. }
  destruct (Hc [let* _ := poll rest in ret tt; let* _ := poll rest in ret tt]
    (Forall_cons_2 _ _ _ Hi (Forall_cons_2 _ _ _ Hi (Forall_nil_2 _)))) as (w2 & E2 & _).
  exists rest, w1, w2. split; [exact E|exact E2].
Defined.

(** ** The instance *)

(** The record of the client in today's world, as one of the older version; a service that holds it; and
    a world in step with [w_open]. *)
Notation OldU := (OldUser (L := L0) (U := unit)).
Definition old_echo_user : OldU :=
  mkServiceUser (CB := plain_callbacks unit) None true false false (-1) 0 0 0%nat 0%nat 0%nat
    (replicate (Z.to_nat MSG_QUEUE_SIZE) None).
Notation OldS := (@Service L0 (@old_callbacks L0 unit)).
Notation OldW := (@World L0 (@old_callbacks L0 unit) (OldClient (L := L0))).
Definition s_old : OldS :=
  set_state ServiceState.OPEN
    ((Service_new (CB := @old_callbacks L0 unit)
      (mkServiceParams (CB := @old_callbacks L0 unit) echo (Some old_service_callback_closure)
        (Some old_echo_user) 3 3) 4096) <| localport := 0 |>).
Definition w_old_with (c : Completion (L := L0)) : OldW :=
  mkWorld (w_state w_open) [s_old] (w_hw w_open) 4097 (mkOldClient true (old_comp c) 0).
Notation w_old := (w_old_with Completion_default).

Lemma w_old_in_step : in_step 0 0 w_old w_open.
Proof.
  split.
  - exists s_old, old_echo_user, None. split; [reflexivity|]. split; [reflexivity|]. vm_compute. reflexivity.
  - exists s_open. split; reflexivity.
  - reflexivity.
  - reflexivity.
Qed.

Lemma old_queues_same_witness :
  in_step 0 0 w_old w_open /\
  calls_agree 0 0 eq (old_service_callback 0 MESSAGE_AVAILABLE message0 w_old)
    (service_callback MESSAGE_AVAILABLE (Some message0) 0 w_open).
Proof.
  split; [exact w_old_in_step|].
  exact (proj1 (old_queues_same 0 0 w_old w_open w_old_in_step) MESSAGE_AVAILABLE message0).
Defined.

Lemma old_completions_discarded_witness :
  exists c', old_completion_handler (w_old_with full_completions) =
      Ret (None, w_old_with c') /\
    comp_repr c' (replicate 120 (mkServiceCompletion MESSAGE_AVAILABLE None None)).
Proof.
  destruct (proj1 (old_completions_discarded (w_old_with full_completions) full_completions
    (replicate 128 (mkServiceCompletion MESSAGE_AVAILABLE None None)) eq_refl full_completions_repr)
    eq_refl ltac:(discriminate)) as (c' & E & Hc).
  exists c'. split; [exact E|exact Hc].
Defined.

Lemma w_old_handle : service_from_handle 4096 w_old = Ret (Ok 0%nat, w_old).
Proof.
  unfold service_from_handle, get_srv. rewrite !bind_gets.
  assert (find_handle (w_heap w_old) 4096 (services (srv_state (w_state w_old))) = Some 0%nat) as ->
    by (vm_compute; reflexivity).
  reflexivity.
Qed.

(** The quota of service 0 is all zero; -2 lifts it to 2^64 - 2. *)
Lemma set_slot_quota_spec_witness :
  exists w' sq', set_service_option 4096 SLOT_QUOTA (-2) w_old = Ret (Ok tt, w') /\
    slot_quota sq' = 2 ^ 64 - 2.
Proof.
  assert (exists sq, service_quotas (quota_state (w_state w_old)) !! 0%nat = Some sq /\ slot_use_count sq = 0)
    as (sq & Hq & Hu).
  { eexists. split; [vm_compute; reflexivity|vm_compute; reflexivity]. }
  assert (default_slot_quota (w_state w_old) = 15) as Hd by (vm_compute; reflexivity).
  destruct (set_slot_quota_spec w_old 4096 0 s_old sq (-2) w_old_handle eq_refl Hq ltac:(lia)
    ltac:(rewrite Hd; unfold usize_max; lia) ltac:(rewrite Hu; lia)) as (w' & sq' & E & _ & _ & Es & _).
  exists w', sq'. split; [exact E|exact Es].
Defined.
